(* ===== verification/_CoqProject ===== *)
-Q . S2P
Prelude.v
Hoare.v
PyFloat.v
PyStr.v
PyVal.v
PyParse.v
Regex.v
Tables.v
PyTime.v
JobContracts.v
JobRuntime.v
JobInvariant.v
JobTheorems.v
JobSpec.v
JobStore.v
SqlRuntime.v
JobStoreInvariant.v
SqlRefinement.v
MemoryRefinement.v
JobRefinement.v
JobSystems.v
IngestionContracts.v
ImportContract.v
JsonTheorems.v
Telemetry.v
ObjectContracts.v
ObjectService.v
ObjectLaws.v
ObjectTheory.v
ObjectStores.v
ObjectStoreLaws.v
ObjectTheorems.v
SilverSchema.v
DedupePolicy.v
ListingStore.v
SilverService.v
LakeInvariant.v
SilverTheorems.v
IngestionService.v
FileSource.v
IngestionTheorems.v
LakeSystem.v
AcceptedRecords.v
ImportFiles.v
RadarContracts.v
CriteriaContracts.v
Criteria.v
CriteriaRules.v
CriteriaTheorems.v
ScoringPolicy.v
ScoringEngine.v
Events.v
RadarPolicy.v
Database.v
RadarService.v
CriteriaStore.v
CriteriaService.v
CriteriaInvariant.v
CriteriaRuns.v
CriteriaSystem.v
CriteriaOutcomes.v
CriteriaExamples.v
ScoringService.v
ScoringFacts.v
ScoringTheorems.v
RadarInvariant.v
RadarTheorems.v
RadarRuns.v
RadarGaps.v
IdentityDomain.v
IdentityStore.v
IdentityAccess.v
IdentityInvariant.v
IdentityRuns.v
IdentityTheorems.v
Workers.v
WorkerHandlers.v
WorkerTheorems.v
