(* ===== verification/Prelude.v ===== *)
(** * Umbral: a verification library for the application core

    Umbral is a rental search service.  Portals deliver batches of listings, which are captured
    (Bronze), normalised and deduplicated (Silver), and matched against the search profiles of
    its users by the radar, which scores and publishes a run per profile version.  Durable jobs
    carry the work between the parts; an identity slice grants access by magic links.

    This library translates the application services, the policies they interpret and the
    repositories they store into, from [src/src/umbral], and proves what makes them correct.
    Names are those of the code; a name that Rocq or another module already uses has a
    prefix or a suffix ([process_import], [sql_claim], [quality_float]).

    ** Reading the model

    - A function that may raise is a [result]; an exception is a constructor of [exn] with the
      fields its callers read.  A function that appends to a list of error codes is [checked].
    - A method that reads and changes state is in the monad [M S]: from the world of fresh
      identifiers and clock readings and the state, a result and the state.  The state reached
      before an exception is kept.  A transaction of a repository is one definition, which
      returns the tables unchanged when it rolls back.
    - Instants and identifiers are integers; a JSON value is a [pyval]; a [dict] is an
      association list that keeps the order of insertion ([odict]); a table is a list of rows
      with a clash test for its unique constraints and a check ([Tables.insert_row]).
    - A float is a rational, an infinity or NaN, and every operation rounds to the nearest
      double ([PyFloat.rnd]); integers have no bound, as in Python.
    - Strings are sequences of characters below 256, so the text functions are exact for
      Latin-1; [casefold] and [isspace] beyond it are not modelled.
    - What is not in the repository is a parameter: SHA-256 ([HexDigest], [BytesDigest]), the
      rounding of NUMERIC columns ([NumericColumns]), [datetime.fromisoformat] ([IsoDates]), the
      message of an exception ([ErrorText]), the geocoder, the parser of import files
      ([ImportSource]), the size of a JSON document in the database ([JsonbSize]), the managed
      extraction and embedding models and the urban source (functions of how often they were
      asked), the mail and identity providers.

    ** Files

    - Foundations: this file (exceptions, results, the state monad, ordered dictionaries),
      [Hoare] (weakest preconditions), [PyFloat], [PyStr], [PyVal], [PyParse], [PyTime]
      (Python's floats, texts, JSON values, parsing of numbers, instants), [Tables], [Database].
    - Jobs ([application/jobs], [infrastructure/jobs], [repositories/jobs.py]): [JobContracts],
      [JobRuntime] (the in-memory runtime), [JobRuntime], [JobStore] and [SqlRuntime] (the
      PostgreSQL runtime), [JobSpec] (the abstract job machine).  [JobInvariant] and [JobTheorems]
      hold the invariant and the behaviour of the in-memory runtime, [JobStoreInvariant] that of
      the tables; [JobRefinement], [MemoryRefinement], [SqlRefinement] and [JobSystems] prove that
      both runtimes implement the specification, the second with any interleaving of the
      transactions of other processes, and that every job can finish.
    - Bronze ([application/ingestion]): [IngestionContracts], [ImportContract], [IngestionService],
      with [IngestionTheorems], [LakeSystem], [AcceptedRecords] and [AcceptedRecords].
    - Silver ([application/silver]): [IngestionContracts], [SilverSchema], [DedupePolicy],
      [ListingStore] (the tables of Bronze and Silver and their repositories), [SilverService],
      with [LakeInvariant] and [SilverTheorems].  The invariant [lake_inv] covers both layers and
      holds in every state that submissions, imports, normalisations and decisions reach.
    - Radar ([application/radar], [application/scoring], [application/events]):
      [RadarContracts], [RadarPolicy], [Database], [RadarService], [ScoringPolicy],
      [ScoringPolicy], [ScoringEngine], [ScoringEngine], [ScoringService], [Events];
      [RadarInvariant], [RadarTheorems], [RadarRuns], [RadarGaps], [ScoringFacts],
      [ScoringTheorems].
    - Criteria ([application/criteria], [workers/criteria.py]): [CriteriaContracts], [Criteria]
      (registry and compiler), [Regex] and [CriteriaRules] (the extraction rules and the checks
      on a model), [CriteriaStore] (the tables, next to those of the radar) and
      [CriteriaService]; [CriteriaTheorems] and [CriteriaRules] for the pure parts,
      [CriteriaInvariant] (each transaction keeps [criteria_inv]), [CriteriaRuns] and
      [CriteriaRuns] (what an extraction prepares and publishes), [CriteriaSystem] (every
      reachable state), [CriteriaOutcomes] (extraction and recomputation on every path) and
      [CriteriaExamples].
    - Identity ([application/identity], [domain/identity], [repositories/identity.py]):
      [IdentityDomain], [IdentityStore], [IdentityAccess]; [IdentityInvariant], [IdentityRuns],
      [IdentityTheorems].

    The radar reads the listings the Silver layer writes and submits jobs through the port
    [JobPort], which both job runtimes can stand behind; the ingestion submits jobs through the
    same port and keeps bytes in an [ObjectStore].

    ** Bounds and fuel

    Recursion is structural, or on the length of an input: the loops of the code run over lists
    and pages.  Nothing is left to a fuel that could run out.

    ** Not modelled

    Services run one method at a time; interleavings are modelled for the PostgreSQL job
    runtime, whose transactions take the commits of other processes as arguments, and for the
    magic-link flow, whose transactions are steps.  NaN in and overflow of NUMERIC columns,
    column lengths, foreign keys that the services cannot break, the optimistic version column of SQLAlchemy and details of error messages
    are left out.  HTTP routing, dependency wiring, configuration, telemetry, the clients of
    external services, migrations and the operation scripts hold no logic of the application
    core and are not translated. *)

From stdpp Require Export base option list strings gmap.
From Stdlib Require Export ZArith Lia Sorting.Permutation Sorting.Sorted.
#[global] Open Scope Z_scope.
#[global] Set Default Goal Selector "!".

(** ** Exceptions

    One constructor per exception class the modelled code raises: Python's own
    first, then the classes of [domain/errors.py] and of the [contracts.py]
    modules, with the fields the callers look at.  Messages are not modelled. *)

Inductive exn : Type :=
  | ValueError | TypeError | KeyError | IndexError | OverflowError
  | ZeroDivisionError | AttributeError | AssertionError
  (* domain/errors.py *)
  | ConcurrencyConflict (expected actual : option Z)
  (* application/radar/contracts.py *)
  | RadarValidationError (error_codes : list string)
  | RadarNotAccessible (profile_id : Z)
  | RadarStateError
  | RunNotFound (run_id : Z)
  | ListingNotAccessible (listing_id : Z)
  | RadarPermanentError (code : string)
  | RadarTransientError (code : string)
  (* application/scoring/contracts.py *)
  | ScoringValidationError (error_codes : list string)
  | ScoringNotFound | ScoringNotAccessible | ScoringStateError
  | ExplanationUnavailable
  | ComparisonNotInRadar (listing_id : Z)
  (* application/criteria/contracts.py *)
  | CriteriaValidationError (error_codes : list string)
  | CriteriaNotFound
  | SoftToHardRequiresConfirmation (concept_key : string)
  | CriteriaPermanentError (code : string)
  | CriteriaTransientError (code : string)
  (* application/silver/contracts.py *)
  | SilverPermanentError (code : string)
  | SilverTransientError (code : string)
  | SilverListingNotFound (listing_id : Z)
  | DedupeLinkNotFound (link_id : Z)
  | DedupeLinkStateError (link_id : Z)
  (* application/ingestion/contracts.py *)
  | BatchRejected (code : string)
  | IngestionPermanentError (code : string)
  | IngestionTransientError (code : string)
  | ImportRunNotFound (run_id : Z)
  | RunNotTerminalError (run_id : Z)
  (* application/objects/contracts.py *)
  | ObjectVersionConflict | ObjectIntegrityError | ObjectNotFound
  | ObjectStateError
  (* application/jobs/contracts.py; retry_after in whole microseconds *)
  | TransientJobError (code : string) (retry_after : option Z)
  | PermanentJobError (code : string)
  (* application/identity/contracts.py *)
  | IdentityError (code : string) (status : Z) (recovery : string)
  (* any other exception *)
  | OtherError (name : string).

#[export] Instance exn_eq_dec : EqDecision exn.
Proof. solve_decision. Defined.

(** ** Fallible computations *)

Inductive result (A : Type) : Type :=
  | Ok (a : A)
  | Raise (e : exn).
Arguments Ok {A} _.
Arguments Raise {A} _.

#[export] Instance result_ret : MRet result := fun A a => Ok a.
#[export] Instance result_bind : MBind result := fun A B f r =>
  match r with Ok a => f a | Raise e => Raise e end.

Definition is_ok {A} (r : result A) : bool :=
  match r with Ok _ => true | Raise _ => false end.

(** Computations that append error codes to a list that the caller owns, and may raise *)
Definition checked (A : Type) : Type := list string -> result (A * list string).

#[export] Instance checked_ret : MRet checked := fun A a errors => Ok (a, errors).
#[export] Instance checked_bind : MBind checked := fun A B f m errors =>
  match m errors with
  | Ok (a, errors') => f a errors'
  | Raise e => Raise e
  end.
Definition emit (code : string) : checked unit := fun errors => Ok (tt, errors ++ [code]).
Definition emit_if (b : bool) (code : string) : checked unit :=
  if b then emit code else mret tt.
Definition pure {A} (r : result A) : checked A := fun errors =>
  match r with Ok a => Ok (a, errors) | Raise e => Raise e end.

(** [for x in l: acc = f acc x] over a fallible or checked body *)
Fixpoint fold_checked {A B} (f : B -> A -> checked B) (acc : B) (l : list A) : checked B :=
  match l with
  | [] => mret acc
  | x :: l' => b ← f acc x; fold_checked f b l'
  end.
Fixpoint fold_result {A B} (f : B -> A -> result B) (acc : B) (l : list A) : result B :=
  match l with
  | [] => Ok acc
  | x :: l' => b ← f acc x; fold_result f b l'
  end.
Fixpoint map_result {A B} (f : A -> result B) (l : list A) : result (list B) :=
  match l with
  | [] => Ok []
  | x :: l' => y ← f x; ys ← map_result f l'; Ok (y :: ys)
  end.

(** ** Stateful computations

    A Python method that mutates its object and may raise: the state at the
    point of the [raise] is kept, as nothing undoes the mutations made so far.
    [world] supplies what [uuid4()] and [clock()] return: the n-th value drawn
    is [uuid_at n], [time_at n]. *)

Record world := World { uuid_at : nat -> Z; time_at : nat -> Z }.

Record sys (S : Type) := Sys { state_of : S; drawn : nat; ticks : nat }.
Arguments Sys {S} _ _ _.
Arguments state_of {S} _.
Arguments drawn {S} _.
Arguments ticks {S} _.

Definition M (S A : Type) : Type := world -> sys S -> result A * sys S.

#[export] Instance M_ret S : MRet (M S) := fun A a _ s => (Ok a, s).
#[export] Instance M_bind S : MBind (M S) := fun A B f m w s =>
  match m w s with
  | (Ok a, s') => f a w s'
  | (Raise e, s') => (Raise e, s')
  end.

Definition raise {S A} (e : exn) : M S A := fun _ s => (Raise e, s).
Definition get {S} : M S S := fun _ s => (Ok (state_of s), s).
Definition put {S} (x : S) : M S unit :=
  fun _ s => (Ok tt, Sys x (drawn s) (ticks s)).
Definition modify {S} (f : S -> S) : M S unit :=
  fun _ s => (Ok tt, Sys (f (state_of s)) (drawn s) (ticks s)).
Definition lift {S A} (r : result A) : M S A := fun _ s => (r, s).
Definition gets {S A} (f : S -> A) : M S A := fun w s => (Ok (f (state_of s)), s).

(** [uuid4()] and [clock()]. *)
Definition uuid4 {S} : M S Z :=
  fun w s => (Ok (uuid_at w (drawn s)), Sys (state_of s) (Datatypes.S (drawn s)) (ticks s)).
Definition clock {S} : M S Z :=
  fun w s => (Ok (time_at w (ticks s)), Sys (state_of s) (drawn s) (Datatypes.S (ticks s))).

(** A computation on a part of the state *)
Definition zoom {S T A} (part : S -> T) (store : T -> S -> S) (m : M T A) : M S A := fun w s =>
  let '(r, s') := m w (Sys (part (state_of s)) (drawn s) (ticks s)) in
  (r, Sys (store (state_of s') (state_of s)) (drawn s') (ticks s')).

(** A sequence that succeeds is a sequence of successes. *)
Lemma M_bind_Ok {S A B} (m : M S A) (f : A -> M S B) w s b s' :
  mbind f m w s = (Ok b, s') -> exists a s1, m w s = (Ok a, s1) /\ f a w s1 = (Ok b, s').
Proof.
  unfold mbind, M_bind. destruct (m w s) as [[a|e] s1]; [|done]. intros H. by exists a, s1.
Qed.

Lemma M_bind_run {S A B} (m : M S A) (f : A -> M S B) w s a s1 :
  m w s = (Ok a, s1) -> mbind f m w s = f a w s1.
Proof. unfold mbind, M_bind. by intros ->. Qed.

Lemma M_bind_raise {S A B} (m : M S A) (f : A -> M S B) w s e s1 :
  m w s = (Raise e, s1) -> mbind f m w s = (Raise e, s1).
Proof. unfold mbind, M_bind. by intros ->. Qed.

Lemma gets_Ok {S A} (f : S -> A) w s a s' : gets f w s = (Ok a, s') -> a = f (state_of s) /\ s' = s.
Proof. by intros [= <- <-]. Qed.

Lemma lift_Ok {S A} (r : result A) w (s : sys S) a s' : lift r w s = (Ok a, s') -> r = Ok a /\ s' = s.
Proof. by intros [= -> <-]. Qed.

Lemma modify_Ok {S} (f : S -> S) w s u s' : modify f w s = (Ok u, s') ->
  s' = Sys (f (state_of s)) (drawn s) (ticks s).
Proof. by intros [= _ <-]. Qed.

(** The value of a run that is known to succeed *)
Definition ok_or {A} (d : A) (r : result A) : A := match r with Ok a => a | Raise _ => d end.

Lemma run_ok {S A} (d : A) (m : M S A) w s :
  is_ok (m w s).1 = true -> m w s = (Ok (ok_or d (m w s).1), (m w s).2).
Proof. by destruct (m w s) as [[a|e] s1]. Qed.

Lemma run_ok_some {S A} (d : A) (m : M S (option A)) w s :
  (match (m w s).1 with Ok (Some _) => true | _ => false end) = true ->
  m w s = (Ok (Some (default d (ok_or None (m w s).1))), (m w s).2).
Proof. by destruct (m w s) as [[[a|]|e] s1]. Qed.

Lemma result_bind_Ok {A B} (m : result A) (f : A -> result B) b :
  mbind f m = Ok b -> exists a, m = Ok a /\ f a = Ok b.
Proof. destruct m as [a|e]; [|done]. intros H. by exists a. Qed.

Lemma checked_bind_Ok {A B} (m : checked A) (f : A -> checked B) errors b errors' :
  mbind f m errors = Ok (b, errors') ->
  exists a errors1, m errors = Ok (a, errors1) /\ f a errors1 = Ok (b, errors').
Proof.
  unfold mbind, checked_bind. destruct (m errors) as [[a errors1]|e]; [|done].
  intros H. by exists a, errors1.
Qed.

(** Opens every bind of a successful run. *)
Ltac inv_bind :=
  repeat match goal with
  | H : mbind _ _ _ _ = (Ok _, _) |- _ => apply M_bind_Ok in H as (? & ? & ? & H)
  | H : mbind _ _ _ = Ok (_, _) |- _ => apply checked_bind_Ok in H as (? & ? & ? & H)
  | H : mbind _ _ = Ok _ |- _ => apply result_bind_Ok in H as (? & ? & H)
  end.

(** [try: m / except Exception as e: h e] *)
Definition try_except {S A} (m : M S A) (h : exn -> M S A) : M S A :=
  fun w s => match m w s with
             | (Ok a, s') => (Ok a, s')
             | (Raise e, s') => h e w s'
             end.

(** ** Insertion-ordered dictionaries

    Python's [dict]: iteration follows the order of first insertion, a new
    value for an existing key keeps the key's place. *)

Abbreviation odict K V := (list (K * V)) (only parsing).

Section odict.
Context {K V : Type} `{EqDecision K}.

Fixpoint oget (k : K) (d : odict K V) : option V :=
  match d with
  | [] => None
  | (k', v) :: d' => if decide (k = k') then Some v else oget k d'
  end.

Fixpoint oset (k : K) (v : V) (d : odict K V) : odict K V :=
  match d with
  | [] => [(k, v)]
  | (k', v') :: d' => if decide (k = k') then (k, v) :: d' else (k', v') :: oset k v d'
  end.

Definition okeys (d : odict K V) : list K := d.*1.
Definition ovalues (d : odict K V) : list V := d.*2.
Definition omem (k : K) (d : odict K V) : bool := bool_decide (is_Some (oget k d)).

(** [dict(pairs)] and [a.update(b)]. *)
Definition oupdate (d e : odict K V) : odict K V :=
  foldl (fun acc kv => oset kv.1 kv.2 acc) d e.

Lemma oget_oset_eq k v d : oget k (oset k v d) = Some v.
Proof.
  induction d as [|[k' v'] d IH]; simpl; [by rewrite decide_True|].
  destruct (decide (k = k')) as [->|?]; simpl;
    [by rewrite decide_True | by rewrite decide_False].
Qed.

Lemma oget_oset_ne k k' v d : k <> k' -> oget k' (oset k v d) = oget k' d.
Proof.
  intros Hne. induction d as [|[a b] d IH]; simpl; [by rewrite decide_False|].
  destruct (decide (k = a)) as [->|?]; simpl; [by rewrite !decide_False|].
  by rewrite IH.
Qed.

Lemma oget_oset k k' v d :
  oget k' (oset k v d) = if decide (k = k') then Some v else oget k' d.
Proof.
  case_decide; subst; [apply oget_oset_eq | by apply oget_oset_ne].
Qed.

Lemma oget_Some_elem k v d : oget k d = Some v -> (k, v) ∈ d.
Proof.
  induction d as [|[a b] d IH]; simpl; [done|].
  destruct (decide (k = a)) as [->|?]; intros; simplify_eq; set_solver.
Qed.

Lemma oget_None k d : oget k d = None <-> k ∉ okeys d.
Proof.
  unfold okeys. induction d as [|[a b] d IH]; simpl; [set_solver|].
  destruct (decide (k = a)) as [->|?]; set_solver.
Qed.

Lemma oget_elem_NoDup k v d : NoDup (okeys d) -> (k, v) ∈ d -> oget k d = Some v.
Proof.
  unfold okeys. induction d as [|[a b] d IH]; simpl; [set_solver|].
  intros [Ha Hnd]%NoDup_cons [?|Hin]%elem_of_cons; simplify_eq.
  - by rewrite decide_True.
  - rewrite decide_False; [by apply IH|].
    intros ->. apply Ha. by apply (list_elem_of_fmap_2 fst _ (a, v)).
Qed.

Lemma elem_okeys_oset k k' v d : k' ∈ okeys (oset k v d) <-> k' = k \/ k' ∈ okeys d.
Proof.
  unfold okeys. induction d as [|[a b] d IH]; simpl; [set_solver|].
  destruct (decide (k = a)) as [->|?]; set_solver.
Qed.

Lemma NoDup_oset k v d : NoDup (okeys d) -> NoDup (okeys (oset k v d)).
Proof.
  induction d as [|[a b] d IH]; intros Hnd.
  - repeat constructor. set_solver.
  - simpl in *. apply NoDup_cons in Hnd as [Ha Hnd].
    destruct (decide (k = a)) as [->|?]; simpl; apply NoDup_cons; [done|].
    split; [|by apply IH].
    intros Hin. apply (elem_okeys_oset k a v d) in Hin as [?|?]; subst; done.
Qed.

(** Overwriting an existing key changes no other entry and no position. *)
Lemma okeys_oset_mem k v d : k ∈ okeys d -> okeys (oset k v d) = okeys d.
Proof.
  unfold okeys. induction d as [|[a b] d IH]; simpl; [set_solver|].
  intros Hin. destruct (decide (k = a)) as [->|?]; simpl; [done|].
  f_equal. apply IH. set_solver.
Qed.

Lemma oset_fresh k v d : k ∉ okeys d -> oset k v d = d ++ [(k, v)].
Proof.
  unfold okeys. induction d as [|[a b] d IH]; simpl; [done|].
  intros Hin. rewrite decide_False by set_solver. rewrite IH; set_solver.
Qed.

Lemma elem_oset k v d k' v' :
  NoDup (okeys d) -> (k', v') ∈ oset k v d ->
  (k' = k /\ v' = v) \/ (k' <> k /\ (k', v') ∈ d).
Proof.
  intros Hnd Hin. apply oget_elem_NoDup in Hin; [|by apply NoDup_oset].
  rewrite oget_oset in Hin. case_decide; simplify_eq; [auto|].
  right. split; [done|]. by apply oget_Some_elem.
Qed.

Lemma elem_okeys_oupdate k (d e : odict K V) :
  k ∈ okeys (oupdate d e) <-> k ∈ okeys d \/ k ∈ okeys e.
Proof.
  unfold oupdate. revert d. induction e as [|[k' v] e IH]; intros d; simpl.
  - unfold okeys. simpl. set_solver.
  - rewrite IH, elem_okeys_oset. unfold okeys. simpl. set_solver.
Qed.

(** The rows of a table keyed by one of their fields *)
Lemma oget_ovalues (key_of : V -> K) (d : odict K V) v :
  NoDup (okeys d) -> (forall k x, oget k d = Some x -> key_of x = k) ->
  v ∈ ovalues d -> oget (key_of v) d = Some v.
Proof.
  intros Hnd Hkey Hv. unfold ovalues in Hv. apply list_elem_of_fmap in Hv as ([k x] & -> & Hin).
  simpl. apply oget_elem_NoDup in Hin; [|done]. by rewrite (Hkey k x Hin).
Qed.

Lemma oget_in_ovalues (d : odict K V) k v : oget k d = Some v -> v ∈ ovalues d.
Proof.
  intros Hin%oget_Some_elem. unfold ovalues. apply list_elem_of_fmap. by exists (k, v).
Qed.

(** Filtering the keys by their values is filtering the values. *)
Lemma length_filter_keys (f : V -> bool) d : NoDup (okeys d) ->
  length (filter (fun k => default false (f <$> oget k d)) (okeys d))
  = length (List.filter f (ovalues d)).
Proof.
  intros Hnd. unfold okeys, ovalues.
  assert (Hl : Forall (fun kv => oget kv.1 d = Some kv.2) d).
  { apply Forall_forall. intros [k v] Hin. by apply oget_elem_NoDup. }
  assert (Hgen : forall l, Forall (fun kv => oget kv.1 d = Some kv.2) l ->
    length (filter (fun k => default false (f <$> oget k d)) l.*1) = length (List.filter f l.*2));
    [|by apply Hgen].
  clear Hl. induction l as [|[k v] l IH]; intros Hl; [done|].
  apply Forall_cons in Hl as [Hk Hl]. simpl in Hk. specialize (IH Hl). csimpl.
  destruct (f v) eqn:E.
  - rewrite filter_cons_True; [simpl; by rewrite IH|]. rewrite Hk. simpl. by rewrite E.
  - rewrite filter_cons_False; [done|]. rewrite Hk. simpl. rewrite E. by intros [].
Qed.
End odict.

(** ** Stable sorting

    [list.sort(key=...)] for a strict comparison [ltb] of the keys: a stable
    insertion sort, which is what any stable sort computes when [ltb] is a
    strict weak order. *)

Section sorting.
Context {A : Type} (ltb : A -> A -> bool).

Fixpoint insert_by (x : A) (l : list A) : list A :=
  match l with
  | [] => [x]
  | y :: l' => if ltb x y then x :: y :: l' else y :: insert_by x l'
  end.

Definition sort_by (l : list A) : list A := foldl (fun acc x => insert_by x acc) [] l.

(** No later element is strictly before an earlier one. *)
Definition in_order (x y : A) : Prop := ltb y x = false.

Lemma insert_by_perm x l : Permutation (insert_by x l) (x :: l).
Proof.
  induction l as [|y l IH]; simpl; [done|].
  destruct (ltb x y); [done|]. rewrite IH. apply perm_swap.
Qed.

Lemma foldl_insert_perm l acc :
  Permutation (foldl (fun acc x => insert_by x acc) acc l) (l ++ acc).
Proof.
  revert acc. induction l as [|x l IH]; intros acc; simpl; [done|].
  rewrite IH, insert_by_perm. symmetry. apply Permutation_middle.
Qed.

Lemma sort_by_perm l : Permutation (sort_by l) l.
Proof. unfold sort_by. by rewrite foldl_insert_perm, app_nil_r. Qed.

Lemma elem_sort_by x l : x ∈ sort_by l <-> x ∈ l.
Proof. by rewrite sort_by_perm. Qed.

Lemma length_sort_by l : length (sort_by l) = length l.
Proof. by rewrite sort_by_perm. Qed.

Section order.
Variable P : A -> Prop.
Hypothesis irrefl : forall x, P x -> ltb x x = false.
Hypothesis asym : forall x y, P x -> P y -> ltb x y = true -> ltb y x = false.
Hypothesis ntrans : forall x y z, P x -> P y -> P z ->
  ltb x y = false -> ltb y z = false -> ltb x z = false.

Lemma insert_by_sorted x l :
  P x -> Forall P l -> StronglySorted in_order l -> StronglySorted in_order (insert_by x l).
Proof.
  intros Hx Hl Hs. induction Hs as [|y l Hs IH Hy]; simpl; [repeat constructor|].
  apply Forall_cons in Hl as [HPy Hl].
  destruct (ltb x y) eqn:Hxy.
  - constructor; [by constructor|].
    constructor; [by apply asym|].
    apply Forall_forall. intros z Hz. unfold in_order.
    rewrite Forall_forall in Hy, Hl. apply (ntrans z y x);
      [by apply Hl | done | done | by apply Hy | by apply asym].
  - constructor; [by apply IH|].
    rewrite insert_by_perm. constructor; [done|done].
Qed.

Lemma sort_by_sorted l : Forall P l -> StronglySorted in_order (sort_by l).
Proof.
  unfold sort_by.
  assert (Hgen : forall acc, Forall P acc -> StronglySorted in_order acc ->
    Forall P l -> StronglySorted in_order (foldl (fun acc x => insert_by x acc) acc l)).
  { induction l as [|x l IH]; intros acc Hacc Hs Hl; simpl; [done|].
    apply Forall_cons in Hl as [Hx Hl]. apply IH; [|by apply insert_by_sorted|done].
    rewrite insert_by_perm. by constructor. }
  intros Hl. apply Hgen; [constructor|constructor|done].
Qed.
End order.
End sorting.

Lemma sort_by_ext {A} (f g : A -> A -> bool) l : (forall a b, f a b = g a b) -> sort_by f l = sort_by g l.
Proof.
  intros Hfg. unfold sort_by. generalize (@nil A). induction l as [|x l IH]; intros acc; [done|].
  simpl. rewrite IH. f_equal. clear IH.
  induction acc as [|y acc IH]; simpl; [done|]. by rewrite Hfg, IH.
Qed.

(** [enumerate(l)] *)
Fixpoint enumerate_from {A} (n : Z) (l : list A) : list (Z * A) :=
  match l with
  | [] => []
  | x :: l' => (n, x) :: enumerate_from (n + 1) l'
  end.
Definition enumerate {A} (l : list A) : list (Z * A) := enumerate_from 0 l.

Lemma lookup_enumerate_from {A} (l : list A) n i :
  enumerate_from n l !! i = (fun x => (n + Z.of_nat i, x)) <$> l !! i.
Proof.
  revert n i. induction l as [|x l IH]; intros n [|i]; simpl; try done.
  - by rewrite Z.add_0_r.
  - rewrite IH. destruct (l !! i); simpl; [|done]. do 2 f_equal. lia.
Qed.

Lemma length_enumerate_from {A} (l : list A) n : length (enumerate_from n l) = length l.
Proof. revert n. induction l; intros; simpl; auto. Qed.

(** [next((x for x in l if f x), None)] *)
Fixpoint find_first {A} (f : A -> bool) (l : list A) : option A :=
  match l with
  | [] => None
  | x :: l' => if f x then Some x else find_first f l'
  end.

Lemma find_first_Some {A} (f : A -> bool) l x :
  find_first f l = Some x -> x ∈ l /\ f x = true.
Proof.
  induction l as [|y l IH]; simpl; [done|].
  destruct (f y) eqn:?; intros; simplify_eq; [set_solver|]. destruct IH; set_solver.
Qed.

Lemma find_first_None {A} (f : A -> bool) l :
  find_first f l = None <-> Forall (fun x => f x = false) l.
Proof.
  induction l as [|y l IH]; simpl; [by split|].
  rewrite Forall_cons. destruct (f y) eqn:?; [naive_solver|]. rewrite IH. naive_solver.
Qed.

Lemma existsb_false_Forall {A} (f : A -> bool) l :
  existsb f l = false <-> Forall (fun x => f x = false) l.
Proof.
  induction l as [|x l IH]; simpl; [by split|].
  rewrite orb_false_iff, Forall_cons, IH. done.
Qed.

(** ** Automation *)

(** Inverts the equations a run of the monad leaves behind. *)
Ltac inv_m :=
  repeat match goal with
  | H : (_, _) = (_, _) |- _ => injection H as ??; subst
  | H : Ok _ = Ok _ |- _ => injection H as ?; subst
  | H : Raise _ = Raise _ |- _ => injection H as ?; subst
  | H : Ok _ = Raise _ |- _ => discriminate H
  | H : Raise _ = Ok _ |- _ => discriminate H
  end.

(** Splits every match and [if] on a variable-free scrutinee, keeping equations. *)
Ltac split_ifs :=
  repeat (case_match; simplify_eq/=).

Create HintDb umbral.
#[export] Hint Resolve oget_oset_eq oget_Some_elem NoDup_oset : umbral.
#[export] Hint Rewrite @oget_oset_eq : umbral.
