(* ===== verification/Hoare.v ===== *)
(** * Weakest preconditions

    What holds after a stateful computation, whether it returns or raises, from what holds
    after its parts: one rule per construct, and [wp_steps], which applies them to the
    constructs that only read or draw. *)

From S2P Require Export Prelude.

Definition wp {S A} (m : M S A) (w : world) (s : sys S) (Q : result A -> sys S -> Prop) : Prop :=
  let '(r, s') := m w s in Q r s'.

Section wp.
Context {S : Type}.

(** What a run does satisfies its weakest precondition. *)
Lemma wp_run {A} (m : M S A) w s (Q : result A -> sys S -> Prop) r s' :
  wp m w s Q -> m w s = (r, s') -> Q r s'.
Proof. unfold wp. by intros H E; rewrite E in H. Qed.

Lemma wp_mono {A} (m : M S A) w s (Q Q' : result A -> sys S -> Prop) :
  wp m w s Q -> (forall r s', Q r s' -> Q' r s') -> wp m w s Q'.
Proof. unfold wp. destruct (m w s) as [r s']. auto. Qed.

Lemma wp_ret {A} (a : A) w s (Q : result A -> sys S -> Prop) : Q (Ok a) s -> wp (mret a) w s Q.
Proof. done. Qed.

Lemma wp_raise {A} e w s (Q : result A -> sys S -> Prop) : Q (Raise e) s -> wp (raise e) w s Q.
Proof. done. Qed.

Lemma wp_bind {A B} (m : M S A) (f : A -> M S B) w s (Q : result B -> sys S -> Prop) :
  wp m w s (fun r s' => match r with Ok a => wp (f a) w s' Q | Raise e => Q (Raise e) s' end) ->
  wp (mbind f m) w s Q.
Proof. unfold wp, mbind, M_bind. by destruct (m w s) as [[a|e] s']. Qed.

Lemma wp_gets {A B} (g : S -> A) (f : A -> M S B) w s (Q : result B -> sys S -> Prop) :
  wp (f (g (state_of s))) w s Q -> wp (mbind f (gets g)) w s Q.
Proof. done. Qed.

Lemma wp_get {B} (f : S -> M S B) w s (Q : result B -> sys S -> Prop) :
  wp (f (state_of s)) w s Q -> wp (mbind f get) w s Q.
Proof. done. Qed.

Lemma wp_uuid4 {B} (f : Z -> M S B) w s (Q : result B -> sys S -> Prop) :
  wp (f (uuid_at w (drawn s))) w (Sys (state_of s) (Datatypes.S (drawn s)) (ticks s)) Q ->
  wp (mbind f uuid4) w s Q.
Proof. done. Qed.

Lemma wp_clock {B} (f : Z -> M S B) w s (Q : result B -> sys S -> Prop) :
  wp (f (time_at w (ticks s))) w (Sys (state_of s) (drawn s) (Datatypes.S (ticks s))) Q ->
  wp (mbind f clock) w s Q.
Proof. done. Qed.

Lemma wp_lift {A B} (r : result A) (f : A -> M S B) w s (Q : result B -> sys S -> Prop) :
  (forall a, r = Ok a -> wp (f a) w s Q) -> (forall e, r = Raise e -> Q (Raise e) s) ->
  wp (mbind f (lift r)) w s Q.
Proof. destruct r; intros HO HR; [exact (HO a eq_refl)|exact (HR e eq_refl)]. Qed.

Lemma wp_try {A} (m : M S A) (h : exn -> M S A) w s (Q : result A -> sys S -> Prop) :
  wp m w s (fun r s' => match r with Ok a => Q (Ok a) s' | Raise e => wp (h e) w s' Q end) ->
  wp (try_except m h) w s Q.
Proof. unfold wp, try_except. by destruct (m w s) as [[a|e] s']. Qed.

Lemma wp_zoom {T A} (part : S -> T) (store : T -> S -> S) (m : M T A) w s (Q : result A -> sys S -> Prop) :
  @wp T A m w (Sys (part (state_of s)) (drawn s) (ticks s))
    (fun r s' => Q r (Sys (store (state_of s') (state_of s)) (drawn s') (ticks s'))) ->
  wp (zoom part store m) w s Q.
Proof. unfold wp, zoom. by destruct (m w _) as [r s']. Qed.

(** What a part does that is not known leaves the rest of the state. *)
Lemma wp_zoom_any {T A} (part : S -> T) (store : T -> S -> S) (m : M T A) w s (Q : result A -> sys S -> Prop) :
  (forall r x n t, Q r (Sys (store x (state_of s)) n t)) -> wp (zoom part store m) w s Q.
Proof. intros HQ. apply wp_zoom. unfold wp. destruct (m w _) as [r s']. apply HQ. Qed.

Lemma wp_put (x : S) w s (Q : result unit -> sys S -> Prop) :
  Q (Ok tt) (Sys x (drawn s) (ticks s)) -> wp (put x) w s Q.
Proof. done. Qed.
End wp.

(** Steps through what reads the state, draws an identifier or asks the time. *)
Ltac wp_step :=
  lazymatch goal with
  | |- wp (mret _) _ _ _ => apply wp_ret
  | |- wp (raise _) _ _ _ => apply wp_raise
  | |- wp (put _) _ _ _ => apply wp_put
  | |- wp (mbind _ (gets _)) _ _ _ => apply wp_gets
  | |- wp (mbind _ get) _ _ _ => apply wp_get
  | |- wp (mbind _ uuid4) _ _ _ => apply wp_uuid4
  | |- wp (mbind _ clock) _ _ _ => apply wp_clock
  | |- wp (mbind _ (lift _)) _ _ _ => apply wp_lift; [intros ? ?|intros ? ?]
  | |- wp (mbind _ _) _ _ _ => apply wp_bind
  end; cbv beta.

(** * What a computation may do to the state

    [moves R m]: whatever [m] returns or raises, it takes a state to one that [R] allows.  For a
    reflexive and transitive [R] there is one rule per construct. *)
Definition moves {S A} (R : world -> sys S -> sys S -> Prop) (m : M S A) : Prop := forall w s, R w s (m w s).2.

Class StateOrder {S} (R : world -> sys S -> sys S -> Prop) := {
  order_refl w s : R w s s;
  order_trans w s1 s2 s3 : R w s1 s2 -> R w s2 s3 -> R w s1 s3
}.

Section moves.
Context {S : Type} (R : world -> sys S -> sys S -> Prop) `{StateOrder S R}.

Lemma moves_ret {A} (a : A) : moves R (mret a).
Proof. intros w s. apply order_refl. Qed.
Lemma moves_raise {A} e : moves R (@raise S A e).
Proof. intros w s. apply order_refl. Qed.
Lemma moves_lift {A} (r : result A) : moves R (@lift S A r).
Proof. intros w s. apply order_refl. Qed.
Lemma moves_gets {A} (f : S -> A) : moves R (gets f).
Proof. intros w s. apply order_refl. Qed.
Lemma moves_get : moves R (@get S).
Proof. intros w s. apply order_refl. Qed.

Lemma moves_bind {A B} (m : M S A) (f : A -> M S B) :
  moves R m -> (forall a, moves R (f a)) -> moves R (mbind f m).
Proof.
  intros Hm Hf w s. pose proof (Hm w s) as H1. unfold mbind, M_bind.
  destruct (m w s) as [[a|e] s1]; [|exact H1]. eapply order_trans; [exact H1|apply Hf].
Qed.

Lemma moves_try {A} (m : M S A) (h : exn -> M S A) :
  moves R m -> (forall e, moves R (h e)) -> moves R (try_except m h).
Proof.
  intros Hm Hh w s. pose proof (Hm w s) as H1. unfold try_except.
  destruct (m w s) as [[a|e] s1]; [exact H1|]. eapply order_trans; [exact H1|apply Hh].
Qed.

(** What an operation has done, once it has returned *)
Lemma moves_run {A} (m : M S A) w s r s' : moves R m -> m w s = (r, s') -> R w s s'.
Proof. intros Hm E. pose proof (Hm w s) as H1. by rewrite E in H1. Qed.
End moves.

(** Closes the steps that leave the state alone, and splits the others. *)
Ltac moves_step :=
  lazymatch goal with
  | |- moves _ (mret _) => apply moves_ret; exact _
  | |- moves _ (raise _) => apply moves_raise; exact _
  | |- moves _ (lift _) => apply moves_lift; exact _
  | |- moves _ (gets _) => apply moves_gets; exact _
  | |- moves _ get => apply moves_get; exact _
  | |- moves _ (mbind _ _) => apply moves_bind; [exact _| |intros ?]
  | |- moves _ (try_except _ _) => apply moves_try; [exact _| |intros ?]
  end.
