(* ===== verification/PyFloat.v ===== *)
(** * Python floats

    IEEE-754 binary64 values and the operations the application performs on
    them.  A finite double is its exact rational value ([FFin]); every
    operation is the exact rational operation followed by [rnd], rounding to
    the nearest double with ties to even.  The sign of zero is not
    represented: no modelled operation observes it.  The second half proves
    the facts the scoring components use: [rnd] is monotone and leaves exactly
    representable values alone, comparisons are the comparisons of the values,
    and [round(x, n)] keeps intervals with representable bounds. *)

From S2P Require Export Prelude.
From Stdlib Require Export QArith.
From Stdlib Require Import Qpower Qround Qabs Lqa.
#[global] Open Scope Z_scope.

Inductive float : Type :=
  | FNan
  | FInf (neg : bool)
  | FFin (q : Q).

(** ** Rounding *)

(** Nearest integer to [n / d], ties to even. *)
Definition rhe (q : Q) : Z :=
  let n := Qnum q in let d := Zpos (Qden q) in
  let z := n / d in let r := n mod d in
  if 2 * r <? d then z
  else if d <? 2 * r then z + 1
  else if Z.even z then z else z + 1.

(** [2 ^ e] and [10 ^ e] for any integer [e]. *)
Definition pow2 (e : Z) : Q := Qpower 2 e.
Definition pow10 (e : Z) : Q := Qpower 10 e.

(** Floor of the base-2 logarithm of a positive rational. *)
Definition qlog2 (q : Q) : Z :=
  let l := Z.log2 (Qnum q) - Z.log2 (Zpos (Qden q)) in
  if Qle_bool (pow2 l) q then l else l - 1.

(** Exponent of the last place of the double nearest to [q]: 53-bit
    significands, no exponent below -1074. *)
Definition ulp_exp (q : Q) : Z := Z.max (qlog2 (Qabs q) - 52) (-1074).

Definition rnd_fin (q : Q) : Q :=
  if Qeq_bool q 0 then 0%Q
  else let e := ulp_exp q in (inject_Z (rhe (q * pow2 (- e))) * pow2 e)%Q.

(** Round to nearest, overflowing to infinity at 2^1024. *)
Definition rnd (q : Q) : float :=
  let r := rnd_fin q in
  if Qle_bool (pow2 1024) r then FInf false
  else if Qle_bool r (- pow2 1024) then FInf true
  else FFin r.

(** The double a decimal literal [n / d] of the source denotes. *)
Definition flit (n : Z) (d : positive) : float := rnd (n # d).

(** [float(z)] for a Python int: OverflowError outside the double range. *)
Definition float_of_int (z : Z) : result float :=
  match rnd (inject_Z z) with FInf _ => Raise OverflowError | f => Ok f end.

(** ** Comparisons: false as soon as one side is a NaN *)

Definition fltb (a b : float) : bool :=
  match a, b with
  | FNan, _ | _, FNan => false
  | FFin x, FFin y => negb (Qle_bool y x)
  | FInf true, FInf true => false
  | FInf true, _ => true
  | _, FInf false => match a with FInf false => false | _ => true end
  | _, _ => false
  end.

Definition feqb (a b : float) : bool :=
  match a, b with
  | FFin x, FFin y => Qeq_bool x y
  | FInf s, FInf t => Bool.eqb s t
  | _, _ => false
  end.

Definition fleb (a b : float) : bool := fltb a b || feqb a b.

(** [max(a, b)] and [min(a, b)]: the first argument unless the second is
    strictly better, which decides what happens with a NaN. *)
Definition fmax (a b : float) : float := if fltb a b then b else a.
Definition fmin (a b : float) : float := if fltb b a then b else a.

(** ** Arithmetic *)

Definition fneg (a : float) : float :=
  match a with FNan => FNan | FInf s => FInf (negb s) | FFin x => FFin (- x)%Q end.

Definition fadd (a b : float) : float :=
  match a, b with
  | FNan, _ | _, FNan => FNan
  | FFin x, FFin y => rnd (x + y)%Q
  | FInf s, FInf t => if Bool.eqb s t then FInf s else FNan
  | FInf s, FFin _ | FFin _, FInf s => FInf s
  end.

Definition fsub (a b : float) : float := fadd a (fneg b).

Definition fsign (a : float) : comparison :=
  match a with
  | FNan => Eq
  | FInf s => if s then Lt else Gt
  | FFin x => Qcompare x 0
  end.

Definition fmul (a b : float) : float :=
  match a, b with
  | FNan, _ | _, FNan => FNan
  | FFin x, FFin y => rnd (x * y)%Q
  | _, _ =>
      match fsign a, fsign b with
      | Eq, _ | _, Eq => FNan
      | Lt, Lt | Gt, Gt => FInf false
      | _, _ => FInf true
      end
  end.

(** [a / b]: Python raises on a zero divisor. *)
Definition fdiv (a b : float) : result float :=
  match a, b with
  | _, FFin y =>
      if Qeq_bool y 0 then Raise ZeroDivisionError
      else match a with
           | FNan => Ok FNan
           | FInf s => Ok (FInf (xorb s (negb (Qle_bool 0 y))))
           | FFin x => Ok (rnd (x / y)%Q)
           end
  | FNan, _ | _, FNan => Ok FNan
  | FInf _, FInf _ => Ok FNan
  | FFin _, FInf _ => Ok (FFin 0)
  end.

Definition fabs (a : float) : float :=
  match a with FNan => FNan | FInf _ => FInf false | FFin x => FFin (Qabs x) end.

(** [round(x, n)]: to [n] decimals, exact ties to even, then the nearest
    double.  Rounding up past the largest double, where CPython raises
    OverflowError, needs a negative [n]. *)
Definition fround (a : float) (n : Z) : float :=
  match a with
  | FFin x => rnd (inject_Z (rhe (x * pow10 n)) * pow10 (- n))%Q
  | _ => a
  end.

(** [float.is_integer()] *)
Definition fis_integer (a : float) : bool :=
  match a with FFin x => Qeq_bool x (inject_Z (Qfloor x)) | _ => false end.

(** [int(x)]: truncation towards zero. *)
Definition int_of_float (a : float) : result Z :=
  match a with
  | FNan => Raise ValueError
  | FInf _ => Raise OverflowError
  | FFin x => Ok (if Qle_bool 0 x then Qfloor x else - Qfloor (- x))
  end.

Definition ffinite (a : float) : bool := match a with FFin _ => true | _ => false end.

(** [sum(xs)] over floats: CPython (3.12 on) carries a compensation term. *)
Fixpoint sum_comp (f c : float) (xs : list float) : float :=
  match xs with
  | [] => if negb (feqb c (FFin 0)) && ffinite c then fadd f c else f
  | x :: xs' =>
      let t := fadd f x in
      let c' := if fleb (fabs x) (fabs f) then fadd c (fadd (fsub f t) x)
                else fadd c (fadd (fsub x t) f) in
      sum_comp t c' xs'
  end.

Definition fsum (xs : list float) : float :=
  match xs with [] => FFin 0 | x :: xs' => sum_comp (fadd (FFin 0) x) (FFin 0) xs' end.

(** ** Computed checks against CPython *)

Example add_point_one : feqb (fadd (flit 1 10) (flit 2 10)) (flit 3 10) = false.
Proof. reflexivity. Qed.
Example add_point_one' :
  fadd (flit 1 10) (flit 2 10) = FFin (5404319552844596 # 18014398509481984).
Proof. reflexivity. Qed.
Example round_tie : fround (flit 125 1000) 2 = flit 12 100.
Proof. reflexivity. Qed.
Example round_2675 : fround (flit 2675 1000) 2 = flit 267 100.
Proof. reflexivity. Qed.
Example sum_tenths : feqb (fsum (repeat (flit 1 10) 10)) (FFin 1) = true.
Proof. reflexivity. Qed.
Example min_subnormal : rnd (pow2 (-1074)) = FFin (pow2 (-1074)).
Proof. reflexivity. Qed.
Example overflow : rnd (pow2 1024) = FInf false.
Proof. reflexivity. Qed.

(** ** Facts about rounding *)

#[global] Opaque Qpower.
Ltac qlra := unfold Qle, Qlt in *; lra.

Lemma inject_Z_lt_1 a b : (inject_Z a < inject_Z b + 1)%Q -> a <= b.
Proof.
  intros H. change 1%Q with (inject_Z 1) in H.
  rewrite <- inject_Z_plus, <- Zlt_Qlt in H. lia.
Qed.

Lemma inject_Z_le_half a b : (inject_Z a <= inject_Z b + (1#2))%Q -> a <= b.
Proof. intros H. apply inject_Z_lt_1. lra. Qed.

(** [rhe] is within one half, and on a tie it is even. *)
Lemma rhe_spec q :
  (inject_Z (rhe q) - (1#2) <= q <= inject_Z (rhe q) + (1#2))%Q /\
  ((q == inject_Z (rhe q) - (1#2) \/ q == inject_Z (rhe q) + (1#2))%Q ->
   Z.even (rhe q) = true).
Proof.
  destruct q as [n d]. unfold rhe, Qeq, Qle, Qminus, Qplus, Qopp, inject_Z; simpl Qnum; simpl Qden.
  pose proof (Z.div_mod n (Zpos d) ltac:(lia)) as Hdm.
  pose proof (Z.mod_pos_bound n (Zpos d) ltac:(lia)) as Hr.
  set (z := n / Zpos d) in *. set (r := n mod Zpos d) in *.
  rewrite !Pos2Z.inj_mul.
  destruct (Z.ltb_spec (2 * r) (Zpos d)); [split; [nia|intros [?|?]; nia]|].
  destruct (Z.ltb_spec (Zpos d) (2 * r)); [split; [nia|intros [?|?]; nia]|].
  assert (2 * r = Zpos d) by lia.
  destruct (Z.even z) eqn:He; (split; [nia|intros _]); [done|].
  by rewrite Z.add_1_r, Z.even_succ, <- Z.negb_even, He.
Qed.

Lemma rhe_le x y : (x <= y)%Q -> rhe x <= rhe y.
Proof.
  intros Hxy. destruct (rhe_spec x) as [[Hx _] Hex], (rhe_spec y) as [[_ Hy] Hey].
  destruct (Z.le_gt_cases (rhe x) (rhe y)) as [?|Hgt]; [done|exfalso].
  assert (Hge : (inject_Z (rhe y) + 1 <= inject_Z (rhe x))%Q).
  { change 1%Q with (inject_Z 1). rewrite <- inject_Z_plus, <- Zle_Qle. lia. }
  assert (Heq : (inject_Z (rhe x) == inject_Z (rhe y + 1))%Q).
  { rewrite inject_Z_plus. change (inject_Z 1) with 1%Q. lra. }
  apply (proj1 (inject_Z_injective _ _)) in Heq.
  assert (Hx' : Z.even (rhe x) = true) by (apply Hex; left; lra).
  assert (Hy' : Z.even (rhe y) = true) by (apply Hey; right; lra).
  by rewrite Heq, Z.even_add, Hy' in Hx'.
Qed.

#[export] Instance rhe_proper : Proper (Qeq ==> eq) rhe.
Proof.
  intros x y Hxy. apply Z.le_antisymm; apply rhe_le; lra.
Qed.

Lemma rhe_Z z : rhe (inject_Z z) = z.
Proof.
  destruct (rhe_spec (inject_Z z)) as [[H1 H2] _].
  apply Z.le_antisymm; apply inject_Z_le_half; lra.
Qed.

(** *** Powers *)

Lemma pow2_pos e : (0 < pow2 e)%Q.
Proof. unfold pow2. apply Qpower_0_lt. lra. Qed.

Lemma pow2_plus a b : (pow2 (a + b) == pow2 a * pow2 b)%Q.
Proof. apply Qpower_plus. lra. Qed.

Lemma pow2_Z e : 0 <= e -> (pow2 e == inject_Z (2 ^ e))%Q.
Proof. intros. unfold pow2. by rewrite Zpower_Qpower. Qed.

Lemma pow2_opp e : (pow2 e * pow2 (- e) == 1)%Q.
Proof. rewrite <- pow2_plus, Z.add_opp_diag_r. reflexivity. Qed.

Lemma pow2_le a b : a <= b -> (pow2 a <= pow2 b)%Q.
Proof.
  intros. replace b with (a + (b - a)) by lia. rewrite pow2_plus.
  assert (1 <= pow2 (b - a))%Q.
  { rewrite pow2_Z by lia. change 1%Q with (inject_Z 1). rewrite <- Zle_Qle.
    apply Z.lt_pred_le. simpl. apply Z.pow_pos_nonneg; lia. }
  pose proof (pow2_pos a). nra.
Qed.

Lemma pow2_lt_inv a b : (pow2 a < pow2 b)%Q -> a < b.
Proof.
  intros H. destruct (Z.lt_ge_cases a b); [done|].
  pose proof (pow2_le b a ltac:(lia)). lra.
Qed.

Lemma pow10_pos e : (0 < pow10 e)%Q.
Proof. unfold pow10. apply Qpower_0_lt. lra. Qed.

Lemma pow10_opp e : (pow10 e * pow10 (- e) == 1)%Q.
Proof.
  unfold pow10. rewrite <- Qpower_plus by lra. rewrite Z.add_opp_diag_r. reflexivity.
Qed.

Lemma pow10_Z e : 0 <= e -> (pow10 e == inject_Z (10 ^ e))%Q.
Proof. intros. unfold pow10. by rewrite Zpower_Qpower. Qed.

(** *** The binary logarithm *)

Lemma log2_bracket n : 0 < n ->
  (pow2 (Z.log2 n) <= inject_Z n)%Q /\ (inject_Z n < pow2 (Z.log2 n + 1))%Q.
Proof.
  intros Hn. destruct (Z.log2_spec n Hn) as [Hl Hu].
  pose proof (Z.log2_nonneg n). rewrite !pow2_Z by lia.
  rewrite <- Zle_Qle, <- Zlt_Qlt. rewrite Z.add_1_r. done.
Qed.

Lemma qlog2_spec q : (0 < q)%Q -> (pow2 (qlog2 q) <= q)%Q /\ (q < pow2 (qlog2 q + 1))%Q.
Proof.
  intros Hq. destruct q as [n d].
  assert (Hn : 0 < n) by (unfold Qlt in Hq; simpl in Hq; lia).
  destruct (log2_bracket n Hn) as [Hn1 Hn2].
  destruct (log2_bracket (Zpos d) ltac:(lia)) as [Hd1 Hd2].
  set (a := Z.log2 n) in *. set (b := Z.log2 (Zpos d)) in *.
  assert (Hqd : ((n # d) * inject_Z (Zpos d) == inject_Z n)%Q).
  { unfold Qeq, Qmult, inject_Z; simpl. lia. }
  set (q := (n # d)) in *.
  assert (Hd0 : (0 < inject_Z (Zpos d))%Q) by (pose proof (pow2_pos b); lra).
  assert (Hup : (q < pow2 (a - b + 1))%Q).
  { replace (a - b + 1) with ((a + 1) + - b) by lia. rewrite pow2_plus.
    pose proof (pow2_opp b). pose proof (pow2_pos (- b)). pose proof (pow2_pos b).
    destruct (Qlt_le_dec q (pow2 (a + 1) * pow2 (- b))) as [?|Hge]; [done|exfalso].
    assert (pow2 (a + 1) * pow2 (- b) * pow2 b <= q * inject_Z (Zpos d))%Q.
    { assert (pow2 (a + 1) * pow2 (- b) * pow2 b <= q * pow2 b)%Q by nra. nra. }
    assert (pow2 (a + 1) * pow2 (- b) * pow2 b == pow2 (a + 1))%Q.
    { rewrite <- Qmult_assoc, (Qmult_comm (pow2 (- b))), H. ring. }
    lra. }
  assert (Hlo : (pow2 (a - b - 1) <= q)%Q).
  { destruct (Qlt_le_dec q (pow2 (a - b - 1))) as [Hlt|?]; [exfalso|done].
    assert (q * inject_Z (Zpos d) < pow2 (a - b - 1) * pow2 (b + 1))%Q by nra.
    rewrite <- pow2_plus in *. replace (a - b - 1 + (b + 1)) with a in * by lia. lra. }
  unfold qlog2. simpl Qnum; simpl Qden. fold a b q.
  destruct (Qle_bool (pow2 (a - b)) q) eqn:E.
  - apply Qle_bool_iff in E. done.
  - split; [done|]. replace (a - b - 1 + 1) with (a - b) by lia.
    apply Qnot_le_lt. intros Hc. apply Qle_bool_iff in Hc. congruence.
Qed.

Lemma qlog2_le x y : (0 < x)%Q -> (x <= y)%Q -> qlog2 x <= qlog2 y.
Proof.
  intros Hx Hxy. destruct (qlog2_spec x Hx) as [Hx1 _].
  destruct (qlog2_spec y ltac:(lra)) as [_ Hy2].
  assert (qlog2 x < qlog2 y + 1) by (apply pow2_lt_inv; lra). lia.
Qed.

(** *** Rounding to the double grid *)

Lemma rnd_fin_nz q : ~ (q == 0)%Q ->
  rnd_fin q = (inject_Z (rhe (q * pow2 (- ulp_exp q))) * pow2 (ulp_exp q))%Q.
Proof.
  intros Hq. unfold rnd_fin. destruct (Qeq_bool q 0) eqn:E; [|done].
  by apply Qeq_bool_eq in E.
Qed.

Lemma rnd_fin_0 q : (q == 0)%Q -> rnd_fin q = 0%Q.
Proof.
  intros Hq. unfold rnd_fin. apply Qeq_bool_iff in Hq. by rewrite Hq.
Qed.

(** A bound on the grid of [q]'s binade is kept. *)
Lemma rnd_fin_le_grid q k :
  ~ (q == 0)%Q -> (q <= inject_Z k * pow2 (ulp_exp q))%Q ->
  (rnd_fin q <= inject_Z k * pow2 (ulp_exp q))%Q.
Proof.
  intros Hq Hle. rewrite rnd_fin_nz by done.
  set (e := ulp_exp q) in *. pose proof (pow2_pos e). pose proof (pow2_pos (- e)).
  pose proof (pow2_opp e).
  assert (Hk : rhe (q * pow2 (- e)) <= k).
  { rewrite <- (rhe_Z k). apply rhe_le. nra. }
  rewrite Zle_Qle in Hk. nra.
Qed.

Lemma rnd_fin_ge_grid q k :
  ~ (q == 0)%Q -> (inject_Z k * pow2 (ulp_exp q) <= q)%Q ->
  (inject_Z k * pow2 (ulp_exp q) <= rnd_fin q)%Q.
Proof.
  intros Hq Hle. rewrite rnd_fin_nz by done.
  set (e := ulp_exp q) in *. pose proof (pow2_pos e). pose proof (pow2_pos (- e)).
  pose proof (pow2_opp e).
  assert (Hk : k <= rhe (q * pow2 (- e))).
  { rewrite <- (rhe_Z k). apply rhe_le. nra. }
  rewrite Zle_Qle in Hk. nra.
Qed.

Lemma pow2_grid e l : e <= l -> (pow2 l == inject_Z (2 ^ (l - e)) * pow2 e)%Q.
Proof.
  intros. rewrite <- pow2_Z by lia. rewrite <- pow2_plus.
  by replace (l - e + e) with l by lia.
Qed.

Lemma ulp_exp_proper x y : (Qabs x == Qabs y)%Q -> ~ (x == 0)%Q -> ulp_exp x = ulp_exp y.
Proof.
  intros H Hx. unfold ulp_exp.
  assert (H0 : (0 < Qabs x)%Q).
  { destruct (Qlt_le_dec 0 (Qabs x)); [done|exfalso]. apply Hx.
    pose proof (Qle_Qabs x). pose proof (Qle_Qabs (- x)). rewrite Qabs_opp in *. lra. }
  assert (qlog2 (Qabs x) = qlog2 (Qabs y)) as ->; [|done].
  apply Z.le_antisymm; apply qlog2_le; lra.
Qed.

Lemma Qabs_nz_pos x : ~ (x == 0)%Q -> (0 < Qabs x)%Q.
Proof.
  intros Hx. destruct (Qlt_le_dec 0 (Qabs x)); [done|exfalso]. apply Hx.
  pose proof (Qle_Qabs x). pose proof (Qle_Qabs (- x)). rewrite Qabs_opp in *. lra.
Qed.

Lemma ulp_exp_le x y : ~ (x == 0)%Q -> (Qabs x <= Qabs y)%Q -> ulp_exp x <= ulp_exp y.
Proof.
  intros Hx Hxy. unfold ulp_exp.
  pose proof (qlog2_le (Qabs x) (Qabs y) (Qabs_nz_pos x Hx) Hxy). lia.
Qed.

(** When the grid of [y] is strictly coarser than that of [x], a power of two
    on both grids separates the absolute values. *)
Lemma grid_separator x y :
  ~ (x == 0)%Q -> ~ (y == 0)%Q -> ulp_exp x < ulp_exp y ->
  exists l, ulp_exp y <= l /\ (Qabs x <= pow2 l)%Q /\ (pow2 l <= Qabs y)%Q.
Proof.
  intros Hx Hy Hlt. exists (qlog2 (Qabs y)).
  destruct (qlog2_spec _ (Qabs_nz_pos x Hx)) as [_ Hx2].
  destruct (qlog2_spec _ (Qabs_nz_pos y Hy)) as [Hy1 _].
  unfold ulp_exp in *. split; [lia|split; [|done]].
  pose proof (pow2_le (qlog2 (Qabs x) + 1) (qlog2 (Qabs y)) ltac:(lia)). lra.
Qed.

Lemma rnd_fin_nonneg q : (0 <= q)%Q -> (0 <= rnd_fin q)%Q.
Proof.
  intros H. destruct (Qeq_dec q 0) as [E|E]; [rewrite rnd_fin_0; [lra|done]|].
  pose proof (rnd_fin_ge_grid q 0 E). change (inject_Z 0) with 0%Q in *. lra.
Qed.

Lemma rnd_fin_nonpos q : (q <= 0)%Q -> (rnd_fin q <= 0)%Q.
Proof.
  intros H. destruct (Qeq_dec q 0) as [E|E]; [rewrite rnd_fin_0; [lra|done]|].
  pose proof (rnd_fin_le_grid q 0 E). change (inject_Z 0) with 0%Q in *. lra.
Qed.

Lemma rnd_fin_le_pow2 q l :
  ~ (q == 0)%Q -> ulp_exp q <= l -> (q <= pow2 l)%Q -> (rnd_fin q <= pow2 l)%Q.
Proof.
  intros. rewrite (pow2_grid (ulp_exp q) l) in * by done. by apply rnd_fin_le_grid.
Qed.

Lemma rnd_fin_ge_pow2 q l :
  ~ (q == 0)%Q -> ulp_exp q <= l -> (pow2 l <= q)%Q -> (pow2 l <= rnd_fin q)%Q.
Proof.
  intros. rewrite (pow2_grid (ulp_exp q) l) in * by done. by apply rnd_fin_ge_grid.
Qed.

Lemma rnd_fin_ge_opp_pow2 q l :
  ~ (q == 0)%Q -> ulp_exp q <= l -> (- pow2 l <= q)%Q -> (- pow2 l <= rnd_fin q)%Q.
Proof.
  intros Hq Hl Hle. rewrite (pow2_grid (ulp_exp q) l) in * by done.
  pose proof (rnd_fin_ge_grid q (- 2 ^ (l - ulp_exp q)) Hq) as H.
  rewrite inject_Z_opp in H. lra.
Qed.

Lemma rnd_fin_le_opp_pow2 q l :
  ~ (q == 0)%Q -> ulp_exp q <= l -> (q <= - pow2 l)%Q -> (rnd_fin q <= - pow2 l)%Q.
Proof.
  intros Hq Hl Hle. rewrite (pow2_grid (ulp_exp q) l) in * by done.
  pose proof (rnd_fin_le_grid q (- 2 ^ (l - ulp_exp q)) Hq) as H.
  rewrite inject_Z_opp in H. lra.
Qed.

Lemma rnd_fin_same_grid x y :
  ~ (x == 0)%Q -> ~ (y == 0)%Q -> ulp_exp x = ulp_exp y -> (x <= y)%Q ->
  (rnd_fin x <= rnd_fin y)%Q.
Proof.
  intros Hx Hy He Hxy. rewrite !rnd_fin_nz, He by done.
  set (e := ulp_exp y). pose proof (pow2_pos e). pose proof (pow2_pos (- e)).
  assert (Hr : rhe (x * pow2 (- e)) <= rhe (y * pow2 (- e))) by (apply rhe_le; nra).
  rewrite Zle_Qle in Hr. nra.
Qed.

(** Rounding is monotone. *)
Lemma rnd_fin_mono x y : (x <= y)%Q -> (rnd_fin x <= rnd_fin y)%Q.
Proof.
  intros Hxy.
  destruct (Qeq_dec x 0) as [Ex|Ex].
  { rewrite (rnd_fin_0 x) by done. apply rnd_fin_nonneg. lra. }
  destruct (Qeq_dec y 0) as [Ey|Ey].
  { rewrite (rnd_fin_0 y) by done. apply rnd_fin_nonpos. lra. }
  destruct (Qlt_le_dec x 0) as [Hx|Hx], (Qlt_le_dec y 0) as [Hy|Hy].
  - assert (Habs : ulp_exp y <= ulp_exp x)
      by (apply ulp_exp_le; [done|rewrite !Qabs_neg by lra; lra]).
    destruct (Z.eq_dec (ulp_exp x) (ulp_exp y)) as [E|E]; [by apply rnd_fin_same_grid|].
    destruct (grid_separator y x Ey Ex ltac:(lia)) as (l & Hl & H1 & H2).
    rewrite Qabs_neg in H1, H2 by lra.
    pose proof (rnd_fin_le_opp_pow2 x l Ex Hl). pose proof (rnd_fin_ge_opp_pow2 y l Ey). 
    assert (- pow2 l <= rnd_fin y)%Q by (apply H0; [lia|lra]). lra.
  - pose proof (rnd_fin_nonpos x). pose proof (rnd_fin_nonneg y). lra.
  - lra.
  - assert (Habs : ulp_exp x <= ulp_exp y)
      by (apply ulp_exp_le; [done|rewrite !Qabs_pos by lra; lra]).
    destruct (Z.eq_dec (ulp_exp x) (ulp_exp y)) as [E|E]; [by apply rnd_fin_same_grid|].
    destruct (grid_separator x y Ex Ey ltac:(lia)) as (l & Hl & H1 & H2).
    rewrite Qabs_pos in H1, H2 by lra.
    pose proof (rnd_fin_ge_pow2 y l Ey Hl H2).
    pose proof (rnd_fin_le_pow2 x l Ex ltac:(lia) H1). lra.
Qed.

#[export] Instance rnd_fin_proper : Proper (Qeq ==> Qeq) rnd_fin.
Proof.
  intros x y H. apply Qle_antisym; apply rnd_fin_mono; lra.
Qed.

(** Equal rationals round to the same double. *)
Lemma rnd_proper x y : (x == y)%Q -> rnd x = rnd y.
Proof.
  intros E. unfold rnd. assert (Hr : rnd_fin x = rnd_fin y); [|by rewrite Hr].
  unfold rnd_fin. assert (Hz : Qeq_bool x 0 = Qeq_bool y 0).
  { apply eq_true_iff_eq. rewrite !Qeq_bool_iff. by rewrite E. }
  rewrite Hz. destruct (Qeq_bool y 0) eqn:Ey; [done|].
  assert (Hu : ulp_exp x = ulp_exp y).
  { apply ulp_exp_proper; [by rewrite E|]. intros E0. apply Qeq_bool_iff in E0. congruence. }
  rewrite Hu. do 2 f_equal. apply rhe_proper. by rewrite E.
Qed.

(** Values that are doubles already. *)
Definition representable (q : Q) : Prop := (rnd_fin q == q)%Q.

#[export] Instance representable_proper : Proper (Qeq ==> iff) representable.
Proof. intros x y H. unfold representable. by rewrite H. Qed.

(** A multiple of a small enough power of two is a double. *)
Lemma representable_grid k e :
  Z.abs k <= 2 ^ 53 -> -1074 <= e -> representable (inject_Z k * pow2 e).
Proof.
  intros Hk He. set (q := (inject_Z k * pow2 e)%Q).
  destruct (Qeq_dec q 0) as [E|E].
  { unfold representable. rewrite rnd_fin_0 by done. by symmetry. }
  pose proof (pow2_pos e) as Hp.
  assert (Hu : (Qabs q == inject_Z (Z.abs k) * pow2 e)%Q).
  { unfold q. rewrite Qabs_Qmult, (Qabs_pos (pow2 e)) by lra. reflexivity. }
  assert (Hle : ulp_exp q <= e \/ ulp_exp q = e + 1 /\ Z.abs k = 2 ^ 53).
  { unfold ulp_exp. destruct (qlog2_spec _ (Qabs_nz_pos q E)) as [H1 _].
    set (l := qlog2 (Qabs q)) in *. rewrite Hu in H1.
    destruct (Z.eq_dec (Z.abs k) (2 ^ 53)) as [Hm|Hm].
    - assert (l < e + 54).
      { apply pow2_lt_inv. rewrite Z.add_comm, pow2_plus, (pow2_Z 54) by lia.
        rewrite Hm in H1. change (inject_Z (2 ^ 54)) with (2 * inject_Z (2 ^ 53))%Q.
        assert (0 < inject_Z (2 ^ 53))%Q by reflexivity. nra. }
      lia.
    - left. assert (l < e + 53); [|lia].
      apply pow2_lt_inv. rewrite Z.add_comm, pow2_plus, (pow2_Z 53) by lia.
      assert (Hk' : Z.abs k < 2 ^ 53) by lia. rewrite Zlt_Qlt in Hk'. nra. }
  assert (exists m, q == inject_Z m * pow2 (ulp_exp q))%Q as [m Hm].
  { destruct Hle as [Hle|[Hle Hk']].
    - exists (k * 2 ^ (e - ulp_exp q)). unfold q at 1. rewrite (pow2_grid _ e Hle).
      rewrite inject_Z_mult. ring.
    - exists (Z.sgn k * 2 ^ 52). rewrite Hle. unfold q at 1.
      rewrite pow2_plus, (pow2_Z 1) by lia.
      assert (k = Z.sgn k * 2 ^ 53) as Hk2 by lia. rewrite Hk2 at 1.
      rewrite !inject_Z_mult. change (inject_Z (2 ^ 53)) with (2 * inject_Z (2 ^ 52))%Q.
      change (inject_Z (2 ^ 1)) with 2%Q. ring. }
  pose proof (rnd_fin_le_grid q m E) as H1. pose proof (rnd_fin_ge_grid q m E) as H2.
  unfold representable. apply Qle_antisym; lra.
Qed.

Lemma representable_Z z : Z.abs z <= 2 ^ 53 -> representable (inject_Z z).
Proof.
  intros. rewrite <- (Qmult_1_r (inject_Z z)). change 1%Q with (pow2 0).
  by apply representable_grid.
Qed.

(** A bound that is a double is a bound of the rounded value. *)
Lemma rnd_fin_range lo hi q :
  representable lo -> representable hi -> (lo <= q <= hi)%Q -> (lo <= rnd_fin q <= hi)%Q.
Proof.
  unfold representable. intros Hlo Hhi [H1 H2].
  apply rnd_fin_mono in H1, H2. lra.
Qed.

(** ** Order on floats *)

Definition nan (a : float) : bool := match a with FNan => true | _ => false end.

Lemma Qle_bool_false x y : Qle_bool x y = false <-> (y < x)%Q.
Proof.
  rewrite <- Bool.not_true_iff_false, Qle_bool_iff. split; [apply Qnot_le_lt|apply Qlt_not_le].
Qed.

Lemma fltb_fin x y : fltb (FFin x) (FFin y) = true <-> (x < y)%Q.
Proof. simpl. by rewrite Bool.negb_true_iff, Qle_bool_false. Qed.

Lemma fltb_fin_false x y : fltb (FFin x) (FFin y) = false <-> (y <= x)%Q.
Proof. simpl. by rewrite Bool.negb_false_iff, Qle_bool_iff. Qed.

Lemma feqb_fin x y : feqb (FFin x) (FFin y) = true <-> (x == y)%Q.
Proof. apply Qeq_bool_iff. Qed.

Lemma fleb_fin x y : fleb (FFin x) (FFin y) = true <-> (x <= y)%Q.
Proof.
  unfold fleb. rewrite orb_true_iff, fltb_fin, feqb_fin. split; [lra|].
  intros. destruct (Qlt_le_dec x y); [by left|right; lra].
Qed.

Lemma fleb_refl a : nan a = false -> fleb a a = true.
Proof.
  destruct a as [|s|x]; [done|intros _; by destruct s|intros _].
  apply fleb_fin. lra.
Qed.

Lemma fltb_irrefl a : fltb a a = false.
Proof. destruct a as [|[]|x]; try done. apply fltb_fin_false. lra. Qed.

Lemma fltb_asym a b : fltb a b = true -> fltb b a = false.
Proof.
  destruct a as [|[]|x], b as [|[]|y]; try done.
  rewrite fltb_fin, fltb_fin_false. lra.
Qed.

(** On non-NaN values "not strictly before" is transitive. *)
Lemma fltb_ntrans a b c : nan a = false -> nan b = false -> nan c = false ->
  fltb a b = false -> fltb b c = false -> fltb a c = false.
Proof.
  destruct a as [|[]|x], b as [|[]|y], c as [|[]|z]; try done; intros _ _ _.
  rewrite !fltb_fin_false. lra.
Qed.

Lemma fltb_feqb a b : fltb a b = true -> feqb a b = false.
Proof.
  destruct a as [|[]|x], b as [|[]|y]; try done.
  rewrite fltb_fin. intros H. apply Bool.not_true_iff_false. rewrite feqb_fin. lra.
Qed.

Lemma fleb_fltb a b : nan a = false -> nan b = false -> fleb a b = negb (fltb b a).
Proof.
  destruct a as [|[]|x], b as [|[]|y]; try done; intros _ _.
  destruct (fltb (FFin y) (FFin x)) eqn:E; simpl negb.
  - apply Bool.not_true_iff_false. rewrite fleb_fin. apply fltb_fin in E. lra.
  - rewrite fleb_fin. apply fltb_fin_false in E. lra.
Qed.

Lemma fleb_trans a b c : fleb a b = true -> fleb b c = true -> fleb a c = true.
Proof.
  destruct a as [|[]|x], b as [|[]|y], c as [|[]|z]; try done.
  rewrite !fleb_fin. lra.
Qed.

(** ** Bounded results *)

(** [f] is a finite double between two integers. *)
Definition between (a b : Z) (f : float) : Prop :=
  exists x, f = FFin x /\ (inject_Z a <= x <= inject_Z b)%Q.

Definition exact_Z (z : Z) : Prop := Z.abs z <= 2 ^ 53.

Lemma pow2_1024_big z : exact_Z z -> (inject_Z z < pow2 1024)%Q /\ (- pow2 1024 < inject_Z z)%Q.
Proof.
  unfold exact_Z. intros Hz. rewrite pow2_Z by lia.
  rewrite <- inject_Z_opp, <- !Zlt_Qlt. lia.
Qed.

Lemma rnd_between a b q :
  exact_Z a -> exact_Z b -> (inject_Z a <= q <= inject_Z b)%Q -> between a b (rnd q).
Proof.
  intros Ha Hb Hq.
  pose proof (rnd_fin_range _ _ q (representable_Z a Ha) (representable_Z b Hb) Hq) as Hr.
  destruct (pow2_1024_big a Ha) as [_ H1]. destruct (pow2_1024_big b Hb) as [H2 _].
  unfold rnd. destruct (Qle_bool (pow2 1024) _) eqn:E1; [apply Qle_bool_iff in E1; lra|].
  destruct (Qle_bool _ (- pow2 1024)) eqn:E2; [apply Qle_bool_iff in E2; lra|].
  by eexists.
Qed.

Lemma rnd_mono x y : (x <= y)%Q -> fleb (rnd x) (rnd y) = true.
Proof.
  intros Hxy%rnd_fin_mono. unfold rnd.
  assert (0 < pow2 1024)%Q by apply pow2_pos.
  repeat match goal with
  | |- context [Qle_bool ?a ?b] => destruct (Qle_bool a b) eqn:?
  end;
  repeat match goal with
  | H : Qle_bool _ _ = true |- _ => apply Qle_bool_iff in H
  | H : Qle_bool _ _ = false |- _ => apply Qle_bool_false in H
  end; try done; try (exfalso; lra). by apply fleb_fin.
Qed.

Lemma rnd_not_nan q : nan (rnd q) = false.
Proof. unfold rnd. repeat case_match; done. Qed.

Lemma between_weaken a b c d f : c <= a -> b <= d -> between a b f -> between c d f.
Proof.
  intros Hca Hbd (x & -> & Hx). exists x. split; [done|].
  rewrite Zle_Qle in Hca, Hbd. lra.
Qed.

(** [max(0.0, min(1.0, x))] is in the unit interval whatever [x] is, a NaN included. *)
Lemma clamp_unit x : between 0 1 (fmax (FFin 0) (fmin (FFin 1) x)).
Proof.
  unfold fmax, fmin. change (inject_Z 0) with 0%Q. 
  destruct x as [|[]|x].
  - exists 1%Q. split; [reflexivity|]. unfold Qle; simpl; lia.
  - exists 0%Q. split; [reflexivity|]. unfold Qle; simpl; lia.
  - exists 1%Q. split; [reflexivity|]. unfold Qle; simpl; lia.
  - unfold between. change (inject_Z 0) with 0%Q. change (inject_Z 1) with 1%Q.
    destruct (fltb (FFin x) (FFin 1)) eqn:E1;
      destruct (fltb (FFin 0) _) eqn:E2;
      rewrite ?fltb_fin, ?fltb_fin_false in *; eexists; (split; [reflexivity|lra]).
Qed.

(** Rounding to [n >= 0] decimals keeps integer bounds. *)
Lemma fround_between a b f n :
  exact_Z a -> exact_Z b -> 0 <= n -> between a b f -> between a b (fround f n).
Proof.
  intros Ha Hb Hn (x & -> & H1 & H2). simpl. apply rnd_between; [done|done|].
  pose proof (pow10_pos n). pose proof (pow10_pos (- n)). pose proof (pow10_opp n).
  pose proof (pow10_Z n Hn) as Hp.
  assert (Hlo : a * 10 ^ n <= rhe (x * pow10 n)).
  { rewrite <- (rhe_Z (a * 10 ^ n)). apply rhe_le. rewrite inject_Z_mult, <- Hp. nra. }
  assert (Hhi : rhe (x * pow10 n) <= b * 10 ^ n).
  { rewrite <- (rhe_Z (b * 10 ^ n)). apply rhe_le. rewrite inject_Z_mult, <- Hp. nra. }
  rewrite Zle_Qle, inject_Z_mult, <- Hp in Hlo, Hhi. split.
  - apply (Qle_trans _ (inject_Z a * pow10 n * pow10 (- n))%Q); [|nra].
    rewrite <- Qmult_assoc, H3. lra.
  - apply (Qle_trans _ (inject_Z b * pow10 n * pow10 (- n))%Q); [nra|].
    rewrite <- Qmult_assoc, H3. lra.
Qed.

(** A float that is a number and not negative: a finite value or +inf. *)
Definition nonneg (f : float) : Prop := fleb (FFin 0) f = true.

Lemma nonneg_fmax_0 x : nonneg (fmax (FFin 0) x).
Proof.
  unfold nonneg, fmax. destruct (fltb (FFin 0) x) eqn:E; [|reflexivity].
  unfold fleb. by rewrite E.
Qed.

Lemma fround_mono x y n : fleb x y = true -> fleb (fround x n) (fround y n) = true.
Proof.
  pose proof (pow10_pos n). pose proof (pow10_pos (- n)).
  destruct x as [|[]|x], y as [|[]|y]; try done; simpl.
  - intros _. pose proof (rnd_not_nan (inject_Z (rhe (y * pow10 n)) * pow10 (- n))) as Hn.
    by destruct (rnd _) as [|[]|].
  - intros _. pose proof (rnd_not_nan (inject_Z (rhe (x * pow10 n)) * pow10 (- n))) as Hn.
    by destruct (rnd _) as [|[]|].
  - rewrite fleb_fin. intros Hxy. apply rnd_mono.
    assert (Hr : rhe (x * pow10 n) <= rhe (y * pow10 n)) by (apply rhe_le; nra).
    rewrite Zle_Qle in Hr. nra.
Qed.

Lemma nonneg_fround x n : nonneg x -> nonneg (fround x n).
Proof.
  unfold nonneg. intros H. apply (fround_mono _ _ n) in H.
  simpl fround at 1 in H. assert (E : rnd (inject_Z (rhe (0 * pow10 n)) * pow10 (- n)) = FFin 0).
  { assert (rhe (0 * pow10 n) = 0) as ->.
    { rewrite <- (rhe_Z 0). apply rhe_proper. apply Qmult_0_l. }
    unfold rnd. rewrite rnd_fin_0; [reflexivity|]. apply Qmult_0_l. }
  by rewrite E in H.
Qed.

(** Monotonicity of [max], [min], [-] and [/] as the fit functions use them. *)
Lemma fmax_mono_r a x y : nan a = false -> nan x = false -> nan y = false ->
  fleb x y = true -> fleb (fmax a x) (fmax a y) = true.
Proof.
  unfold fmax. intros Ha Hx Hy Hxy. rewrite fleb_fltb in Hxy by done.
  destruct (fltb a x) eqn:E1, (fltb a y) eqn:E2;
    rewrite fleb_fltb by done; [done| | |by rewrite fltb_irrefl].
  - apply negb_true_iff in Hxy. by rewrite (fltb_ntrans a y x) in E1.
  - by rewrite (fltb_asym a y).
Qed.

Lemma fmin_mono_r a x y : nan a = false -> nan x = false -> nan y = false ->
  fleb x y = true -> fleb (fmin a x) (fmin a y) = true.
Proof.
  unfold fmin. intros Ha Hx Hy Hxy. rewrite fleb_fltb in Hxy by done.
  destruct (fltb x a) eqn:E1, (fltb y a) eqn:E2;
    rewrite fleb_fltb by done; [done| | |by rewrite fltb_irrefl].
  - by rewrite (fltb_asym x a).
  - apply negb_true_iff in Hxy. by rewrite (fltb_ntrans y x a) in E2.
Qed.

Lemma fsub_antimono b x y :
  fleb (FFin x) (FFin y) = true -> fleb (fsub (FFin b) (FFin y)) (fsub (FFin b) (FFin x)) = true.
Proof.
  rewrite fleb_fin. intros H. unfold fsub; simpl. apply rnd_mono. lra.
Qed.

Lemma fdiv_mono_pos x y d fx fy : (0 < d)%Q -> nan x = false -> nan y = false ->
  fleb x y = true -> fdiv x (FFin d) = Ok fx -> fdiv y (FFin d) = Ok fy ->
  fleb fx fy = true /\ nan fx = false /\ nan fy = false.
Proof.
  intros Hd Hx Hy Hxy. unfold fdiv. assert (Hz : Qeq_bool d 0 = false).
  { apply Bool.not_true_iff_false. rewrite Qeq_bool_iff. lra. }
  assert (Hs : Qle_bool 0 d = true) by (apply Qle_bool_iff; lra).
  destruct x as [|[]|x], y as [|[]|y]; try done; rewrite Hz, ?Hs; simpl;
    intros ??; simplify_eq; try done.
  - pose proof (rnd_not_nan (y / d)). by destruct (rnd _) as [|[]|].
  - pose proof (rnd_not_nan (x / d)). by destruct (rnd _) as [|[]|].
  - apply fleb_fin in Hxy. rewrite !rnd_not_nan. split; [|done]. apply rnd_mono.
    apply Qle_shift_div_l; [done|]. unfold Qdiv.
    rewrite <- Qmult_assoc, (Qmult_comm (/ d)), Qmult_inv_r by lra. lra.
Qed.

(** ** Lexicographic order on a float key

    [lex_ltb key rest] compares the keys, then [rest]: the order of a Python sort by
    a tuple whose first component is a float. *)
Section lex.
Context {A : Type} (key : A -> float) (rest : A -> A -> bool) (P : A -> Prop).

Definition lex_ltb (a b : A) : bool :=
  if negb (feqb (key a) (key b)) then fltb (key a) (key b) else rest a b.

Lemma feqb_trichotomy a b : nan a = false -> nan b = false ->
  feqb a b = negb (fltb a b) && negb (fltb b a).
Proof.
  destruct a as [|[]|x], b as [|[]|y]; try done; intros _ _.
  destruct (feqb _ _) eqn:E.
  - apply feqb_fin in E. symmetry. apply andb_true_iff. rewrite !negb_true_iff, !fltb_fin_false. lra.
  - symmetry. apply andb_false_iff. rewrite !negb_false_iff, !fltb_fin.
    destruct (Qlt_le_dec x y); [by left|right].
    destruct (Qlt_le_dec y x); [done|]. apply Bool.not_true_iff_false in E. exfalso. apply E.
    apply feqb_fin. lra.
Qed.

Hypothesis key_num : forall a, P a -> nan (key a) = false.
Hypothesis rest_irrefl : forall a, P a -> rest a a = false.
Hypothesis rest_asym : forall a b, P a -> P b -> rest a b = true -> rest b a = false.
Hypothesis rest_ntrans : forall a b c, P a -> P b -> P c ->
  rest a b = false -> rest b c = false -> rest a c = false.

(** The order in terms of [fltb] alone *)
Lemma lex_ltb_false a b : P a -> P b ->
  lex_ltb a b = false <->
  fltb (key a) (key b) = false /\ (fltb (key b) (key a) = false -> rest a b = false).
Proof.
  intros Ha%key_num Hb%key_num. unfold lex_ltb. rewrite feqb_trichotomy by done.
  destruct (fltb (key a) (key b)), (fltb (key b) (key a)); simpl; naive_solver.
Qed.

Lemma lex_irrefl a : P a -> lex_ltb a a = false.
Proof. intros Ha. apply lex_ltb_false; [done..|]. rewrite fltb_irrefl. auto. Qed.

Lemma lex_asym a b : P a -> P b -> lex_ltb a b = true -> lex_ltb b a = false.
Proof.
  intros Ha Hb. unfold lex_ltb. rewrite !feqb_trichotomy by auto.
  destruct (fltb (key a) (key b)) eqn:E1, (fltb (key b) (key a)) eqn:E2; simpl; auto.
  by rewrite (fltb_asym _ _ E1) in E2.
Qed.

Lemma lex_ntrans a b c : P a -> P b -> P c ->
  lex_ltb a b = false -> lex_ltb b c = false -> lex_ltb a c = false.
Proof.
  intros Ha Hb Hc. rewrite !lex_ltb_false by done. intros [H1 R1] [H2 R2].
  assert (Hka := key_num _ Ha). assert (Hkb := key_num _ Hb). assert (Hkc := key_num _ Hc).
  split; [by apply (fltb_ntrans _ (key b))|]. intros H3.
  apply (rest_ntrans a b c); [done..| |].
  - apply R1. by apply (fltb_ntrans _ (key c)).
  - apply R2. by apply (fltb_ntrans _ (key a)).
Qed.
End lex.
