(* ===== verification/PyStr.v ===== *)
(** * Python strings

    [str] values restricted to the code points U+0000-U+00FF, one [ascii] per
    code point, so that [len], slicing and comparison by code point are those of
    Python.  This holds the methods the application uses ([strip], [lower],
    [casefold], [in], [replace], [split], [join]), the decimal rendering of
    integers and the canonical text of a UUID. *)

From S2P Require Export Prelude.
From stdpp Require Export pretty.
From Stdlib Require Export Ascii.
From Stdlib Require String.
#[global] Open Scope string_scope.
#[global] Open Scope Z_scope.


Definition code (c : ascii) : Z := Z.of_N (Ascii.N_of_ascii c).
Definition chr (z : Z) : ascii := Ascii.ascii_of_N (Z.to_N z).

Definition in_range (lo hi : Z) (c : ascii) : bool := (lo <=? code c) && (code c <=? hi).

(** [str.isspace] on one character *)
Definition is_space (c : ascii) : bool :=
  in_range 9 13 c || in_range 28 32 c || (code c =? 133) || (code c =? 160).

Definition is_digit (c : ascii) : bool := in_range 48 57 c.
Definition is_lower_az (c : ascii) : bool := in_range 97 122 c.
Definition is_upper_az (c : ascii) : bool := in_range 65 90 c.
Definition is_alnum_az09 (c : ascii) : bool := is_lower_az c || is_digit c.

Definition chars (s : string) : list ascii := String.list_ascii_of_string s.
Definition of_chars (l : list ascii) : string := String.string_of_list_ascii l.
Definition len (s : string) : Z := Z.of_nat (String.length s).

Fixpoint lstrip_by (f : ascii -> bool) (l : list ascii) : list ascii :=
  match l with
  | [] => []
  | c :: l' => if f c then lstrip_by f l' else l
  end.
Definition strip_by (f : ascii -> bool) (s : string) : string :=
  of_chars (rev (lstrip_by f (rev (lstrip_by f (chars s))))).

(** [s.strip()] *)
Definition strip (s : string) : string := strip_by is_space s.

(** [s.lower()]; [s.casefold()] also expands the sharp s.  (The micro sign, whose
    case folding is outside the modelled range, is kept.) *)
Definition lower_char (c : ascii) : ascii :=
  if is_upper_az c || (in_range 192 222 c && negb (code c =? 215))
  then chr (code c + 32) else c.
Definition lower (s : string) : string := of_chars (map lower_char (chars s)).
Definition casefold_char (c : ascii) : list ascii :=
  if code c =? 223 then ["s"%char; "s"%char] else [lower_char c].
Definition casefold (s : string) : string := of_chars (flat_map casefold_char (chars s)).

(** [p in s], [s.startswith(p)], [s.replace(p, r)] *)
Fixpoint is_prefix (p l : list ascii) : bool :=
  match p, l with
  | [], _ => true
  | a :: p', b :: l' => bool_decide (a = b) && is_prefix p' l'
  | _ :: _, [] => false
  end.
Definition startswith (s p : string) : bool := is_prefix (chars p) (chars s).
Fixpoint contains_list (p l : list ascii) : bool :=
  is_prefix p l || match l with [] => false | _ :: l' => contains_list p l' end.
Definition contains (p s : string) : bool := contains_list (chars p) (chars s).

(** Left to right, occurrences do not overlap; [skip] counts the characters of the
    occurrence being replaced that are still to be dropped. *)
Fixpoint replace_list (p r : list ascii) (skip : nat) (l : list ascii) : list ascii :=
  match l with
  | [] => []
  | c :: l' =>
      match skip with
      | S k => replace_list p r k l'
      | O => if is_prefix p l then r ++ replace_list p r (length p - 1) l'
             else c :: replace_list p r 0 l'
      end
  end.
Definition replace (s p r : string) : string :=
  of_chars (replace_list (chars p) (chars r) 0 (chars s)).

(** [s.split()] and [sep.join(l)] *)
Fixpoint split_by (f : ascii -> bool) (cur : list ascii) (l : list ascii) : list string :=
  match l with
  | [] => match cur with [] => [] | _ => [of_chars (rev cur)] end
  | c :: l' =>
      if f c then match cur with
                  | [] => split_by f [] l'
                  | _ => of_chars (rev cur) :: split_by f [] l'
                  end
      else split_by f (c :: cur) l'
  end.
Definition split (s : string) : list string := split_by is_space [] (chars s).
Fixpoint join (sep : string) (l : list string) : string :=
  match l with
  | [] => ""
  | [x] => x
  | x :: l' => x ++ sep ++ join sep l'
  end.

(** The character [c] *)
Definition is_char (c : ascii) (x : ascii) : bool := bool_decide (x = c).

(** The part before the first character of [f], and the rest from it on *)
Fixpoint span (f : ascii -> bool) (l : list ascii) : list ascii * list ascii :=
  match l with
  | [] => ([], [])
  | c :: l' => if f c then ([], l) else let '(a, b) := span f l' in (c :: a, b)
  end.

(** [s[:n]] for [n >= 0] *)
Definition take_str (n : Z) (s : string) : string := of_chars (take (Z.to_nat n) (chars s)).

(** [str(z)] *)
Definition str_of_Z (z : Z) : string := pretty z.

(** [x < y] on strings: by code points *)
Fixpoint codes_ltb (x y : list ascii) : bool :=
  match x, y with
  | _, [] => false
  | [], _ :: _ => true
  | a :: x', b :: y' => (code a <? code b) || ((code a =? code b) && codes_ltb x' y')
  end.
Definition str_ltb (x y : string) : bool := codes_ltb (chars x) (chars y).

(** ** UUIDs: 128-bit numbers and their canonical text *)

Definition hex_digit (z : Z) : ascii :=
  if z <? 10 then chr (48 + z) else chr (87 + z).
Fixpoint hex_digits (n : nat) (z : Z) : list ascii :=
  match n with
  | O => []
  | S n' => (hex_digits n' (z / 16) ++ [hex_digit (z mod 16)])%list
  end.
(** [str(uuid)]: 8-4-4-4-12 lowercase hexadecimal digits *)
Definition uuid_str (u : Z) : string :=
  let h := hex_digits 32 u in
  of_chars (take 8 h ++ ["-"%char] ++ take 4 (drop 8 h) ++ ["-"%char]
            ++ take 4 (drop 12 h) ++ ["-"%char] ++ take 4 (drop 16 h) ++ ["-"%char]
            ++ drop 20 h)%list.
Definition is_uuid (u : Z) : Prop := 0 <= u < 2 ^ 128.

Example uuid_str_ex :
  uuid_str 0x7b3f2f153b2e4cb49d4e38cba0fd9b9b = "7b3f2f15-3b2e-4cb4-9d4e-38cba0fd9b9b".
Proof. reflexivity. Qed.
Example replace_ex : replace "No cumple {concept}, {concept}." "{concept}" "balcon" = "No cumple balcon, balcon.".
Proof. reflexivity. Qed.
Example strip_ex : strip "  a b " = "a b".
Proof. reflexivity. Qed.
Example split_ex : split "  villa   crespo " = ["villa"; "crespo"].
Proof. reflexivity. Qed.
Example str_ex : str_of_Z (-120) = "-120".
Proof. reflexivity. Qed.

(** ** Facts *)

Lemma chars_of_chars l : chars (of_chars l) = l.
Proof. apply String.list_ascii_of_string_of_list_ascii. Qed.

Lemma of_chars_chars s : of_chars (chars s) = s.
Proof. apply String.string_of_list_ascii_of_string. Qed.

Lemma chars_inj s t : chars s = chars t -> s = t.
Proof. intros H. by rewrite <- (of_chars_chars s), H, of_chars_chars. Qed.

Lemma len_chars s : len s = Z.of_nat (length (chars s)).
Proof. unfold len. f_equal. induction s; simpl; auto. Qed.

Lemma chars_app s t : chars (s ++ t) = (chars s ++ chars t)%list.
Proof. induction s as [|c s IH]; simpl; [done|]. by rewrite <- IH. Qed.

Lemma code_inj a b : code a = code b -> a = b.
Proof.
  unfold code. intros H. apply N2Z.inj in H.
  by rewrite <- (Ascii.ascii_N_embedding a), H, Ascii.ascii_N_embedding.
Qed.

Lemma codes_ltb_irrefl x : codes_ltb x x = false.
Proof. induction x as [|a x IH]; simpl; [done|]. by rewrite Z.ltb_irrefl, IH, andb_false_r. Qed.

Lemma codes_ltb_asym x y : codes_ltb x y = true -> codes_ltb y x = false.
Proof.
  revert y. induction x as [|a x IH]; intros [|b y]; simpl; try done.
  destruct (Z.ltb_spec (code a) (code b)), (Z.ltb_spec (code b) (code a)),
    (Z.eqb_spec (code a) (code b)), (Z.eqb_spec (code b) (code a)); simpl;
    try lia; try done. apply IH.
Qed.

Lemma codes_ltb_ntrans x y z :
  codes_ltb x y = false -> codes_ltb y z = false -> codes_ltb x z = false.
Proof.
  revert y z. induction x as [|a x IH]; intros [|b y] [|c z]; simpl; try done.
  destruct (Z.ltb_spec (code a) (code b)), (Z.ltb_spec (code b) (code c)),
    (Z.ltb_spec (code a) (code c)), (Z.eqb_spec (code a) (code b)),
    (Z.eqb_spec (code b) (code c)), (Z.eqb_spec (code a) (code c)); simpl;
    try lia; try done. apply IH.
Qed.

(** Strings are totally ordered. *)
Lemma codes_ltb_total x y : codes_ltb x y = false -> codes_ltb y x = false -> x = y.
Proof.
  revert y. induction x as [|a x IH]; intros [|b y]; simpl; try done.
  destruct (Z.ltb_spec (code a) (code b)), (Z.ltb_spec (code b) (code a)),
    (Z.eqb_spec (code a) (code b)), (Z.eqb_spec (code b) (code a)); simpl;
    try lia; try done.
  intros. f_equal; [by apply code_inj | by apply IH].
Qed.

Lemma str_ltb_irrefl s : str_ltb s s = false.
Proof. apply codes_ltb_irrefl. Qed.

Lemma code_chr z : 0 <= z < 256 -> code (chr z) = z.
Proof.
  intros. unfold code, chr. rewrite Ascii.N_ascii_embedding by lia. lia.
Qed.

Lemma hex_digit_inj a b : 0 <= a < 16 -> 0 <= b < 16 -> hex_digit a = hex_digit b -> a = b.
Proof.
  intros Ha Hb H. apply (f_equal code) in H. unfold hex_digit in H.
  destruct (Z.ltb_spec a 10), (Z.ltb_spec b 10); rewrite !code_chr in H by lia; lia.
Qed.

Lemma length_hex_digits n z : length (hex_digits n z) = n.
Proof. revert z. induction n; intros; simpl; [done|]. rewrite length_app, IHn. simpl. lia. Qed.

Lemma hex_digits_inj n a b :
  0 <= a < 16 ^ Z.of_nat n -> 0 <= b < 16 ^ Z.of_nat n ->
  hex_digits n a = hex_digits n b -> a = b.
Proof.
  revert a b. induction n as [|n IH]; intros a b Ha Hb H; [simpl in *; lia|].
  rewrite Nat2Z.inj_succ, Z.pow_succ_r in Ha, Hb by lia. simpl in H.
  apply app_inj_2 in H as [H1 H2]; [|done]. injection H2 as H2.
  apply hex_digit_inj in H2; [|apply Z.mod_pos_bound; lia..].
  apply IH in H1; [|split; [apply Z.div_pos|apply Z.div_lt_upper_bound]; lia..].
  rewrite (Z.div_mod a 16), (Z.div_mod b 16) by lia. congruence.
Qed.

(** Distinct UUIDs have distinct texts. *)
Lemma uuid_str_inj a b : is_uuid a -> is_uuid b -> uuid_str a = uuid_str b -> a = b.
Proof.
  intros Ha Hb H. apply (f_equal chars) in H. unfold uuid_str in H.
  rewrite !chars_of_chars in H.
  apply (hex_digits_inj 32); [exact Ha|exact Hb|].
  set (x := hex_digits 32 a) in *. set (y := hex_digits 32 b) in *.
  assert (Lx : length x = 32%nat) by apply length_hex_digits.
  assert (Ly : length y = 32%nat) by apply length_hex_digits.
  clearbody x y.
  rewrite <- (take_drop 8 x), <- (take_drop 8 y).
  rewrite <- (take_drop 4 (drop 8 x)), <- (take_drop 4 (drop 8 y)), !drop_drop.
  rewrite <- (take_drop 4 (drop (8 + 4) x)), <- (take_drop 4 (drop (8 + 4) y)), !drop_drop.
  rewrite <- (take_drop 4 (drop (8 + 4 + 4) x)), <- (take_drop 4 (drop (8 + 4 + 4) y)), !drop_drop.
  simpl Nat.add.
  repeat (apply app_inj_1 in H as [-> H]; [|by rewrite ?length_take, ?length_drop, ?Lx, ?Ly];
          try (injection H as H)).
  by rewrite H.
Qed.

Lemma length_uuid_str u : len (uuid_str u) = 36.
Proof.
  rewrite len_chars. unfold uuid_str. rewrite chars_of_chars.
  rewrite !length_app, !length_take, !length_drop, !length_hex_digits. reflexivity.
Qed.

(** ** [strip] and [lower] are idempotent *)

Lemma lstrip_by_map f (g : ascii -> ascii) l : (forall c, f (g c) = f c) ->
  lstrip_by f (map g l) = map g (lstrip_by f l).
Proof. intros H. induction l as [|c l IH]; simpl; [done|]. rewrite H. by destruct (f c). Qed.

(** No character of [f] at either end *)
Definition trimmed (f : ascii -> bool) (l : list ascii) : Prop :=
  lstrip_by f l = l /\ lstrip_by f (rev l) = rev l.

Lemma lstrip_by_head f l : match lstrip_by f l with [] => True | c :: _ => f c = false end.
Proof. induction l as [|c l IH]; simpl; [done|]. by destruct (f c) eqn:E. Qed.

Lemma lstrip_by_fix f l : match l with [] => True | c :: _ => f c = false end -> lstrip_by f l = l.
Proof. destruct l as [|c l]; simpl; [done|]. by intros ->. Qed.

Lemma lstrip_by_app_last f l c : f c = false -> exists l', lstrip_by f (l ++ [c])%list = (l' ++ [c])%list.
Proof.
  intros Hc. induction l as [|x l IH]; simpl; [rewrite Hc; by exists []|].
  destruct (f x); [done|]. by exists (x :: l).
Qed.

Lemma trimmed_strip_by f s : trimmed f (chars (strip_by f s)).
Proof.
  unfold strip_by. rewrite chars_of_chars. set (l := lstrip_by f (chars s)).
  assert (Hl : match l with [] => True | c :: _ => f c = false end) by apply lstrip_by_head.
  clearbody l. split; [|rewrite rev_involutive; apply lstrip_by_fix, lstrip_by_head].
  destruct l as [|c l]; [done|]. simpl.
  destruct (lstrip_by_app_last f (rev l) c Hl) as [l' ->]. rewrite rev_app_distr. simpl. by rewrite Hl.
Qed.

Lemma strip_by_trimmed f s : trimmed f (chars s) -> strip_by f s = s.
Proof.
  intros [H1 H2]. unfold strip_by. rewrite H1, H2, rev_involutive. apply of_chars_chars.
Qed.

Lemma strip_by_idemp f s : strip_by f (strip_by f s) = strip_by f s.
Proof. apply strip_by_trimmed, trimmed_strip_by. Qed.

Lemma lower_char_idemp c : lower_char (lower_char c) = lower_char c.
Proof. destruct c as [[] [] [] [] [] [] [] []]; vm_compute; reflexivity. Qed.
Lemma is_space_lower c : is_space (lower_char c) = is_space c.
Proof. destruct c as [[] [] [] [] [] [] [] []]; vm_compute; reflexivity. Qed.

Lemma lower_idemp s : lower (lower s) = lower s.
Proof.
  unfold lower. rewrite chars_of_chars, map_map. f_equal. apply map_ext, lower_char_idemp.
Qed.

Lemma strip_lower s : trimmed is_space (chars s) -> strip (lower s) = lower s.
Proof.
  intros [H1 H2]. apply strip_by_trimmed. unfold lower. rewrite chars_of_chars. split.
  - rewrite lstrip_by_map by apply is_space_lower. by rewrite H1.
  - rewrite <- map_rev, lstrip_by_map by apply is_space_lower. by rewrite H2.
Qed.

Lemma strip_idemp s : strip (strip s) = strip s.
Proof. apply strip_by_idemp. Qed.
Lemma strip_lower_strip s : strip (lower (strip s)) = lower (strip s).
Proof. apply strip_lower, trimmed_strip_by. Qed.

(** ** Parsing a UUID *)

(** The value of a hexadecimal digit *)
Definition hex_value (c : ascii) : option Z :=
  if is_digit c then Some (code c - 48)
  else if in_range 97 102 c then Some (code c - 87)
  else if in_range 65 70 c then Some (code c - 55)
  else None.

(** [int(s, 16)] after the prefix: digits, with single underscores between them.
    [digit] says that a digit must follow. *)
Fixpoint hex_scan (digit : bool) (acc : Z) (l : list ascii) : option Z :=
  match l with
  | [] => if digit then None else Some acc
  | c :: l' =>
      match hex_value c with
      | Some v => hex_scan false (16 * acc + v) l'
      | None => if bool_decide (c = "_"%char) && negb digit then hex_scan true acc l' else None
      end
  end.

(** [int(s, 16)]: surrounding space, a sign and a 0x prefix are accepted. *)
Definition int16 (s : string) : option Z :=
  let l := chars (strip s) in
  let '(sign, l) := match l with
                    | c :: l' => if bool_decide (c = "-"%char) then (-1, l')
                                 else if bool_decide (c = "+"%char) then (1, l') else (1, l)
                    | [] => (1, l)
                    end in
  let l := match l with
           | "0"%char :: x :: l' =>
               if bool_decide (x = "x"%char) || bool_decide (x = "X"%char)
               then match l' with
                    | u :: l'' => if bool_decide (u = "_"%char) then l'' else l'
                    | [] => l'
                    end
               else l
           | _ => l
           end in
  z ← hex_scan true 0 l; Some (sign * z).

(** [UUID(s)] *)
Definition uuid_of_str (s : string) : option Z :=
  let hex := replace (replace s "urn:" "") "uuid:" "" in
  let hex := strip_by (fun c => bool_decide (c ∈ ["{"%char; "}"%char])) hex in
  let hex := replace hex "-" "" in
  if negb (len hex =? 32) then None
  else z ← int16 hex; if (0 <=? z) && (z <? 2 ^ 128) then Some z else None.

Example uuid_of_str_ex :
  map uuid_of_str ["{7B3F2F15-3b2e-4cb4-9d4e-38cba0fd9b9b}"; "urn:uuid:0000000000000000000000000000000f"; "x"]
  = [Some 0x7b3f2f153b2e4cb49d4e38cba0fd9b9b; Some 15; None].
Proof. vm_compute. reflexivity. Qed.
