(* ===== verification/PyVal.v ===== *)
(** * Dynamic Python values

    The values JSON documents decode to: [None], [bool], [int], [float], [str],
    [list] and [dict] with string keys.  Equality, truth value and the number
    comparisons follow Python: [bool] is a subclass of [int], numbers of
    different types compare by their exact value, and two dictionaries are equal
    when they hold the same items in any order. *)

From S2P Require Export Prelude PyFloat PyStr.
From Stdlib Require Import QArith Qabs.
#[global] Open Scope Z_scope.

Inductive pyval : Type :=
  | VNone
  | VBool (b : bool)
  | VInt (z : Z)
  | VFloat (f : float)
  | VStr (s : string)
  | VList (l : list pyval)
  | VDict (d : odict string pyval).

(** The induction principle that reaches into lists and dictionaries. *)
Section pyval_rect.
Variable P : pyval -> Prop.
Hypothesis HNone : P VNone.
Hypothesis HBool : forall b, P (VBool b).
Hypothesis HInt : forall z, P (VInt z).
Hypothesis HFloat : forall f, P (VFloat f).
Hypothesis HStr : forall s, P (VStr s).
Hypothesis HList : forall l, Forall P l -> P (VList l).
Hypothesis HDict : forall d, Forall (fun kv => P kv.2) d -> P (VDict d).

Fixpoint pyval_nested_ind (v : pyval) : P v :=
  match v with
  | VNone => HNone
  | VBool b => HBool b
  | VInt z => HInt z
  | VFloat f => HFloat f
  | VStr s => HStr s
  | VList l => HList l ((fix go l : Forall P l :=
      match l with
      | [] => Forall_nil_2 P
      | x :: l' => Forall_cons_2 P x l' (pyval_nested_ind x) (go l')
      end) l)
  | VDict d => HDict d ((fix go d : Forall (fun kv => P kv.2) d :=
      match d with
      | [] => Forall_nil_2 _
      | kv :: d' => Forall_cons_2 (fun kv => P kv.2) kv d' (pyval_nested_ind kv.2) (go d')
      end) d)
  end.
End pyval_rect.

(** ** Numbers *)

(** The exact value of a number, as a member of the floats extended to all
    rationals; [None] for other values. *)
Definition num_of (v : pyval) : option float :=
  match v with
  | VBool b => Some (FFin (inject_Z (if b then 1 else 0)))
  | VInt z => Some (FFin (inject_Z z))
  | VFloat f => Some f
  | _ => None
  end.

(** [isinstance(v, str)], [isinstance(v, (int, float))] and so on; [is_int] and
    [is_number] hold of booleans. *)
Definition is_str (v : pyval) : bool := if v is VStr _ then true else false.
Definition is_bool (v : pyval) : bool := if v is VBool _ then true else false.
Definition is_int (v : pyval) : bool :=
  match v with VInt _ | VBool _ => true | _ => false end.
Definition is_float (v : pyval) : bool := if v is VFloat _ then true else false.
Definition is_number (v : pyval) : bool :=
  match v with VInt _ | VBool _ | VFloat _ => true | _ => false end.
Definition is_list (v : pyval) : bool := if v is VList _ then true else false.
Definition is_dict (v : pyval) : bool := if v is VDict _ then true else false.
Definition is_none (v : pyval) : bool := if v is VNone then true else false.

(** ** [x == y] *)

Fixpoint py_eqb (x y : pyval) : bool :=
  match x, y with
  | VNone, VNone => true
  | VStr a, VStr b => bool_decide (a = b)
  | VList a, VList b =>
      (fix go a b := match a, b with
                     | [], [] => true
                     | x :: a', y :: b' => py_eqb x y && go a' b'
                     | _, _ => false
                     end) a b
  | VDict a, VDict b =>
      Nat.eqb (length a) (length b) &&
      (fix go a := match a with
                   | [] => true
                   | (k, x) :: a' =>
                       match oget k b with
                       | Some y => py_eqb x y
                       | None => false
                       end && go a'
                   end) a
  | _, _ => match num_of x, num_of y with
            | Some p, Some q => feqb p q
            | _, _ => false
            end
  end.

(** [v in seq] *)
Definition py_in (v : pyval) (l : list pyval) : bool := existsb (py_eqb v) l.

(** [bool(v)] *)
Definition truthy (v : pyval) : bool :=
  match v with
  | VNone => false
  | VBool b => b
  | VInt z => negb (z =? 0)
  | VFloat f => negb (feqb f (FFin 0))
  | VStr s => negb (bool_decide (s = ""))
  | VList l => negb (bool_decide (length l = 0%nat))
  | VDict d => negb (bool_decide (length d = 0%nat))
  end.

(** [d.get(k)] with the default [None] *)
Definition dget (k : string) (d : odict string pyval) : pyval :=
  match oget k d with Some v => v | None => VNone end.

(** [x < y] on numbers; [None] where Python raises [TypeError]. *)
Definition num_ltb (x y : pyval) : option bool :=
  match num_of x, num_of y with
  | Some p, Some q => Some (fltb p q)
  | _, _ => None
  end.

(** [float(x)] for a number or a boolean *)
Definition to_float (v : pyval) : result float :=
  match v with
  | VBool b => Ok (FFin (inject_Z (if b then 1 else 0)))
  | VInt z => float_of_int z
  | VFloat f => Ok f
  | _ => Raise TypeError
  end.

Example py_eqb_ex :
  py_eqb (VDict [("a", VInt 1); ("b", VBool true)]) (VDict [("b", VInt 1); ("a", VFloat (FFin 1))]) = true.
Proof. reflexivity. Qed.

(** ** Text of numbers *)

Definition qfloor (q : Q) : Z := Qnum q / Zpos (Qden q).

(** [floor(log10 q)] for [q > 0], from the binary logarithm *)
Definition qlog10 (q : Q) : Z :=
  let e := qlog2 q * 30103 / 100000 in
  if Qle_bool (pow10 (e + 1)) q then e + 1
  else if Qle_bool (pow10 e) q then e else e - 1.

Definition round_trips (q : Q) (m k : Z) : bool :=
  Qeq_bool (rnd_fin (inject_Z m * pow10 k)) q.

(** The shortest decimal [m * 10^k] that reads back as the float [q > 0], the closest
    to [q] among those of its length; [p] digits are tried, then more. *)
Fixpoint shortest (fuel : nat) (p : Z) (q : Q) : Z * Z :=
  let k := qlog10 q - p + 1 in
  let m := qfloor (q * pow10 (- k)) in
  match fuel with
  | O => (m, k)
  | S fuel' =>
      let lo := round_trips q m k in
      let hi := round_trips q (m + 1) k in
      let up := negb (Qle_bool (2 * (q * pow10 (- k))) (inject_Z (2 * m + 1))) in
      if lo && hi then (if up then m + 1 else m, k)
      else if lo then (m, k)
      else if hi then (m + 1, k)
      else shortest fuel' (p + 1) q
  end.

Fixpoint strip_zeros (fuel : nat) (m k : Z) : Z * Z :=
  match fuel with
  | O => (m, k)
  | S f => if (m mod 10 =? 0) && negb (m =? 0) then strip_zeros f (m / 10) (k + 1) else (m, k)
  end.

Definition zeros (n : Z) : string := of_chars (replicate (Z.to_nat n) "0"%char).

(** [repr(f)], which is also [str(f)] *)
Definition float_repr (f : float) : string :=
  match f with
  | FNan => "nan"
  | FInf b => if b then "-inf" else "inf"
  | FFin q =>
      if Qeq_bool q 0 then "0.0"
      else
        let sign := if Qle_bool q 0 then "-" else "" in
        let '(m, k) := shortest 20 1 (Qabs q) in
        let '(m, k) := strip_zeros 20 m k in
        let ds := str_of_Z m in
        let n := len ds in
        let decpt := n + k in
        if (decpt <=? -4) || (16 <? decpt) then
          let x := decpt - 1 in
          sign ++ take_str 1 ds
          ++ (if 1 <? n then "." ++ of_chars (drop 1 (chars ds)) else "")
          ++ "e" ++ (if x <? 0 then "-" else "+")
          ++ (if Z.abs x <? 10 then "0" else "") ++ str_of_Z (Z.abs x)
        else if decpt <=? 0 then sign ++ "0." ++ zeros (- decpt) ++ ds
        else if n <=? decpt then sign ++ ds ++ zeros (decpt - n) ++ ".0"
        else sign ++ take_str decpt ds ++ "." ++ of_chars (drop (Z.to_nat decpt) (chars ds))
  end.

Example float_repr_ex1 : map float_repr [flit 1 10; flit 3 10; FFin 100; flit 1 3; flit 12345 1000]
  = ["0.1"; "0.3"; "100.0"; "0.3333333333333333"; "12.345"].
Proof. vm_compute. reflexivity. Qed.
Example float_repr_ex2 : map float_repr [flit 1 100000; flit (10 ^ 22) 1; flit (-15) 10; flit 1234567890123456789 1]
  = ["1e-05"; "1e+22"; "-1.5"; "1.2345678901234568e+18"].
Proof. vm_compute. reflexivity. Qed.
Example float_repr_ex3 : float_repr (fadd (flit 1 10) (flit 2 10)) = "0.30000000000000004".
Proof. vm_compute. reflexivity. Qed.

(** ** Compact JSON text of an object with scalar members

    [json.dumps(d, separators=(",", ":"), ensure_ascii=False)] *)

Definition json_char (c : ascii) : list ascii :=
  let z := code c in
  if z =? 34 then ["\"%char; chr 34]
  else if z =? 92 then ["\"%char; "\"%char]
  else if z =? 10 then ["\"%char; "n"%char]
  else if z =? 13 then ["\"%char; "r"%char]
  else if z =? 9 then ["\"%char; "t"%char]
  else if z =? 8 then ["\"%char; "b"%char]
  else if z =? 12 then ["\"%char; "f"%char]
  else if z <? 32 then ["\"%char; "u"%char; "0"%char; "0"%char; hex_digit (z / 16); hex_digit (z mod 16)]
  else [c].

Definition json_string (s : string) : string :=
  of_chars (chr 34 :: flat_map json_char (chars s) ++ [chr 34])%list.

Definition json_scalar_text (v : pyval) : string :=
  match v with
  | VNone => "null"
  | VBool b => if b then "true" else "false"
  | VInt z => str_of_Z z
  | VFloat FNan => "NaN"
  | VFloat (FInf b) => if b then "-Infinity" else "Infinity"
  | VFloat f => float_repr f
  | VStr s => json_string s
  | _ => ""
  end.

Definition json_object_text (d : odict string pyval) : string :=
  "{" ++ join "," (map (fun kv => json_string kv.1 ++ ":" ++ json_scalar_text kv.2) d) ++ "}".

(** [len(s.encode())] *)
Definition utf8_len (s : string) : Z :=
  foldr (fun c n => (if code c <? 128 then 1 else 2) + n) 0 (chars s).

Example json_text_ex : json_object_text [("a", VInt 1); ("b", VNone)] =
  "{" ++ json_string "a" ++ ":1," ++ json_string "b" ++ ":null}".
Proof. reflexivity. Qed.

(** ** [str(v)] and [f"{x:.2f}"] *)

Definition printable (c : ascii) : bool :=
  in_range 32 126 c || (in_range 161 255 c && negb (code c =? 173)).

Definition repr_char (quote c : ascii) : list ascii :=
  let z := code c in
  if z =? 92 then ["\"%char; "\"%char]
  else if bool_decide (c = quote) then ["\"%char; c]
  else if z =? 9 then ["\"%char; "t"%char]
  else if z =? 10 then ["\"%char; "n"%char]
  else if z =? 13 then ["\"%char; "r"%char]
  else if printable c then [c]
  else ["\"%char; "x"%char; hex_digit (z / 16); hex_digit (z mod 16)].

(** [repr(s)]: double quotes only when the text has single quotes and no double ones *)
Definition str_repr (s : string) : string :=
  let l := chars s in
  let quote := if bool_decide (chr 39 ∈ l) && negb (bool_decide (chr 34 ∈ l))
               then chr 34 else chr 39 in
  of_chars (quote :: flat_map (repr_char quote) l ++ [quote])%list.

Fixpoint py_repr (v : pyval) : string :=
  match v with
  | VNone => "None"
  | VBool b => if b then "True" else "False"
  | VInt z => str_of_Z z
  | VFloat f => float_repr f
  | VStr s => str_repr s
  | VList l => "[" ++ join ", " (map py_repr l) ++ "]"
  | VDict d => "{" ++ join ", " (map (fun kv => str_repr kv.1 ++ ": " ++ py_repr kv.2) d) ++ "}"
  end.

Definition py_str (v : pyval) : string :=
  match v with VStr s => s | _ => py_repr v end.

(** Decimal digits with two places of a rational, correctly rounded *)
Definition format_2f (f : float) : string :=
  match f with
  | FNan => "nan"
  | FInf b => if b then "-inf" else "inf"
  | FFin q =>
      let n := rhe (q * inject_Z 100) in
      let a := Z.abs n in
      (if Qle_bool 0 q then "" else "-") ++ str_of_Z (a / 100) ++ "."
      ++ (if a mod 100 <? 10 then "0" else "") ++ str_of_Z (a mod 100)
  end.

(** Hashing a list or a dictionary raises [TypeError]; this is [v in {s1, s2, ...}]
    for a set (or the keys of a dict) of strings. *)
Definition in_str_set (v : pyval) (l : list string) : result bool :=
  match v with
  | VStr s => Ok (bool_decide (s ∈ l))
  | VList _ | VDict _ => Raise TypeError
  | _ => Ok false
  end.

(** The value as a [str], where [isinstance(v, str)] *)
Definition as_str (v : pyval) : option string :=
  match v with VStr s => Some s | _ => None end.

Example py_str_ex : map py_str [VStr "a"; VList [VStr "a"; VInt 2; VNone]; VFloat (flit 1 2)]
  = ["a"; "['a', 2, None]"; "0.5"].
Proof. vm_compute. reflexivity. Qed.
Example format_2f_ex : map format_2f [flit 1 8; flit 1005 1000; FFin 1; flit (-1) 3] = ["0.12"; "1.00"; "1.00"; "-0.33"].
Proof. vm_compute. reflexivity. Qed.

(** ** [_as_float], [_as_int]: the coercions several modules define *)

(** A boolean is no number here; an [int] too large for a double raises. *)
Definition as_float (v : pyval) : result (option float) :=
  match v with
  | VInt z => f ← float_of_int z; Ok (Some f)
  | VFloat f => Ok (Some f)
  | _ => Ok None
  end.
Definition as_int (v : pyval) (d : Z) : Z :=
  match v with VInt z => z | _ => d end.

(** ** Iteration and subscription *)

(** [for x in v] *)
Definition py_iter (v : pyval) : result (list pyval) :=
  match v with
  | VList l => Ok l
  | VDict d => Ok (map (fun kv => VStr kv.1) d)
  | VStr s => Ok (map (fun c => VStr (of_chars [c])) (chars s))
  | _ => Raise TypeError
  end.

(** [d[k]] *)
Definition dsub (k : string) (d : odict string pyval) : result pyval :=
  match oget k d with Some v => Ok v | None => Raise KeyError end.

(** A mapping value, where [isinstance(v, Mapping)] *)
Definition as_dict (v : pyval) : option (odict string pyval) :=
  match v with VDict d => Some d | _ => None end.

(** [sorted(l)] for strings *)
Definition sorted_str (l : list string) : list string := sort_by str_ltb l.
