(* ===== verification/PyParse.v ===== *)
(** * Numbers from text: [int(s)] and [float(s)]

    Both strip white space, take a sign, and allow single underscores between digits.
    [int] is limited to 4300 digits (CPython's default); [float] reads [inf], [infinity] and
    [nan] in any case, and rounds a decimal to the nearest double. *)

From S2P Require Export PyVal.
From Stdlib Require Import QArith.
#[global] Open Scope Z_scope.
#[local] Open Scope list_scope.

Definition take_sign (l : list ascii) : bool * list ascii :=
  match l with
  | c :: l' => if is_char "-"%char c then (true, l') else if is_char "+"%char c then (false, l') else (false, l)
  | [] => (false, [])
  end.

(** The text without its underscores, each of which stands between two digits *)
Fixpoint drop_underscores (after_digit : bool) (l : list ascii) : option (list ascii) :=
  match l with
  | [] => Some []
  | c :: l' =>
      if is_char "_"%char c then
        if after_digit && match l' with d :: _ => is_digit d | [] => false end
        then drop_underscores false l' else None
      else r ← drop_underscores (is_digit c) l'; Some (c :: r)
  end.

Definition digits_value (l : list ascii) : Z := foldl (fun n c => 10 * n + (code c - 48)) 0 l.

(** A non-empty run of digits *)
Definition digits (l : list ascii) : option Z :=
  if forallb is_digit l && negb (bool_decide (l = [])) then Some (digits_value l) else None.

Definition int_of_str (s : string) : result Z :=
  let '(negative, l) := take_sign (chars (strip s)) in
  match l' ← drop_underscores false l; n ← digits l'; Some (length l', n) with
  | Some (k, n) => if 4300 <? Z.of_nat k then Raise ValueError else Ok (if negative then - n else n)
  | None => Raise ValueError
  end.

Definition exponent (l : list ascii) : option Z :=
  match l with
  | [] => Some 0
  | c :: l' =>
      if is_char "e"%char c || is_char "E"%char c then
        let '(negative, ds) := take_sign l' in
        n ← digits ds; Some (if negative then - n else n)
      else None
  end.

(** The exact value of an unsigned decimal *)
Definition decimal (l : list ascii) : option Q :=
  let not_digit := fun c => negb (is_digit c) in
  let '(whole, r) := span not_digit l in
  let '(fraction, r) := match r with
                        | c :: r' => if is_char "."%char c then span not_digit r' else ([], r)
                        | [] => ([], [])
                        end in
  if bool_decide (whole = []) && bool_decide (fraction = []) then None
  else e ← exponent r;
       Some (inject_Z (digits_value (whole ++ fraction)) * pow10 (e - Z.of_nat (length fraction)))%Q.

Definition float_of_str (s : string) : result float :=
  let '(negative, l) := take_sign (chars (strip s)) in
  let name := lower (of_chars l) in
  if bool_decide (name ∈ ["inf"; "infinity"]) then Ok (FInf negative)
  else if bool_decide (name = "nan") then Ok FNan
  else match l' ← drop_underscores false l; decimal l' with
       | Some q => Ok (rnd (if negative then - q else q)%Q)
       | None => Raise ValueError
       end.

Example int_of_str_ex :
  map int_of_str [" 12 "; "-1_000"; "+007"; ""; "1__0"; "_1"; "1.0"; "- 1"]
  = [Ok 12; Ok (-1000); Ok 7; Raise ValueError; Raise ValueError; Raise ValueError; Raise ValueError;
     Raise ValueError].
Proof. vm_compute. reflexivity. Qed.
Example float_of_str_ex :
  map float_of_str ["120000"; ".5"; "5."; "1_0.2_5e-1"; "-Inf"; "NaN"; "."; "1e"; "0x10"; "1e400"]
  = [Ok (flit 120000 1); Ok (flit 1 2); Ok (flit 5 1); Ok (flit 1025 1000); Ok (FInf true); Ok FNan;
     Raise ValueError; Raise ValueError; Raise ValueError; Ok (FInf false)].
Proof. vm_compute. reflexivity. Qed.

(** * JSON texts

    [json.loads]: the values of JSON and Python's [NaN] and infinities, white space, escapes, the
    last of two members with one name.  Texts are Latin-1: an escape beyond it has no
    counterpart, and a document that holds one is treated as unreadable.  The depth of
    nesting is not limited. *)
#[local] Open Scope list_scope.

Definition is_json_space (c : ascii) : bool := bool_decide (code c ∈ [32; 9; 10; 13]).
Definition skip_space (l : list ascii) : list ascii := lstrip_by is_json_space l.

(** The value of four hexadecimal digits *)
Definition hex4 (a b c d : ascii) : option Z :=
  x ← hex_value a; y ← hex_value b; z ← hex_value c; w ← hex_value d;
  Some (((x * 16 + y) * 16 + z) * 16 + w).

Definition unescape (c : ascii) : option ascii :=
  let z := code c in
  if bool_decide (z ∈ [34; 92; 47]) then Some c
  else if z =? 98 then Some (chr 8) else if z =? 102 then Some (chr 12)
  else if z =? 110 then Some (chr 10) else if z =? 114 then Some (chr 13)
  else if z =? 116 then Some (chr 9) else None.

(** A string after its opening quote, and what follows its closing one *)
Fixpoint read_string (l : list ascii) : option (list ascii * list ascii) :=
  match l with
  | [] => None
  | c :: l' =>
      if code c =? 34 then Some ([], l')
      else if code c =? 92 then
        match l' with
        | [] => None
        | e :: l2 =>
            if code e =? 117 then
              match l2 with
              | p :: q :: r :: s :: l3 =>
                  z ← hex4 p q r s;
                  if z <? 256 then '(t, rest) ← read_string l3; Some (chr z :: t, rest) else None
              | _ => None
              end
            else x ← unescape e; '(t, rest) ← read_string l2; Some (x :: t, rest)
        end
      else if code c <? 32 then None
      else '(t, rest) ← read_string l'; Some (c :: t, rest)
  end.

Definition not_digit (c : ascii) : bool := negb (is_digit c).

(** The digits before the point: a zero, or a run that does not start with one *)
Definition read_whole (l : list ascii) : option (list ascii * list ascii) :=
  match l with
  | c :: l' => if code c =? 48 then Some ([c], l') else if is_digit c then Some (span not_digit l) else None
  | [] => None
  end.
Definition read_fraction (l : list ascii) : option (list ascii * list ascii) :=
  match l with
  | c :: l' => if is_char "."%char c then
                 let '(ds, r) := span not_digit l' in if bool_decide (ds = []) then None else Some (c :: ds, r)
               else None
  | [] => None
  end.
Definition read_exponent (l : list ascii) : option (list ascii * list ascii) :=
  match l with
  | c :: l' =>
      if is_char "e"%char c || is_char "E"%char c then
        let '(sign, l2) := match l' with
                           | s :: l2 => if is_char "+"%char s || is_char "-"%char s then ([s], l2) else ([], l')
                           | [] => ([], [])
                           end in
        let '(ds, r) := span not_digit l2 in
        if bool_decide (ds = []) then None else Some (c :: sign ++ ds, r)
      else None
  | [] => None
  end.

(** A text that is not a document; both are [ValueError]s to an [except] clause. *)
Definition JSONDecodeError : exn := OtherError "JSONDecodeError".
Definition read_or_fail {A} (x : option A) : result A := match x with Some a => Ok a | None => Raise JSONDecodeError end.

Definition read_number (l : list ascii) : result (pyval * list ascii) :=
  let '(sign, l1) := match l with
                     | c :: l' => if is_char "-"%char c then ([c], l') else ([], l)
                     | [] => ([], [])
                     end in
  '(whole, l2) ← read_or_fail (read_whole l1);
  let '(fraction, l3) := default ([], l2) (read_fraction l2) in
  let '(exponent, l4) := default ([], l3) (read_exponent l3) in
  if bool_decide (fraction = []) && bool_decide (exponent = []) then
    match int_of_str (of_chars (sign ++ whole)) with Ok z => Ok (VInt z, l4) | Raise e => Raise e end
  else match float_of_str (of_chars (sign ++ whole ++ fraction ++ exponent)) with
       | Ok f => Ok (VFloat f, l4) | Raise e => Raise e end.

Fixpoint drop_word (w l : list ascii) : option (list ascii) :=
  match w, l with
  | [], _ => Some l
  | a :: w', c :: l' => if bool_decide (a = c) then drop_word w' l' else None
  | _, [] => None
  end.

(** The first of the words that the text starts with *)
Fixpoint read_word (words : list (string * pyval)) (l : list ascii) : option (pyval * list ascii) :=
  match words with
  | [] => None
  | (w, v) :: words' => match drop_word (chars w) l with Some r => Some (v, r) | None => read_word words' l end
  end.
Definition json_words : list (string * pyval) := [
  ("null", VNone); ("true", VBool true); ("false", VBool false); ("NaN", VFloat FNan);
  ("Infinity", VFloat (FInf false)); ("-Infinity", VFloat (FInf true))]%string.

(** A value at the start of the text; the members of an array or an object follow its bracket. *)
Fixpoint read_value (fuel : nat) (l : list ascii) : result (pyval * list ascii) :=
  match fuel, l with
  | S n, c :: l' =>
      if code c =? 34 then '(s, r) ← read_or_fail (read_string l'); Ok (VStr (of_chars s), r)
      else if is_char "["%char c then
        match skip_space l' with
        | d :: r => if is_char "]"%char d then Ok (VList [], r)
                    else '(vs, r2) ← read_items n (d :: r); Ok (VList vs, r2)
        | [] => Raise JSONDecodeError
        end
      else if is_char "{"%char c then
        match skip_space l' with
        | d :: r => if is_char "}"%char d then Ok (VDict [], r)
                    else '(d, r2) ← read_members n [] (d :: r); Ok (VDict d, r2)
        | [] => Raise JSONDecodeError
        end
      else match read_word json_words l with Some x => Ok x | None => read_number l end
  | _, _ => Raise JSONDecodeError
  end
with read_items (fuel : nat) (l : list ascii) : result (list pyval * list ascii) :=
  match fuel with
  | S n =>
      '(v, r) ← read_value n l;
      match skip_space r with
      | c :: r2 => if is_char "]"%char c then Ok ([v], r2)
                   else if is_char ","%char c then '(vs, r3) ← read_items n (skip_space r2); Ok (v :: vs, r3)
                   else Raise JSONDecodeError
      | [] => Raise JSONDecodeError
      end
  | O => Raise JSONDecodeError
  end
with read_members (fuel : nat) (acc : odict string pyval) (l : list ascii)
  : result (odict string pyval * list ascii) :=
  match fuel, l with
  | S n, c :: l' =>
      if code c =? 34 then
        '(k, r) ← read_or_fail (read_string l');
        match skip_space r with
        | d :: r1 =>
            if is_char ":"%char d then
              '(v, r2) ← read_value n (skip_space r1);
              let acc' := oset (of_chars k) v acc in
              match skip_space r2 with
              | e :: r3 => if is_char "}"%char e then Ok (acc', r3)
                           else if is_char ","%char e then read_members n acc' (skip_space r3) else Raise JSONDecodeError
              | [] => Raise JSONDecodeError
              end
            else Raise JSONDecodeError
        | [] => Raise JSONDecodeError
        end
      else Raise JSONDecodeError
  | _, _ => Raise JSONDecodeError
  end.

(** [json.loads(text)] *)
Definition json_loads (text : string) : result pyval :=
  let l := skip_space (chars text) in
  match read_value (S (length l)) l with
  | Ok (v, r) => if bool_decide (skip_space r = []) then Ok v else Raise JSONDecodeError
  | Raise e => Raise e
  end.

Definition quoted (s : string) : string := of_chars (chr 34 :: chars s ++ [chr 34]).
Example json_loads_ex :
  json_loads (" { " ++ quoted "a" ++ " : [1, -2.5e1,true ,null], " ++ quoted "b" ++ ":{}, " ++ quoted "a" ++ ":"
              ++ quoted "x\u00e9\n" ++ "} ")%string
  = Ok (VDict [("a", VStr (of_chars [ "x"%char; chr 233; chr 10])); ("b", VDict [])])%string.
Proof. vm_compute. reflexivity. Qed.
Abbreviation bad := (Raise JSONDecodeError) (only parsing).
Example json_loads_ex2 : map json_loads [""; "01"; "[1,]"; "-"; "1.e3"; "-0"; "Infinity"; "[] x"]%string
  = [bad; bad; bad; bad; bad; Ok (VInt 0);
     Ok (VFloat (FInf false)); bad].
Proof. vm_compute. reflexivity. Qed.
