(* ===== verification/Regex.v ===== *)
(** * Regular expressions

    What the code uses of Python's [re]: characters, sequence, alternation, greedy repetition,
    groups and word boundaries, with [search].  The matches of an expression at a place are
    listed in the order in which backtracking finds them, so the first one is Python's. *)

From S2P Require Export PyStr.
#[local] Open Scope list_scope.

Inductive regex :=
  | Chr (accepts : ascii -> bool)
  | Eps
  | Cat (a b : regex)
  | Alt (a b : regex)
  | Rep (lo : nat) (hi : option nat) (a : regex)
  | Group (n : nat) (a : regex)
  | Boundary.

(** Spans of the groups matched so far, the last one first *)
Definition captures := list (nat * (nat * nat)).

(** [\w] of a character below 256 *)
Definition is_word (c : ascii) : bool :=
  is_alnum_az09 (lower_char c) || bool_decide (c = "_"%char)
  || bool_decide (code c ∈ [170; 178; 179; 181; 185; 186; 188; 189; 190])
  || ((192 <=? code c) && negb (code c =? 215) && negb (code c =? 247)).

Definition word_at (t : list ascii) (i : nat) : bool := match t !! i with Some c => is_word c | None => false end.
Definition at_boundary (t : list ascii) (i : nat) : bool :=
  xorb (match i with O => false | S j => word_at t j end) (word_at t i).

(** At least [lo] and at most [n] times, as often as possible *)
Fixpoint repeat_match (step : nat -> captures -> list (nat * captures)) (lo n i : nat) (cs : captures)
  : list (nat * captures) :=
  match n with
  | O => if Nat.eqb lo 0 then [(i, cs)] else []
  | S n' =>
      flat_map (fun '(j, cs') => if Nat.leb j i then [] else repeat_match step (pred lo) n' j cs') (step i cs)
      ++ (if Nat.eqb lo 0 then [(i, cs)] else [])
  end.

Fixpoint rmatch (r : regex) (t : list ascii) (i : nat) (cs : captures) : list (nat * captures) :=
  match r with
  | Chr f => match t !! i with Some c => if f c then [(S i, cs)] else [] | None => [] end
  | Eps => [(i, cs)]
  | Cat a b => flat_map (fun '(j, cs') => rmatch b t j cs') (rmatch a t i cs)
  | Alt a b => rmatch a t i cs ++ rmatch b t i cs
  | Rep lo hi a => repeat_match (rmatch a t) lo (default (length t - i)%nat hi) i cs
  | Group n a => map (fun '(j, cs') => (j, (n, (i, j)) :: cs')) (rmatch a t i cs)
  | Boundary => if at_boundary t i then [(i, cs)] else []
  end.

(** [re.Match] *)
Record rematch := MkMatch { m_start : nat; m_end : nat; m_groups : captures }.

Fixpoint search_from (r : regex) (t : list ascii) (i : nat) (n : nat) : option rematch :=
  match rmatch r t i [] with
  | (j, cs) :: _ => Some (MkMatch i j cs)
  | [] => match n with O => None | S n' => search_from r t (S i) n' end
  end.

(** [pattern.search(text)] *)
Definition search (r : regex) (text : string) : option rematch :=
  search_from r (chars text) 0 (length (chars text)).

(** [text[i:j]] *)
Definition slice (i j : nat) (text : string) : string := of_chars (take (j - i) (drop i (chars text))).

(** [match.group(n)] *)
Definition group (n : nat) (m : rematch) (text : string) : option string :=
  (fun '(_, (i, j)) => slice i j text) <$> find_first (fun g => Nat.eqb g.1 n) (m_groups m).

(** ** Expressions without regard to case *)

Definition ci (c : ascii) : regex := Chr (fun x => bool_decide (lower_char x = lower_char c)).
Definition any_of (s : string) : regex :=
  Chr (fun x => existsb (fun c => bool_decide (lower_char x = lower_char c)) (chars s)).
Definition text_re (s : string) : regex := foldr (fun c r => Cat (ci c) r) Eps (chars s).
Definition spaces : regex := Rep 0 None (Chr is_space).
Definition spaces1 : regex := Rep 1 None (Chr is_space).
Definition digits_re (lo hi : nat) : regex := Rep lo (Some hi) (Chr is_digit).
Definition seq_re (l : list regex) : regex := foldr Cat Eps l.

(** ** Where matches lie *)

Lemma repeat_match_bounds step lo n i cs j cs' (P : nat -> Prop) :
  (forall i cs j cs', P i -> (j, cs') ∈ step i cs -> P j) -> P i -> (j, cs') ∈ repeat_match step lo n i cs ->
  (i <= j)%nat /\ P j.
Proof.
  intros Hstep. revert lo i cs. induction n as [|n IH]; intros lo i cs Hi; simpl.
  - destruct (Nat.eqb lo 0); [|by intros ?%elem_of_nil]. by intros [= <- <-]%list_elem_of_singleton.
  - intros [Hm|Hm]%elem_of_app.
    + apply list_elem_of_In, in_flat_map in Hm as ([k cs1] & Hk%list_elem_of_In & Hm%list_elem_of_In).
      destruct (Nat.leb_spec k i); [by apply elem_of_nil in Hm|]. apply IH in Hm as [? ?]; [|by eapply Hstep].
      split; [lia|done].
    + destruct (Nat.eqb lo 0); [|by apply elem_of_nil in Hm]. apply list_elem_of_singleton in Hm as [= <- <-]. done.
Qed.

Lemma rmatch_bounds r t i cs j cs' :
  (i <= length t)%nat -> (j, cs') ∈ rmatch r t i cs -> (i <= j <= length t)%nat.
Proof.
  revert i cs j cs'. induction r as [f| |a IHa b IHb|a IHa b IHb|lo hi a IHa|n a IHa|]; intros i cs j cs' Hi; simpl.
  - destruct (t !! i) as [c|] eqn:E; [|by intros ?%elem_of_nil]. apply lookup_lt_Some in E.
    destruct (f c); [|by intros ?%elem_of_nil]. intros [= -> _]%list_elem_of_singleton. lia.
  - intros [= -> _]%list_elem_of_singleton. lia.
  - intros ([k cs1] & Hk%list_elem_of_In & Hm%list_elem_of_In)%list_elem_of_In%in_flat_map.
    apply IHa in Hk; [|done]. apply IHb in Hm; lia.
  - intros [Hm|Hm]%elem_of_app; [by eapply IHa|by eapply IHb].
  - intros Hm. apply (repeat_match_bounds _ _ _ _ _ _ _ (fun k => (k <= length t)%nat)) in Hm as [? ?];
      [done| |done]. intros k cs1 k' cs2 Hk Hs. apply IHa in Hs; [lia|done].
  - intros ([k cs1] & [= -> _] & Hk)%list_elem_of_fmap. by eapply IHa.
  - destruct (at_boundary t i); [|by intros ?%elem_of_nil]. intros [= -> _]%list_elem_of_singleton. lia.
Qed.

Lemma search_from_bounds r t i n m : (i + n = length t)%nat -> search_from r t i n = Some m ->
  (m_start m <= m_end m <= length t)%nat.
Proof.
  revert i. induction n as [|n IH]; intros i Hn; simpl;
    (destruct (rmatch r t i []) as [|[j cs] l] eqn:E; [|intros [= <-]; simpl;
      apply (rmatch_bounds r t i [] j cs); [lia|rewrite E; by left]]); [done|]. apply IH. lia.
Qed.

Lemma search_bounds r text m : search r text = Some m ->
  (m_start m <= m_end m <= length (chars text))%nat.
Proof. by apply search_from_bounds. Qed.

(** ** Parts of a text *)

Definition within (part whole : string) : Prop := exists p q, chars whole = p ++ chars part ++ q.

Lemma within_trans a b c : within a b -> within b c -> within a c.
Proof.
  intros (p & q & Hb) (p' & q' & Hc). exists (p' ++ p), (q ++ q'). rewrite Hc, Hb. by rewrite <- !app_assoc.
Qed.

Lemma slice_within i j k l text : (k <= i <= j)%nat -> (j <= l)%nat -> within (slice i j text) (slice k l text).
Proof.
  intros Hi Hl. unfold within, slice. rewrite !chars_of_chars. set (t := chars text).
  exists (take (i - k) (drop k t)), (drop (j - k) (take (l - k) (drop k t))).
  rewrite <- (take_drop (i - k) (take (l - k) (drop k t))) at 1. rewrite take_take, Nat.min_l by lia. f_equal.
  rewrite <- (take_drop (j - i) (drop (i - k) (take (l - k) (drop k t)))) at 1. f_equal.
  - rewrite skipn_firstn_comm, take_take, drop_drop. f_equal; [lia|]. f_equal. lia.
  - rewrite drop_drop. f_equal. lia.
Qed.

Lemma slice_whole text : slice 0 (length (chars text)) text = text.
Proof. unfold slice. rewrite drop_0, Nat.sub_0_r, take_ge by lia. apply of_chars_chars. Qed.

Lemma lstrip_suffix f l : exists p, l = p ++ lstrip_by f l.
Proof.
  induction l as [|c l [p IH]]; [by exists []|]. simpl. destruct (f c); [exists (c :: p); simpl; congruence|by exists []].
Qed.

Lemma lstrip_within f a m : exists p, lstrip_by f (a ++ m) = p ++ lstrip_by f m.
Proof.
  induction a as [|c a IH]; [by exists []|]. simpl. destruct (f c); [done|].
  destruct (lstrip_suffix f m) as [q Hq]. exists (c :: a ++ q). simpl. by rewrite <- app_assoc, <- Hq.
Qed.

Lemma lstrip_app f m b : exists q, lstrip_by f (m ++ b) = lstrip_by f m ++ q.
Proof.
  induction m as [|c m IH]; [by eexists|]. simpl. destruct (f c); [done|]. by exists b.
Qed.

Lemma strip_within part whole : within part whole -> within (strip part) (strip whole).
Proof.
  intros (p & q & Hw). unfold within, strip, strip_by. rewrite !chars_of_chars, Hw.
  destruct (lstrip_within is_space p (chars part ++ q)) as [p1 ->].
  destruct (lstrip_app is_space (chars part) q) as [q1 ->].
  set (m := lstrip_by is_space (chars part)). rewrite !rev_app_distr, <- app_assoc.
  destruct (lstrip_within is_space (rev q1) (rev m ++ rev p1)) as [q2 ->].
  destruct (lstrip_app is_space (rev m) (rev p1)) as [p2 ->].
  exists (rev p2), (rev q2). by rewrite !rev_app_distr, <- app_assoc.
Qed.

Lemma strip_part s : within (strip s) s.
Proof.
  unfold within, strip, strip_by. rewrite chars_of_chars.
  destruct (lstrip_suffix is_space (chars s)) as [p Hp].
  destruct (lstrip_suffix is_space (rev (lstrip_by is_space (chars s)))) as [q Hq].
  exists p, (rev q). rewrite Hp at 1. f_equal.
  rewrite <- (rev_involutive (lstrip_by is_space (chars s))) at 1. by rewrite Hq at 1; rewrite rev_app_distr.
Qed.
