(* ===== verification/Tables.v ===== *)
(** * Tables

    A table is the list of its rows in insertion order, which is also the order of the
    queries that name none.  Insertion enforces the unique and check constraints; reading,
    updating and picking the largest row are the queries the repositories share.
    [table_ok] says that every row satisfies its check and clashes with no other. *)

From S2P Require Export PyVal PyFloat Hoare.
#[local] Open Scope list_scope.

Definition IntegrityError : exn := OtherError "IntegrityError".

(** What a NUMERIC column of that scale returns for a float stored in it *)
Class NumericColumns := numeric : Z -> float -> float.

(** Adds [row] when it clashes with no row and satisfies its check. *)
Definition insert_row {A} (clash : A -> A -> bool) (check : A -> bool) (row : A) (table : list A)
  : option (list A) :=
  if existsb (clash row) table || negb (check row) then None else Some (table ++ [row])%list.

Fixpoint insert_rows {A} (clash : A -> A -> bool) (check : A -> bool) (rows table : list A)
  : option (list A) :=
  match rows with
  | [] => Some table
  | r :: rows' =>
      match insert_row clash check r table with
      | Some table' => insert_rows clash check rows' table'
      | None => None
      end
  end.

(** [session.add(model); session.commit()] *)
Definition add_to {S R} (table : S -> list R) (store : list R -> S -> S)
    (clash : R -> R -> bool) (check : R -> bool) (row : R) : M S unit :=
  d ← get;
  match insert_row clash check row (table d) with
  | Some rows => put (store rows d)
  | None => raise IntegrityError
  end.

(** [session.get(Model, id)] and an update of that row *)
Definition get_by {A} (id_of : A -> Z) (id : Z) (table : list A) : option A :=
  find_first (fun r => id_of r =? id) table.
Definition update_by {A} (id_of : A -> Z) (id : Z) (f : A -> A) (table : list A) : list A :=
  map (fun r => if id_of r =? id then f r else r) table.

(** [ORDER BY key DESC LIMIT 1]: among the rows with the largest key, the first one *)
Definition max_by {A} (lt : A -> A -> bool) (l : list A) : option A :=
  match l with
  | [] => None
  | x :: l' => Some (foldl (fun best y => if lt best y then y else best) x l')
  end.

Definition opt_check {A} (f : A -> bool) (x : option A) : bool :=
  match x with Some y => f y | None => true end.

(** ** Facts *)

Lemma insert_row_Some {A} clash check (row : A) table table' :
  insert_row clash check row table = Some table' ->
  table' = (table ++ [row])%list /\ check row = true /\ Forall (fun r => clash row r = false) table.
Proof.
  unfold insert_row. destruct (existsb _ _) eqn:E, (check row) eqn:C; simpl; try done.
  intros [= <-]. split; [done|]. split; [done|]. by apply existsb_false_Forall.
Qed.

Lemma insert_rows_Some {A} clash check (rows table table' : list A) :
  insert_rows clash check rows table = Some table' ->
  table' = (table ++ rows)%list /\ Forall (fun r => check r = true) rows.
Proof.
  revert table. induction rows as [|r rows IH]; intros table; simpl.
  - intros [= <-]. by rewrite app_nil_r.
  - destruct (insert_row clash check r table) eqn:E; [|done].
    apply insert_row_Some in E as (-> & ? & _). intros [-> ?]%IH.
    rewrite <- app_assoc. split; [done|by constructor].
Qed.

Lemma get_by_Some {A} (id_of : A -> Z) id (table : list A) r :
  get_by id_of id table = Some r -> r ∈ table /\ id_of r = id.
Proof. intros [? ?%Z.eqb_eq]%find_first_Some. done. Qed.

Lemma get_by_update {A} (id_of : A -> Z) id id' f (table : list A) :
  (forall r, id_of (f r) = id_of r) ->
  get_by id_of id' (update_by id_of id f table)
  = (fun r => if id =? id' then f r else r) <$> get_by id_of id' table.
Proof.
  intros Hf. unfold get_by, update_by. induction table as [|r t IH]; [done|]. simpl.
  destruct (Z.eqb_spec (id_of r) id) as [<-|].
  - rewrite Hf. destruct (Z.eqb_spec (id_of r) id'); [done|]. exact IH.
  - destruct (Z.eqb_spec (id_of r) id') as [<-|]; [|exact IH].
    simpl. destruct (Z.eqb_spec id (id_of r)); [congruence|done].
Qed.

Lemma get_by_update_ne {A} (id_of : A -> Z) id id' (row : A) (table : list A) :
  id_of row = id -> id <> id' ->
  get_by id_of id' (update_by id_of id (fun _ => row) table) = get_by id_of id' table.
Proof.
  intros Hrow Hne. unfold get_by, update_by. induction table as [|r t IH]; [done|]. simpl.
  destruct (Z.eqb_spec (id_of r) id) as [E|E]; simpl; [|by rewrite IH].
  rewrite IH. destruct (Z.eqb_spec (id_of row) id'), (Z.eqb_spec (id_of r) id'); congruence.
Qed.

Lemma get_by_app {A} (id_of : A -> Z) id (t1 t2 : list A) :
  get_by id_of id (t1 ++ t2)%list
  = match get_by id_of id t1 with Some r => Some r | None => get_by id_of id t2 end.
Proof. unfold get_by. induction t1 as [|r t IH]; simpl; [done|]. by destruct (_ =? _). Qed.

(** ** Tables that satisfy their constraints *)

Record table_ok {A} (clash : A -> A -> bool) (check : A -> bool) (t : list A) : Prop := {
  no_clash : StronglySorted (fun a b => clash b a = false) t;
  all_checked : Forall (fun r => check r = true) t
}.

Lemma StronglySorted_snoc {A} (R : A -> A -> Prop) l x :
  StronglySorted R l -> Forall (fun y => R y x) l -> StronglySorted R (l ++ [x]).
Proof.
  intros Hs Hx. induction Hs as [|y l Hs IH Hy]; simpl; [by repeat constructor|].
  apply Forall_cons in Hx as [Hyx Hx]. constructor; [by apply IH|].
  apply Forall_app. split; [done|by constructor].
Qed.

Lemma table_ok_nil {A} clash check : @table_ok A clash check [].
Proof. split; constructor. Qed.

Lemma insert_row_ok {A} clash check (row : A) t t' :
  table_ok clash check t -> insert_row clash check row t = Some t' -> table_ok clash check t'.
Proof.
  intros [Hs Hc] (-> & Hcheck & Hrow)%insert_row_Some. split.
  - by apply StronglySorted_snoc.
  - apply Forall_app. split; [done|by constructor].
Qed.

Lemma insert_rows_ok {A} clash check (rows t t' : list A) :
  table_ok clash check t -> insert_rows clash check rows t = Some t' -> table_ok clash check t'.
Proof.
  revert t. induction rows as [|r rows IH]; intros t Ht; simpl; [by intros [= <-]|].
  destruct (insert_row clash check r t) eqn:E; [|done].
  apply IH. by eapply insert_row_ok.
Qed.

Lemma StronglySorted_lookup_lt {A} (R : A -> A -> Prop) l i j a b :
  StronglySorted R l -> l !! i = Some a -> l !! j = Some b -> (i < j)%nat -> R a b.
Proof.
  intros Hs. revert i j. induction Hs as [|x l Hs IH Hx]; intros i j Hi Hj Hij; [done|].
  destruct j as [|j]; [lia|]. simpl in Hj. destruct i as [|i]; simpl in Hi.
  - injection Hi as ->. rewrite Forall_forall in Hx. by eapply Hx, list_elem_of_lookup_2.
  - apply (IH i j); [done..|lia].
Qed.

(** Rows that clash both ways are the same row. *)
Lemma table_unique {A} clash check (t : list A) a b :
  table_ok clash check t -> a ∈ t -> b ∈ t -> clash a b = true -> clash b a = true -> a = b.
Proof.
  intros [Hs _] [i Hi]%list_elem_of_lookup [j Hj]%list_elem_of_lookup Hab Hba.
  destruct (lt_eq_lt_dec i j) as [[Hlt|Heq]|Hlt]; [|congruence|].
  - pose proof (StronglySorted_lookup_lt _ _ _ _ _ _ Hs Hi Hj Hlt) as Hf. simpl in Hf. congruence.
  - pose proof (StronglySorted_lookup_lt _ _ _ _ _ _ Hs Hj Hi Hlt) as Hf. simpl in Hf. congruence.
Qed.

(** An update that makes no two rows clash *)
Lemma map_ok_le {A} (clash : A -> A -> bool) check (f : A -> A) t :
  (forall a b, a ∈ t -> b ∈ t -> clash a b = false -> clash (f a) (f b) = false) ->
  (forall a, a ∈ t -> check a = true -> check (f a) = true) ->
  table_ok clash check t -> table_ok clash check (map f t).
Proof.
  intros Hk Hf [Hs Hc]. split.
  - clear Hc Hf. induction Hs as [|a t Hs IH Ha]; simpl; constructor.
    + apply IH. intros b c Hb Hc. apply Hk; set_solver.
    + apply Forall_map. rewrite Forall_forall in Ha |- *. intros b Hb. apply Hk; [set_solver..|by apply Ha].
  - apply Forall_map. rewrite Forall_forall in Hc |- *. intros a Ha. by apply Hf, Hc.
Qed.

(** An update that keeps the keys of a row *)
Lemma map_ok {A} (clash : A -> A -> bool) check (f : A -> A) t :
  (forall a b, a ∈ t -> b ∈ t -> clash (f a) (f b) = clash a b) ->
  (forall a, a ∈ t -> check a = true -> check (f a) = true) ->
  table_ok clash check t -> table_ok clash check (map f t).
Proof. intros Hk. apply map_ok_le. intros a b Ha Hb. by rewrite Hk. Qed.

(** ** Insertions *)

Lemma wp_add_to {S R} (table : S -> list R) store clash check row w s (Q : result unit -> sys S -> Prop) :
  (forall t', insert_row clash check row (table (state_of s)) = Some t' ->
     Q (Ok tt) (Sys (store t' (state_of s)) (drawn s) (ticks s))) ->
  Q (Raise IntegrityError) s ->
  wp (add_to table store clash check row) w s Q.
Proof.
  intros HO HR. unfold add_to. wp_step. destruct (insert_row _ _ _ _) eqn:E; [by apply HO|done].
Qed.
