(* ===== verification/PyTime.v ===== *)
(** * Instants, durations and their ISO text

    A timezone-aware [datetime] is the number of microseconds since
    1970-01-01T00:00:00Z, a [timedelta] a number of microseconds; both are
    unbounded here, where Python raises [OverflowError] outside the years 1 to
    9999.  A [datetime] argument that code may refuse for lacking a timezone is
    a [stamp].  This file also gives the proleptic Gregorian calendar
    [isoformat] needs. *)

From S2P Require Export Prelude PyStr.

(** ** Time stamps *)

Record stamp := Stamp { aware : bool; instant : Z }.

(** [_utc(value)], shared by the modules that define it *)
Definition to_utc (t : stamp) : result Z :=
  if aware t then Ok (instant t) else Raise ValueError.

Definition us_per_second : Z := 1000000.
Definition seconds (n : Z) : Z := n * us_per_second.
Definition minutes (n : Z) : Z := seconds (60 * n).
Definition hours (n : Z) : Z := seconds (3600 * n).
Definition days (n : Z) : Z := seconds (86400 * n).

(** ** Calendar *)

(** Day number (days since 1970-01-01) to year, month and day. *)
Definition civil_of_days (z : Z) : Z * Z * Z :=
  let z := z + 719468 in
  let era := z / 146097 in
  let doe := z mod 146097 in
  let yoe := (doe - doe / 1460 + doe / 36524 - doe / 146096) / 365 in
  let doy := doe - (365 * yoe + yoe / 4 - yoe / 100) in
  let mp := (5 * doy + 2) / 153 in
  let d := doy - (153 * mp + 2) / 5 + 1 in
  let m := if mp <? 10 then mp + 3 else mp - 9 in
  (yoe + era * 400 + (if m <=? 2 then 1 else 0), m, d).

Definition days_of_civil (c : Z * Z * Z) : Z :=
  let '(y, m, d) := c in
  let y := if m <=? 2 then y - 1 else y in
  let era := y / 400 in
  let yoe := y mod 400 in
  let mp := if 2 <? m then m - 3 else m + 9 in
  let doy := (153 * mp + 2) / 5 + d - 1 in
  let doe := yoe * 365 + yoe / 4 - yoe / 100 + doy in
  era * 146097 + doe - 719468.

(** ** Text *)

Fixpoint pad_list (n : nat) (z : Z) : list ascii :=
  match n with
  | O => []
  | S n' => (pad_list n' (z / 10) ++ [chr (48 + z mod 10)])%list
  end.
(** [f"{z:0nd}"] for [0 <= z < 10^n] *)
Definition pad (n : nat) (z : Z) : string := of_chars (pad_list n z).

(** [t.isoformat(timespec="seconds")] of a UTC instant, with "+00:00" as "Z" *)
Definition iso_seconds (t : Z) : string :=
  let s := t / us_per_second in
  let '(y, m, d) := civil_of_days (s / 86400) in
  let r := s mod 86400 in
  pad 4 y ++ "-" ++ pad 2 m ++ "-" ++ pad 2 d ++ "T" ++ pad 2 (r / 3600) ++ ":"
  ++ pad 2 (r / 60 mod 60) ++ ":" ++ pad 2 (r mod 60) ++ "Z".

(** [t.isoformat()] of a UTC instant: microseconds only when there are some *)
Definition isoformat (t : Z) : string :=
  let s := t / us_per_second in
  let us := t mod us_per_second in
  let '(y, m, d) := civil_of_days (s / 86400) in
  let r := s mod 86400 in
  pad 4 y ++ "-" ++ pad 2 m ++ "-" ++ pad 2 d ++ "T" ++ pad 2 (r / 3600) ++ ":"
  ++ pad 2 (r / 60 mod 60) ++ ":" ++ pad 2 (r mod 60)
  ++ (if us =? 0 then "" else "." ++ pad 6 us) ++ "+00:00".

Example iso_seconds_ex : iso_seconds (seconds 1753100130) = "2025-07-21T12:15:30Z".
Proof. reflexivity. Qed.
Example isoformat_ex : isoformat (seconds 951825599 + 120) = "2000-02-29T11:59:59.000120+00:00".
Proof. reflexivity. Qed.

(** ** Facts *)

#[local] Ltac Zify.zify_post_hook ::= Z.div_mod_to_equations.

Fixpoint all_from (f : Z -> bool) (n : nat) (z : Z) : bool :=
  match n with
  | O => true
  | S n' => f z && all_from f n' (z + 1)
  end.

Lemma all_from_spec f n z x : all_from f n z = true -> z <= x < z + Z.of_nat n -> f x = true.
Proof.
  revert z. induction n as [|n IH]; intros z H Hx; [lia|].
  cbn [all_from] in H. apply andb_true_iff in H as [Hz H].
  destruct (Z.eq_dec z x) as [<-|]; [done|]. apply (IH (z + 1)); [done|lia].
Qed.

(** The day of the cycle on which year [y] of the cycle starts. *)
Definition year_start (y : Z) : Z := 365 * y + y / 4 - y / 100.
Definition year_of_doe (doe : Z) : Z :=
  (doe - doe / 1460 + doe / 36524 - doe / 146096) / 365.

Lemma year_of_doe_mono x y : 0 <= x <= y -> y < 146096 -> year_of_doe x <= year_of_doe y.
Proof.
  intros. unfold year_of_doe. rewrite (Z.div_small x 146096), (Z.div_small y 146096) by lia.
  apply Z.div_le_mono; [lia|].
  assert (Hq : y / 1460 - x / 1460 <= y - x).
  { pose proof (Z.div_mod x 1460). pose proof (Z.div_mod y 1460).
    pose proof (Z.mod_pos_bound x 1460). pose proof (Z.mod_pos_bound y 1460).
    pose proof (Z.div_le_mono x y 1460). lia. }
  pose proof (Z.div_le_mono x y 36524). lia.
Qed.

Lemma year_bounds_checked :
  all_from (fun y => (year_of_doe (year_start y) =? y)
                     && (year_of_doe (Z.min 146095 (year_start (y + 1) - 1)) =? y)) 400 0 = true.
Proof. vm_compute. reflexivity. Qed.

Lemma year_bounds y : 0 <= y < 400 ->
  year_of_doe (year_start y) = y
  /\ year_of_doe (Z.min 146095 (year_start (y + 1) - 1)) = y.
Proof.
  intros Hy. pose proof (all_from_spec _ _ _ y year_bounds_checked ltac:(lia)) as H.
  cbv beta in H. rewrite andb_true_iff, !Z.eqb_eq in H. exact H.
Qed.

Lemma year_of_doe_spec doe : 0 <= doe < 146097 ->
  0 <= year_of_doe doe < 400 /\ 0 <= doe - year_start (year_of_doe doe) < 366.
Proof.
  intros Hdoe. destruct (Z.eq_dec doe 146096) as [->|Hne]; [vm_compute; intuition congruence|].
  pose proof (year_of_doe_mono 0 doe ltac:(lia) ltac:(lia)) as H0.
  pose proof (year_of_doe_mono doe 146095 ltac:(lia) ltac:(lia)) as H1.
  change (year_of_doe 0) with 0 in H0. change (year_of_doe 146095) with 399 in H1.
  set (y := year_of_doe doe) in *. split; [lia|].
  assert (Hstart : forall z, 0 <= z < 400 -> 0 <= year_start z < 146096)
    by (unfold year_start; intros; lia).
  assert (Hs : year_start y <= doe).
  { destruct (Z_le_gt_dec (year_start y) doe) as [|Hlt]; [done|].
    destruct (Z.eq_dec y 0) as [Hy|]; [rewrite Hy in Hlt; change (year_start 0) with 0 in Hlt; lia|].
    destruct (year_bounds (y - 1) ltac:(lia)) as [_ Hb].
    replace (y - 1 + 1) with y in Hb by lia.
    pose proof (Hstart y ltac:(lia)).
    pose proof (year_of_doe_mono doe (Z.min 146095 (year_start y - 1)) ltac:(lia) ltac:(lia)).
    fold y in H2. lia. }
  assert (He : doe < year_start (y + 1)).
  { destruct (Z_le_gt_dec (year_start (y + 1)) doe) as [Hle|]; [|lia].
    destruct (Z.eq_dec y 399) as [Hy|].
    { rewrite Hy in Hle. change (year_start (399 + 1)) with 146096 in Hle. lia. }
    destruct (year_bounds (y + 1) ltac:(lia)) as [Hb _].
    pose proof (Hstart (y + 1) ltac:(lia)).
    pose proof (year_of_doe_mono (year_start (y + 1)) doe ltac:(lia) ltac:(lia)).
    fold y in H2. lia. }
  unfold year_start in *. lia.
Qed.

Lemma civil_of_days_facts z :
  let '(y, m, d) := civil_of_days z in
  days_of_civil (y, m, d) = z /\ 1 <= m <= 12 /\ 1 <= d <= 31
  /\ 400 * ((z + 719468) / 146097) <= y <= 400 * ((z + 719468) / 146097) + 400.
Proof.
  unfold civil_of_days. cbv zeta.
  set (k := (z + 719468) / 146097). set (doe := (z + 719468) mod 146097).
  assert (Hz : z = doe + k * 146097 - 719468).
  { unfold doe, k. pose proof (Z.div_mod (z + 719468) 146097). lia. }
  assert (Hdoe : 0 <= doe < 146097) by (apply Z.mod_pos_bound; lia).
  clearbody doe k. subst z.
  pose proof (year_of_doe_spec doe Hdoe) as [Hy Hdoy].
  fold (year_of_doe doe). set (y := year_of_doe doe) in *. clearbody y.
  fold (year_start y). unfold year_start in *.
  set (doy := doe - (365 * y + y / 4 - y / 100)) in *.
  set (mp := (5 * doy + 2) / 153).
  assert (Hmp : 0 <= mp <= 11) by (unfold mp; lia).
  assert (Hd : 1 <= doy - (153 * mp + 2) / 5 + 1 <= 31) by (unfold mp; lia).
  clearbody mp.
  destruct (Z.ltb_spec mp 10) as [Hm|Hm].
  - rewrite (proj2 (Z.leb_gt _ _)) by lia. split; [|lia].
    unfold days_of_civil. rewrite (proj2 (Z.leb_gt _ _)), (proj2 (Z.ltb_lt _ _)) by lia.
    replace (y + k * 400 + 0) with (y + k * 400) by lia.
    rewrite Z.div_add, Z.mod_add, Z.div_small, Z.mod_small by lia.
    replace (mp + 3 - 3) with mp by lia. unfold doy. lia.
  - rewrite (proj2 (Z.leb_le _ _)) by lia. split; [|lia].
    unfold days_of_civil. rewrite (proj2 (Z.leb_le _ _)), (proj2 (Z.ltb_ge _ _)) by lia.
    replace (y + k * 400 + 1 - 1) with (y + k * 400) by lia.
    rewrite Z.div_add, Z.mod_add, Z.div_small, Z.mod_small by lia.
    replace (mp - 9 + 9) with mp by lia. unfold doy. lia.
Qed.

Lemma length_pad_list n z : length (pad_list n z) = n.
Proof. revert z. induction n; intros; simpl; [done|]. rewrite length_app, IHn. simpl. lia. Qed.

Lemma pad_list_inj n a b :
  0 <= a < 10 ^ Z.of_nat n -> 0 <= b < 10 ^ Z.of_nat n -> pad_list n a = pad_list n b -> a = b.
Proof.
  revert a b. induction n as [|n IH]; intros a b Ha Hb H; [simpl in *; lia|].
  rewrite Nat2Z.inj_succ, Z.pow_succ_r in Ha, Hb by lia. simpl in H.
  apply app_inj_2 in H as [H1 H2]; [|done]. injection H2 as H2.
  apply (f_equal code) in H2. pose proof (Z.mod_pos_bound a 10). pose proof (Z.mod_pos_bound b 10).
  rewrite !code_chr in H2 by lia.
  apply IH in H1; [|split; [apply Z.div_pos|apply Z.div_lt_upper_bound]; lia..].
  rewrite (Z.div_mod a 10), (Z.div_mod b 10) by lia. lia.
Qed.

(** * Audit values ([domain/audit.py])

    [RecordIdentity], [AuditActor] and [AuditContext]: frozen values whose
    constructors validate their fields.  Every value a program can hold went
    through its constructor, here a function into [result]. *)
Record RecordIdentity := MkRecordIdentity {
  rid_id : Z; rid_created_at : Z; rid_updated_at : Z; rid_version : Z
}.

(** [RecordIdentity(...)] with its [__post_init__] *)
Definition RecordIdentity_init (id : Z) (created_at updated_at : stamp) (version : Z)
  : result RecordIdentity :=
  created_at ← to_utc created_at;
  updated_at ← to_utc updated_at;
  if updated_at <? created_at then Raise ValueError
  else if version <? 1 then Raise ValueError
  else Ok (MkRecordIdentity id created_at updated_at version).

(** [RecordIdentity.new]; [clock_now] and [fresh] are what [datetime.now(timezone.utc)]
    and [uuid4()] return. *)
Definition RecordIdentity_new (clock_now fresh : Z) (now : option stamp) (id : option Z)
  : result RecordIdentity :=
  timestamp ← to_utc (default (Stamp true clock_now) now);
  RecordIdentity_init (default fresh id) (Stamp true timestamp) (Stamp true timestamp) 1.

Inductive ActorKind := System | Service | Operator.

#[export] Instance ActorKind_eq_dec : EqDecision ActorKind.
Proof. solve_decision. Defined.

Record AuditActor := MkAuditActor { actor_kind : ActorKind; actor_id : option string }.

#[export] Instance AuditActor_eq_dec : EqDecision AuditActor.
Proof. solve_decision. Defined.

(** [AuditActor.__post_init__] *)
Definition AuditActor_init (kind : ActorKind) (id : option string) : result AuditActor :=
  match kind with
  | System =>
      match id with
      | Some _ => Raise ValueError
      | None => Ok (MkAuditActor kind id)
      end
  | _ =>
      match id with
      | None => Raise ValueError
      | Some i =>
          if bool_decide (strip i = "") || (128 <? len i) then Raise ValueError
          else if existsb is_space (chars i) then Raise ValueError
          else Ok (MkAuditActor kind id)
      end
  end.

Definition AuditActor_system : AuditActor := MkAuditActor System None.

Record AuditContext := MkAuditContext {
  ctx_actor : AuditActor; ctx_source : string; ctx_correlation_id : Z
}.

Definition is_source_char (c : ascii) : bool :=
  is_lower_az c || is_digit c || bool_decide (c ∈ ["."%char; "_"%char; "-"%char]).

(** [AuditContext.__post_init__] *)
Definition AuditContext_init (actor : AuditActor) (source : string) (correlation_id : Z)
  : result AuditContext :=
  if bool_decide (source = "") || (128 <? len source) then Raise ValueError
  else if existsb (fun c => negb (is_source_char c)) (chars source) then Raise ValueError
  else Ok (MkAuditContext actor source correlation_id).

(** [AuditContext.system] *)
Definition AuditContext_system (source : string) (correlation_id : Z) : result AuditContext :=
  AuditContext_init AuditActor_system source correlation_id.

(** ** Facts *)

(** What the constructor of an actor guarantees. *)
Definition wf_actor (a : AuditActor) : Prop :=
  match actor_kind a, actor_id a with
  | System, None => True
  | System, Some _ => False
  | _, None => False
  | _, Some i => 0 < len i <= 128 /\ Forall (fun c => is_space c = false) (chars i)
  end.

Lemma AuditActor_init_wf kind id a : AuditActor_init kind id = Ok a -> wf_actor a.
Proof.
  unfold AuditActor_init, wf_actor. intros H.
  destruct kind, id as [i|]; simplify_eq/=; try done.
  all: case_match eqn:E1; [done|]; case_match eqn:E2; [done|]; simplify_eq/=.
  all: apply orb_false_iff in E1 as [E0 E1]; apply bool_decide_eq_false in E0;
    apply Z.ltb_ge in E1; apply existsb_false_Forall in E2.
  all: split; [split; [|done]|done].
  all: destruct i; [by destruct E0|unfold len; simpl; lia].
Qed.
