(* ===== verification/JobContracts.v ===== *)
(** * Durable-job contracts ([application/jobs/contracts.py], [ports.py])

    Job and attempt states, the normalisation of the three parts of a job
    identity, the submission command, the failure classes and their
    classification. *)

From S2P Require Export PyFloat PyStr PyTime PyVal.

Inductive JobState := PENDING | QUEUED | RUNNING | SUCCEEDED | RETRY_WAIT | FAILED.
Inductive AttemptState :=
  | ATTEMPT_RUNNING | ATTEMPT_SUCCEEDED | TRANSIENT_FAILURE | PERMANENT_FAILURE | ABANDONED.

#[export] Instance JobState_eq_dec : EqDecision JobState.
Proof. solve_decision. Defined.
#[export] Instance AttemptState_eq_dec : EqDecision AttemptState.
Proof. solve_decision. Defined.

Definition is_terminal_state (state : JobState) : bool :=
  match state with SUCCEEDED | FAILED => true | _ => false end.

(** ** The three regular expressions, as scanners of the whole string *)

(** [[a-z][a-z0-9]*(?:[._-][a-z0-9]+)*]: [fresh] says that a word must start
    here, [first] that it is the first one, whose first character is a letter. *)
Fixpoint job_type_scan (first fresh : bool) (l : list ascii) : bool :=
  match l with
  | [] => negb fresh
  | c :: l' =>
      if fresh then
        (if first then is_lower_az c else is_alnum_az09 c) && job_type_scan false false l'
      else if is_alnum_az09 c then job_type_scan false false l'
      else bool_decide (c ∈ ["."%char; "_"%char; "-"%char]) && job_type_scan false true l'
  end.
Definition _JOB_TYPE_RE (s : string) : bool := job_type_scan true true (chars s).

(** [[A-Za-z0-9][A-Za-z0-9._:/-]{0,199}] *)
Definition is_alnum (c : ascii) : bool := is_lower_az c || is_upper_az c || is_digit c.
Definition is_key_char (c : ascii) : bool :=
  is_alnum c || bool_decide (c ∈ ["."%char; "_"%char; ":"%char; "/"%char; "-"%char]).
Definition _SAFE_KEY_RE (s : string) : bool :=
  match chars s with
  | [] => false
  | c :: l => is_alnum c && forallb is_key_char l && (Nat.leb (length l) 199)
  end.

(** [[a-z0-9._-]+] *)
Definition is_code_char (c : ascii) : bool :=
  is_alnum_az09 c || bool_decide (c ∈ ["."%char; "_"%char; "-"%char]).
Definition error_code_re (s : string) : bool :=
  match chars s with [] => false | l => forallb is_code_char l end.

(** ** Normalisation *)

Definition normalize_job_type (value : string) : result string :=
  let normalized := lower (strip value) in
  if bool_decide (normalized = "") || (100 <? len normalized) || negb (_JOB_TYPE_RE normalized)
  then Raise ValueError
  else Ok normalized.

Definition normalize_target (value : string) : result string :=
  let normalized := strip value in
  let lowered := lower normalized in
  if bool_decide (normalized = "") || (300 <? len normalized)
     || existsb is_space (chars normalized)
     || existsb (fun marker => contains marker lowered) ["token="; "secret="; "password="]
     || contains "?" normalized || contains "#" normalized
  then Raise ValueError
  else Ok normalized.

Definition normalize_idempotency_key (value : string) : result string :=
  let normalized := strip value in
  if negb (_SAFE_KEY_RE normalized) then Raise ValueError else Ok normalized.

Definition _normalize_error_code (code : string) : result string :=
  let normalized := lower (strip code) in
  if bool_decide (normalized = "") || (100 <? len normalized) || negb (error_code_re normalized)
  then Raise ValueError
  else Ok normalized.

(** ** Identities and commands *)

Record JobIdentity := MkJobIdentity {
  job_type : string; logical_target : string; idempotency_key : string
}.

#[export] Instance JobIdentity_eq_dec : EqDecision JobIdentity.
Proof. solve_decision. Defined.

(** [JobIdentity.create], whose constructor normalises each field in turn *)
Definition JobIdentity_create (job_type logical_target idempotency_key : string)
  : result JobIdentity :=
  jt ← normalize_job_type job_type;
  lt ← normalize_target logical_target;
  ik ← normalize_idempotency_key idempotency_key;
  Ok (MkJobIdentity jt lt ik).

(** [JobIdentity.key] *)
Definition identity_key (i : JobIdentity) : string * string * string :=
  (job_type i, logical_target i, idempotency_key i).

Record SubmitJob := MkSubmitJob {
  sub_identity : JobIdentity; sub_correlation_id : Z; sub_actor : AuditActor;
  sub_max_attempts : Z
}.

(** [SubmitJob.__post_init__] *)
Definition SubmitJob_init (identity : JobIdentity) (correlation_id : Z) (actor : AuditActor)
    (max_attempts : Z) : result SubmitJob :=
  if negb ((1 <=? max_attempts) && (max_attempts <=? 10)) then Raise ValueError
  else Ok (MkSubmitJob identity correlation_id actor max_attempts).

(** [SubmitJob.create]; [fresh] is what [uuid4()] returns when no correlation id is
    given. *)
Definition SubmitJob_create (fresh : Z) (job_type logical_target idempotency_key : string)
    (correlation_id : option Z) (actor : option AuditActor) (max_attempts : Z)
  : result SubmitJob :=
  identity ← JobIdentity_create job_type logical_target idempotency_key;
  SubmitJob_init identity (default fresh correlation_id) (default AuditActor_system actor)
    max_attempts.

Record JobSnapshot := MkJobSnapshot {
  snap_execution_id : Z; snap_identity : JobIdentity; snap_state : JobState;
  snap_attempt_count : Z; snap_max_attempts : Z;
  snap_result : option (odict string pyval);
  snap_error_code : option string; snap_available_at : option Z
}.

Record JobContext := MkJobContext {
  jc_execution_id : Z; jc_attempt_number : Z; jc_correlation_id : Z;
  jc_release_id : string; jc_logical_target : option string
}.

(** [ports.JobClaim], [ports.RelayResult] *)
Record JobClaim := MkJobClaim {
  claim_execution_id : Z; claim_attempt_number : Z; claim_worker_id : string;
  claim_context : JobContext
}.
Record RelayResult := MkRelayResult { relay_published : Z; relay_failed : Z }.

(** ** Failures *)

(** The [retry_after] argument: a [timedelta], or a number of seconds *)
Inductive retry_arg := RetryDelta (us : Z) | RetryNumber (v : pyval).

(** [timedelta(seconds=x)]: the integral part is exact, the fraction times 10^6 is a
    float, rounded half to even to the microsecond *)
Definition delta_of_seconds (v : pyval) : result Z :=
  match v with
  | VInt z => Ok (seconds z)
  | VBool b => Ok (seconds (if b then 1 else 0))
  | VFloat (FFin q) =>
      i ← int_of_float (FFin q);
      Ok (seconds i + rhe (rnd_fin ((q - inject_Z i) * inject_Z us_per_second)))
  | VFloat (FInf _) => Raise OverflowError
  | VFloat FNan => Raise ValueError
  | _ => Raise TypeError
  end.

(** [TransientJobError(code, retry_after)] *)
Definition TransientJobError_init (code : string) (retry_after : option retry_arg)
  : result exn :=
  code ← _normalize_error_code code;
  match retry_after with
  | None => Ok (TransientJobError code None)
  | Some (RetryDelta us) => Ok (TransientJobError code (Some us))
  | Some (RetryNumber v) =>
      if default false (num_ltb v (VInt 0)) then Raise ValueError
      else us ← delta_of_seconds v; Ok (TransientJobError code (Some us))
  end.

(** [PermanentJobError(code)] *)
Definition PermanentJobError_init (code : string) : result exn :=
  code ← _normalize_error_code code; Ok (PermanentJobError code).

Inductive FailureKind := Transient | Permanent | Unclassified.

#[export] Instance FailureKind_eq_dec : EqDecision FailureKind.
Proof. solve_decision. Defined.

Record FailureClassification := MkFailure {
  fail_code : string; fail_kind : FailureKind; fail_retryable : bool; fail_occurred_at : Z
}.

(** [occurred_at] is what [datetime.now(timezone.utc)] returns. *)
Definition classify_failure (occurred_at : Z) (error : exn) : FailureClassification :=
  match error with
  | TransientJobError code _ => MkFailure code Transient true occurred_at
  | PermanentJobError code => MkFailure code Permanent false occurred_at
  | _ => MkFailure "job.unclassified_failure" Unclassified false occurred_at
  end.

(** ** Facts *)

(** What a [SubmitJob] guarantees: its constructor ran. *)
Definition wf_submit (c : SubmitJob) : Prop := 1 <= sub_max_attempts c <= 10.

Lemma SubmitJob_init_wf i c a m s :
  SubmitJob_init i c a m = Ok s ->
  wf_submit s /\ sub_identity s = i /\ sub_correlation_id s = c /\ sub_max_attempts s = m.
Proof.
  unfold SubmitJob_init, wf_submit. destruct (1 <=? m) eqn:?, (m <=? 10) eqn:?;
    intros; simplify_eq/=; try done. split; [lia|done].
Qed.

Lemma SubmitJob_create_wf fr jt lt ik c a m s :
  SubmitJob_create fr jt lt ik c a m = Ok s ->
  wf_submit s /\ JobIdentity_create jt lt ik = Ok (sub_identity s).
Proof.
  unfold SubmitJob_create. destruct (JobIdentity_create jt lt ik); simpl; [|done].
  intros (Hs & -> & _)%SubmitJob_init_wf. done.
Qed.

(** Normalisation is idempotent: what it returns it accepts and keeps. *)
Lemma normalize_job_type_idemp v j : normalize_job_type v = Ok j -> normalize_job_type j = Ok j.
Proof.
  unfold normalize_job_type. case_match eqn:E; [done|]. intros [= <-].
  by rewrite strip_lower_strip, lower_idemp, E.
Qed.

Lemma normalize_target_idemp v j : normalize_target v = Ok j -> normalize_target j = Ok j.
Proof.
  unfold normalize_target. case_match eqn:E; [done|]. intros [= <-]. by rewrite strip_idemp, E.
Qed.

Lemma normalize_idempotency_key_idemp v j :
  normalize_idempotency_key v = Ok j -> normalize_idempotency_key j = Ok j.
Proof.
  unfold normalize_idempotency_key. case_match eqn:E; [done|]. intros [= <-].
  by rewrite strip_idemp, E.
Qed.

Lemma JobIdentity_create_idemp a b c i : JobIdentity_create a b c = Ok i ->
  JobIdentity_create (job_type i) (logical_target i) (idempotency_key i) = Ok i.
Proof.
  unfold JobIdentity_create. intros H. inv_bind. simplify_eq. simpl.
  match goal with H1 : normalize_job_type _ = _, H2 : normalize_target _ = _,
                  H3 : normalize_idempotency_key _ = _ |- _ =>
    apply normalize_job_type_idemp in H1; apply normalize_target_idemp in H2;
    apply normalize_idempotency_key_idemp in H3; by rewrite H1, H2, H3 end.
Qed.
