(* ===== verification/JobRuntime.v ===== *)
(** * The in-memory job runtime ([application/jobs/service.py])

    [InMemoryJobRuntime]: identities, executions with leases and attempts, the
    outbox and the schedules.  Every public method runs under one lock, so a
    method call is one atomic step.  A method is a function of the state that
    returns a [result] and the state it leaves, also when it raises. *)

From S2P Require Export JobContracts.

(** ** State *)

Record _Attempt := Mk_Attempt {
  a_ordinal : Z; a_worker_id : string; a_started_at : Z; a_state : AttemptState;
  a_finished_at : option Z; a_error_code : option string
}.

Inductive OutboxState := OB_PENDING | OB_PUBLISHED | OB_FAILED.

#[export] Instance OutboxState_eq_dec : EqDecision OutboxState.
Proof. solve_decision. Defined.

Record _Outbox := Mk_Outbox {
  o_execution_id : Z; o_attempt_number : Z; o_available_at : Z;
  o_state : OutboxState; o_publish_attempts : Z; o_error_code : option string
}.

Record _Execution := Mk_Execution {
  e_execution_id : Z; e_identity : JobIdentity; e_correlation_id : Z; e_max_attempts : Z;
  e_created_at : Z; e_available_at : Z; e_state : JobState; e_attempt_count : Z;
  e_result : option (odict string pyval); e_error_code : option string;
  e_finished_at : option Z; e_lease_owner : option string; e_lease_until : option Z;
  e_attempts : list _Attempt
}.

Inductive ScheduleKind := OneShot | FixedInterval.

Record _Schedule := Mk_Schedule {
  s_schedule_id : Z; s_job_type : string; s_logical_target : string;
  s_schedule_kind : ScheduleKind; s_next_run_at : Z; s_interval_seconds : option Z;
  s_max_attempts : Z; s_enabled : bool; s_last_scheduled_at : option Z
}.

(** The [handlers] mapping: [None] for a job type that is not registered, else
    the handler's [normalize_target] when it has one. *)
Definition handler_table : Type := string -> option (option (string -> result string)).

(** Constructor arguments that never change *)
Record config := Config {
  release_id : string; lease_seconds : Z; handlers : option handler_table
}.

Record runtime := Runtime {
  _now : Z;
  _executions : odict Z _Execution;
  _identity_index : gmap (string * string * string) Z;
  _outbox : odict (Z * Z) _Outbox;
  _schedules : odict Z _Schedule;
  submissions : list JobSnapshot
}.

Definition new_runtime (now : Z) : runtime := Runtime now [] ∅ [] [] [].

(** ** Field updates *)

Definition with_executions (f : odict Z _Execution -> odict Z _Execution) (r : runtime) : runtime :=
  Runtime (_now r) (f (_executions r)) (_identity_index r) (_outbox r) (_schedules r) (submissions r).
Definition with_outbox (f : odict (Z * Z) _Outbox -> odict (Z * Z) _Outbox) (r : runtime) : runtime :=
  Runtime (_now r) (_executions r) (_identity_index r) (f (_outbox r)) (_schedules r) (submissions r).
Definition with_schedules (f : odict Z _Schedule -> odict Z _Schedule) (r : runtime) : runtime :=
  Runtime (_now r) (_executions r) (_identity_index r) (_outbox r) (f (_schedules r)) (submissions r).
Definition with_now (now : Z) (r : runtime) : runtime :=
  Runtime now (_executions r) (_identity_index r) (_outbox r) (_schedules r) (submissions r).

(** Assigns the fields of the execution object [e], which is shared by identity. *)
Definition save (e : _Execution) : runtime -> runtime :=
  with_executions (oset (e_execution_id e) e).

Definition e_set_state (s : JobState) (e : _Execution) : _Execution :=
  Mk_Execution (e_execution_id e) (e_identity e) (e_correlation_id e) (e_max_attempts e)
    (e_created_at e) (e_available_at e) s (e_attempt_count e) (e_result e) (e_error_code e)
    (e_finished_at e) (e_lease_owner e) (e_lease_until e) (e_attempts e).
Definition e_set_available (t : Z) (e : _Execution) : _Execution :=
  Mk_Execution (e_execution_id e) (e_identity e) (e_correlation_id e) (e_max_attempts e)
    (e_created_at e) t (e_state e) (e_attempt_count e) (e_result e) (e_error_code e)
    (e_finished_at e) (e_lease_owner e) (e_lease_until e) (e_attempts e).
Definition e_set_count (n : Z) (e : _Execution) : _Execution :=
  Mk_Execution (e_execution_id e) (e_identity e) (e_correlation_id e) (e_max_attempts e)
    (e_created_at e) (e_available_at e) (e_state e) n (e_result e) (e_error_code e)
    (e_finished_at e) (e_lease_owner e) (e_lease_until e) (e_attempts e).
Definition e_set_result (r : option (odict string pyval)) (e : _Execution) : _Execution :=
  Mk_Execution (e_execution_id e) (e_identity e) (e_correlation_id e) (e_max_attempts e)
    (e_created_at e) (e_available_at e) (e_state e) (e_attempt_count e) r (e_error_code e)
    (e_finished_at e) (e_lease_owner e) (e_lease_until e) (e_attempts e).
Definition e_set_error (c : option string) (e : _Execution) : _Execution :=
  Mk_Execution (e_execution_id e) (e_identity e) (e_correlation_id e) (e_max_attempts e)
    (e_created_at e) (e_available_at e) (e_state e) (e_attempt_count e) (e_result e) c
    (e_finished_at e) (e_lease_owner e) (e_lease_until e) (e_attempts e).
Definition e_set_finished (t : option Z) (e : _Execution) : _Execution :=
  Mk_Execution (e_execution_id e) (e_identity e) (e_correlation_id e) (e_max_attempts e)
    (e_created_at e) (e_available_at e) (e_state e) (e_attempt_count e) (e_result e) (e_error_code e)
    t (e_lease_owner e) (e_lease_until e) (e_attempts e).
Definition e_set_lease (owner : option string) (until : option Z) (e : _Execution) : _Execution :=
  Mk_Execution (e_execution_id e) (e_identity e) (e_correlation_id e) (e_max_attempts e)
    (e_created_at e) (e_available_at e) (e_state e) (e_attempt_count e) (e_result e) (e_error_code e)
    (e_finished_at e) owner until (e_attempts e).
Definition e_set_attempts (l : list _Attempt) (e : _Execution) : _Execution :=
  Mk_Execution (e_execution_id e) (e_identity e) (e_correlation_id e) (e_max_attempts e)
    (e_created_at e) (e_available_at e) (e_state e) (e_attempt_count e) (e_result e) (e_error_code e)
    (e_finished_at e) (e_lease_owner e) (e_lease_until e) l.

Definition a_set_state (s : AttemptState) (a : _Attempt) : _Attempt :=
  Mk_Attempt (a_ordinal a) (a_worker_id a) (a_started_at a) s (a_finished_at a) (a_error_code a).
Definition a_set_finished (t : Z) (a : _Attempt) : _Attempt :=
  Mk_Attempt (a_ordinal a) (a_worker_id a) (a_started_at a) (a_state a) (Some t) (a_error_code a).
Definition a_set_error (c : string) (a : _Attempt) : _Attempt :=
  Mk_Attempt (a_ordinal a) (a_worker_id a) (a_started_at a) (a_state a) (a_finished_at a) (Some c).

(** [attempts[-1]] updated in place *)
Fixpoint update_last {A} (f : A -> A) (l : list A) : list A :=
  match l with
  | [] => []
  | [x] => [f x]
  | x :: l' => x :: update_last f l'
  end.
Definition on_last_attempt (f : _Attempt -> _Attempt) (e : _Execution) : _Execution :=
  e_set_attempts (update_last f (e_attempts e)) e.

(** ** Helpers *)

Definition _snapshot (e : _Execution) : JobSnapshot :=
  MkJobSnapshot (e_execution_id e) (e_identity e) (e_state e) (e_attempt_count e)
    (e_max_attempts e) (e_result e) (e_error_code e) (Some (e_available_at e)).

Definition _canonical_utc (t : Z) : string := iso_seconds t.

Definition _attempt_state (c : FailureClassification) : AttemptState :=
  if bool_decide (fail_kind c = Transient) then TRANSIENT_FAILURE else PERMANENT_FAILURE.

Definition _json_scalar (v : pyval) : bool := is_none v || is_str v || is_number v.

(** The loop that copies the items raises at the first one that is no scalar. *)
Definition _json_object (value : pyval) : result (odict string pyval) :=
  match value with
  | VDict d =>
      if negb (forallb (fun kv => _json_scalar kv.2) d) then Raise ValueError
      else let output := oupdate [] d in
           if 8192 <? utf8_len (json_object_text output) then Raise ValueError
           else Ok output
  | _ => Raise TypeError
  end.

Definition new_outbox (execution_id attempt_number available_at : Z) : _Outbox :=
  Mk_Outbox execution_id attempt_number available_at OB_PENDING 0 None.
Definition put_outbox (o : _Outbox) : runtime -> runtime :=
  with_outbox (oset (o_execution_id o, o_attempt_number o) o).

(** ** Submission and queries *)

(** The command with the target as the registered handler normalises it *)
Definition resolve_command (cfg : config) (command : SubmitJob) : result SubmitJob :=
  match handlers cfg with
  | None => Ok command
  | Some table =>
      let i := sub_identity command in
      match table (job_type i) with
      | None => Raise ValueError
      | Some None => Ok command
      | Some (Some normalizer) =>
          normalized_target ← normalizer (logical_target i);
          if bool_decide (normalized_target = logical_target i) then Ok command
          else
            identity ← JobIdentity_create (job_type i) normalized_target (idempotency_key i);
            SubmitJob_init identity (sub_correlation_id command) (sub_actor command)
              (sub_max_attempts command)
      end
  end.

Definition new_execution (fresh now : Z) (c : SubmitJob) : _Execution :=
  Mk_Execution fresh (sub_identity c) (sub_correlation_id c) (sub_max_attempts c)
    now now PENDING 0 None None None None None [].

(** [submit]; [fresh] is what [uuid4()] returns if the execution is created. *)
Definition submit (cfg : config) (fresh : Z) (command : SubmitJob) (r : runtime)
  : result JobSnapshot * runtime :=
  match resolve_command cfg command with
  | Raise e => (Raise e, r)
  | Ok command =>
      match _identity_index r !! identity_key (sub_identity command) with
      | Some existing_id =>
          match oget existing_id (_executions r) with
          | Some e => (Ok (_snapshot e), r)
          | None => (Raise KeyError, r)
          end
      | None =>
          let e := new_execution fresh (_now r) command in
          let snapshot := _snapshot e in
          (Ok snapshot,
           Runtime (_now r)
             (oset fresh e (_executions r))
             (<[identity_key (sub_identity command) := fresh]> (_identity_index r))
             (oset (fresh, 1) (new_outbox fresh 1 (_now r)) (_outbox r))
             (_schedules r)
             (submissions r ++ [snapshot]))
      end
  end.

(** [submit_simple]; [fresh_cid] and [fresh] are the two [uuid4()] draws. *)
Definition submit_simple (cfg : config) (fresh_cid fresh : Z)
    (job_type logical_target idempotency_key : string) (max_attempts : Z) (r : runtime)
  : result JobSnapshot * runtime :=
  match SubmitJob_create fresh_cid job_type logical_target idempotency_key None None max_attempts with
  | Raise e => (Raise e, r)
  | Ok command => submit cfg fresh command r
  end.

(** [get], [identity], [correlation_id] *)
Definition runtime_get (execution_id : Z) (r : runtime) : result JobSnapshot :=
  match oget execution_id (_executions r) with
  | Some e => Ok (_snapshot e)
  | None => Raise KeyError
  end.
Definition runtime_identity (execution_id : Z) (r : runtime) : result JobIdentity :=
  match oget execution_id (_executions r) with
  | Some e => Ok (e_identity e)
  | None => Raise KeyError
  end.
Definition runtime_correlation_id (execution_id : Z) (r : runtime) : result Z :=
  match oget execution_id (_executions r) with
  | Some e => Ok (e_correlation_id e)
  | None => Raise KeyError
  end.

Definition advance_time (delta : Z) (r : runtime) : result unit * runtime :=
  if delta <? 0 then (Raise ValueError, r) else (Ok tt, with_now (_now r + delta) r).

(** ** Claims and outcomes *)

Definition _abandon_locked (e : _Execution) (r : runtime) : runtime :=
  let now := _now r in
  let e := on_last_attempt (fun a =>
             a_set_error "job.lease_expired" (a_set_finished now (a_set_state ABANDONED a))) e in
  let e := e_set_error (Some "job.lease_expired") (e_set_lease None None e) in
  if e_attempt_count e <? e_max_attempts e then
    put_outbox (new_outbox (e_execution_id e) (e_attempt_count e + 1) now)
      (save (e_set_available now (e_set_state RETRY_WAIT e)) r)
  else save (e_set_finished (Some now) (e_set_state FAILED e)) r.

Definition claim (cfg : config) (execution_id attempt_number : Z) (worker_id : string)
    (r : runtime) : option JobClaim * runtime :=
  match oget execution_id (_executions r) with
  | None => (None, r)
  | Some e =>
      if negb (attempt_number =? e_attempt_count e + 1) then (None, r)
      else if bool_decide (e_state e = SUCCEEDED \/ e_state e = FAILED) then (None, r)
      else if bool_decide (e_state e = RETRY_WAIT) && (_now r <? e_available_at e) then (None, r)
      else if bool_decide (e_state e = RUNNING) then
        match e_lease_until e with
        | None => (None, r)
        | Some until => if _now r <? until then (None, r) else (None, _abandon_locked e r)
        end
      else if _now r <? e_available_at e then (None, r)
      else
        let attempt := Mk_Attempt attempt_number worker_id (_now r) ATTEMPT_RUNNING None None in
        let e := e_set_state RUNNING (e_set_count (e_attempt_count e + 1) e) in
        let e := e_set_lease (Some worker_id) (Some (_now r + seconds (lease_seconds cfg))) e in
        let e := e_set_attempts (e_attempts e ++ [attempt]) e in
        (Some (MkJobClaim execution_id attempt_number worker_id
                 (MkJobContext execution_id attempt_number (e_correlation_id e) (release_id cfg)
                    (Some (logical_target (e_identity e))))),
         save e r)
  end.

Inductive outcome := OutResult (value : pyval) | OutError (error : exn).

(** The delay before the next attempt, in seconds *)
Definition retry_delay (attempt_count : Z) (error : exn) : result Z :=
  match error with
  | TransientJobError _ (Some us) =>
      s ← int_of_float (rnd (us # 1000000));
      Ok (Z.min 300 (Z.max 0 s))
  | _ => Ok (Z.min 300 (2 ^ Z.max 0 (attempt_count - 1)))
  end.

(** Whether the claim still holds the execution *)
Definition holds_lease (c : JobClaim) (now : Z) (e : _Execution) : bool :=
  bool_decide (e_state e = RUNNING)
  && (e_attempt_count e =? claim_attempt_number c)
  && bool_decide (e_lease_owner e = Some (claim_worker_id c))
  && match e_lease_until e with Some until => now <? until | None => false end.

(** [record_outcome]; [occurred_at] is what [datetime.now()] returns. *)
Definition record_outcome (occurred_at : Z) (c : JobClaim) (out : outcome) (r : runtime)
  : result JobSnapshot * runtime :=
  match oget (claim_execution_id c) (_executions r) with
  | None => (Raise KeyError, r)
  | Some e =>
      if negb (holds_lease c (_now r) e) then (Ok (_snapshot e), r)
      else if bool_decide (e_attempts e = []) then (Raise IndexError, r)
      else
        let now := _now r in
        let e := e_set_lease None None (on_last_attempt (a_set_finished now) e) in
        match out with
        | OutResult value =>
            match _json_object value with
            | Raise x => (Raise x, save e r)
            | Ok result =>
                let e := e_set_error None (e_set_result (Some result) e) in
                let e := e_set_finished (Some now) (e_set_state SUCCEEDED e) in
                let e := on_last_attempt (a_set_state ATTEMPT_SUCCEEDED) e in
                (Ok (_snapshot e), save e r)
            end
        | OutError error =>
            let c := classify_failure occurred_at error in
            let e := on_last_attempt (fun a =>
                       a_set_state (_attempt_state c) (a_set_error (fail_code c) a)) e in
            let e := e_set_error (Some (fail_code c)) e in
            if bool_decide (fail_kind c = Transient) && (e_attempt_count e <? e_max_attempts e) then
              let e := e_set_state RETRY_WAIT e in
              match retry_delay (e_attempt_count e) error with
              | Raise x => (Raise x, save e r)
              | Ok delay =>
                  let e := e_set_available (now + seconds delay) e in
                  (Ok (_snapshot e),
                   put_outbox (new_outbox (e_execution_id e) (e_attempt_count e + 1)
                                 (e_available_at e)) (save e r))
              end
            else
              let e := e_set_finished (Some now) (e_set_state FAILED e) in
              (Ok (_snapshot e), save e r)
        end
  end.

Definition complete (execution_id : Z) (result : pyval) (r : runtime)
  : Prelude.result JobSnapshot * runtime :=
  match oget execution_id (_executions r) with
  | None => (Raise KeyError, r)
  | Some e =>
      match _json_object result with
      | Raise x => (Raise x, r)
      | Ok result =>
          let e := e_set_state SUCCEEDED (e_set_result (Some result) e) in
          let e := e_set_lease None None (e_set_finished (Some (_now r)) e) in
          (Ok (_snapshot e), save e r)
      end
  end.

(** ** The outbox relay *)

(** The [JobQueue] port: [publish] returns the message id or raises. *)
Class JobQueue (Q : Type) :=
  publish : forall (execution_id attempt_number correlation_id : Z), Q -> result string * Q.

Definition o_set_state (s : OutboxState) (o : _Outbox) : _Outbox :=
  Mk_Outbox (o_execution_id o) (o_attempt_number o) (o_available_at o) s
    (o_publish_attempts o) (o_error_code o).
Definition o_set_error (c : option string) (o : _Outbox) : _Outbox :=
  Mk_Outbox (o_execution_id o) (o_attempt_number o) (o_available_at o) (o_state o)
    (o_publish_attempts o) c.

Definition is_due (now : Z) (o : _Outbox) : bool :=
  bool_decide (o_state o = OB_PENDING) && (o_available_at o <=? now)
  && (o_publish_attempts o <? 100).

(** The row after [publish] raised: [publish_attempts] is already incremented when
    the bound and the delay are computed. *)
Definition publish_failed (now : Z) (o : _Outbox) : _Outbox :=
  let n := o_publish_attempts o + 1 in
  if 100 <=? n
  then Mk_Outbox (o_execution_id o) (o_attempt_number o) (o_available_at o) OB_FAILED n
         (Some "queue.publish_failed")
  else Mk_Outbox (o_execution_id o) (o_attempt_number o)
         (now + seconds (Z.min 300 (Z.shiftl 1 (Z.max 0 (n - 1))))) (o_state o) n
         (Some "queue.publish_failed").

(** The row's execution once its message is published *)
Definition publish_done (o : _Outbox) (e : _Execution) : _Execution :=
  e_set_state (if o_attempt_number o =? e_attempt_count e + 1 then QUEUED else e_state e) e.

Section relay.
Context {Q : Type} `{JobQueue Q}.

Definition relay_state : Type := runtime * Q * (Z * Z).

(** One row of the [due] list: the row object is the one the outbox holds. *)
Definition relay_one (k : Z * Z) (s : relay_state) : result unit * relay_state :=
  let '(r, q, (published, failed)) := s in
  match oget k (_outbox r) with
  | None => (Raise KeyError, s)
  | Some o =>
      match oget (o_execution_id o) (_executions r) with
      | None => (Raise KeyError, s)
      | Some e =>
          match publish (e_execution_id e) (o_attempt_number o) (e_correlation_id e) q with
          | (Raise _, q) =>
              (Ok tt, (put_outbox (publish_failed (_now r) o) r, q, (published, failed + 1)))
          | (Ok _, q) =>
              (Ok tt, (save (publish_done o e) (put_outbox (o_set_state OB_PUBLISHED o) r), q,
                       (published + 1, failed)))
          end
      end
  end.

Fixpoint relay_loop (due : list (Z * Z)) (s : relay_state) : result unit * relay_state :=
  match due with
  | [] => (Ok tt, s)
  | k :: due' =>
      match relay_one k s with
      | (Ok _, s') => relay_loop due' s'
      | (Raise x, s') => (Raise x, s')
      end
  end.

Definition due_keys (limit : Z) (r : runtime) : list (Z * Z) :=
  take (Z.to_nat limit) (filter (fun k => default false (is_due (_now r) <$> oget k (_outbox r)))
                           (okeys (_outbox r))).

Definition relay_due (limit : Z) (r : runtime) (q : Q) : result RelayResult * (runtime * Q) :=
  if negb ((1 <=? limit) && (limit <=? 1000)) then (Raise ValueError, (r, q))
  else
    match relay_loop (due_keys limit r) (r, q, (0, 0)) with
    | (Ok _, (r', q', (published, failed))) => (Ok (MkRelayResult published failed), (r', q'))
    | (Raise x, (r', q', _)) => (Raise x, (r', q'))
    end.
End relay.

Definition pending_outbox_count (r : runtime) : Z :=
  Z.of_nat (length (List.filter (fun o => bool_decide (o_state o = OB_PENDING))
                      (ovalues (_outbox r)))).

(** A Python slice [l[:limit]]; a negative bound counts from the end. *)
Definition slice_to {A} (limit : Z) (l : list A) : list A :=
  if limit <? 0 then take (Z.to_nat (Z.of_nat (length l) + limit)) l
  else take (Z.to_nat limit) l.

Definition rebuild_row (o : _Outbox) : _Outbox :=
  if 100 <=? o_publish_attempts o
  then o_set_error (Some "queue.publish_exhausted") (o_set_state OB_FAILED o)
  else o_set_error None (o_set_state OB_PENDING o).

Definition rebuild_keys (limit : Z) (r : runtime) : list (Z * Z) :=
  slice_to limit
    (filter (fun k => default false ((fun o => bool_decide (o_state o = OB_PUBLISHED))
                                       <$> oget k (_outbox r)))
       (okeys (_outbox r))).

Definition rebuild_one (r : runtime) (k : Z * Z) : runtime :=
  match oget k (_outbox r) with
  | Some o => with_outbox (oset k (rebuild_row o)) r
  | None => r
  end.

Definition rebuild_outbox (limit : Z) (r : runtime) : Z * runtime :=
  let eligible := rebuild_keys limit r in
  (Z.of_nat (length eligible), foldl rebuild_one r eligible).

Definition reclaim_expired_outbox (limit : Z) : result Z :=
  if negb ((1 <=? limit) && (limit <=? 1000)) then Raise ValueError else Ok 0.

(** ** The lease reaper *)

Definition lease_expired (now : Z) (e : _Execution) : bool :=
  bool_decide (e_state e = RUNNING)
  && match e_lease_until e with Some until => until <=? now | None => false end.

Definition reap_keys (limit : Z) (r : runtime) : list Z :=
  slice_to limit
    (filter (fun k => default false (lease_expired (_now r) <$> oget k (_executions r)))
       (okeys (_executions r))).

Definition reap_one (r : runtime) (k : Z) : runtime :=
  match oget k (_executions r) with
  | Some e => _abandon_locked e r
  | None => r
  end.

Definition reap_expired (limit : Z) (r : runtime) : Z * runtime :=
  let eligible := reap_keys limit r in
  (Z.of_nat (length eligible), foldl reap_one r eligible).

(** ** Schedules *)

Definition schedule_kind_of (s : string) : option ScheduleKind :=
  if bool_decide (s = "one_shot") then Some OneShot
  else if bool_decide (s = "fixed_interval") then Some FixedInterval
  else None.

(** [add_schedule]; [fresh] is what [uuid4()] returns when no id is given. *)
Definition add_schedule (fresh : Z) (job_type logical_target schedule_kind : string)
    (next_run_at : stamp) (interval_seconds : option Z) (max_attempts : Z)
    (schedule_id : option Z) (r : runtime) : result Z * runtime :=
  match schedule_kind_of schedule_kind with
  | None => (Raise ValueError, r)
  | Some kind =>
      if match kind, interval_seconds with
         | FixedInterval, None => true
         | FixedInterval, Some i => i <? 60
         | OneShot, _ => false
         end
      then (Raise ValueError, r)
      else
        let identifier := default fresh schedule_id in
        match to_utc next_run_at with
        | Raise x => (Raise x, r)
        | Ok next =>
            let s := Mk_Schedule identifier job_type logical_target kind next interval_seconds
                       max_attempts true None in
            (Ok identifier, with_schedules (oset identifier s) r)
        end
  end.

Definition schedule_key (schedule_id planned : Z) : string :=
  "schedule:" ++ uuid_str schedule_id ++ ":" ++ _canonical_utc planned.

Definition schedule_due (now : Z) (s : _Schedule) : bool :=
  s_enabled s && (s_next_run_at s <=? now).

(** The schedule after its occurrence [planned] was submitted; the assertion fails
    on a fixed interval without seconds. *)
Definition advance_schedule (planned : Z) (s : _Schedule) : result _Schedule :=
  let upd next enabled :=
    Mk_Schedule (s_schedule_id s) (s_job_type s) (s_logical_target s) (s_schedule_kind s)
      next (s_interval_seconds s) (s_max_attempts s) enabled (Some planned) in
  match s_schedule_kind s with
  | OneShot => Ok (upd (s_next_run_at s) false)
  | FixedInterval =>
      match s_interval_seconds s with
      | None => Raise AssertionError
      | Some i => Ok (upd (planned + seconds i) (s_enabled s))
      end
  end.

(** Sets [last_scheduled_at] only, where the assertion then fails *)
Definition mark_scheduled (planned : Z) (s : _Schedule) : _Schedule :=
  Mk_Schedule (s_schedule_id s) (s_job_type s) (s_logical_target s) (s_schedule_kind s)
    (s_next_run_at s) (s_interval_seconds s) (s_max_attempts s) (s_enabled s) (Some planned).

(** [schedule_tick]: the first due schedule, if any, submits its occurrence.
    [fresh_cid] and [fresh] are the two [uuid4()] draws. *)
Definition schedule_tick (cfg : config) (fresh_cid fresh : Z) (r : runtime)
  : result Z * runtime :=
  match find_first (fun kv => schedule_due (_now r) kv.2) (_schedules r) with
  | None => (Ok 0, r)
  | Some (k, s) =>
      let planned := s_next_run_at s in
      let key := schedule_key (s_schedule_id s) planned in
      match SubmitJob_create fresh_cid (s_job_type s) (s_logical_target s) key None None
              (s_max_attempts s) with
      | Raise x => (Raise x, r)
      | Ok command =>
          match submit cfg fresh command r with
          | (Raise x, r') => (Raise x, r')
          | (Ok _, r') =>
              match advance_schedule planned s with
              | Ok s' => (Ok 1, with_schedules (oset k s') r')
              | Raise x => (Raise x, with_schedules (oset k (mark_scheduled planned s)) r')
              end
          end
      end
  end.

(** ** The port of the application services *)

(** The [JobRuntime.submit] port *)
Class JobPort (J : Type) := submit_job : SubmitJob -> M J JobSnapshot.

(** The in-memory runtime behind the port *)
Definition in_memory_port (cfg : config) : JobPort runtime := fun c w s =>
  let '(r, j) := submit cfg (uuid_at w (drawn s)) c (state_of s) in
  (r, Sys j (Datatypes.S (drawn s)) (ticks s)).

(** * The recording job queue ([infrastructure/queue/recording_queue.py])

    The in-memory [JobQueue]: one message per execution and attempt, whose id is
    derived from both. *)
Record RecordedMessage := MkMessage {
  msg_id : string; msg_execution_id : string; msg_attempt_number : Z;
  msg_correlation_id : string
}.

(** [RecordingJobQueue._messages] *)
Abbreviation recording_queue := (list RecordedMessage) (only parsing).

Definition message_id (execution_id attempt_number : Z) : string :=
  uuid_str execution_id ++ "-" ++ str_of_Z attempt_number.

Definition recording_publish (execution_id attempt_number correlation_id : Z)
    (q : recording_queue) : result string * recording_queue :=
  if attempt_number <? 1 then (Raise ValueError, q)
  else
    let id := message_id execution_id attempt_number in
    let message := MkMessage id (uuid_str execution_id) attempt_number (uuid_str correlation_id) in
    (Ok id,
     if existsb (fun item => bool_decide (msg_id item = id)) q then q else (q ++ [message])%list).

#[export] Instance RecordingJobQueue : JobQueue recording_queue := recording_publish.

(** [pop]: the first message with that id leaves the queue. *)
Fixpoint recording_pop (id : string) (q : recording_queue)
  : option RecordedMessage * recording_queue :=
  match q with
  | [] => (None, [])
  | m :: q' =>
      if bool_decide (msg_id m = id) then (Some m, q')
      else let '(found, q'') := recording_pop id q' in (found, m :: q'')
  end.

Definition recording_clear (q : recording_queue) : recording_queue := [].

(** ** Facts *)

Lemma existsb_msg_id id (q : recording_queue) :
  existsb (fun item => bool_decide (msg_id item = id)) q = true <-> id ∈ msg_id <$> q.
Proof.
  rewrite existsb_exists, list_elem_of_fmap. split.
  - intros (m & Hm & E%bool_decide_eq_true). exists m. split; [done|]. by apply list_elem_of_In.
  - intros (m & -> & Hm%list_elem_of_In). exists m. split; [done|]. by apply bool_decide_eq_true.
Qed.

Lemma recording_publish_ids e n c q :
  NoDup (msg_id <$> q) -> NoDup (msg_id <$> (recording_publish e n c q).2).
Proof.
  intros Hnd. unfold recording_publish. case_match; [done|]. simpl.
  case_match eqn:E; [done|]. rewrite fmap_app. apply NoDup_app. split_and!; [done| |].
  - intros x Hx. simpl. intros ->%list_elem_of_singleton.
    apply existsb_msg_id in Hx. congruence.
  - apply NoDup_singleton.
Qed.

Lemma str_of_Z_inj a b : str_of_Z a = str_of_Z b -> a = b.
Proof. apply (inj pretty). Qed.

(** Message ids identify the execution and the attempt. *)
Lemma message_id_inj e n e' n' : is_uuid e -> is_uuid e' ->
  message_id e n = message_id e' n' -> e = e' /\ n = n'.
Proof.
  intros He He' H. apply (f_equal chars) in H. unfold message_id in H.
  rewrite !chars_app in H. apply app_inj_1 in H as [H1 H2].
  - apply chars_inj, uuid_str_inj in H1; [|done..]. split; [done|].
    apply app_inj_1 in H2 as [_ H2]; [|done]. by apply chars_inj, str_of_Z_inj in H2.
  - pose proof (length_uuid_str e) as L1. pose proof (length_uuid_str e') as L2.
    rewrite len_chars in L1, L2. lia.
Qed.
