(* ===== verification/JobInvariant.v ===== *)
(** * The invariant of the in-memory job runtime

    [Inv] relates executions, identity index and outbox; each operation of
    [JobRuntime] preserves it, so it holds of every reachable runtime, whatever
    the queue does.  [step] has one constructor per method that changes state;
    [complete] is left to [complete_step], as it breaks the outbox clause. *)

From S2P Require Export JobRuntime.
#[local] Open Scope list_scope.

(** The execution is waiting for its next attempt. *)
Definition waiting (e : _Execution) : Prop :=
  e_state e = PENDING \/ e_state e = QUEUED \/ e_state e = RETRY_WAIT.

Record wf_execution (e : _Execution) : Prop := {
  wf_max : 1 <= e_max_attempts e <= 10;
  wf_count : 0 <= e_attempt_count e <= e_max_attempts e;
  wf_attempts : Z.of_nat (length (e_attempts e)) = e_attempt_count e;
  wf_ordinals : forall i a, e_attempts e !! i = Some a -> a_ordinal a = Z.of_nat i + 1;
  wf_running_attempt : forall i a, e_attempts e !! i = Some a -> a_state a = ATTEMPT_RUNNING ->
    e_state e = RUNNING /\ Z.of_nat i + 1 = e_attempt_count e;
  wf_lease : e_lease_owner e = None <-> e_lease_until e = None;
  wf_lease_running : e_lease_until e <> None -> e_state e = RUNNING;
  wf_running : e_state e = RUNNING -> 1 <= e_attempt_count e;
  wf_waiting : waiting e -> e_attempt_count e < e_max_attempts e;
  wf_finished : is_terminal_state (e_state e) = true -> e_finished_at e <> None
}.

Record wf_row (execs : odict Z _Execution) (k : Z * Z) (o : _Outbox) : Prop := {
  row_key : k = (o_execution_id o, o_attempt_number o);
  row_publish : 0 <= o_publish_attempts o <= 100;
  row_pending : o_state o = OB_PENDING -> o_publish_attempts o < 100;
  row_exec : exists e, oget (o_execution_id o) execs = Some e
    /\ 1 <= o_attempt_number o <= e_attempt_count e + 1
    /\ (o_attempt_number o = e_attempt_count e + 1 -> waiting e)
}.

Record Inv (r : runtime) : Prop := {
  inv_nodup_e : NoDup (okeys (_executions r));
  inv_nodup_o : NoDup (okeys (_outbox r));
  inv_exec : forall k e, oget k (_executions r) = Some e -> e_execution_id e = k /\ wf_execution e;
  inv_row : forall k o, oget k (_outbox r) = Some o -> wf_row (_executions r) k o;
  inv_next : forall k e, oget k (_executions r) = Some e -> waiting e ->
    is_Some (oget (k, e_attempt_count e + 1) (_outbox r));
  inv_index : forall key id, _identity_index r !! key = Some id <->
    exists e, oget id (_executions r) = Some e /\ identity_key (e_identity e) = key
}.

(** ** Steps *)

(** The bound of Python's [timedelta] *)
Definition is_timedelta (us : Z) : Prop := Z.abs us <= days 1000000000.
Definition wf_outcome (o : outcome) : Prop :=
  match o with OutError (TransientJobError _ (Some us)) => is_timedelta us | _ => True end.

Inductive step (cfg : config) (r : runtime) : runtime -> Prop :=
  | step_submit fresh c :
      wf_submit c -> fresh ∉ okeys (_executions r) -> step cfg r (submit cfg fresh c r).2
  | step_advance delta : step cfg r (advance_time delta r).2
  | step_claim id n worker : step cfg r (claim cfg id n worker r).2
  | step_outcome t c out : wf_outcome out -> step cfg r (record_outcome t c out r).2
  | step_relay Q (J : JobQueue Q) (q : Q) limit : step cfg r (@relay_due Q J limit r q).2.1
  | step_rebuild limit : step cfg r (rebuild_outbox limit r).2
  | step_reap limit : step cfg r (reap_expired limit r).2
  | step_add_schedule fresh jt lt kind next interval max id :
      step cfg r (add_schedule fresh jt lt kind next interval max id r).2
  | step_tick fresh_cid fresh :
      fresh ∉ okeys (_executions r) -> step cfg r (schedule_tick cfg fresh_cid fresh r).2.

Inductive reachable (cfg : config) : runtime -> Prop :=
  | reach_new now : reachable cfg (new_runtime now)
  | reach_step r r' : reachable cfg r -> step cfg r r' -> reachable cfg r'.

(** ** Updates that keep the invariant *)

Lemma lookup_update_last {A} (f : A -> A) l i x :
  update_last f l !! i = Some x ->
  (l !! i = Some x /\ S i < length l)%nat \/ (S i = length l /\ exists y, l !! i = Some y /\ x = f y).
Proof.
  revert i. induction l as [|a l IH]; intros i; [done|].
  destruct l as [|b l].
  - destruct i; simpl; intros; simplify_eq. right. eauto.
  - destruct i; cbn [update_last]; simpl.
    + intros; simplify_eq. left. split; [done|simpl; lia].
    + intros H. specialize (IH i H) as [[? ?]|[? ?]]; simpl in *; [left|right]; split; (done || lia).
Qed.

Lemma length_update_last {A} (f : A -> A) l : length (update_last f l) = length l.
Proof. induction l as [|a [|b l] IH]; simpl in *; auto. Qed.

Lemma update_last_app {A} (f : A -> A) l x : update_last f (l ++ [x]) = l ++ [f x].
Proof.
  induction l as [|a l IH]; simpl; [done|]. rewrite <- IH. by destruct l.
Qed.

(** The new value [e'] of execution [k], with its identity kept *)
Definition successor (e e' : _Execution) : Prop :=
  e_execution_id e' = e_execution_id e /\ e_identity e' = e_identity e
  /\ e_max_attempts e' = e_max_attempts e /\ e_attempt_count e <= e_attempt_count e'.

Ltac solve_successor := unfold successor; split_and!; simpl; try done; lia.

Lemma wf_row_update execs k o e e' :
  wf_row execs k o -> oget (e_execution_id e) execs = Some e -> successor e e' ->
  (o_execution_id o = e_execution_id e -> o_attempt_number o = e_attempt_count e' + 1 -> waiting e') ->
  wf_row (oset (e_execution_id e') e' execs) k o.
Proof.
  intros [? ? ? (x & Hx & Hn & Hw)] He (Hid & _ & _ & Hc) Hwait. split; [done..|].
  rewrite Hid, oget_oset. case_decide as Heq; [|by eauto].
  assert (x = e) as -> by congruence. exists e'. split; [done|]. split; [lia|]. auto.
Qed.

Lemma index_clause (execs : odict Z _Execution) e e' id key :
  oget id execs = Some e -> e_identity e' = e_identity e ->
  (exists x, oget id execs = Some x /\ identity_key (e_identity x) = key) <->
  (exists x, Some e' = Some x /\ identity_key (e_identity x) = key).
Proof.
  intros He Hident. split.
  - intros (x & Hx & <-). assert (x = e) as -> by congruence. exists e'. by rewrite Hident.
  - intros (x & [= <-] & <-). exists e. by rewrite Hident.
Qed.

Lemma Inv_update r e e' :
  Inv r -> oget (e_execution_id e) (_executions r) = Some e -> successor e e' ->
  wf_execution e' ->
  (is_Some (oget (e_execution_id e, e_attempt_count e' + 1) (_outbox r)) -> waiting e') ->
  (waiting e' -> is_Some (oget (e_execution_id e, e_attempt_count e' + 1) (_outbox r))) ->
  Inv (save e' r).
Proof.
  intros [Hne Hno Hex Hrow Hnext Hidx] He Hs Hwf H1 H2.
  assert (Hs' := Hs). destruct Hs' as (Hid & Hident & Hmax & Hc).
  split; simpl; auto.
  - by apply NoDup_oset.
  - intros k x. rewrite oget_oset. case_decide as Hk; [intros; simplify_eq; done|apply Hex].
  - intros k o Ho. apply (wf_row_update _ _ _ e e'); auto.
    intros Hoid Hon. apply H1. destruct (Hrow k o Ho) as [-> _ _ _].
    rewrite Hoid, Hon in Ho. eauto.
  - intros k x. rewrite oget_oset. case_decide as Hk; [|apply Hnext].
    intros [= ->] Hw. rewrite <- Hk, Hid. auto.
  - intros key id. rewrite Hidx, oget_oset. case_decide as Hk; [|done].
    rewrite Hid in Hk. subst id. by apply (index_clause _ e).
Qed.

(** The same, together with the fresh outbox row of the next attempt *)
Lemma Inv_update_row r e e' t :
  Inv r -> oget (e_execution_id e) (_executions r) = Some e -> successor e e' ->
  e_attempt_count e' = e_attempt_count e -> wf_execution e' -> waiting e' ->
  Inv (put_outbox (new_outbox (e_execution_id e') (e_attempt_count e' + 1) t) (save e' r)).
Proof.
  intros [Hne Hno Hex Hrow Hnext Hidx] He Hs Hc' Hwf Hw.
  assert (Hs' := Hs). destruct Hs' as (Hid & Hident & Hmax & Hc).
  split; simpl; auto; try by apply NoDup_oset.
  - intros k x. rewrite oget_oset. case_decide as Hk; [intros; simplify_eq; done|apply Hex].
  - intros k o. rewrite oget_oset. case_decide as Hk.
    + intros [= <-]. split; simpl; try (done || lia).
      exists e'. rewrite oget_oset_eq. pose proof (wf_count _ Hwf). split; [done|]. split; [lia|done].
    + intros Ho. apply (wf_row_update _ _ _ e e'); auto.
  - intros k x. rewrite !oget_oset. case_decide as Hk.
    + intros [= <-] _. subst k. rewrite decide_True by done. eauto.
    + intros Hx Hwx. destruct (Hnext k x Hx Hwx) as [o Ho]. case_decide; eauto.
  - intros key id. rewrite Hidx, oget_oset. case_decide as Hk; [|done].
    rewrite Hid in Hk. subst id. by apply (index_clause _ e).
Qed.

(** ** Every operation keeps the invariant *)

Lemma resolve_command_wf cfg c c' :
  wf_submit c -> resolve_command cfg c = Ok c' -> wf_submit c'.
Proof.
  unfold resolve_command. intros Hc H. destruct (handlers cfg) as [t|]; [|by simplify_eq].
  destruct (t _) as [[n|]|]; [|by simplify_eq|done].
  destruct (n _) as [nt|]; simpl in H; [|done].
  case_bool_decide; [by simplify_eq|].
  destruct (JobIdentity_create _ _ _); simpl in H; [|done].
  by apply SubmitJob_init_wf in H as [? _].
Qed.

Lemma wf_new_execution fresh now c : wf_submit c -> wf_execution (new_execution fresh now c).
Proof.
  unfold wf_submit. intros Hc.
  split; unfold new_execution, waiting; simpl; try done; try lia; by intros [] *.
Qed.

Lemma Inv_submit cfg fresh c r :
  Inv r -> wf_submit c -> fresh ∉ okeys (_executions r) -> Inv (submit cfg fresh c r).2.
Proof.
  intros HI Hc Hf. unfold submit. destruct (resolve_command cfg c) as [c'|] eqn:Hr; [|done].
  apply resolve_command_wf in Hr; [|done].
  destruct (_identity_index r !! _) as [id|] eqn:Hid; [by destruct (oget _ _)|].
  destruct HI as [Hne Hno Hex Hrow Hnext Hidx]. apply oget_None in Hf as Hf'.
  split; simpl; try by apply NoDup_oset.
  - intros k e. rewrite oget_oset. case_decide; [|apply Hex].
    intros [= <-]. split; [done|by apply wf_new_execution].
  - intros k o. rewrite oget_oset. case_decide; [|intros Ho].
    + intros [= <-]. split; simpl; try (done || lia).
      exists (new_execution fresh (_now r) c'). rewrite oget_oset_eq. simpl.
      split; [done|]. split; [lia|]. by left.
    + destruct (Hrow k o Ho) as [? ? ? (x & Hx & ?)]. split; [done..|].
      exists x. rewrite oget_oset_ne; [done|congruence].
  - intros k e. rewrite !oget_oset. case_decide.
    + intros [= <-] _. subst. simpl. rewrite decide_True by done. eauto.
    + intros He Hw. case_decide; [by eauto|by apply Hnext].
  - intros key id. rewrite lookup_insert, oget_oset. case_decide as Hk; simplify_eq.
    + split; [intros [= <-]; rewrite decide_True by done; eauto|].
      intros (x & Hx & Hkey). case_decide; [congruence|].
      assert (Hc' : _identity_index r !! identity_key (sub_identity c') = Some id)
        by (apply Hidx; eauto). congruence.
    + rewrite Hidx. case_decide; [|done]. subst id.
      split; [intros (x & Hx & _); congruence|]. by intros (x & [= <-] & ?).
Qed.

Lemma wf_attempt_update f e :
  (forall a, a_ordinal (f a) = a_ordinal a) ->
  (forall a, a_state (f a) = ATTEMPT_RUNNING -> a_state a = ATTEMPT_RUNNING) ->
  wf_execution e -> wf_execution (on_last_attempt f e).
Proof.
  intros Hord Hst [? ? Hlen Hordi Hrun ? ? ? ? ?]. split; simpl; try done.
  - by rewrite length_update_last.
  - intros i a [[? _]|(_ & y & ? & ->)]%lookup_update_last; [auto|]. rewrite Hord. auto.
  - intros i a [[? _]|(? & y & ? & ->)]%lookup_update_last; [eauto|].
    intros Ha%Hst. eauto.
Qed.

(** Ending the running attempt: lease cleared, a new state, its last attempt closed *)
Lemma wf_execution_end e e' f :
  wf_execution e -> e_state e = RUNNING ->
  e_attempts e' = update_last f (e_attempts e) ->
  (forall a, a_ordinal (f a) = a_ordinal a) ->
  (forall a, a_state (f a) <> ATTEMPT_RUNNING) ->
  e_max_attempts e' = e_max_attempts e -> e_attempt_count e' = e_attempt_count e ->
  e_lease_owner e' = None -> e_lease_until e' = None ->
  (waiting e' -> e_attempt_count e < e_max_attempts e) ->
  (is_terminal_state (e_state e') = true -> e_finished_at e' <> None) ->
  wf_execution e'.
Proof.
  intros [? ? Hlen Hordi Hrun ? ? Hr ? ?] He Ha Hord Hst Hm Hc Ho Hu Hw Ht.
  split; rewrite ?Hm, ?Hc, ?Ha, ?Ho, ?Hu; try done.
  - by rewrite length_update_last.
  - intros i a [[? _]|(_ & y & ? & ->)]%lookup_update_last; [auto|]. rewrite Hord. auto.
  - intros i a [[Hi Hlt]|(? & y & ? & ->)]%lookup_update_last Hs; [|by apply Hst in Hs].
    apply Hrun in Hi; [|done]. lia.
  - intros _. by apply Hr.
Qed.

(** A running execution has no outbox row for a next attempt. *)
Lemma Inv_running_no_row r e :
  Inv r -> oget (e_execution_id e) (_executions r) = Some e -> e_state e = RUNNING ->
  oget (e_execution_id e, e_attempt_count e + 1) (_outbox r) = None.
Proof.
  intros HI He Hrun. destruct (oget _ (_outbox r)) as [o|] eqn:Ho; [|done]. exfalso.
  destruct (inv_row _ HI _ _ Ho) as [[= Hid Hn] _ _ (x & Hx & _ & Hw)].
  assert (x = e) as -> by congruence. destruct Hw as [|[|]]; congruence.
Qed.

Lemma Inv_abandon r e :
  Inv r -> oget (e_execution_id e) (_executions r) = Some e -> e_state e = RUNNING ->
  Inv (_abandon_locked e r).
Proof.
  intros HI He Hrun. assert (Hwf : wf_execution e) by (by apply (inv_exec _ HI) in He as [_ ?]).
  pose proof (Inv_running_no_row r e HI He Hrun) as Hnone.
  unfold _abandon_locked. simpl. case_match eqn:Hc; [apply Z.ltb_lt in Hc|apply Z.ltb_ge in Hc].
  - match goal with |- Inv (put_outbox _ (save ?x _)) => apply (Inv_update_row r e x); auto end.
    + solve_successor.
    + eapply (wf_execution_end e); [done|done|reflexivity|done..|try done|try done].
    + by right; right.
  - match goal with |- Inv (save ?x _) => apply (Inv_update r e x); auto end.
    + solve_successor.
    + eapply (wf_execution_end e); [done|done|reflexivity|done..|try done|try done]. by intros [|[|]].
    + simpl. rewrite Hnone. by intros [].
    + by intros [|[|]].
Qed.

Lemma waiting_dec e : e_state e <> RUNNING -> is_terminal_state (e_state e) = false -> waiting e.
Proof. unfold waiting. destruct (e_state e); simpl; auto; congruence. Qed.

(** No outbox row lies beyond the next attempt. *)
Lemma Inv_no_row r e n :
  Inv r -> oget (e_execution_id e) (_executions r) = Some e -> e_attempt_count e + 1 < n ->
  oget (e_execution_id e, n) (_outbox r) = None.
Proof.
  intros HI He Hn. destruct (oget _ (_outbox r)) as [o|] eqn:Ho; [|done]. exfalso.
  destruct (inv_row _ HI _ _ Ho) as [[= Hid Hn'] _ _ (x & Hx & ? & _)].
  assert (x = e) as -> by congruence. lia.
Qed.

Lemma wf_claimed e n worker now until :
  wf_execution e -> waiting e -> n = e_attempt_count e + 1 ->
  wf_execution
    (e_set_attempts (e_attempts e ++ [Mk_Attempt n worker now ATTEMPT_RUNNING None None])
       (e_set_lease (Some worker) (Some until)
          (e_set_state RUNNING (e_set_count (e_attempt_count e + 1) e)))).
Proof.
  intros [? ? Hlen Hordi Hrun ? ? Hr Hw ?] Hwait ->. specialize (Hw Hwait).
  split; simpl; try done; try lia.
  - rewrite length_app. simpl. lia.
  - intros i a [Hi|[Hi Ha]]%lookup_app_Some; [auto|].
    apply list_lookup_singleton_Some in Ha as [? <-]. simpl. lia.
  - intros i a [Hi|[Hi Ha]]%lookup_app_Some Hst.
    + apply Hrun in Hi as [? _]; [|done]. destruct Hwait as [|[|]]; congruence.
    + apply list_lookup_singleton_Some in Ha as [? <-]. split; [done|]. lia.
  - by intros [|[|]].
Qed.

Lemma Inv_claim cfg id n worker r : Inv r -> Inv (claim cfg id n worker r).2.
Proof.
  intros HI. unfold claim. destruct (oget id (_executions r)) as [e|] eqn:He; [|done].
  destruct (inv_exec _ HI _ _ He) as [Hid Hwf]. rewrite <- Hid in He.
  case_match eqn:Hn; [done|]. apply negb_false_iff, Z.eqb_eq in Hn.
  case_bool_decide as Hterm; [done|].
  destruct (bool_decide (e_state e = RETRY_WAIT) && _); [done|].
  case_bool_decide as Hrun.
  { destruct (e_lease_until e) as [until|]; [|done].
    case_match; [done|]. by apply Inv_abandon. }
  case_match; [done|]. simpl.
  assert (Hw : waiting e) by (apply waiting_dec; [done|]; destruct (e_state e) eqn:?; naive_solver).
  match goal with |- Inv (save ?x _) => apply (Inv_update r e x); auto end.
  - solve_successor.
  - apply wf_claimed; auto.
  - simpl. rewrite Inv_no_row by (done || lia). by intros [].
  - by intros [|[|]].
Qed.

Lemma retry_delay_ok n error : wf_outcome (OutError error) ->
  exists d, retry_delay n error = Ok d /\ 0 <= d <= 300.
Proof.
  assert (Hpow : 0 <= Z.min 300 (2 ^ Z.max 0 (n - 1)) <= 300).
  { pose proof (Z.pow_pos_nonneg 2 (Z.max 0 (n - 1))). lia. }
  unfold retry_delay. destruct error; eauto. destruct retry_after as [us|]; eauto.
  simpl. unfold is_timedelta, days, seconds, us_per_second. intros Hus.
  destruct (rnd_between (- (86400 * 1000000000)) (86400 * 1000000000) (us # 1000000))
    as (x & -> & _); unfold exact_Z, Qle; simpl; try lia.
  eexists. split; [done|lia].
Qed.

Lemma wf_clear_lease e : wf_execution e -> wf_execution (e_set_lease None None e).
Proof. intros []. by split. Qed.

Lemma holds_lease_running c now e : holds_lease c now e = true ->
  e_state e = RUNNING /\ e_attempt_count e = claim_attempt_number c
  /\ e_lease_owner e = Some (claim_worker_id c)
  /\ exists until, e_lease_until e = Some until /\ now < until.
Proof.
  unfold holds_lease. rewrite !andb_true_iff, !bool_decide_eq_true, Z.eqb_eq.
  destruct (e_lease_until e) as [u|]; [|naive_solver]. rewrite Z.ltb_lt. naive_solver.
Qed.

(** The execution leaves RUNNING for good, or stays with no lease: no outbox row is due. *)
Lemma Inv_update_running r e e' :
  Inv r -> oget (e_execution_id e) (_executions r) = Some e -> e_state e = RUNNING ->
  successor e e' -> e_attempt_count e' = e_attempt_count e -> wf_execution e' -> ~ waiting e' ->
  Inv (save e' r).
Proof.
  intros HI He Hrun Hs Hc Hwf Hw. apply (Inv_update r e e'); auto; [|by intros ?].
  rewrite Hc, Inv_running_no_row by done. by intros [].
Qed.

Lemma update_last_compose {A} (f g : A -> A) l :
  update_last f (update_last g l) = update_last (fun x => f (g x)) l.
Proof.
  induction l as [|a [|b l] IH]; simpl in *; [done..|]. rewrite <- IH.
  destruct l; done.
Qed.

Lemma Inv_record_outcome t c out r :
  Inv r -> wf_outcome out -> Inv (record_outcome t c out r).2.
Proof.
  intros HI Hout. unfold record_outcome.
  destruct (oget _ (_executions r)) as [e|] eqn:He; [|done].
  destruct (inv_exec _ HI _ _ He) as [Hid Hwf]. rewrite <- Hid in He. clear Hid.
  destruct (holds_lease c (_now r) e) eqn:Hl; [|done]. simpl.
  apply holds_lease_running in Hl as (Hrun & _ & _).
  case_bool_decide; [done|]. destruct out as [v|error].
  - destruct (_json_object v) as [d|x]; simpl.
    + apply (Inv_update_running r e); auto; [solve_successor| |by intros [|[|]]].
      eapply (wf_execution_end e);
        [done|done|apply update_last_compose|done..|by intros [|[|]]|done].
    + apply (Inv_update_running r e); auto; [solve_successor| |by intros [|[|]]; simpl in *; congruence].
      by apply wf_clear_lease, wf_attempt_update.
  - case_match eqn:Hk.
    + apply andb_true_iff in Hk as [_ Hc]. simpl in Hc. apply Z.ltb_lt in Hc.
      destruct (retry_delay_ok (e_attempt_count e) error Hout) as (d & Hd & _).
      simpl. rewrite Hd. simpl.
      match goal with |- Inv (put_outbox _ (save ?x _)) =>
        apply (Inv_update_row r e x); auto end; [solve_successor| |by right; right].
      eapply (wf_execution_end e); [done|done|apply update_last_compose|done| |done..].
      intros a. simpl. unfold _attempt_state. by case_bool_decide.
    + apply (Inv_update_running r e); auto; [solve_successor| |by intros [|[|]]].
      eapply (wf_execution_end e);
        [done|done|apply update_last_compose|done| |done..|by intros [|[|]]|done].
      intros a. simpl. unfold _attempt_state. by case_bool_decide.
Qed.

Lemma Inv_row_update r o o' :
  Inv r -> oget (o_execution_id o, o_attempt_number o) (_outbox r) = Some o ->
  o_execution_id o' = o_execution_id o -> o_attempt_number o' = o_attempt_number o ->
  0 <= o_publish_attempts o' <= 100 -> (o_state o' = OB_PENDING -> o_publish_attempts o' < 100) ->
  Inv (put_outbox o' r).
Proof.
  intros [Hne Hno Hex Hrow Hnext Hidx] Ho H1 H2 H3 H4. split; simpl; auto.
  - by apply NoDup_oset.
  - intros k x. rewrite oget_oset. case_decide as Hk; [|apply Hrow].
    intros [= <-]. destruct (Hrow _ _ Ho) as [_ _ _ (e & He & Hn)].
    split; [done..|]. exists e. by rewrite H1, H2.
  - intros k x Hx Hw. rewrite oget_oset. case_decide; eauto.
Qed.

Lemma publish_failed_row now o : 0 <= o_publish_attempts o ->
  o_publish_attempts o < 100 ->
  0 <= o_publish_attempts (publish_failed now o) <= 100
  /\ (o_state (publish_failed now o) = OB_PENDING -> o_publish_attempts (publish_failed now o) < 100).
Proof. intros ??. unfold publish_failed. case_match eqn:E; simpl; split; try done; lia. Qed.

Lemma wf_queued e : wf_execution e -> waiting e -> wf_execution (e_set_state QUEUED e).
Proof.
  intros [? ? Hlen Hordi Hrun ? Hl Hr Hw ?] Hwait.
  assert (Hnr : e_state e <> RUNNING) by (destruct Hwait as [|[|]]; congruence).
  split; simpl; try done; [|by intros ?%Hl|by intros _; apply Hw].
  intros i a Hi Ha. destruct (Hrun i a Hi Ha). done.
Qed.

Section relay_inv.
Context {Q : Type} `{JobQueue Q}.

Lemma publish_done_id o e :
  o_attempt_number o =? e_attempt_count e + 1 = false -> publish_done o e = e.
Proof. intros E. unfold publish_done. rewrite E. by destruct e. Qed.

Lemma Inv_relay_one k s : Inv s.1.1 ->
  (forall o, oget k (_outbox s.1.1) = Some o -> o_publish_attempts o < 100) ->
  Inv (relay_one k s).2.1.1.
Proof.
  destruct s as [[r q] [np nf]]. simpl. intros HI Hp.
  destruct (oget k (_outbox r)) as [o|] eqn:Ho; [|done].
  specialize (Hp o eq_refl).
  destruct (inv_row _ HI _ _ Ho) as [-> Hpub Hpend (e & He & Hn & Hw)]. rewrite He.
  destruct (inv_exec _ HI _ _ He) as [Hid Hwf].
  destruct (publish _ _ _ q) as [[m|x] q']; simpl.
  - assert (HI' : Inv (put_outbox (o_set_state OB_PUBLISHED o) r))
      by (by apply (Inv_row_update r o)).
    rewrite <- Hid in He.
    apply (Inv_update _ e); auto; unfold publish_done; case_match eqn:E;
      [solve_successor..| | | | | |].
    + apply wf_queued; [done|]. apply Hw. lia.
    + by destruct e.
    + intros _. right. by left.
    + simpl. rewrite oget_oset. case_decide as Hk; [injection Hk; lia|].
      intros [o' Ho']. destruct (inv_row _ HI _ _ Ho') as [[= Hi Hn'] _ _ (x & Hx & _ & Hwx)].
      assert (x = e) as -> by congruence. specialize (Hwx ltac:(congruence)). by destruct e.
    + intros _. simpl. rewrite oget_oset. case_decide; [eauto|].
      apply Z.eqb_eq in E. rewrite <- E, Hid. eauto.
    + intros Hwx. simpl. rewrite oget_oset. case_decide; [eauto|].
      apply (inv_next _ HI); [done|]. by destruct e.
  - destruct (publish_failed_row (_now r) o) as [? ?]; [lia|done|].
    apply (Inv_row_update r o); try done; unfold publish_failed; by case_match.
Qed.

(** One row: only its own entry of the outbox changes, and it is counted once. *)
Lemma relay_one_ok k r q np nf :
  Inv r -> is_Some (oget k (_outbox r)) ->
  exists r' q' np' nf', relay_one k (r, q, (np, nf)) = (Ok tt, (r', q', (np', nf')))
    /\ np' + nf' = np + nf + 1 /\ np <= np' /\ nf <= nf' /\ _now r' = _now r
    /\ (forall k', k' <> k -> oget k' (_outbox r') = oget k' (_outbox r)).
Proof.
  intros HI [o Ho]. simpl. rewrite Ho.
  destruct (inv_row _ HI _ _ Ho) as [Hk _ _ (e & He & _)]. rewrite He.
  destruct (publish _ _ _ q) as [[m|x] q'].
  - eexists _, _, _, _. split; [done|]. split_and!; try (lia || done).
    intros k' Hne. simpl. by rewrite oget_oset_ne by congruence.
  - eexists _, _, _, _. split; [done|]. split_and!; try (lia || done).
    intros k' Hne. simpl. rewrite oget_oset_ne; [done|].
    unfold publish_failed. case_match; simpl; congruence.
Qed.

Definition row_ready (r : runtime) (k : Z * Z) : Prop :=
  exists o, oget k (_outbox r) = Some o /\ o_publish_attempts o < 100.

Lemma relay_loop_ok due r q np nf :
  NoDup due -> Inv r -> Forall (row_ready r) due ->
  exists r' q' np' nf', relay_loop due (r, q, (np, nf)) = (Ok tt, (r', q', (np', nf')))
    /\ Inv r' /\ np' + nf' = np + nf + Z.of_nat (length due) /\ np <= np' /\ nf <= nf'.
Proof.
  revert r q np nf. induction due as [|k due IH]; intros r q np nf Hnd HI Hd.
  { eexists _, _, _, _. split; [done|]. simpl. split_and!; done || lia. }
  apply NoDup_cons in Hnd as [Hk Hnd]. apply Forall_cons in Hd as [(o & Ho & Hp) Hd].
  destruct (relay_one_ok k r q np nf) as (r1 & q1 & np1 & nf1 & E & Hsum & ? & ? & _ & Hother); eauto.
  pose proof (Inv_relay_one k (r, q, (np, nf))) as HI1. rewrite E in HI1.
  cbn [relay_loop]. rewrite E.
  destruct (IH r1 q1 np1 nf1 Hnd) as (r2 & q2 & np2 & nf2 & E2 & HI2 & Hsum2 & ? & ?).
  - apply HI1; [done|]. intros o'. simpl. congruence.
  - rewrite Forall_forall in Hd |- *. intros k' Hk'. destruct (Hd k' Hk') as (o' & ? & ?).
    exists o'. rewrite Hother; [done|]. by intros ->.
  - eexists _, _, _, _. split; [done|]. simpl length. split; [done|]. lia.
Qed.

Lemma due_keys_ready limit r : NoDup (okeys (_outbox r)) ->
  NoDup (due_keys limit r) /\ Forall (row_ready r) (due_keys limit r)
  /\ (length (due_keys limit r) <= Z.to_nat limit)%nat.
Proof.
  intros Hnd. unfold due_keys. split_and!.
  - eapply sublist_NoDup; [|apply sublist_take]. by apply NoDup_filter.
  - apply Forall_take, Forall_forall. intros k [Hk _]%list_elem_of_filter.
    unfold row_ready. destruct (oget k (_outbox r)) as [o|]; [|done].
    exists o. split; [done|]. apply Is_true_true in Hk. unfold is_due in Hk. simpl in Hk.
    rewrite !andb_true_iff, Z.ltb_lt in Hk. by destruct Hk.
  - rewrite length_take. lia.
Qed.

Lemma Inv_relay_due limit r q : Inv r -> Inv (relay_due limit r q).2.1.
Proof.
  intros HI. unfold relay_due. case_match; [done|].
  destruct (due_keys_ready limit r (inv_nodup_o _ HI)) as (Hnd & Hr & _).
  destruct (relay_loop_ok _ r q 0 0 Hnd HI Hr) as (r' & q' & np & nf & -> & HI' & _). done.
Qed.
End relay_inv.

Lemma Inv_rebuild limit r : Inv r -> Inv (rebuild_outbox limit r).2.
Proof.
  unfold rebuild_outbox. simpl. generalize (rebuild_keys limit r) as ks.
  intros ks. revert r. induction ks as [|k ks IH]; intros r HI; [done|]. simpl. apply IH.
  unfold rebuild_one. destruct (oget k (_outbox r)) as [o|] eqn:Ho; [|done].
  destruct (inv_row _ HI _ _ Ho) as [-> Hp _ _].
  replace (with_outbox _ r) with (put_outbox (rebuild_row o) r)
    by (unfold put_outbox, rebuild_row; by case_match).
  apply (Inv_row_update r o); try done; unfold rebuild_row; case_match eqn:E; simpl; done || lia.
Qed.

Lemma Inv_reap_one r k : Inv r ->
  (forall e, oget k (_executions r) = Some e -> e_state e = RUNNING) -> Inv (reap_one r k).
Proof.
  intros HI Hrun. unfold reap_one. destruct (oget k _) as [e|] eqn:He; [|done].
  destruct (inv_exec _ HI _ _ He) as [Hid _]. apply Inv_abandon; [done| |by apply Hrun].
  by rewrite Hid.
Qed.

Lemma abandon_other e r k : k <> e_execution_id e ->
  oget k (_executions (_abandon_locked e r)) = oget k (_executions r).
Proof. intros Hk. unfold _abandon_locked. case_match; simpl; by rewrite oget_oset_ne. Qed.

Lemma slice_to_sublist {A} limit (l : list A) : slice_to limit l `sublist_of` l.
Proof. unfold slice_to. case_match; apply sublist_take. Qed.

Lemma reap_keys_spec limit r : NoDup (okeys (_executions r)) ->
  NoDup (reap_keys limit r) /\
  Forall (fun k => exists e, oget k (_executions r) = Some e /\ lease_expired (_now r) e = true)
    (reap_keys limit r).
Proof.
  intros Hnd. unfold reap_keys. split.
  - eapply sublist_NoDup; [|apply slice_to_sublist]. by apply NoDup_filter.
  - apply Forall_forall. intros k Hk.
    eapply elem_of_sublist in Hk; [|apply slice_to_sublist].
    apply list_elem_of_filter in Hk as [Hk _].
    destruct (oget k (_executions r)) as [e|]; [|done]. exists e.
    split; [done|]. by apply Is_true_true in Hk.
Qed.

Lemma Inv_reap limit r : Inv r -> Inv (reap_expired limit r).2.
Proof.
  intros HI. unfold reap_expired. simpl.
  destruct (reap_keys_spec limit r (inv_nodup_e _ HI)) as [Hnd Hd].
  assert (Hrun : Forall (fun k => forall e, oget k (_executions r) = Some e -> e_state e = RUNNING)
                   (reap_keys limit r)).
  { eapply Forall_impl; [exact Hd|]. intros k (e & He & Hx) e' He'.
    assert (e' = e) as -> by congruence. unfold lease_expired in Hx.
    apply andb_true_iff in Hx as [Hx _]. by apply bool_decide_eq_true in Hx. }
  clear Hd. revert Hnd Hrun. generalize (reap_keys limit r) as ks. intros ks. revert r HI.
  induction ks as [|k ks IH]; intros r HI Hnd Hrun; [done|]. simpl.
  apply NoDup_cons in Hnd as [Hk Hnd]. apply Forall_cons in Hrun as [Hr Hrun].
  apply IH; [by apply Inv_reap_one|done|].
  rewrite Forall_forall in Hrun |- *. intros k' Hk' e. unfold reap_one.
  destruct (oget k _) as [x|] eqn:Hx; [|by apply Hrun].
  destruct (inv_exec _ HI _ _ Hx) as [Hid _].
  rewrite abandon_other; [by apply Hrun|]. intros ->. congruence.
Qed.

Lemma Inv_schedules f r : Inv r -> Inv (with_schedules f r).
Proof. intros []. by split. Qed.

Lemma Inv_tick cfg fc fr r : Inv r -> fr ∉ okeys (_executions r) ->
  Inv (schedule_tick cfg fc fr r).2.
Proof.
  intros HI Hf. unfold schedule_tick. destruct (find_first _ _) as [[k s]|]; [|done].
  destruct (SubmitJob_create _ _ _ _ _ _ _) as [c|] eqn:Hc; [|done].
  apply SubmitJob_create_wf in Hc as [Hc _].
  pose proof (Inv_submit cfg fr c r HI Hc Hf) as HI'.
  destruct (submit cfg fr c r) as [[snap|x] r']; [|done].
  destruct (advance_schedule _ s); by apply Inv_schedules.
Qed.

Lemma Inv_step cfg r r' : Inv r -> step cfg r r' -> Inv r'.
Proof.
  intros HI Hs. destruct Hs.
  - by apply Inv_submit.
  - unfold advance_time. case_match; [done|]. destruct HI. by split.
  - by apply Inv_claim.
  - by apply Inv_record_outcome.
  - by apply Inv_relay_due.
  - by apply Inv_rebuild.
  - by apply Inv_reap.
  - unfold add_schedule. repeat (case_match; try done); by apply Inv_schedules.
  - by apply Inv_tick.
Qed.

Lemma Inv_new now : Inv (new_runtime now).
Proof.
  split; simpl; try done; try apply NoDup_nil_2.
  intros key id. rewrite lookup_empty. split; [done|]. by intros (e & ? & _).
Qed.

Lemma reachable_Inv cfg r : reachable cfg r -> Inv r.
Proof. induction 1; [apply Inv_new | by eapply Inv_step]. Qed.

(** ** How an execution evolves

    Attempt counts never decrease and a frozen execution never changes: a terminal
    one, or a running one that lost its lease without an outcome. *)

Definition frozen (e : _Execution) : Prop :=
  is_terminal_state (e_state e) = true \/ (e_state e = RUNNING /\ e_lease_until e = None).

Definition evolves (e e' : _Execution) : Prop :=
  successor e e' /\ (frozen e -> e' = e).

Definition evolution (r r' : runtime) : Prop :=
  forall k e, oget k (_executions r) = Some e ->
    exists e', oget k (_executions r') = Some e' /\ evolves e e'.

#[export] Instance evolves_preorder : PreOrder evolves.
Proof.
  unfold evolves, successor. split.
  - intros e. split_and!; done || lia.
  - intros x y z [(? & ? & ? & ?) Hxy] [(? & ? & ? & ?) Hyz].
    split; [split_and!; congruence || lia|]. intros Ht.
    specialize (Hxy Ht) as ->. auto.
Qed.

#[export] Instance evolution_preorder : PreOrder evolution.
Proof.
  split; [intros r k e ?; exists e; split; [done|reflexivity]|].
  intros r1 r2 r3 H1 H2 k e He. destruct (H1 k e He) as (e1 & He1 & ?).
  destruct (H2 k e1 He1) as (e2 & ? & ?). exists e2. split; [done|]. by etrans.
Qed.

Lemma evolution_execs r r' : _executions r' = _executions r -> evolution r r'.
Proof. intros E k e He. exists e. rewrite E. split; [done|reflexivity]. Qed.

Lemma evolution_save r e e' :
  oget (e_execution_id e) (_executions r) = Some e -> evolves e e' -> evolution r (save e' r).
Proof.
  intros He Hev k x Hx. simpl. assert (Hid : e_execution_id e' = e_execution_id e) by apply Hev.
  rewrite Hid, oget_oset. case_decide; subst; [|exists x; split; [done|reflexivity]].
  exists e'. split; [done|]. by assert (x = e) as -> by congruence.
Qed.

Lemma evolves_live e e' : ~ frozen e -> successor e e' -> evolves e e'.
Proof. intros ? ?. by split. Qed.

Lemma leased_not_frozen e until : e_state e = RUNNING -> e_lease_until e = Some until -> ~ frozen e.
Proof. intros Hr Hl [Ht|[_ ?]]; [by rewrite Hr in Ht|congruence]. Qed.

Lemma waiting_not_frozen e : waiting e -> ~ frozen e.
Proof. intros [Hw|[Hw|Hw]] [Ht|[? _]]; rewrite Hw in *; done. Qed.

Lemma evolution_abandon e r :
  oget (e_execution_id e) (_executions r) = Some e -> ~ frozen e ->
  evolution r (_abandon_locked e r).
Proof.
  intros He Hr. unfold _abandon_locked. case_match.
  - etrans; [apply (evolution_save r e); [done|]|by apply evolution_execs].
    apply evolves_live; [done|solve_successor].
  - apply (evolution_save r e); [done|]. apply evolves_live; [done|solve_successor].
Qed.

Lemma evolution_submit cfg fresh c r :
  fresh ∉ okeys (_executions r) -> evolution r (submit cfg fresh c r).2.
Proof.
  intros Hf%oget_None. unfold submit. destruct (resolve_command cfg c); [|reflexivity].
  destruct (_identity_index r !! _) as [id|];
    [destruct (oget id (_executions r)); reflexivity|].
  intros k e He. exists e. simpl. rewrite oget_oset_ne by congruence. split; [done|reflexivity].
Qed.

Lemma evolution_claim cfg id n worker r : Inv r -> evolution r (claim cfg id n worker r).2.
Proof.
  intros HI. unfold claim. destruct (oget id (_executions r)) as [e|] eqn:He; [|reflexivity].
  destruct (inv_exec _ HI _ _ He) as [Hid Hwf]. rewrite <- Hid in He.
  case_match; [reflexivity|]. case_bool_decide as Ht; [reflexivity|].
  destruct (bool_decide (e_state e = RETRY_WAIT) && _); [reflexivity|].
  case_bool_decide as Hrun.
  { destruct (e_lease_until e) eqn:Hu; [|reflexivity]. case_match; [reflexivity|].
    apply evolution_abandon; [done|]. by eapply leased_not_frozen. }
  case_match; [reflexivity|]. apply (evolution_save r e); [done|].
  apply evolves_live; [|solve_successor]. apply waiting_not_frozen, waiting_dec; [done|].
  destruct (e_state e) eqn:?; naive_solver.
Qed.

Lemma evolution_record_outcome t c out r : Inv r -> evolution r (record_outcome t c out r).2.
Proof.
  intros HI. unfold record_outcome.
  destruct (oget _ (_executions r)) as [e|] eqn:He; [|reflexivity].
  destruct (inv_exec _ HI _ _ He) as [Hid Hwf]. rewrite <- Hid in He. clear Hid.
  destruct (holds_lease c (_now r) e) eqn:Hl; [|reflexivity]. simpl.
  apply holds_lease_running in Hl as (Hrun & _ & _ & until & Hu & _).
  pose proof (leased_not_frozen _ _ Hrun Hu) as Hlive.
  case_bool_decide; [reflexivity|]. destruct out as [v|error].
  - destruct (_json_object v); simpl;
      (apply (evolution_save r e); [done|apply evolves_live; [done|solve_successor]]).
  - case_match; [destruct (retry_delay _ error)|]; simpl;
      (etrans; [apply (evolution_save r e); [done|apply evolves_live; [done|]]|
                by apply evolution_execs]; solve_successor).
Qed.

Section relay_evolution.
Context {Q : Type} `{JobQueue Q}.

Lemma evolution_relay_one k s : Inv s.1.1 -> evolution s.1.1 (relay_one k s).2.1.1.
Proof.
  destruct s as [[r q] [np nf]]. simpl. intros HI.
  destruct (oget k (_outbox r)) as [o|] eqn:Ho; [|reflexivity].
  destruct (inv_row _ HI _ _ Ho) as [_ _ _ (e & He & _ & Hw)]. rewrite He.
  destruct (inv_exec _ HI _ _ He) as [Hid Hwf].
  destruct (publish _ _ _ q) as [[m|x] q']; simpl; [|by apply evolution_execs].
  etrans; [by apply (evolution_execs r (put_outbox (o_set_state OB_PUBLISHED o) r))|].
  destruct (o_attempt_number o =? e_attempt_count e + 1) eqn:E.
  - apply (evolution_save _ e); [by rewrite Hid|]. unfold publish_done. rewrite E.
    apply evolves_live; [|solve_successor]. apply waiting_not_frozen, Hw. lia.
  - rewrite publish_done_id by done. apply (evolution_save _ e); [by rewrite Hid|reflexivity].
Qed.

Lemma evolution_relay_loop ks r q np nf : Inv r -> NoDup ks -> Forall (row_ready r) ks ->
  evolution r (relay_loop ks (r, q, (np, nf))).2.1.1.
Proof.
  revert r q np nf. induction ks as [|k ks IH]; intros r q np nf HI Hnd Hd; [reflexivity|].
  apply NoDup_cons in Hnd as [Hk Hnd]. apply Forall_cons in Hd as [(o & Ho & Hp) Hd].
  destruct (relay_one_ok k r q np nf) as (r1 & q1 & np1 & nf1 & E & _ & _ & _ & _ & Hother); eauto.
  pose proof (Inv_relay_one k (r, q, (np, nf))) as HI1.
  pose proof (evolution_relay_one k (r, q, (np, nf)) HI) as Hev. rewrite E in HI1, Hev.
  cbn [relay_loop]. rewrite E. etrans; [exact Hev|]. apply IH; [|done|].
  - apply HI1; [done|]. intros o'. simpl. congruence.
  - rewrite Forall_forall in Hd |- *. intros k' Hk'. destruct (Hd k' Hk') as (o' & ? & ?).
    exists o'. simpl. rewrite Hother; [done|]. by intros ->.
Qed.

Lemma evolution_relay_due limit r q : Inv r -> evolution r (relay_due limit r q).2.1.
Proof.
  intros HI. unfold relay_due. case_match; [reflexivity|].
  destruct (due_keys_ready limit r (inv_nodup_o _ HI)) as (Hnd & Hr & _).
  pose proof (evolution_relay_loop _ r q 0 0 HI Hnd Hr) as Hev.
  by destruct (relay_loop _ _) as [[[]|x] [[r' q'] [np nf]]].
Qed.
End relay_evolution.

Lemma rebuild_execs ks r : _executions (foldl rebuild_one r ks) = _executions r.
Proof.
  revert r. induction ks as [|k ks IH]; intros r; [done|]. simpl. rewrite IH.
  unfold rebuild_one. by destruct (oget k (_outbox r)).
Qed.

Lemma evolution_reap limit r : Inv r -> evolution r (reap_expired limit r).2.
Proof.
  intros HI. unfold reap_expired. simpl.
  destruct (reap_keys_spec limit r (inv_nodup_e _ HI)) as [Hnd Hd]. revert Hnd Hd.
  generalize (_now r) as now, (reap_keys limit r) as ks. intros now ks. revert r HI.
  induction ks as [|k ks IH]; intros r HI Hnd Hd; [reflexivity|]. simpl.
  apply NoDup_cons in Hnd as [Hk Hnd]. apply Forall_cons in Hd as [(e & He & Hx) Hd].
  destruct (inv_exec _ HI _ _ He) as [Hid _].
  apply andb_true_iff in Hx as [Hx%bool_decide_eq_true Hu].
  destruct (e_lease_until e) eqn:Hl; [|done].
  assert (reap_one r k = _abandon_locked e r) as -> by (unfold reap_one; by rewrite He).
  rewrite <- Hid in He.
  etrans; [apply evolution_abandon; [done|by eapply leased_not_frozen]|]. apply IH; [by apply Inv_abandon|done|].
  rewrite Forall_forall in Hd |- *. intros k' Hk'. destruct (Hd k' Hk') as (e' & ? & ?).
  exists e'. rewrite abandon_other; [done|]. intros ->. congruence.
Qed.

Lemma evolution_step cfg r r' : Inv r -> step cfg r r' -> evolution r r'.
Proof.
  intros HI Hs. destruct Hs.
  - by apply evolution_submit.
  - unfold advance_time. case_match; [reflexivity|by apply evolution_execs].
  - by apply evolution_claim.
  - by apply evolution_record_outcome.
  - by apply evolution_relay_due.
  - apply evolution_execs, rebuild_execs.
  - by apply evolution_reap.
  - unfold add_schedule. repeat (case_match; try reflexivity); by apply evolution_execs.
  - unfold schedule_tick. destruct (find_first _ _) as [[k s]|]; [|reflexivity].
    destruct (SubmitJob_create _ _ _ _ _ _ _) as [c|]; [|reflexivity].
    pose proof (evolution_submit cfg fresh c r ltac:(done)) as Hev.
    destruct (submit cfg fresh c r) as [[snap|x] r']; [|done].
    destruct (advance_schedule _ s); (etrans; [exact Hev|by apply evolution_execs]).
Qed.

Lemma steps_Inv cfg r r' : Inv r -> rtc (step cfg) r r' -> Inv r' /\ evolution r r'.
Proof.
  intros HI Hs. induction Hs as [r|r1 r2 r3 H12 H23 IH]; [split; [done|reflexivity]|].
  destruct IH as [? ?]; [by eapply Inv_step|]. split; [done|].
  etrans; [by eapply evolution_step|done].
Qed.
