(* ===== verification/JobTheorems.v ===== *)
(** * Correctness of the in-memory job runtime

    The claims about [JobRuntime], each proved from the lemmas of
    [JobInvariant], with a concrete run that satisfies its hypotheses. *)

From S2P Require Export JobInvariant JobRuntime.
#[local] Open Scope list_scope.

(** ** A concrete runtime *)

Definition ex_cfg : config := Config "foundation-local" 60 None.
Definition ex_identity : JobIdentity := MkJobIdentity "silver.normalize" "run:1" "normalize:1".
Definition ex_command : SubmitJob := MkSubmitJob ex_identity 7 AuditActor_system 2.
Definition ex_submitted : runtime := (submit ex_cfg 100 ex_command (new_runtime 0)).2.
Definition ex_relayed : runtime := (relay_due 10 ex_submitted ([] : recording_queue)).2.1.
Definition ex_claimed : runtime := (claim ex_cfg 100 1 "w1" ex_relayed).2.
Definition ex_claim : JobClaim :=
  MkJobClaim 100 1 "w1" (MkJobContext 100 1 7 "foundation-local" (Some "run:1")).
Definition ex_done : runtime :=
  (record_outcome 0 ex_claim (OutResult (VDict [("n", VInt 1)])) ex_claimed).2.

Lemma ex_submitted_reachable : reachable ex_cfg ex_submitted.
Proof.
  eapply reach_step; [apply (reach_new _ 0)|].
  apply step_submit; [unfold wf_submit; simpl; lia|simpl; set_solver].
Qed.

Lemma ex_relayed_reachable : reachable ex_cfg ex_relayed.
Proof. eapply reach_step; [apply ex_submitted_reachable|]. apply step_relay. Qed.

Lemma ex_claimed_reachable : reachable ex_cfg ex_claimed.
Proof. eapply reach_step; [apply ex_relayed_reachable|]. apply step_claim. Qed.

Lemma ex_done_reachable : reachable ex_cfg ex_done.
Proof. eapply reach_step; [apply ex_claimed_reachable|]. by apply step_outcome. Qed.

(** ** Claims *)

(** C1: In every state the job runtime can reach, whatever the queue does and in
    whatever order its methods are called, the executions, the identity index and
    the outbox are consistent ([Inv]): an execution has made as many attempts as it
    counts and at most [max_attempts], holds a lease only while it runs, no
    attempt but the last is open, every row of the outbox belongs to an execution
    and to an attempt it already made or is waiting to make, an execution that
    waits for its next attempt has the row of that attempt (no job is lost), and
    the index maps exactly the identities of the executions to their ids. *)
Theorem runtime_invariant cfg r : reachable cfg r -> Inv r.
Proof. apply reachable_Inv. Qed.

Theorem runtime_invariant_witness : reachable ex_cfg ex_claimed /\ Inv ex_claimed.
Proof.
  split; [apply ex_claimed_reachable|]. apply (runtime_invariant ex_cfg), ex_claimed_reachable.
Defined.



Lemma submit_ok cfg fresh c r s r1 :
  Inv r -> fresh ∉ okeys (_executions r) -> submit cfg fresh c r = (Ok s, r1) ->
  exists c' e, resolve_command cfg c = Ok c'
    /\ oget (snap_execution_id s) (_executions r1) = Some e
    /\ identity_key (e_identity e) = identity_key (sub_identity c').
Proof.
  intros HI Hf. unfold submit. destruct (resolve_command cfg c) as [c'|]; [|done].
  destruct (_identity_index r !! _) as [id|] eqn:Hid.
  - destruct (oget id (_executions r)) as [e|] eqn:He; [|done]. intros [= <- <-].
    destruct (inv_exec _ HI _ _ He) as [Hx _]. exists c', e. simpl. rewrite Hx.
    split; [done|]. split; [done|].
    apply (inv_index _ HI) in Hid as (x & ? & ?). by assert (x = e) as -> by congruence.
  - intros [= <- <-]. exists c', (new_execution fresh (_now r) c'). simpl.
    by rewrite oget_oset_eq.
Qed.

Lemma submit_index cfg fresh c r s r1 : submit cfg fresh c r = (Ok s, r1) ->
  exists c' id, resolve_command cfg c = Ok c'
    /\ _identity_index r1 !! identity_key (sub_identity c') = Some id.
Proof.
  unfold submit. destruct (resolve_command cfg c) as [c'|]; [|done].
  destruct (_identity_index r !! _) as [id|] eqn:Hid.
  - destruct (oget id (_executions r)) as [e|]; [|done]. intros [= _ <-]. by exists c', id.
  - intros [= _ <-]. exists c', fresh. simpl. by rewrite lookup_insert_eq.
Qed.

(** Submission is idempotent: once a command was accepted, submitting it again at any
    later time, after any sequence of steps, returns the same execution and changes
    nothing. *)
Theorem submit_idempotent cfg fresh fresh' c r s r1 r2 :
  reachable cfg r -> wf_submit c -> fresh ∉ okeys (_executions r) ->
  submit cfg fresh c r = (Ok s, r1) -> rtc (step cfg) r1 r2 ->
  exists s', submit cfg fresh' c r2 = (Ok s', r2)
             /\ snap_execution_id s' = snap_execution_id s.
Proof.
  intros HI%reachable_Inv Hc Hf Hs Hsteps.
  destruct (submit_ok _ _ _ _ _ _ HI Hf Hs) as (c' & e & Hr & He & Hkey).
  pose proof (Inv_submit cfg fresh c r HI Hc Hf) as HI1. rewrite Hs in HI1. simpl in HI1.
  destruct (steps_Inv _ _ _ HI1 Hsteps) as [HI2 Hev].
  destruct (Hev _ _ He) as (e2 & He2 & (Hid & Hident & _) & _).
  assert (Hidx : _identity_index r2 !! identity_key (sub_identity c') = Some (snap_execution_id s))
    by (apply (inv_index _ HI2); exists e2; split; [done|congruence]).
  destruct (inv_exec _ HI2 _ _ He2) as [Hx _].
  exists (_snapshot e2). unfold submit. by rewrite Hr, Hidx, He2.
Qed.

Theorem submit_idempotent_witness :
  exists s', submit ex_cfg 101 ex_command ex_done = (Ok s', ex_done)
             /\ snap_execution_id s' = 100.
Proof.
  apply (submit_idempotent ex_cfg 100 101 ex_command (new_runtime 0)
           (_snapshot (new_execution 100 0 ex_command)) ex_submitted ex_done).
  - apply reach_new.
  - unfold wf_submit. simpl. lia.
  - simpl. set_solver.
  - reflexivity.
  - eapply rtc_l; [apply (step_relay _ _ _ _ ([] : recording_queue) 10)|].
    eapply rtc_l; [apply (step_claim _ _ 100 1 "w1")|].
    eapply rtc_once. by apply (step_outcome _ _ 0 ex_claim (OutResult (VDict [("n", VInt 1)]))).
Defined.

(** When [claim] grants an attempt *)
Lemma claim_Some cfg id n w r c r' :
  claim cfg id n w r = (Some c, r') ->
  exists e, oget id (_executions r) = Some e /\ n = e_attempt_count e + 1
    /\ is_terminal_state (e_state e) = false /\ e_state e <> RUNNING
    /\ e_available_at e <= _now r /\ claim_execution_id c = id /\ claim_attempt_number c = n
    /\ r' = save (e_set_attempts (e_attempts e ++ [Mk_Attempt n w (_now r) ATTEMPT_RUNNING None None])
                   (e_set_lease (Some w) (Some (_now r + seconds (lease_seconds cfg)))
                     (e_set_state RUNNING (e_set_count (e_attempt_count e + 1) e)))) r.
Proof.
  unfold claim. destruct (oget id (_executions r)) as [e|]; [|done].
  case_match eqn:Hn; [done|]. apply negb_false_iff, Z.eqb_eq in Hn.
  case_bool_decide as Ht; [done|].
  destruct (bool_decide (e_state e = RETRY_WAIT) && _); [done|].
  case_bool_decide as Hr.
  { destruct (e_lease_until e); [|done]. by case_match. }
  case_match eqn:Ha; [done|]. intros [= <- <-]. apply Z.ltb_ge in Ha.
  exists e. split_and!; try done. destruct (e_state e) eqn:?; naive_solver.
Qed.

(** An attempt is claimed at most once: after a worker obtained attempt [n] of an
    execution, no claim of that attempt, by any worker and after any sequence of
    steps, succeeds, even if its lease expired in between. *)
Theorem attempt_claimed_once cfg id n w w' r c r1 r2 :
  reachable cfg r -> claim cfg id n w r = (Some c, r1) -> rtc (step cfg) r1 r2 ->
  (claim cfg id n w' r2).1 = None.
Proof.
  intros HI%reachable_Inv Hc Hsteps.
  pose proof (Inv_claim cfg id n w r HI) as HI1. rewrite Hc in HI1. simpl in HI1.
  destruct (claim_Some _ _ _ _ _ _ _ Hc) as (e & He & -> & _ & _ & _ & _ & _ & ->).
  destruct (inv_exec _ HI _ _ He) as [Hid _].
  destruct (steps_Inv _ _ _ HI1 Hsteps) as [_ Hev].
  destruct (claim cfg id (e_attempt_count e + 1) w' r2) as [[c2|] r3] eqn:Hc2; [exfalso|done].
  destruct (claim_Some _ _ _ _ _ _ _ Hc2) as (e2 & He2 & Hn & _).
  simpl in Hev. unfold evolution, save, with_executions in Hev. simpl in Hev.
  edestruct Hev as (e3 & He3 & (_ & _ & _ & Hle) & _).
  { rewrite <- Hid. apply oget_oset_eq. }
  assert (e3 = e2) as -> by congruence. simpl in Hle. lia.
Qed.

Theorem attempt_claimed_once_witness :
  (claim ex_cfg 100 1 "w2" (reap_expired 5 (advance_time (seconds 61) ex_claimed).2).2).1 = None.
Proof.
  eapply (attempt_claimed_once ex_cfg 100 1 "w1" "w2" ex_relayed ex_claim ex_claimed).
  - apply ex_relayed_reachable.
  - reflexivity.
  - eapply rtc_l; [apply (step_advance _ _ (seconds 61))|]. eapply rtc_once. apply step_reap.
Defined.

(** ** Outcomes *)

(** The execution and the claim after an accepted outcome, for the error branch *)
Lemma record_error t c error r e :
  oget (claim_execution_id c) (_executions r) = Some e -> holds_lease c (_now r) e = true ->
  Inv r -> wf_outcome (OutError error) ->
  exists s r' e', record_outcome t c (OutError error) r = (Ok s, r')
    /\ oget (claim_execution_id c) (_executions r') = Some e'
    /\ e_attempt_count e' = e_attempt_count e
    /\ e_error_code e' = Some (fail_code (classify_failure t error))
    /\ e_lease_until e' = None
    /\ if bool_decide (fail_kind (classify_failure t error) = Transient)
          && (e_attempt_count e <? e_max_attempts e)
       then exists d, 0 <= d <= 300 /\ e_state e' = RETRY_WAIT
            /\ e_available_at e' = _now r + seconds d
            /\ oget (claim_execution_id c, e_attempt_count e + 1) (_outbox r')
               = Some (new_outbox (claim_execution_id c) (e_attempt_count e + 1) (_now r + seconds d))
       else e_state e' = FAILED /\ e_finished_at e' = Some (_now r) /\ _outbox r' = _outbox r.
Proof.
  intros He Hl HI Hw. destruct (inv_exec _ HI _ _ He) as [Hid Hwf].
  apply holds_lease_running in Hl as Hl'. destruct Hl' as (Hrun & _).
  assert (Hne : e_attempts e <> []).
  { intros E. pose proof (wf_attempts _ Hwf). pose proof (wf_running _ Hwf Hrun).
    rewrite E in *. simpl in *. lia. }
  unfold record_outcome. rewrite He, Hl. cbn [negb]. rewrite bool_decide_eq_false_2 by done.
  destruct (retry_delay_ok (e_attempt_count e) error Hw) as (d & Hd & Hb).
  simpl. destruct (bool_decide _ && _).
  - rewrite Hd. simpl. eexists _, _, _. split; [done|]. simpl. rewrite Hid, !oget_oset_eq.
    split; [done|]. split_and!; try done. exists d. destruct Hb. by split_and!.
  - eexists _, _, _. split; [done|]. simpl. rewrite Hid, oget_oset_eq.
    split; [done|]. by split_and!.
Qed.

(** The outcome of a failed attempt whose lease is still held is always recorded:
    a transient failure with attempts left schedules exactly the next attempt, due
    between now and five minutes from now; every other failure, and a transient one
    on the last attempt, ends the job as failed.  (The timestamp bound is the one of
    Python's [timedelta].) *)
Theorem failure_outcome cfg t c error r e :
  reachable cfg r -> oget (claim_execution_id c) (_executions r) = Some e ->
  holds_lease c (_now r) e = true -> wf_outcome (OutError error) ->
  exists s r' e', record_outcome t c (OutError error) r = (Ok s, r')
    /\ oget (claim_execution_id c) (_executions r') = Some e'
    /\ e_attempt_count e' = e_attempt_count e
    /\ e_error_code e' = Some (fail_code (classify_failure t error))
    /\ e_lease_until e' = None
    /\ if bool_decide (fail_kind (classify_failure t error) = Transient)
          && (e_attempt_count e <? e_max_attempts e)
       then exists d, 0 <= d <= 300 /\ e_state e' = RETRY_WAIT
            /\ e_available_at e' = _now r + seconds d
            /\ oget (claim_execution_id c, e_attempt_count e + 1) (_outbox r')
               = Some (new_outbox (claim_execution_id c) (e_attempt_count e + 1) (_now r + seconds d))
       else e_state e' = FAILED /\ e_finished_at e' = Some (_now r) /\ _outbox r' = _outbox r.
Proof. intros HI%reachable_Inv He Hl Hw. by apply record_error. Qed.

Theorem failure_outcome_witness :
  exists s r', record_outcome 0 ex_claim (OutError (TransientJobError "x" (Some (seconds 1000)))) ex_claimed
               = (Ok s, r').
Proof.
  edestruct (failure_outcome ex_cfg 0 ex_claim
               (TransientJobError "x" (Some (seconds 1000))) ex_claimed) as (s & r' & e' & H & _).
  - apply ex_claimed_reachable.
  - vm_compute. reflexivity.
  - vm_compute. reflexivity.
  - simpl. unfold is_timedelta, days, seconds, us_per_second. lia.
  - exists s, r'. exact H.
Defined.

(** The outcome of a worker that lost its lease, by time or to a later attempt, is
    ignored: the runtime answers with the current snapshot and changes nothing. *)
Theorem stale_outcome_ignored t c out r e :
  oget (claim_execution_id c) (_executions r) = Some e ->
  (claim_attempt_number c <> e_attempt_count e
   \/ (exists until, e_lease_until e = Some until /\ until <= _now r)
   \/ e_lease_owner e <> Some (claim_worker_id c) \/ e_state e <> RUNNING) ->
  record_outcome t c out r = (Ok (_snapshot e), r).
Proof.
  intros He Hstale. unfold record_outcome. rewrite He.
  destruct (holds_lease c (_now r) e) eqn:Hl; [exfalso|done].
  apply holds_lease_running in Hl as (? & ? & ? & until & ? & ?).
  destruct Hstale as [|[(u & ? & ?)|[|]]]; simplify_eq; (congruence || lia).
Qed.

Theorem stale_outcome_ignored_witness : exists s,
  record_outcome 0 ex_claim (OutResult VNone) (advance_time (seconds 61) ex_claimed).2
  = (Ok s, (advance_time (seconds 61) ex_claimed).2).
Proof.
  eexists. eapply stale_outcome_ignored; [vm_compute; reflexivity|].
  right. left. exists 60000000. split; [reflexivity|]. vm_compute. discriminate.
Defined.

(** A result that is not a JSON object of scalars, or is larger than 8 KiB, wedges the
    job: the lease is cleared before the result is checked, so the execution stays
    RUNNING with no lease, and no later step (no claim, no reap, no outcome) ever
    changes it again. *)
Theorem invalid_result_wedges cfg t c v x r e r' :
  reachable cfg r -> oget (claim_execution_id c) (_executions r) = Some e ->
  holds_lease c (_now r) e = true -> _json_object v = Raise x ->
  rtc (step cfg) (record_outcome t c (OutResult v) r).2 r' ->
  (record_outcome t c (OutResult v) r).1 = Raise x
  /\ exists e', oget (claim_execution_id c) (_executions r') = Some e'
     /\ e_state e' = RUNNING /\ e_lease_until e' = None /\ e_finished_at e' = e_finished_at e.
Proof.
  intros HI%reachable_Inv He Hl Hv Hs.
  pose proof (Inv_record_outcome t c (OutResult v) r HI I) as HI'.
  destruct (steps_Inv _ _ _ HI' Hs) as [_ Hev].
  destruct (inv_exec _ HI _ _ He) as [Hid Hwf].
  apply holds_lease_running in Hl as Hl'. destruct Hl' as (Hrun & _).
  assert (Hne : e_attempts e <> []).
  { intros E. pose proof (wf_attempts _ Hwf). pose proof (wf_running _ Hwf Hrun).
    rewrite E in *. simpl in *. lia. }
  revert Hev. unfold record_outcome. rewrite He, Hl. cbn [negb].
  rewrite bool_decide_eq_false_2, Hv by done. intros Hev. split; [done|].
  edestruct Hev as (e' & He' & _ & Hf); [simpl; rewrite Hid; apply oget_oset_eq|].
  rewrite Hf in He' by (right; done). eexists. split; [exact He'|done].
Qed.

Theorem invalid_result_wedges_witness :
  exists e', oget 100 (_executions
    (reap_expired 5 (advance_time (seconds 9999)
       (record_outcome 0 ex_claim (OutResult (VDict [("r", VList [])])) ex_claimed).2).2).2) = Some e'
  /\ e_state e' = RUNNING /\ e_lease_until e' = None /\ e_finished_at e' = None.
Proof.
  edestruct (invalid_result_wedges ex_cfg 0 ex_claim (VDict [("r", VList [])]) ValueError ex_claimed)
    as [_ H].
  - apply ex_claimed_reachable.
  - vm_compute. reflexivity.
  - vm_compute. reflexivity.
  - reflexivity.
  - eapply rtc_l; [apply (step_advance _ _ (seconds 9999))|]. eapply rtc_once. apply step_reap.
  - exact H.
Defined.

(** [complete] on a job that was never claimed leaves its outbox row pending; the
    relay then publishes it and puts the succeeded job back in state QUEUED. *)
Theorem complete_then_relay_reopens :
  exists e, oget 100 (_executions (complete 100 (VDict []) ex_submitted).2) = Some e
    /\ e_state e = SUCCEEDED
    /\ option_map e_state (oget 100 (_executions
         (relay_due 10 (complete 100 (VDict []) ex_submitted).2 ([] : recording_queue)).2.1))
       = Some QUEUED.
Proof. eexists. split; [vm_compute; reflexivity|]. split; reflexivity. Qed.

(** ** Relay, reaper and schedules *)

(** C39: Whatever the queue does, one relay pass succeeds on every reachable runtime and
    tries exactly the due rows, at most [limit] of them; the rows published and the rows
    that failed add up to the rows tried. *)
Theorem relay_due_total {Q} `{JobQueue Q} cfg r q limit :
  reachable cfg r -> 1 <= limit <= 1000 ->
  exists p f s, relay_due limit r q = (Ok (MkRelayResult p f), s)
    /\ 0 <= p /\ 0 <= f
    /\ p + f = Z.min limit (Z.of_nat (length
         (List.filter (is_due (_now r)) (ovalues (_outbox r))))).
Proof.
  intros HI%reachable_Inv Hl. unfold relay_due.
  assert (negb ((1 <=? limit) && (limit <=? 1000)) = false) as ->
    by (apply negb_false_iff, andb_true_iff; lia).
  destruct (due_keys_ready limit r (inv_nodup_o _ HI)) as (Hnd & Hr & _).
  destruct (relay_loop_ok _ r q 0 0 Hnd HI Hr) as (r' & q' & p & f & -> & _ & Hsum & ? & ?).
  exists p, f, (r', q'). split; [done|]. split; [done|]. split; [done|].
  rewrite Hsum. unfold due_keys. rewrite length_take.
  assert (E : length (filter (fun k => default false (is_due (_now r) <$> oget k (_outbox r)))
                  (okeys (_outbox r))) = length (List.filter (is_due (_now r)) (ovalues (_outbox r)))).
  { apply length_filter_keys. apply (inv_nodup_o _ HI). }
  rewrite E. lia.
Qed.

Theorem relay_due_total_witness : exists p f s,
  relay_due 10 ex_submitted ([] : recording_queue) = (Ok (MkRelayResult p f), s) /\ p + f = 1.
Proof.
  destruct (relay_due_total ex_cfg ex_submitted ([] : recording_queue) 10)
    as (p & f & s & E & _ & _ & Hs); [apply ex_submitted_reachable|lia|].
  exists p, f, s. split; [exact E|]. rewrite Hs. reflexivity.
Defined.

Lemma reap_one_running r k e : oget k (_executions r) = Some e ->
  reap_one r k = _abandon_locked e r.
Proof. intros He. unfold reap_one. by rewrite He. Qed.

Lemma abandon_exec e r :
  exists e', oget (e_execution_id e) (_executions (_abandon_locked e r)) = Some e'
             /\ e_state e' <> RUNNING.
Proof.
  unfold _abandon_locked. case_match; simpl; eexists; (split; [apply oget_oset_eq|done]).
Qed.

Lemma abandon_now e r : _now (_abandon_locked e r) = _now r.
Proof. unfold _abandon_locked. by case_match. Qed.

Lemma reap_fold ks r : Inv r -> NoDup ks ->
  Forall (fun k => exists e, oget k (_executions r) = Some e /\ e_state e = RUNNING) ks ->
  _now (foldl reap_one r ks) = _now r /\
  forall k, if bool_decide (k ∈ ks)
            then exists e, oget k (_executions (foldl reap_one r ks)) = Some e /\ e_state e <> RUNNING
            else oget k (_executions (foldl reap_one r ks)) = oget k (_executions r).
Proof.
  revert r. induction ks as [|k ks IH]; intros r HI Hnd Hd; [done|].
  apply NoDup_cons in Hnd as [Hk Hnd]. apply Forall_cons in Hd as [(e & He & Hr) Hd]. simpl.
  rewrite (reap_one_running r k e) by done.
  destruct (inv_exec _ HI _ _ He) as [Hid _]. rewrite <- Hid in He.
  destruct (IH (_abandon_locked e r)) as [Hn Hall]; [by apply Inv_abandon|done| |].
  { rewrite Forall_forall in Hd |- *. intros k' Hk'. rewrite abandon_other by congruence. by apply Hd. }
  split; [by rewrite Hn, abandon_now|]. intros k'. specialize (Hall k').
  destruct (decide (k' = k)) as [->|Hne].
  - rewrite bool_decide_eq_true_2 by set_solver.
    rewrite bool_decide_eq_false_2 in Hall by done. rewrite Hall, <- Hid. apply abandon_exec.
  - rewrite (bool_decide_ext (k' ∈ k :: ks) (k' ∈ ks)) by set_solver.
    case_bool_decide; [done|]. by rewrite Hall, abandon_other by congruence.
Qed.

(** One reaper pass whose limit covers the executions leaves no expired lease: every
    execution whose lease had run out is abandoned, either back to waiting or failed. *)
Theorem reap_expired_complete cfg r limit :
  reachable cfg r -> Z.of_nat (length (_executions r)) <= limit ->
  forall k e, oget k (_executions (reap_expired limit r).2) = Some e ->
    lease_expired (_now (reap_expired limit r).2) e = false.
Proof.
  intros HI%reachable_Inv Hl k e. unfold reap_expired. simpl.
  destruct (reap_keys_spec limit r (inv_nodup_e _ HI)) as [Hnd Hd].
  assert (Hrun : Forall (fun k => exists e, oget k (_executions r) = Some e /\ e_state e = RUNNING)
                   (reap_keys limit r)).
  { eapply Forall_impl; [exact Hd|]. intros k' (e' & He' & Hx). exists e'. split; [done|].
    apply andb_true_iff in Hx as [Hx _]. by apply bool_decide_eq_true in Hx. }
  destruct (reap_fold _ r HI Hnd Hrun) as [-> Hall]. specialize (Hall k). intros He.
  case_bool_decide as Hk.
  - destruct Hall as (e' & ? & Hnr). assert (e' = e) as -> by congruence.
    unfold lease_expired. by rewrite bool_decide_eq_false_2.
  - rewrite Hall in He. destruct (lease_expired (_now r) e) eqn:Hx; [|done]. exfalso. apply Hk.
    assert (Hlen : (length (okeys (_executions r)) <= Z.to_nat limit)%nat)
      by (unfold okeys; rewrite length_fmap; lia).
    unfold reap_keys, slice_to. rewrite (proj2 (Z.ltb_ge _ _)) by lia.
    rewrite take_ge by (etrans; [apply length_filter|done]).
    apply list_elem_of_filter. rewrite He. simpl. rewrite Hx. split; [done|].
    apply oget_Some_elem in He. by apply (list_elem_of_fmap_2 fst _ (k, e)).
Qed.

Theorem reap_expired_complete_witness :
  exists e, oget 100 (_executions (reap_expired 5 (advance_time (seconds 61) ex_claimed).2).2) = Some e
    /\ lease_expired (_now (reap_expired 5 (advance_time (seconds 61) ex_claimed).2).2) e = false.
Proof.
  eexists. split; [vm_compute; reflexivity|].
  eapply (reap_expired_complete ex_cfg (advance_time (seconds 61) ex_claimed).2 5 _ _ 100).
  Unshelve.
  + vm_compute. reflexivity.
  + eapply reach_step; [apply ex_claimed_reachable|]. apply step_advance.
  + vm_compute. discriminate.
Defined.

(** A fixed-interval schedule repeats at least every minute ... *)
Definition wf_schedules (r : runtime) : Prop :=
  Forall (fun kv => s_schedule_kind kv.2 = FixedInterval ->
                    exists i, s_interval_seconds kv.2 = Some i /\ 60 <= i) (_schedules r).

Lemma Forall_oset {V} (P : Z * V -> Prop) (d : odict Z V) k v :
  Forall P d -> P (k, v) -> Forall P (oset k v d).
Proof.
  intros Hd Hv. induction Hd as [|[a b] d Ha Hd IH]; simpl; [by repeat constructor|].
  case_decide; by constructor.
Qed.

Lemma abandon_schedules e r : _schedules (_abandon_locked e r) = _schedules r.
Proof. unfold _abandon_locked. by case_match. Qed.

Lemma relay_loop_schedules {Q} `{JobQueue Q} ks s :
  _schedules (relay_loop ks s).2.1.1 = _schedules s.1.1.
Proof.
  revert s. induction ks as [|k ks IH]; intros s; [done|]. cbn [relay_loop].
  assert (Hone : _schedules (relay_one k s).2.1.1 = _schedules s.1.1).
  { destruct s as [[r q] [np nf]]. simpl. destruct (oget k (_outbox r)) as [o|]; [|done].
    destruct (oget _ (_executions r)) as [e|]; [|done]. by destruct (publish _ _ _ q) as [[|] ?]. }
  destruct (relay_one k s) as [[[]|x] s']; [|done]. by rewrite IH.
Qed.

Lemma submit_schedules cfg fresh c r : _schedules (submit cfg fresh c r).2 = _schedules r.
Proof.
  unfold submit. destruct (resolve_command cfg c); [|done].
  destruct (_identity_index r !! _) as [id|]; [by destruct (oget id (_executions r))|done].
Qed.

Lemma advance_schedule_facts planned s s' : advance_schedule planned s = Ok s' ->
  s_schedule_kind s' = s_schedule_kind s /\ s_interval_seconds s' = s_interval_seconds s
  /\ s_last_scheduled_at s' = Some planned
  /\ match s_schedule_kind s with
     | OneShot => s_enabled s' = false
     | FixedInterval => s_enabled s' = s_enabled s
         /\ exists i, s_interval_seconds s = Some i /\ s_next_run_at s' = planned + seconds i
     end.
Proof.
  unfold advance_schedule. destruct (s_schedule_kind s) eqn:Hk.
  - intros [= <-]. by simpl.
  - destruct (s_interval_seconds s) eqn:Hi; [|done]. intros [= <-]. simpl. by eauto 10.
Qed.

Lemma wf_schedules_reachable cfg r : reachable cfg r -> wf_schedules r.
Proof.
  unfold wf_schedules. induction 1 as [|r r' Hr IH Hs]; [constructor|]. destruct Hs.
  - by rewrite submit_schedules.
  - unfold advance_time. by case_match.
  - unfold claim. repeat (case_match; simpl; try done). by rewrite abandon_schedules.
  - unfold record_outcome. repeat (case_match; simpl; try done).
  - unfold relay_due. case_match; [done|].
    pose proof (relay_loop_schedules (due_keys limit r) (r, q, (0, 0))) as E. simpl in E.
    destruct (relay_loop _ _) as [[[]|x] [[r' q'] [np nf]]]; simpl in *; by rewrite E.
  - unfold rebuild_outbox. simpl. generalize (rebuild_keys limit r) as ks. intros ks.
    revert r IH Hr. induction ks as [|k ks IHk]; intros r IH Hr; [done|]. simpl.
    assert (E : _schedules (foldl rebuild_one (rebuild_one r k) ks) = _schedules r); [|by rewrite E].
    clear. revert r k. induction ks as [|k' ks IH]; intros r k; simpl; [|rewrite IH];
      unfold rebuild_one; by destruct (oget k (_outbox r)).
  - unfold reap_expired. simpl.
    assert (E : forall ks r, _schedules (foldl reap_one r ks) = _schedules r); [|by rewrite E].
    clear. induction ks as [|k ks IH]; intros r; [done|]. simpl. rewrite IH. unfold reap_one.
    destruct (oget k (_executions r)); [apply abandon_schedules|done].
  - unfold add_schedule. destruct (schedule_kind_of kind) as [kd|]; [|done].
    case_match eqn:Hi; [done|]. destruct (to_utc next); [|done]. simpl. apply Forall_oset; [done|].
    simpl. intros ->. destruct interval as [i|]; [|done]. exists i. split; [done|lia].
  - unfold schedule_tick. destruct (find_first _ _) as [[k s]|] eqn:Hf; [|done].
    apply find_first_Some in Hf as [Hin _].
    assert (Hks := proj1 (Forall_forall _ _) IH _ Hin). simpl in Hks.
    destruct (SubmitJob_create _ _ _ _ _ _ _) as [c|]; [|done].
    pose proof (submit_schedules cfg fresh c r) as E.
    destruct (submit cfg fresh c r) as [[snap|x] r']; simpl in E; [|simpl; by rewrite E].
    destruct (advance_schedule _ s) eqn:Ha; simpl; rewrite E; (apply Forall_oset; [done|]); [|done].
    simpl. apply advance_schedule_facts in Ha as (-> & -> & _). done.
Qed.

(** A scheduler tick that reports a submission took the first due schedule, has a job for
    that schedule's occurrence in the index, and moved the schedule on: a one-shot
    schedule is disabled, a fixed-interval one is next due at least a minute after
    the planned time; a tick that reports nothing found no due schedule. *)
Theorem schedule_tick_advances cfg fc fresh r n r' :
  reachable cfg r -> schedule_tick cfg fc fresh r = (Ok n, r') ->
  (n = 0 /\ r' = r /\ Forall (fun kv => schedule_due (_now r) kv.2 = false) (_schedules r))
  \/ (n = 1 /\ exists k s s', find_first (fun kv => schedule_due (_now r) kv.2) (_schedules r) = Some (k, s)
      /\ oget k (_schedules r') = Some s' /\ s_last_scheduled_at s' = Some (s_next_run_at s)
      /\ match s_schedule_kind s with
         | OneShot => s_enabled s' = false
         | FixedInterval => s_enabled s' = true /\ s_next_run_at s + seconds 60 <= s_next_run_at s'
         end
      /\ exists c c' id,
           SubmitJob_create fc (s_job_type s) (s_logical_target s)
             (schedule_key (s_schedule_id s) (s_next_run_at s)) None None (s_max_attempts s) = Ok c
           /\ resolve_command cfg c = Ok c'
           /\ _identity_index r' !! identity_key (sub_identity c') = Some id).
Proof.
  intros Hr. pose proof (wf_schedules_reachable _ _ Hr) as Hwf. clear Hr.
  unfold schedule_tick. destruct (find_first _ _) as [[k s]|] eqn:Hf.
  - destruct (SubmitJob_create _ _ _ _ _ _ _) as [c|] eqn:Hc; [|done].
    destruct (submit cfg fresh c r) as [[snap|x] r1] eqn:Hs; [|done].
    destruct (advance_schedule _ s) as [s'|] eqn:Ha; [|done]. intros [= <- <-]. right.
    split; [done|]. exists k, s, s'. split; [done|]. simpl. rewrite oget_oset_eq.
    apply advance_schedule_facts in Ha as (_ & _ & Hlast & Hk).
    split; [done|]. split; [done|]. split.
    + apply find_first_Some in Hf as [Hin Hdue].
      pose proof (proj1 (Forall_forall _ _) Hwf _ Hin) as Hks. simpl in Hks.
      apply andb_true_iff in Hdue as [Hen _]. simpl in Hen.
      destruct (s_schedule_kind s); [done|].
      destruct Hks as (i & Hi & ?); [done|]. destruct Hk as (Hen' & j & Hj & ->).
      assert (j = i) as -> by congruence. split; [congruence|].
      unfold seconds, us_per_second. lia.
    + destruct (submit_index _ _ _ _ _ _ Hs) as (c' & id & ? & ?). by exists c, c', id.
  - intros [= <- <-]. left. split; [done|]. split; [done|]. by apply find_first_None.
Qed.

Definition ex_scheduled : runtime :=
  (add_schedule 200 "silver.normalize" "run:2" "fixed_interval" (Stamp true (seconds 1753100130))
     (Some 3600) 5 None (new_runtime (seconds 1753100200))).2.

Lemma ex_scheduled_reachable : reachable ex_cfg ex_scheduled.
Proof. eapply reach_step; [apply reach_new|]. apply step_add_schedule. Qed.

Theorem schedule_tick_advances_witness :
  exists r' k s s', schedule_tick ex_cfg 8 101 ex_scheduled = (Ok 1, r')
    /\ oget k (_schedules r') = Some s' /\ s_last_scheduled_at s' = Some (s_next_run_at s).
Proof.
  assert (E : (schedule_tick ex_cfg 8 101 ex_scheduled).1 = Ok 1) by (vm_compute; reflexivity).
  destruct (schedule_tick ex_cfg 8 101 ex_scheduled) as [n r'] eqn:Ht. simpl in E. subst n.
  destruct (schedule_tick_advances ex_cfg 8 101 ex_scheduled 1 r' ex_scheduled_reachable Ht)
    as [(H & _)|(_ & k & s & s' & _ & Hg & Hl & _)]; [discriminate H|].
  exists r', k, s, s'. split; [reflexivity|]. split; [exact Hg|exact Hl].
Defined.

(** [add_schedule] stores a job type, target and attempt bound without validating them;
    once such a schedule is the first due one, every tick raises, leaves the runtime
    unchanged and never looks at the schedules behind it. *)
Theorem invalid_schedule_blocks cfg fc fresh r k s x :
  find_first (fun kv => schedule_due (_now r) kv.2) (_schedules r) = Some (k, s) ->
  SubmitJob_create fc (s_job_type s) (s_logical_target s)
    (schedule_key (s_schedule_id s) (s_next_run_at s)) None None (s_max_attempts s) = Raise x ->
  schedule_tick cfg fc fresh r = (Raise x, r).
Proof. intros Hf Hc. unfold schedule_tick. by rewrite Hf, Hc. Qed.

Theorem invalid_schedule_blocks_witness :
  let r := (add_schedule 201 "silver.normalize" "run:3" "one_shot" (Stamp true 0) None 5 None
             (add_schedule 200 "silver.normalize" "run 2" "one_shot" (Stamp true 0) None 5 None
               (new_runtime 0)).2).2 in
  schedule_tick ex_cfg 8 101 r = (Raise ValueError, r).
Proof.
  intros r. eapply (invalid_schedule_blocks ex_cfg 8 101 r 200); [vm_compute; reflexivity|].
  reflexivity.
Defined.
