(* ===== verification/JobSpec.v ===== *)
(** * What a job runtime promises

    The abstract specification of the [JobRuntime] port: a job is waiting, leased to a
    worker until an instant, or finished.  Each step is told the instants at which the
    runtime read its clock, which may read it more than once.  [spec_step] says which changes a runtime may
    make.  [JobSystem] is the interface: a runtime with an abstraction function whose
    steps are sequences of specification steps, none of them for a change nobody sees.
    The consequences for callers are proved once, against the interface. *)

From S2P Require Export JobContracts.
#[local] Open Scope list_scope.

Inductive phase := Waiting (since : Z) | Leased (worker : string) (until : Z) | Finished (ok : bool).

Record job := Job {
  j_identity : string * string * string; j_max : Z; j_attempts : Z; j_phase : phase
}.

Abbreviation jobs := (gmap Z job) (only parsing).

Definition j_set (attempts : Z) (ph : phase) (j : job) : job :=
  Job (j_identity j) (j_max j) attempts ph.

(** What an expired or a retried attempt leads to *)
Definition after_expiry (now : Z) (j : job) : phase :=
  if j_attempts j <? j_max j then Waiting now else Finished false.

Inductive job_step (j : job) : job -> Prop :=
  | job_claim since now worker until :
      j_phase j = Waiting since -> since <= now -> j_attempts j < j_max j ->
      job_step j (j_set (j_attempts j + 1) (Leased worker until) j)
  | job_report now worker until ok :
      j_phase j = Leased worker until -> now < until ->
      job_step j (j_set (j_attempts j) (Finished ok) j)
  | job_retry checked now worker until since :
      j_phase j = Leased worker until -> checked < until ->
      now <= since <= now + seconds 300 -> j_attempts j < j_max j ->
      job_step j (j_set (j_attempts j) (Waiting since) j)
  | job_expire now worker until :
      j_phase j = Leased worker until -> until <= now ->
      job_step j (j_set (j_attempts j) (after_expiry now j) j).

Inductive spec_step (s : jobs) : jobs -> Prop :=
  | spec_submit id identity max now :
      s !! id = None -> (forall i j, s !! i = Some j -> j_identity j <> identity) ->
      1 <= max <= 10 ->
      spec_step s (<[id := Job identity max 0 (Waiting now)]> s)
  | spec_job id j j' :
      s !! id = Some j -> job_step j j' -> spec_step s (<[id := j']> s).

(** ** The interface *)

Class JobSystem (S : Type) := {
  js_init : S -> Prop;
  js_step : S -> S -> Prop;
  js_jobs : S -> jobs;
  js_inv : S -> Prop;
  js_start : forall s, js_init s -> js_inv s /\ js_jobs s = ∅;
  js_refines : forall s s', js_inv s -> js_step s s' ->
    js_inv s' /\ rtc spec_step (js_jobs s) (js_jobs s')
}.

Definition js_reachable {S} `{JobSystem S} (s : S) : Prop :=
  exists s0, js_init s0 /\ rtc js_step s0 s.

(** ** Consequences of the specification *)

Record job_ok (j : job) : Prop := {
  jok_max : 1 <= j_max j <= 10;
  jok_attempts : 0 <= j_attempts j <= j_max j;
  jok_waiting : forall since, j_phase j = Waiting since -> j_attempts j < j_max j;
  jok_leased : forall w u, j_phase j = Leased w u -> 1 <= j_attempts j
}.

Definition jobs_ok (s : jobs) : Prop :=
  (forall id j, s !! id = Some j -> job_ok j)
  /\ (forall id id' j j', s !! id = Some j -> s !! id' = Some j' ->
        j_identity j = j_identity j' -> id = id').

Lemma job_step_ok j j' : job_ok j -> job_step j j' -> job_ok j' /\ j_identity j' = j_identity j.
Proof.
  intros [? ? Hw Hl] Hs. split; [|by destruct Hs].
  destruct Hs; simpl in *; split; simpl; try lia; try done; intros; simplify_eq; try lia; eauto.
  all: unfold after_expiry in *; case_match; simplify_eq; try lia.
Qed.

Lemma spec_step_ok s s' : jobs_ok s -> spec_step s s' -> jobs_ok s'.
Proof.
  intros [Hj Hu] Hs. destruct Hs as [id identity max now Hid Hfresh Hmax|id j j' Hid Hs].
  - split.
    + intros i x [[<- <-]|[? ?]]%lookup_insert_Some; [|by eauto]. split; simpl; lia || done.
    + intros i i' x x' [[<- <-]|[? ?]]%lookup_insert_Some [[<- <-]|[? ?]]%lookup_insert_Some;
        simpl; try done; try by eauto.
      * intros E. by edestruct Hfresh.
      * intros E. by edestruct Hfresh.
  - destruct (job_step_ok j j' (Hj _ _ Hid) Hs) as [Hok Hident]. split.
    + intros i x [[<- <-]|[? ?]]%lookup_insert_Some; eauto.
    + intros i i' x x' [[<- <-]|[? ?]]%lookup_insert_Some [[<- <-]|[? ?]]%lookup_insert_Some;
        rewrite ?Hident; try done; intros; eauto.
Qed.

(** How a job evolves: its identity and bound never change, its attempts never decrease,
    and once finished it stays as it is. *)
Definition job_after (j j' : job) : Prop :=
  j_identity j' = j_identity j /\ j_max j' = j_max j /\ j_attempts j <= j_attempts j'
  /\ (forall ok, j_phase j = Finished ok -> j' = j).

#[export] Instance job_after_preorder : PreOrder job_after.
Proof.
  unfold job_after. split; [intros j; split_and!; done || lia|].
  intros a b c (? & ? & ? & Hab) (? & ? & ? & Hbc). split_and!; try congruence; [lia|].
  intros ok Hok. specialize (Hab ok Hok) as ->. eauto.
Qed.

Lemma job_step_after j j' : job_step j j' -> job_after j j'.
Proof. unfold job_after. destruct 1; simpl; split_and!; try done; try lia; congruence. Qed.

Lemma spec_steps_after s s' id j :
  rtc spec_step s s' -> s !! id = Some j -> exists j', s' !! id = Some j' /\ job_after j j'.
Proof.
  intros Hs. revert j. induction Hs as [s|s1 s2 s3 H12 _ IH]; intros j Hj; [by exists j|].
  assert (exists j2, s2 !! id = Some j2 /\ job_after j j2) as (j2 & H2 & Ha).
  { destruct H12 as [i identity max now Hi _ _|i x x' Hi Hx].
    - exists j. rewrite lookup_insert_ne by congruence. by split.
    - destruct (decide (i = id)) as [->|Hne].
      + assert (x = j) as -> by congruence. exists x'. rewrite lookup_insert_eq.
        split; [done|by apply job_step_after].
      + exists j. rewrite lookup_insert_ne by done. by split. }
  destruct (IH j2 H2) as (j3 & ? & ?). exists j3. split; [done|]. by etrans.
Qed.

Lemma spec_steps_ok s s' : jobs_ok s -> rtc spec_step s s' -> jobs_ok s'.
Proof. intros Hok Hs. induction Hs; eauto using spec_step_ok. Qed.

(** *** Termination: how many steps a job still can make *)

Definition remaining (j : job) : Z :=
  match j_phase j with
  | Waiting _ => 2 * (j_max j - j_attempts j)
  | Leased _ _ => 2 * (j_max j - j_attempts j) + 1
  | Finished _ => 0
  end.

Lemma remaining_nonneg j : job_ok j -> 0 <= remaining j.
Proof. intros [? ? _ _]. unfold remaining. case_match; lia. Qed.

Lemma job_step_remaining j j' : job_ok j -> job_step j j' -> remaining j' < remaining j.
Proof.
  intros [? ? Hw Hl] Hs.
  destruct Hs as [since ? ? ? E|? ? ? ? E|? ? ? ? ? E|? ? ? E]; unfold remaining; rewrite E; simpl;
    try lia.
  unfold after_expiry. destruct (Z.ltb_spec (j_attempts j) (j_max j)); lia.
Qed.

(** A job that is not finished can make a step, as soon as its time has come. *)
Lemma job_step_enabled j : job_ok j ->
  (exists ok, j_phase j = Finished ok) \/ (exists j', job_step j j').
Proof.
  intros [? ? Hw Hl]. destruct (j_phase j) as [since|w u|ok] eqn:E; [right|right|by left; exists ok].
  - specialize (Hw since eq_refl). eexists.
    by apply (job_claim j since since "" 0).
  - eexists. by apply (job_expire j u w u).
Qed.

Lemma nsteps_bound n j j' : job_ok j -> nsteps job_step n j j' -> Z.of_nat n <= remaining j - remaining j'.
Proof.
  intros Hok Hs. revert Hok. induction Hs as [j|n j1 j2 j3 H12 _ IH]; intros Hok; [lia|].
  pose proof (job_step_remaining _ _ Hok H12). apply job_step_ok in H12 as [? _]; [|done].
  specialize (IH H0). lia.
Qed.

(** Running any enabled steps as long as there are some finishes the job. *)
Lemma job_finishes_bounded j : job_ok j ->
  exists n j', nsteps job_step n j j' /\ Z.of_nat n <= remaining j /\ exists ok, j_phase j' = Finished ok.
Proof.
  intros Hok. assert (Hind : forall k j, job_ok j -> remaining j <= Z.of_nat k ->
    exists n j', nsteps job_step n j j' /\ exists ok, j_phase j' = Finished ok).
  { clear j Hok. intros k. induction k as [|k IH]; intros j Hok Hk.
    all: destruct (job_step_enabled j Hok) as [Hf|[j' Hs]]; [exists 0%nat, j; split; [constructor|done]|].
    - pose proof (job_step_remaining _ _ Hok Hs). apply job_step_ok in Hs as [Hok' _]; [|done].
      pose proof (remaining_nonneg _ Hok'). lia.
    - pose proof (job_step_remaining _ _ Hok Hs). pose proof (job_step_ok _ _ Hok Hs) as [Hok' _].
      destruct (IH j' Hok' ltac:(lia)) as (n & j2 & Hn & Hf). exists (S n), j2.
      split; [by econstructor|done]. }
  destruct (Hind (Z.to_nat (remaining j)) j Hok) as (n & j' & Hn & Hf).
  { pose proof (remaining_nonneg _ Hok). lia. }
  exists n, j'. split; [done|]. split; [|done].
  pose proof (nsteps_bound _ _ _ Hok Hn). destruct Hf as [ok Hf].
  assert (remaining j' = 0) by (unfold remaining; by rewrite Hf). lia.
Qed.

(** *** The jobs of a table *)

Definition jobs_of {R} (f : R -> job) (rows : odict Z R) : jobs :=
  list_to_map (prod_map (fun k => k) f <$> rows).

Lemma jobs_of_lookup {R} (f : R -> job) rows id : jobs_of f rows !! id = f <$> oget id rows.
Proof.
  unfold jobs_of. induction rows as [|[k x] rows IH]; [done|]. simpl.
  destruct (decide (id = k)) as [->|?]; [by rewrite lookup_insert_eq|by rewrite lookup_insert_ne].
Qed.

Lemma jobs_of_oset {R} (f : R -> job) rows id x :
  jobs_of f (oset id x rows) = <[id := f x]> (jobs_of f rows).
Proof.
  apply map_eq. intros i. rewrite lookup_insert, !jobs_of_lookup, oget_oset. by case_decide.
Qed.

(** A row that is updated without a change of its job *)
Lemma jobs_of_same {R} (f : R -> job) rows id x y :
  oget id rows = Some y -> f x = f y -> jobs_of f (oset id x rows) = jobs_of f rows.
Proof.
  intros Hy E. rewrite jobs_of_oset. apply insert_id. by rewrite jobs_of_lookup, Hy, E.
Qed.

Lemma jobs_of_step {R} (f : R -> job) rows id x y :
  oget id rows = Some y -> job_step (f y) (f x) ->
  rtc spec_step (jobs_of f rows) (jobs_of f (oset id x rows)).
Proof.
  intros Hy Hs. rewrite jobs_of_oset. apply rtc_once. eapply spec_job; [|exact Hs].
  by rewrite jobs_of_lookup, Hy.
Qed.

(** *** For every runtime behind the interface *)

Section clients.
Context {S : Type} `{JobSystem S}.

Lemma js_steps s s' : js_inv s -> rtc js_step s s' ->
  js_inv s' /\ rtc spec_step (js_jobs s) (js_jobs s').
Proof.
  intros Hi Hs. induction Hs as [s|s1 s2 s3 H12 _ IH]; [done|].
  destruct (js_refines _ _ Hi H12) as [Hi2 Hr]. destruct (IH Hi2) as [? ?].
  split; [done|]. by etrans.
Qed.

Lemma js_reachable_inv s : js_reachable s -> js_inv s /\ jobs_ok (js_jobs s).
Proof.
  intros (s0 & [Hi H0]%js_start & Hs). destruct (js_steps _ _ Hi Hs) as [? Hr].
  split; [done|]. eapply spec_steps_ok; [|exact Hr]. rewrite H0. by split.
Qed.

Lemma js_job_after s s' id j : js_reachable s -> rtc js_step s s' ->
  js_jobs s !! id = Some j -> exists j', js_jobs s' !! id = Some j' /\ job_after j j'.
Proof.
  intros [Hi _]%js_reachable_inv Hs Hj. destruct (js_steps _ _ Hi Hs) as [_ Hr].
  by eapply spec_steps_after.
Qed.
End clients.
