(* ===== verification/JobStore.v ===== *)
(** * The job tables and their repository
    ([infrastructure/db/models/jobs.py], [repositories/jobs.py])

    Four tables, each a dictionary from primary key to row in insertion order.  The
    unique constraints and the check constraints of the rows that are inserted are
    enforced; that updates keep the check constraints is a theorem ([JobStoreInvariant]).
    A repository method acts on the tables of its session; the session commits or rolls
    back outside.  [SELECT ... FOR UPDATE SKIP LOCKED] leaves out the rows that other open
    transactions hold, which each method receives as [locks].  Rows that [ORDER BY] leaves
    equal, and the rows of a query without it, come in insertion order. *)

From S2P Require Export JobRuntime.
#[local] Open Scope list_scope.

(** ** Rows *)

Inductive OutboxMessageState := M_PENDING | M_PUBLISHING | M_PUBLISHED | M_FAILED.

#[export] Instance OutboxMessageState_eq_dec : EqDecision OutboxMessageState.
Proof. solve_decision. Defined.

Record JobExecution := MkExecutionRow {
  x_id : Z; x_identity : JobIdentity; x_correlation_id : Z; x_actor : AuditActor;
  x_source : string; x_max_attempts : Z; x_created_at : Z;
  x_state : JobState; x_attempt_count : Z; x_available_at : Z;
  x_lease_owner : option string; x_lease_until : option Z;
  x_result_summary : option (odict string pyval); x_error_code : option string;
  x_finished_at : option Z; x_updated_at : Z
}.

Record JobAttempt := MkAttemptRow {
  t_id : Z; t_execution_id : Z; t_ordinal : Z; t_transport_message_id : string;
  t_worker_id : string; t_correlation_id : Z; t_release_id : string; t_started_at : Z;
  t_state : AttemptState; t_finished_at : option Z; t_duration_ms : option Z;
  t_error_code : option string
}.

Record JobOutboxMessage := MkMessageRow {
  m_id : Z; m_execution_id : Z; m_attempt_number : Z; m_created_at : Z;
  m_state : OutboxMessageState; m_available_at : Z;
  m_lease_owner : option string; m_lease_until : option Z; m_publish_attempts : Z;
  m_published_at : option Z; m_error_code : option string; m_updated_at : Z
}.

Record JobSchedule := MkScheduleRow {
  d_id : Z; d_created_at : Z; d_correlation_id : Z; d_job_type : string;
  d_logical_target : string; d_schedule_kind : ScheduleKind; d_interval_seconds : option Z;
  d_max_attempts : Z; d_next_run_at : Z; d_enabled : bool; d_last_scheduled_at : option Z;
  d_updated_at : Z
}.

Record jobs_db := MkJobsDb {
  x_rows : odict Z JobExecution; t_rows : odict Z JobAttempt;
  m_rows : odict Z JobOutboxMessage; d_rows : odict Z JobSchedule
}.

Definition empty_jobs_db : jobs_db := MkJobsDb [] [] [] [].

(** The UPDATE of a row *)
Definition save_execution (x : JobExecution) (d : jobs_db) : jobs_db :=
  MkJobsDb (oset (x_id x) x (x_rows d)) (t_rows d) (m_rows d) (d_rows d).
Definition save_attempt (t : JobAttempt) (d : jobs_db) : jobs_db :=
  MkJobsDb (x_rows d) (oset (t_id t) t (t_rows d)) (m_rows d) (d_rows d).
Definition save_message (m : JobOutboxMessage) (d : jobs_db) : jobs_db :=
  MkJobsDb (x_rows d) (t_rows d) (oset (m_id m) m (m_rows d)) (d_rows d).
Definition save_schedule (s : JobSchedule) (d : jobs_db) : jobs_db :=
  MkJobsDb (x_rows d) (t_rows d) (m_rows d) (oset (d_id s) s (d_rows d)).

(** The rows other open transactions hold *)
Record locks := MkLocks {
  lk_execution : Z -> bool; lk_attempt : Z -> bool; lk_outbox : Z -> bool; lk_schedule : Z -> bool
}.
Definition no_locks : locks :=
  MkLocks (fun _ => false) (fun _ => false) (fun _ => false) (fun _ => false).

(** ** Insertion *)

Definition JobsIntegrityError : exn := OtherError "IntegrityError".

(** Whether the row violates a unique constraint against the table, or a check *)
Definition execution_refused (x : JobExecution) (d : jobs_db) : bool :=
  omem (x_id x) (x_rows d)
  || existsb (fun y => bool_decide (identity_key (x_identity y) = identity_key (x_identity x)))
       (ovalues (x_rows d))
  || negb ((0 <=? x_attempt_count x) && (x_attempt_count x <=? x_max_attempts x)
           && (1 <=? x_max_attempts x) && (x_max_attempts x <=? 10)).
Definition attempt_refused (t : JobAttempt) (d : jobs_db) : bool :=
  omem (t_id t) (t_rows d)
  || existsb (fun y => (t_execution_id y =? t_execution_id t) && (t_ordinal y =? t_ordinal t))
       (ovalues (t_rows d))
  || negb (1 <=? t_ordinal t).
Definition message_refused (m : JobOutboxMessage) (d : jobs_db) : bool :=
  omem (m_id m) (m_rows d)
  || existsb (fun y => (m_execution_id y =? m_execution_id m)
                       && (m_attempt_number y =? m_attempt_number m)) (ovalues (m_rows d))
  || negb ((1 <=? m_attempt_number m) && (0 <=? m_publish_attempts m)
           && (m_publish_attempts m <=? 100)).
Definition schedule_refused (s : JobSchedule) (d : jobs_db) : bool :=
  omem (d_id s) (d_rows d)
  || negb (match d_schedule_kind s, d_interval_seconds s with
           | OneShot, _ => true
           | FixedInterval, Some i => 60 <=? i
           | FixedInterval, None => false
           end && (1 <=? d_max_attempts s) && (d_max_attempts s <=? 10)).

(** [session.add(row)] and the flush that sends it *)
Definition add_row {R} (refused : R -> jobs_db -> bool) (save : R -> jobs_db -> jobs_db) (row : R)
  : M jobs_db unit :=
  d ← get;
  if refused row d then raise JobsIntegrityError else put (save row d).

(** ** Queries *)

Definition session_get (execution_id : Z) : M jobs_db (option JobExecution) :=
  d ← get; mret (oget execution_id (x_rows d)).

Definition get_for_update (lk : locks) (execution_id : Z) : M jobs_db (option JobExecution) :=
  d ← get;
  mret (if lk_execution lk execution_id then None else oget execution_id (x_rows d)).

Definition attempt_for_update (lk : locks) (execution_id ordinal : Z)
  : M jobs_db (option JobAttempt) :=
  d ← get;
  mret (find_first (fun t => (t_execution_id t =? execution_id) && (t_ordinal t =? ordinal)
                             && negb (lk_attempt lk (t_id t))) (ovalues (t_rows d))).

Definition get_by_identity (identity : JobIdentity) : M jobs_db (option JobExecution) :=
  d ← get;
  mret (find_first (fun x => bool_decide (identity_key (x_identity x) = identity_key identity))
          (ovalues (x_rows d))).

Definition outbox_for_update (lk : locks) (message_id : Z) : M jobs_db (option JobOutboxMessage) :=
  d ← get;
  mret (if lk_outbox lk message_id then None else oget message_id (m_rows d)).

(** ** Creation *)

Definition new_execution_row (id now : Z) (source : string) (c : SubmitJob) : JobExecution :=
  MkExecutionRow id (sub_identity c) (sub_correlation_id c) (sub_actor c) source
    (sub_max_attempts c) now PENDING 0 now None None None None None now.

Definition new_message_row (id execution_id attempt_number available_at now : Z)
  : JobOutboxMessage :=
  MkMessageRow id execution_id attempt_number now M_PENDING available_at None None 0 None None now.

Definition create_execution (command : SubmitJob) (source : string) (now : Z)
  : M jobs_db JobExecution :=
  id ← uuid4;
  message_id ← uuid4;
  let execution := new_execution_row id now source command in
  _ ← add_row execution_refused save_execution execution;
  _ ← add_row message_refused save_message (new_message_row message_id id 1 now now);
  mret execution.

Definition create_outbox (execution : JobExecution) (attempt_number available_at now : Z)
  : M jobs_db unit :=
  id ← uuid4;
  add_row message_refused save_message
    (new_message_row id (x_id execution) attempt_number available_at now).

(** ** Attempts *)

(** [max(0, int((finished - started).total_seconds() * 1000))], which cannot overflow for
    two datetimes *)
Definition duration_ms (us : Z) : Z :=
  match int_of_float (fmul (rnd (us # 1000000)) (flit 1000 1)) with
  | Ok ms => Z.max 0 ms
  | Raise _ => 0
  end.

Definition end_attempt (state : AttemptState) (now : Z) (error_code : option string)
    (t : JobAttempt) : JobAttempt :=
  MkAttemptRow (t_id t) (t_execution_id t) (t_ordinal t) (t_transport_message_id t)
    (t_worker_id t) (t_correlation_id t) (t_release_id t) (t_started_at t)
    state (Some now) (Some (duration_ms (now - t_started_at t))) error_code.

(** The execution without a lease, in the given state *)
Definition x_release (state : JobState) (available_at : Z) (error_code : option string)
    (finished_at : option Z) (now : Z) (x : JobExecution) : JobExecution :=
  MkExecutionRow (x_id x) (x_identity x) (x_correlation_id x) (x_actor x) (x_source x)
    (x_max_attempts x) (x_created_at x) state (x_attempt_count x) available_at None None
    (x_result_summary x) error_code finished_at now.

Definition abandon (lk : locks) (x : JobExecution) (now : Z) : M jobs_db unit :=
  d ← get;
  let attempt :=
    find_first (fun t => (t_execution_id t =? x_id x) && (t_ordinal t =? x_attempt_count x)
                         && bool_decide (t_state t = ATTEMPT_RUNNING)
                         && negb (lk_attempt lk (t_id t))) (ovalues (t_rows d)) in
  _ ← match attempt with
      | Some t => modify (save_attempt (end_attempt ABANDONED now (Some "job.lease_expired") t))
      | None => mret tt
      end;
  if x_attempt_count x <? x_max_attempts x then
    _ ← modify (save_execution
                  (x_release RETRY_WAIT now (Some "job.lease_expired") (x_finished_at x) now x));
    create_outbox x (x_attempt_count x + 1) now now
  else
    modify (save_execution (x_release FAILED now (Some "job.lease_expired") (Some now) now x)).

Definition x_claimed (attempt_number : Z) (worker_id : string) (until now : Z) (x : JobExecution)
  : JobExecution :=
  MkExecutionRow (x_id x) (x_identity x) (x_correlation_id x) (x_actor x) (x_source x)
    (x_max_attempts x) (x_created_at x) RUNNING attempt_number (x_available_at x)
    (Some worker_id) (Some until) (x_result_summary x) (x_error_code x) (x_finished_at x) now.

Definition repo_claim (lk : locks) (execution_id attempt_number : Z)
    (worker_id release_id : string) (now lease_seconds : Z) : M jobs_db (option JobAttempt) :=
  execution ← get_for_update lk execution_id;
  match execution with
  | None => mret None
  | Some x =>
      if negb (attempt_number =? x_attempt_count x + 1) then mret None
      else if bool_decide (x_state x = SUCCEEDED \/ x_state x = FAILED) then mret None
      else if bool_decide (x_state x = RETRY_WAIT) && (now <? x_available_at x) then mret None
      else if bool_decide (x_state x = RUNNING) then
        match x_lease_until x with
        | None => mret None
        | Some until => if now <? until then mret None else _ ← abandon lk x now; mret None
        end
      else if now <? x_available_at x then mret None
      else
        id ← uuid4;
        let attempt :=
          MkAttemptRow id (x_id x) attempt_number
            (uuid_str (x_id x) ++ ":" ++ str_of_Z attempt_number)%string worker_id
            (x_correlation_id x) release_id now ATTEMPT_RUNNING None None None in
        _ ← modify (save_execution
                      (x_claimed attempt_number worker_id (now + seconds lease_seconds) now x));
        _ ← add_row attempt_refused save_attempt attempt;
        mret (Some attempt)
  end.

(** [finish_attempt]: the execution it returns has lost its lease. *)
Definition finish_attempt (attempt : JobAttempt) (state : AttemptState) (error_code : option string)
    (now : Z) : M jobs_db JobExecution :=
  execution ← session_get (t_execution_id attempt);
  match execution with
  | None => raise KeyError
  | Some x =>
      let x := x_release (x_state x) (x_available_at x) (x_error_code x) (x_finished_at x) now x in
      _ ← modify (save_attempt (end_attempt state now error_code attempt));
      _ ← modify (save_execution x);
      mret x
  end.

Definition schedule_retry (x : JobExecution) (available_at : Z) (error_code : string) (now : Z)
  : M jobs_db JobExecution :=
  let x := x_release RETRY_WAIT available_at (Some error_code) (x_finished_at x) now x in
  _ ← modify (save_execution x);
  _ ← create_outbox x (x_attempt_count x + 1) available_at now;
  mret x.

(** ** The outbox *)

Definition m_update (state : OutboxMessageState) (available_at : Z) (lease_owner : option string)
    (lease_until : option Z) (publish_attempts : Z) (published_at : option Z)
    (error_code : option string) (updated_at : Z) (m : JobOutboxMessage) : JobOutboxMessage :=
  MkMessageRow (m_id m) (m_execution_id m) (m_attempt_number m) (m_created_at m) state available_at
    lease_owner lease_until publish_attempts published_at error_code updated_at.

(** [SELECT ... WHERE f ORDER BY key LIMIT n FOR UPDATE SKIP LOCKED] *)
Definition select_locked {R} (rows : odict Z R) (locked : Z -> bool) (f : R -> bool)
    (lt : R -> R -> bool) (limit : Z) : list R :=
  take (Z.to_nat limit)
    (sort_by lt (map snd (List.filter (fun kv => f kv.2 && negb (locked kv.1)) rows))).
Definition unordered {R} (a b : R) : bool := false.

Definition publishing (owner : string) (now lease_seconds : Z) (m : JobOutboxMessage)
  : JobOutboxMessage :=
  m_update M_PUBLISHING (m_available_at m) (Some owner) (Some (now + seconds lease_seconds))
    (m_publish_attempts m + 1) (m_published_at m) (m_error_code m) now m.

(** The rows are updated in place: the list that is returned shows their new values. *)
Definition claim_outbox (lk : locks) (owner : string) (now lease_seconds limit : Z)
  : M jobs_db (list JobOutboxMessage) :=
  d ← get;
  let rows :=
    map (publishing owner now lease_seconds)
      (select_locked (m_rows d) (lk_outbox lk)
         (fun m => bool_decide (m_state m = M_PENDING) && (m_available_at m <=? now)
                   && (m_publish_attempts m <? 100))
         (fun a b => m_available_at a <? m_available_at b) limit) in
  _ ← put (foldl (fun d m => save_message m d) d rows);
  mret rows.

(** [execution.state = "queued"] *)
Definition x_queued (now : Z) (x : JobExecution) : JobExecution :=
  MkExecutionRow (x_id x) (x_identity x) (x_correlation_id x) (x_actor x) (x_source x)
    (x_max_attempts x) (x_created_at x) QUEUED (x_attempt_count x) (x_available_at x)
    (x_lease_owner x) (x_lease_until x) (x_result_summary x) (x_error_code x) (x_finished_at x) now.

Definition mark_outbox_published (m : JobOutboxMessage) (now : Z) : M jobs_db unit :=
  _ ← modify (save_message (m_update M_PUBLISHED (m_available_at m) None None
                              (m_publish_attempts m) (Some now) (m_error_code m) now m));
  execution ← session_get (m_execution_id m);
  match execution with
  | Some x => if bool_decide (x_state x = PENDING) then modify (save_execution (x_queued now x))
              else mret tt
  | None => mret tt
  end.

Definition mark_outbox_failed (m : JobOutboxMessage) (now : Z) : M jobs_db unit :=
  let n := m_publish_attempts m in
  let '(state, available_at) :=
    if 100 <=? n then (M_FAILED, m_available_at m)
    else (M_PENDING, now + seconds (Z.min 300 (Z.shiftl 1 (Z.max 0 (n - 1))))) in
  modify (save_message (m_update state available_at None None n (m_published_at m)
                          (Some "queue.publish_failed") now m)).

Definition rebuilt (m : JobOutboxMessage) : JobOutboxMessage :=
  let '(state, error_code) :=
    if 100 <=? m_publish_attempts m then (M_FAILED, Some "queue.publish_exhausted")
    else (M_PENDING, None) in
  m_update state (m_available_at m) None None (m_publish_attempts m) None error_code
    (m_updated_at m) m.

Definition repo_rebuild_outbox (lk : locks) (limit : Z) : M jobs_db Z :=
  d ← get;
  let rows := select_locked (m_rows d) (lk_outbox lk)
                (fun m => bool_decide (m_state m = M_PUBLISHED))
                (fun a b => m_updated_at a <? m_updated_at b) limit in
  _ ← put (foldl (fun d m => save_message (rebuilt m) d) d rows);
  mret (Z.of_nat (length rows)).

Definition reclaimed (now : Z) (m : JobOutboxMessage) : JobOutboxMessage :=
  let '(state, error_code) :=
    if 100 <=? m_publish_attempts m then (M_FAILED, Some "queue.publish_exhausted")
    else (M_PENDING, m_error_code m) in
  m_update state (m_available_at m) None None (m_publish_attempts m) (m_published_at m) error_code
    now m.

Definition repo_reclaim_expired_outbox (lk : locks) (now limit : Z) : M jobs_db Z :=
  d ← get;
  let rows := select_locked (m_rows d) (lk_outbox lk)
                (fun m => bool_decide (m_state m = M_PUBLISHING)
                          && match m_lease_until m with Some u => u <=? now | None => false end)
                unordered limit in
  _ ← put (foldl (fun d m => save_message (reclaimed now m) d) d rows);
  mret (Z.of_nat (length rows)).

(** ** The reaper *)

Definition x_expired (now : Z) (x : JobExecution) : bool :=
  bool_decide (x_state x = RUNNING)
  && match x_lease_until x with Some u => u <=? now | None => false end.

Fixpoint abandon_all (lk : locks) (now : Z) (l : list JobExecution) : M jobs_db unit :=
  match l with
  | [] => mret tt
  | x :: l' => _ ← abandon lk x now; abandon_all lk now l'
  end.

Definition repo_reap_expired (lk : locks) (now limit : Z) : M jobs_db Z :=
  d ← get;
  let executions := select_locked (x_rows d) (lk_execution lk) (x_expired now) unordered limit in
  _ ← abandon_all lk now executions;
  mret (Z.of_nat (length executions)).

(** ** Schedules *)

Definition create_schedule (job_type logical_target : string) (kind : ScheduleKind)
    (next_run_at : stamp) (correlation_id max_attempts : Z) (interval_seconds : option Z) (now : Z)
  : M jobs_db JobSchedule :=
  id ← uuid4;
  next ← lift (to_utc next_run_at);
  let schedule := MkScheduleRow id now correlation_id job_type logical_target kind interval_seconds
                    max_attempts next true None now in
  _ ← add_row schedule_refused save_schedule schedule;
  mret schedule.

Definition claim_due_schedule (lk : locks) (now : Z) : M jobs_db (option JobSchedule) :=
  d ← get;
  mret (head (sort_by (fun a b => d_next_run_at a <? d_next_run_at b)
                (map snd (List.filter (fun kv => d_enabled kv.2 && (d_next_run_at kv.2 <=? now)
                                                 && negb (lk_schedule lk kv.1)) (d_rows d))))).

Definition repo_advance_schedule (s : JobSchedule) (now : Z) : M jobs_db unit :=
  let planned := d_next_run_at s in
  let upd next enabled :=
    MkScheduleRow (d_id s) (d_created_at s) (d_correlation_id s) (d_job_type s) (d_logical_target s)
      (d_schedule_kind s) (d_interval_seconds s) (d_max_attempts s) next enabled (Some planned) now in
  match d_schedule_kind s with
  | OneShot => modify (save_schedule (upd planned false))
  | FixedInterval =>
      match d_interval_seconds s with
      | None => raise ValueError
      | Some i => modify (save_schedule (upd (planned + seconds i) (d_enabled s)))
      end
  end.
