(* ===== verification/SqlRuntime.v ===== *)
(** * The PostgreSQL job runtime ([infrastructure/jobs/runtime.py])

    [SqlAlchemyJobRuntime]: one session per operation over the repository of
    [JobStore].  A session commits its changes, rolls them back, or rolls them back
    because it raises.  Several processes share the tables: a transaction is atomic, and
    what the others do is an argument of the methods, the rows they hold locked
    ([locks]) and, between the transactions of one method, the changes they commit
    ([others]).  Submission, whose unique constraint may be lost to a concurrent
    transaction, sees their changes between its read and its insertion. *)

From S2P Require Export JobStore.
#[local] Open Scope list_scope.

(** Whether a JSONB column accepts the document *)
Class JsonbColumns := jsonb_accepts : odict string pyval -> bool.

Definition DataError : exn := OtherError "DataError".

(** Constructor arguments, and the clock offset of the process *)
Record process := Process {
  p_config : config; outbox_lease_seconds : Z; _offset : Z
}.

(** The property [now] *)
Definition sql_now (p : process) : M jobs_db Z := t ← clock; mret (t + _offset p).

Definition sql_advance_time (delta : Z) (p : process) : result process :=
  if delta <? 0 then Raise ValueError
  else Ok (Process (p_config p) (outbox_lease_seconds p) (_offset p + delta)).

(** ** Sessions *)

Inductive close := Commit | Rollback.

(** [with self._session_factory() as session: ...] *)
Definition session {A} (m : M jobs_db (close * A)) : M jobs_db A := fun w s =>
  match m w s with
  | (Ok (Commit, a), s') => (Ok a, s')
  | (Ok (Rollback, a), s') => (Ok a, Sys (state_of s) (drawn s') (ticks s'))
  | (Raise e, s') => (Raise e, Sys (state_of s) (drawn s') (ticks s'))
  end.

(** What the other processes do around one transaction *)
Record peers := MkPeers { others : jobs_db -> jobs_db; held : locks }.
Definition alone : peers := MkPeers (fun d => d) no_locks.

(** ** Helpers *)

Definition sql_snapshot (x : JobExecution) : result JobSnapshot :=
  let i := x_identity x in
  identity ← JobIdentity_create (job_type i) (logical_target i) (idempotency_key i);
  Ok (MkJobSnapshot (x_id x) identity (x_state x) (x_attempt_count x) (x_max_attempts x)
        (x_result_summary x) (x_error_code x) (Some (x_available_at x))).

Definition _limit (value : Z) : result Z :=
  if negb ((1 <=? value) && (value <=? 1000)) then Raise ValueError else Ok value.

(** [.items()] of a value that is no mapping fails on the attribute. *)
Definition sql_json_object (value : pyval) : result (odict string pyval) :=
  match value with
  | VDict d =>
      if negb (forallb (fun kv => _json_scalar kv.2) d) then Raise ValueError
      else let output := oupdate [] d in
           if 8192 <? utf8_len (json_object_text output) then Raise ValueError
           else Ok output
  | _ => Raise AttributeError
  end.

(** ** Submission and queries *)

(** The winner of the race for the identity, once the insertion is rolled back *)
Definition submit_race (identity : JobIdentity) (e : exn) : M jobs_db JobExecution :=
  if decide (e = JobsIntegrityError) then
    winner ← get_by_identity identity;
    match winner with None => raise e | Some x => mret x end
  else raise e.

Definition submit_insert (p : process) (command : SubmitJob) : M jobs_db JobExecution :=
  session (now ← sql_now p;
           execution ← create_execution command "jobs.submit" now;
           mret (Commit, execution)).

Definition sql_submit (p : process) (others : jobs_db -> jobs_db) (command : SubmitJob)
  : M jobs_db JobSnapshot :=
  command ← lift (resolve_command (p_config p) command);
  existing ← get_by_identity (sub_identity command);
  match existing with
  | Some x => lift (sql_snapshot x)
  | None =>
      _ ← modify others;
      x ← try_except (submit_insert p command) (submit_race (sub_identity command));
      lift (sql_snapshot x)
  end.

Definition sql_submit_simple (p : process) (others : jobs_db -> jobs_db)
    (job_type logical_target idempotency_key : string) (max_attempts : Z) : M jobs_db JobSnapshot :=
  fresh_cid ← uuid4;
  command ← lift (SubmitJob_create fresh_cid job_type logical_target idempotency_key None None
                    max_attempts);
  sql_submit p others command.

Definition sql_execution (execution_id : Z) : M jobs_db JobExecution :=
  execution ← session_get execution_id;
  match execution with None => raise KeyError | Some x => mret x end.

Definition sql_get (execution_id : Z) : M jobs_db JobSnapshot :=
  x ← sql_execution execution_id; lift (sql_snapshot x).
Definition sql_identity (execution_id : Z) : M jobs_db JobIdentity :=
  snapshot ← sql_get execution_id; mret (snap_identity snapshot).
Definition sql_correlation_id (execution_id : Z) : M jobs_db Z :=
  x ← sql_execution execution_id; mret (x_correlation_id x).

(** ** Claims and outcomes *)

(** Whatever the repository did is rolled back when it returns no attempt. *)
Definition sql_claim (p : process) (lk : locks) (execution_id attempt_number : Z)
    (worker_id : string) : M jobs_db (option JobClaim) :=
  session (
    now ← sql_now p;
    attempt ← repo_claim lk execution_id attempt_number worker_id (release_id (p_config p)) now
                (lease_seconds (p_config p));
    match attempt with
    | None => mret (Rollback, None)
    | Some _ =>
        execution ← session_get execution_id;
        match execution with
        | None => raise AssertionError
        | Some x =>
            mret (Commit, Some (MkJobClaim execution_id attempt_number worker_id
                    (MkJobContext execution_id attempt_number (x_correlation_id x)
                       (release_id (p_config p)) (Some (logical_target (x_identity x))))))
        end
    end).

(** The clock is read only when the other conditions leave the lease to compare. *)
Definition outcome_stale (p : process) (c : JobClaim) (x : JobExecution)
    (attempt : option JobAttempt) : M jobs_db bool :=
  match attempt, x_lease_until x with
  | Some _, Some until =>
      if bool_decide (x_state x = RUNNING) && (x_attempt_count x =? claim_attempt_number c)
         && bool_decide (x_lease_owner x = Some (claim_worker_id c))
      then now ← sql_now p; mret (until <=? now)
      else mret true
  | _, _ => mret true
  end.

Section outcomes.
Context `{JsonbColumns}.

Definition x_succeeded (result : odict string pyval) (now : Z) (x : JobExecution) : JobExecution :=
  MkExecutionRow (x_id x) (x_identity x) (x_correlation_id x) (x_actor x) (x_source x)
    (x_max_attempts x) (x_created_at x) SUCCEEDED (x_attempt_count x) (x_available_at x)
    (x_lease_owner x) (x_lease_until x) (Some result) None (Some now) (x_updated_at x).

Definition x_failed (code : string) (now : Z) (x : JobExecution) : JobExecution :=
  MkExecutionRow (x_id x) (x_identity x) (x_correlation_id x) (x_actor x) (x_source x)
    (x_max_attempts x) (x_created_at x) FAILED (x_attempt_count x) (x_available_at x)
    (x_lease_owner x) (x_lease_until x) (x_result_summary x) (Some code) (Some now) (x_updated_at x).

Definition record_success (attempt : JobAttempt) (value : pyval) (timestamp : Z)
  : M jobs_db JobExecution :=
  x ← finish_attempt attempt ATTEMPT_SUCCEEDED None timestamp;
  result ← lift (sql_json_object value);
  if jsonb_accepts result then
    let x := x_succeeded result timestamp x in
    _ ← modify (save_execution x); mret x
  else raise DataError.

Definition record_failure (attempt : JobAttempt) (error : exn) (timestamp : Z)
  : M jobs_db JobExecution :=
  occurred_at ← clock;
  let c := classify_failure occurred_at error in
  x ← finish_attempt attempt (_attempt_state c) (Some (fail_code c)) timestamp;
  if bool_decide (fail_kind c = Transient) && (x_attempt_count x <? x_max_attempts x) then
    delay ← lift (retry_delay (x_attempt_count x) error);
    schedule_retry x (timestamp + seconds delay) (fail_code c) timestamp
  else
    let x := x_failed (fail_code c) timestamp x in
    _ ← modify (save_execution x); mret x.

(** The row that [record_outcome] takes its snapshot of, once the session is over *)
Definition outcome_session (p : process) (lk : locks) (c : JobClaim) (out : outcome)
  : M jobs_db JobExecution :=
  session (
    execution ← get_for_update lk (claim_execution_id c);
    match execution with
    | None => raise KeyError
    | Some x =>
        attempt ← attempt_for_update lk (claim_execution_id c) (claim_attempt_number c);
        stale ← outcome_stale p c x attempt;
        match attempt with
        | Some attempt =>
            if stale : bool then mret (Rollback, x)
            else
              timestamp ← sql_now p;
              x ← match out with
                  | OutResult value => record_success attempt value timestamp
                  | OutError error => record_failure attempt error timestamp
                  end;
              mret (Commit, x)
        | None => mret (Rollback, x)
        end
    end).

Definition sql_record_outcome (p : process) (lk : locks) (c : JobClaim) (out : outcome)
  : M jobs_db JobSnapshot :=
  x ← outcome_session p lk c out;
  lift (sql_snapshot x).

(** [complete] claims the next attempt itself. *)
Definition sql_complete (p : process) (lk lk' : locks) (execution_id : Z) (value : pyval)
  : M jobs_db JobSnapshot :=
  snapshot ← sql_get execution_id;
  claim ← sql_claim p lk execution_id (snap_attempt_count snapshot + 1) "manual";
  match claim with
  | None => sql_get execution_id
  | Some c => sql_record_outcome p lk' c (OutResult value)
  end.
End outcomes.

(** ** The outbox relay *)

(** [row.execution.correlation_id]; the foreign key keeps the execution. *)
Definition message_correlation (m : JobOutboxMessage) : M jobs_db (Z * Z * Z * Z) :=
  execution ← session_get (m_execution_id m);
  match execution with
  | None => raise AttributeError
  | Some x => mret (m_id m, m_execution_id m, m_attempt_number m, x_correlation_id x)
  end.

Fixpoint map_m {S A B} (f : A -> M S B) (l : list A) : M S (list B) :=
  match l with
  | [] => mret []
  | a :: l' => b ← f a; bs ← map_m f l'; mret (b :: bs)
  end.

(** The first transaction of [relay_due]: what to publish *)
Definition relay_claim (p : process) (lk : locks) (owner : string) (limit : Z)
  : M jobs_db (list (Z * Z * Z * Z)) :=
  session (
    now ← sql_now p;
    _ ← repo_reclaim_expired_outbox lk now limit;
    now ← sql_now p;
    rows ← claim_outbox lk owner now (outbox_lease_seconds p) limit;
    messages ← map_m message_correlation rows;
    mret (Commit, messages)).

Definition _finish_outbox (p : process) (lk : locks) (message_id : Z) (owner : string)
    (published : bool) : M jobs_db bool :=
  session (
    row ← outbox_for_update lk message_id;
    match row with
    | None => mret (Rollback, false)
    | Some m =>
        stale ← match m_lease_until m with
                | Some until =>
                    if bool_decide (m_state m = M_PUBLISHING)
                       && bool_decide (m_lease_owner m = Some owner)
                    then now ← sql_now p; mret (until <=? now)
                    else mret true
                | None => mret true
                end;
        if stale : bool then mret (Rollback, false)
        else
          now ← sql_now p;
          _ ← (if published then mark_outbox_published m now else mark_outbox_failed m now);
          mret (Commit, true)
    end).

Section relay.
Context {Q : Type} `{JobQueue Q}.

(** An operation on the tables, beside the queue *)
Definition on_db {A} (m : M jobs_db A) : M (jobs_db * Q) A := fun w s =>
  let '(r, s') := m w (Sys (state_of s).1 (drawn s) (ticks s)) in
  (r, Sys (state_of s', (state_of s).2) (drawn s') (ticks s')).
Definition sql_publish (execution_id attempt_number correlation_id : Z)
  : M (jobs_db * Q) (result string) := fun w s =>
  let '(r, q) := publish execution_id attempt_number correlation_id (state_of s).2 in
  (Ok r, Sys ((state_of s).1, q) (drawn s) (ticks s)).

Fixpoint relay_messages (p : process) (env : nat -> peers) (n : nat) (owner : string)
    (messages : list (Z * Z * Z * Z)) (counts : Z * Z) : M (jobs_db * Q) RelayResult :=
  match messages with
  | [] => mret (MkRelayResult counts.1 counts.2)
  | (message_id, execution_id, attempt_number, correlation_id) :: messages' =>
      sent ← sql_publish execution_id attempt_number correlation_id;
      _ ← on_db (modify (others (env n)));
      finished ← on_db (_finish_outbox p (held (env n)) message_id owner (is_ok sent));
      relay_messages p env (S n) owner messages'
        (if finished : bool
         then (if is_ok sent then (counts.1 + 1, counts.2) else (counts.1, counts.2 + 1))
         else counts)
  end.

(** [env n] is what the peers do before and during the n-th transaction. *)
Definition sql_relay_due (p : process) (env : nat -> peers) (limit : Z)
  : M (jobs_db * Q) RelayResult :=
  limit ← lift (_limit limit);
  relay_id ← on_db uuid4;
  let owner := ("relay:" ++ uuid_str relay_id)%string in
  messages ← on_db (relay_claim p (held (env O)) owner limit);
  relay_messages p env 1 owner messages (0, 0).
End relay.

Definition sql_rebuild_outbox (lk : locks) (limit : Z) : M jobs_db Z :=
  session (limit ← lift (_limit limit);
           rebuilt ← repo_rebuild_outbox lk limit;
           mret (Commit, rebuilt)).

Definition sql_pending_outbox_count : M jobs_db Z :=
  d ← get;
  mret (Z.of_nat (length (List.filter (fun m => bool_decide (m_state m = M_PENDING))
                            (ovalues (m_rows d))))).

Definition sql_reclaim_expired_outbox (p : process) (lk : locks) (limit : Z) : M jobs_db Z :=
  session (now ← sql_now p;
           limit ← lift (_limit limit);
           count ← repo_reclaim_expired_outbox lk now limit;
           mret (Commit, count)).

Definition sql_reap_expired (p : process) (lk : locks) (limit : Z) : M jobs_db Z :=
  session (now ← sql_now p;
           limit ← lift (_limit limit);
           count ← repo_reap_expired lk now limit;
           mret (Commit, count)).

(** ** Schedules *)

(** [schedule.id = schedule_id]: an UPDATE of the primary key *)
Definition rekey_schedule (old new : Z) (d : jobs_db) : option jobs_db :=
  if bool_decide (old = new) then Some d
  else if omem new (d_rows d) then None
  else Some (MkJobsDb (x_rows d) (t_rows d) (m_rows d)
               (map (fun kv => if kv.1 =? old then
                       let s := kv.2 in
                       (new, MkScheduleRow new (d_created_at s) (d_correlation_id s) (d_job_type s)
                               (d_logical_target s) (d_schedule_kind s) (d_interval_seconds s)
                               (d_max_attempts s) (d_next_run_at s) (d_enabled s)
                               (d_last_scheduled_at s) (d_updated_at s))
                     else kv) (d_rows d))).

Definition sql_add_schedule (p : process) (job_type logical_target schedule_kind : string)
    (next_run_at : stamp) (interval_seconds : option Z) (max_attempts : Z)
    (schedule_id : option Z) : M jobs_db Z :=
  match schedule_kind_of schedule_kind with
  | None => raise ValueError
  | Some kind =>
      if match kind, interval_seconds with
         | FixedInterval, None => true
         | FixedInterval, Some i => i <? 60
         | OneShot, _ => false
         end
      then raise ValueError
      else
        session (
          correlation_id ← uuid4;
          now ← sql_now p;
          schedule ← create_schedule job_type logical_target kind next_run_at correlation_id
                       max_attempts interval_seconds now;
          match schedule_id with
          | None => mret (Commit, d_id schedule)
          | Some id =>
              d ← get;
              match rekey_schedule (d_id schedule) id d with
              | None => raise JobsIntegrityError
              | Some d' => _ ← put d'; mret (Commit, id)
              end
          end)
  end.

(** The command is neither normalised nor looked up: it is inserted. *)
Definition sql_schedule_tick (p : process) (lk : locks) : M jobs_db Z :=
  session (
    now ← sql_now p;
    schedule ← claim_due_schedule lk now;
    match schedule with
    | None => mret (Rollback, 0)
    | Some s =>
        let planned := d_next_run_at s in
        command ← lift (SubmitJob_create 0 (d_job_type s) (d_logical_target s)
                          (schedule_key (d_id s) planned) (Some (d_correlation_id s)) None
                          (d_max_attempts s));
        now ← sql_now p;
        _ ← create_execution command "jobs.scheduler" now;
        now ← sql_now p;
        _ ← repo_advance_schedule s now;
        mret (Commit, 1)
    end).
