(* ===== verification/JobStoreInvariant.v ===== *)
(** * The invariant of the job tables

    [sql_inv] relates the four tables; it contains the check constraints of the schema
    that updates could violate.  The attempts and the outbox depend on an execution only
    through its attempt count and its standing ([view]). *)

From S2P Require Export SqlRuntime JobSpec.
#[local] Open Scope list_scope.

Inductive standing := Wait | Run | Over.

Definition standing_of (s : JobState) : standing :=
  match s with
  | PENDING | QUEUED | RETRY_WAIT => Wait
  | RUNNING => Run
  | SUCCEEDED | FAILED => Over
  end.

Definition view (rows : odict Z JobExecution) (id : Z) : option (Z * standing) :=
  (fun x => (x_attempt_count x, standing_of (x_state x))) <$> oget id rows.

(** The identity is one that [JobIdentity] returns. *)
Definition normalized (i : JobIdentity) : Prop :=
  JobIdentity_create (job_type i) (logical_target i) (idempotency_key i) = Ok i.

Record execution_ok (x : JobExecution) : Prop := {
  xok_max : 1 <= x_max_attempts x <= 10;
  xok_count : 0 <= x_attempt_count x <= x_max_attempts x;
  xok_finished : standing_of (x_state x) = Over <-> x_finished_at x <> None;
  xok_lease : match standing_of (x_state x) with
              | Run => x_lease_owner x <> None /\ x_lease_until x <> None
              | _ => x_lease_owner x = None /\ x_lease_until x = None
              end;
  xok_wait : standing_of (x_state x) = Wait -> x_attempt_count x < x_max_attempts x;
  xok_run : standing_of (x_state x) = Run -> 1 <= x_attempt_count x;
  xok_identity : normalized (x_identity x)
}.

Record executions_ok (rows : odict Z JobExecution) : Prop := {
  xs_nodup : NoDup (okeys rows);
  xs_row : forall k x, oget k rows = Some x -> x_id x = k /\ execution_ok x;
  xs_unique : forall k k' x x', oget k rows = Some x -> oget k' rows = Some x' ->
    identity_key (x_identity x) = identity_key (x_identity x') -> k = k'
}.

Record attempt_row_ok (f : Z -> option (Z * standing)) (k : Z) (t : JobAttempt) : Prop := {
  tok_id : t_id t = k;
  tok_exec : exists c st, f (t_execution_id t) = Some (c, st) /\ 1 <= t_ordinal t <= c
    /\ (t_state t = ATTEMPT_RUNNING -> st = Run /\ t_ordinal t = c)
}.

Record attempts_ok (f : Z -> option (Z * standing)) (rows : odict Z JobAttempt) : Prop := {
  ts_nodup : NoDup (okeys rows);
  ts_row : forall k t, oget k rows = Some t -> attempt_row_ok f k t;
  ts_unique : forall k k' t t', oget k rows = Some t -> oget k' rows = Some t' ->
    t_execution_id t = t_execution_id t' -> t_ordinal t = t_ordinal t' -> k = k';
  ts_running : forall id c, f id = Some (c, Run) -> exists k t, oget k rows = Some t
    /\ t_execution_id t = id /\ t_ordinal t = c /\ t_state t = ATTEMPT_RUNNING
}.

Record message_row_ok (f : Z -> option (Z * standing)) (k : Z) (m : JobOutboxMessage) : Prop := {
  mok_id : m_id m = k;
  mok_publish : 0 <= m_publish_attempts m <= 100;
  mok_pending : m_state m = M_PENDING -> m_publish_attempts m < 100;
  mok_exec : exists c st, f (m_execution_id m) = Some (c, st) /\ 1 <= m_attempt_number m <= c + 1
    /\ (m_attempt_number m = c + 1 -> st = Wait)
}.

Record messages_ok (f : Z -> option (Z * standing)) (rows : odict Z JobOutboxMessage) : Prop := {
  ms_nodup : NoDup (okeys rows);
  ms_row : forall k m, oget k rows = Some m -> message_row_ok f k m;
  ms_unique : forall k k' m m', oget k rows = Some m -> oget k' rows = Some m' ->
    m_execution_id m = m_execution_id m' -> m_attempt_number m = m_attempt_number m' -> k = k';
  ms_next : forall id c, f id = Some (c, Wait) -> exists k m, oget k rows = Some m
    /\ m_execution_id m = id /\ m_attempt_number m = c + 1
}.

Definition schedule_ok (s : JobSchedule) : Prop :=
  1 <= d_max_attempts s <= 10
  /\ (d_schedule_kind s = FixedInterval -> exists i, d_interval_seconds s = Some i /\ 60 <= i).

Record schedules_ok (rows : odict Z JobSchedule) : Prop := {
  ds_nodup : NoDup (okeys rows);
  ds_row : forall k s, oget k rows = Some s -> d_id s = k /\ schedule_ok s
}.

Record sql_inv (d : jobs_db) : Prop := {
  si_x : executions_ok (x_rows d);
  si_t : attempts_ok (view (x_rows d)) (t_rows d);
  si_m : messages_ok (view (x_rows d)) (m_rows d);
  si_d : schedules_ok (d_rows d)
}.

(** ** Views *)

Lemma view_oset rows id x i :
  view (oset id x rows) i
  = if decide (id = i) then Some (x_attempt_count x, standing_of (x_state x)) else view rows i.
Proof. unfold view. rewrite oget_oset. by case_decide. Qed.

Lemma view_Some rows id c st : view rows id = Some (c, st) ->
  exists x, oget id rows = Some x /\ x_attempt_count x = c /\ standing_of (x_state x) = st.
Proof. unfold view. destruct (oget id rows) as [x|]; simpl; [|done]. intros [= <- <-]. by exists x. Qed.

Lemma attempts_ok_ext f g rows : (forall i, g i = f i) -> attempts_ok f rows -> attempts_ok g rows.
Proof.
  intros E [? Hrow ? Hrun]. split; try done.
  - intros k t Ht. destruct (Hrow k t Ht) as [? Hx]. split; [done|]. by rewrite E.
  - intros id c. rewrite E. apply Hrun.
Qed.

Lemma messages_ok_ext f g rows : (forall i, g i = f i) -> messages_ok f rows -> messages_ok g rows.
Proof.
  intros E [? Hrow ? Hn]. split; try done.
  - intros k t Ht. destruct (Hrow k t Ht) as [? ? ? Hx]. split; try done. by rewrite E.
  - intros id c. rewrite E. apply Hn.
Qed.

(** ** Changes of the executions *)

Lemma executions_ok_update rows x x' :
  executions_ok rows -> oget (x_id x) rows = Some x -> x_id x' = x_id x ->
  x_identity x' = x_identity x -> execution_ok x' -> executions_ok (oset (x_id x') x' rows).
Proof.
  intros [Hnd Hrow Huniq] Hx Hid Hident Hok. rewrite Hid. split.
  - by apply NoDup_oset.
  - intros k y. rewrite oget_oset. case_decide; [|apply Hrow]. intros [= <-]. by subst.
  - intros k k' y y'. rewrite !oget_oset.
    case_decide as E1; case_decide as E2; intros Hy Hy'; simplify_eq; try done; rewrite ?Hident; eauto.
Qed.

Lemma executions_ok_insert rows x :
  executions_ok rows -> oget (x_id x) rows = None -> execution_ok x ->
  (forall k y, oget k rows = Some y -> identity_key (x_identity y) <> identity_key (x_identity x)) ->
  executions_ok (oset (x_id x) x rows).
Proof.
  intros [Hnd Hrow Huniq] Hx Hok Hfresh. split.
  - by apply NoDup_oset.
  - intros k y. rewrite oget_oset. case_decide; [|apply Hrow]. intros [= <-]. by subst.
  - intros k k' y y'. rewrite !oget_oset.
    case_decide as E1; case_decide as E2; intros Hy Hy'; simplify_eq; try done; eauto;
      intros E; exfalso; by eapply Hfresh.
Qed.

(** ** Changes of the attempts *)

Section attempts.
Variables (f g : Z -> option (Z * standing)) (id : Z) (v : Z * standing).
Hypothesis Hg : forall i, g i = if decide (id = i) then Some v else f i.

(** The execution is new, or its attempts go on counting what they counted. *)
Lemma attempts_ok_create rows : attempts_ok f rows -> f id = None -> v.2 <> Run -> attempts_ok g rows.
Proof.
  intros [? Hrow ? Hrun] Hf Hv. split; try done.
  - intros k t Ht. destruct (Hrow k t Ht) as [? (c & st & Hx & ?)]. split; [done|].
    exists c, st. rewrite Hg. case_decide; [congruence|done].
  - intros i c. rewrite Hg. case_decide; [|apply Hrun]. intros [= ->]. done.
Qed.

Lemma attempts_ok_claim rows t c st : attempts_ok f rows -> f id = Some (c, st) -> st <> Run ->
  v = (c + 1, Run) -> 0 <= c -> oget (t_id t) rows = None -> t_execution_id t = id ->
  t_ordinal t = c + 1 -> t_state t = ATTEMPT_RUNNING ->
  attempts_ok g (oset (t_id t) t rows).
Proof.
  intros [Hnd Hrow Hu Hrun] Hf Hst -> Hc Hnew Hte Hto Hts.
  assert (Hlt : forall k y, oget k rows = Some y -> t_execution_id y = id -> t_ordinal y <= c).
  { intros k y Hy Hid. destruct (Hrow k y Hy) as [_ (c' & st' & Hx & ? & _)].
    rewrite Hid, Hf in Hx. simplify_eq. lia. }
  split.
  - by apply NoDup_oset.
  - intros k y. rewrite oget_oset. case_decide as Hk.
    + intros [= <-]. split; [done|]. exists (c + 1), Run. rewrite Hg, decide_True by done.
      split; [done|]. split; [lia|done].
    + intros Hy. destruct (Hrow k y Hy) as [? (c' & st' & Hx & ? & Hr)]. split; [done|].
      rewrite Hg. case_decide as E; [|by exists c', st'].
      rewrite <- E, Hf in Hx. simplify_eq. exists (c' + 1), Run. split; [done|]. split; [lia|].
      intros [-> ?]%Hr. done.
  - intros k k' y y'. rewrite !oget_oset.
    case_decide as E1; case_decide as E2; intros Hy Hy' He Ho; simplify_eq; try done; eauto; exfalso.
    + pose proof (Hlt _ _ Hy' ltac:(congruence)). lia.
    + pose proof (Hlt _ _ Hy ltac:(congruence)). lia.
  - intros i c'. rewrite Hg. case_decide.
    + intros [= <-]. exists (t_id t), t. rewrite oget_oset_eq. by subst.
    + intros (k & y & Hy & ?)%Hrun. exists k, y. rewrite oget_oset_ne by congruence. done.
Qed.

(** The running attempt ends with its execution's run. *)
Lemma attempts_ok_end rows t t' c : attempts_ok f rows -> f id = Some (c, Run) -> v.1 = c ->
  v.2 <> Run -> oget (t_id t) rows = Some t -> t_execution_id t = id -> t_ordinal t = c ->
  t_id t' = t_id t -> t_execution_id t' = id -> t_ordinal t' = c -> t_state t' <> ATTEMPT_RUNNING ->
  attempts_ok g (oset (t_id t') t' rows).
Proof.
  intros [Hnd Hrow Hu Hrun] Hf Hv1 Hv2 Ht Hte Hto Hid Hte' Hto' Hts. rewrite Hid.
  destruct v as [c' st]. simpl in *. subst c'. split.
  - by apply NoDup_oset.
  - intros k y. rewrite oget_oset. case_decide as Hk.
    + intros [= <-]. destruct (Hrow _ _ Ht) as [? (c' & st' & Hx & ? & _)].
      rewrite Hte, Hf in Hx. simplify_eq.
      split; [congruence|]. exists (t_ordinal t), st. rewrite Hg, decide_True by done.
      split; [done|]. split; [lia|]. done.
    + intros Hy. destruct (Hrow k y Hy) as [? (c' & st' & Hx & ? & Hr)]. split; [done|].
      rewrite Hg. case_decide as E; [|by exists c', st'].
      rewrite <- E, Hf in Hx. simplify_eq. exists (t_ordinal t), st. split; [done|]. split; [lia|].
      intros [_ Ho]%Hr. exfalso. apply Hk. apply (Hu _ _ _ _ Ht Hy); congruence.
  - intros k k' y y'. rewrite !oget_oset.
    case_decide as E1; case_decide as E2; intros Hy Hy' He Ho; simplify_eq; try done; eauto;
      first [apply (Hu _ _ _ _ Ht Hy'); congruence | apply (Hu _ _ _ _ Hy Ht); congruence].
  - intros i c'. rewrite Hg. case_decide; [by intros [= -> ->]|].
    intros (k & y & Hy & ?)%Hrun. exists k, y. rewrite oget_oset_ne; [done|].
    intros <-. naive_solver.
Qed.
End attempts.

(** ** Changes of the outbox *)

Section messages.
Variables (f g : Z -> option (Z * standing)) (id : Z) (v : Z * standing).
Hypothesis Hg : forall i, g i = if decide (id = i) then Some v else f i.

Definition is_new_message (id number : Z) (m : JobOutboxMessage) : Prop :=
  m_execution_id m = id /\ m_attempt_number m = number /\ m_publish_attempts m = 0.

(** A waiting execution comes with the message of its next attempt. *)
Lemma messages_ok_enqueue rows m : messages_ok f rows -> v.2 = Wait -> 0 <= v.1 ->
  f id = None \/ f id = Some (v.1, Run) ->
  oget (m_id m) rows = None -> is_new_message id (v.1 + 1) m ->
  messages_ok g (oset (m_id m) m rows).
Proof.
  intros [Hnd Hrow Hu Hn] Hv Hv0 Hf Hnew (Hme & Hmn & Hmp). destruct v as [c st]. simpl in *. subst st.
  assert (Hne : forall k y, oget k rows = Some y -> m_execution_id y = id ->
    f id = Some (c, Run) /\ m_attempt_number y < c + 1).
  { intros k y Hy Hid. destruct (Hrow k y Hy) as [_ _ _ (c' & st' & Hx & ? & Hw)].
    rewrite Hid in Hx. destruct Hf as [Hf|Hf]; [congruence|]. rewrite Hf in Hx. simplify_eq.
    split; [done|]. destruct (decide (m_attempt_number y = c' + 1)) as [E|]; [|lia].
    by apply Hw in E. }
  split.
  - by apply NoDup_oset.
  - intros k y. rewrite oget_oset. case_decide as Hk.
    + intros [= <-]. split; [done|lia|lia|]. exists c, Wait. rewrite Hg, decide_True by done.
      split; [done|]. split; [lia|done].
    + intros Hy. destruct (Hrow k y Hy) as [? ? ? (c' & st' & Hx & ? & Hw)]. split; try done.
      rewrite Hg. case_decide as E; [|by exists c', st'].
      destruct (Hne k y Hy ltac:(done)) as [Hf' ?]. exists c, Wait. split; [done|].
      split; [lia|done].
  - intros k k' y y'. rewrite !oget_oset.
    case_decide as E1; case_decide as E2; intros Hy Hy' He Ho; simplify_eq; try done; eauto; exfalso.
    + pose proof (Hne _ _ Hy' ltac:(congruence)). lia.
    + pose proof (Hne _ _ Hy ltac:(congruence)). lia.
  - intros i c'. rewrite Hg. case_decide.
    + intros [= <-]. exists (m_id m), m. rewrite oget_oset_eq. by subst.
    + intros (k & y & Hy & ?)%Hn. exists k, y. rewrite oget_oset_ne by congruence. done.
Qed.

(** An execution that starts or ends an attempt needs no message of its own. *)
Lemma messages_ok_leave rows c st : messages_ok f rows -> f id = Some (c, st) -> v.2 <> Wait ->
  (st = Run /\ v.1 = c) \/ (st = Wait /\ v.1 = c + 1) -> messages_ok g rows.
Proof.
  intros [Hnd Hrow Hu Hn] Hf Hv Hc. destruct v as [c' st']. simpl in *. split; try done.
  - intros k y Hy. destruct (Hrow k y Hy) as [? ? ? (c1 & st1 & Hx & ? & Hw)]. split; try done.
    rewrite Hg. case_decide as E; [|by exists c1, st1].
    rewrite <- E, Hf in Hx. simplify_eq. exists c', st'. split; [done|].
    destruct Hc as [[-> ->]|[-> ->]].
    + split; [lia|]. intros Ho. by apply Hw in Ho.
    + split; lia.
  - intros i c1. rewrite Hg. case_decide; [by intros [= -> ->]|]. apply Hn.
Qed.
End messages.

(** An update of a message that keeps the execution and the attempt *)
Lemma messages_ok_update f rows m m' : messages_ok f rows -> oget (m_id m) rows = Some m ->
  m_id m' = m_id m -> m_execution_id m' = m_execution_id m ->
  m_attempt_number m' = m_attempt_number m -> 0 <= m_publish_attempts m' <= 100 ->
  (m_state m' = M_PENDING -> m_publish_attempts m' < 100) ->
  messages_ok f (oset (m_id m') m' rows).
Proof.
  intros [Hnd Hrow Hu Hn] Hm Hid Hme Hmn Hp Hpend. rewrite Hid. split.
  - by apply NoDup_oset.
  - intros k y. rewrite oget_oset. case_decide as Hk; [|apply Hrow].
    intros [= <-]. destruct (Hrow _ _ Hm) as [? ? ? Hx].
    split; try done; [congruence|]. by rewrite Hme, Hmn.
  - intros k k' y y'. rewrite !oget_oset.
    case_decide as E1; case_decide as E2; intros Hy Hy' He Ho; simplify_eq; try done; eauto;
      first [apply (Hu _ _ _ _ Hm Hy'); congruence | apply (Hu _ _ _ _ Hy Hm); congruence].
  - intros i c (k & y & Hy & He & Ho)%Hn. destruct (decide (k = m_id m)) as [->|Hne].
    + exists (m_id m), m'. rewrite oget_oset_eq. split; [done|]. simplify_eq. by rewrite Hme, Hmn.
    + exists k, y. rewrite oget_oset_ne by done. done.
Qed.

(** ** Changes of the tables *)

(** The jobs of the tables: a lease that is not there cannot be read. *)
Definition x_phase (x : JobExecution) : phase :=
  match x_state x with
  | SUCCEEDED => Finished true
  | FAILED => Finished false
  | RUNNING => Leased (default "" (x_lease_owner x)) (default 0 (x_lease_until x))
  | _ => Waiting (x_available_at x)
  end.
Definition x_job (x : JobExecution) : job :=
  Job (identity_key (x_identity x)) (x_max_attempts x) (x_attempt_count x) (x_phase x).
Definition sql_jobs (d : jobs_db) : jobs := jobs_of x_job (x_rows d).

(** What a transaction may do *)
Definition moves (d d' : jobs_db) : Prop :=
  sql_inv d' /\ rtc spec_step (sql_jobs d) (sql_jobs d').

Definition keeps (x x' : JobExecution) : Prop :=
  x_id x' = x_id x /\ x_identity x' = x_identity x /\ x_max_attempts x' = x_max_attempts x.

Definition ended (t t' : JobAttempt) : Prop :=
  t_id t' = t_id t /\ t_execution_id t' = t_execution_id t /\ t_ordinal t' = t_ordinal t
  /\ t_state t' <> ATTEMPT_RUNNING.

Lemma view_oget rows x : oget (x_id x) rows = Some x ->
  view rows (x_id x) = Some (x_attempt_count x, standing_of (x_state x)).
Proof. unfold view. by intros ->. Qed.

Lemma execution_at d k x : sql_inv d -> oget k (x_rows d) = Some x -> x_id x = k /\ execution_ok x.
Proof. intros HI. apply (xs_row _ (si_x _ HI)). Qed.

Section execution_moves.
Variables (d : jobs_db) (x x' : JobExecution).
Hypothesis HI : sql_inv d.
Hypothesis Hx : oget (x_id x) (x_rows d) = Some x.
Hypothesis Hk : keeps x x'.
Hypothesis Hok : execution_ok x'.

Lemma view_keeps i : view (oset (x_id x') x' (x_rows d)) i
  = if decide (x_id x = i) then Some (x_attempt_count x', standing_of (x_state x'))
    else view (x_rows d) i.
Proof. destruct Hk as (<- & _). apply view_oset. Qed.

Lemma executions_keeps : executions_ok (oset (x_id x') x' (x_rows d)).
Proof. destruct Hk as (? & ? & _). apply (executions_ok_update _ x); try done. apply HI. Qed.

(** An update that neither starts nor ends an attempt *)
Lemma sql_inv_same : x_attempt_count x' = x_attempt_count x ->
  standing_of (x_state x') = standing_of (x_state x) -> sql_inv (save_execution x' d).
Proof.
  intros Hc Hs. destruct HI as [? Ht Hm ?]. split; [apply executions_keeps| | |done].
  - eapply attempts_ok_ext; [|exact Ht]. intros i. rewrite view_keeps. case_decide; [|done].
    subst i. by rewrite view_oget, Hc, Hs.
  - eapply messages_ok_ext; [|exact Hm]. intros i. rewrite view_keeps. case_decide; [|done].
    subst i. by rewrite view_oget, Hc, Hs.
Qed.

Lemma sql_inv_claim t : standing_of (x_state x) = Wait -> standing_of (x_state x') = Run ->
  x_attempt_count x' = x_attempt_count x + 1 -> oget (t_id t) (t_rows d) = None ->
  t_execution_id t = x_id x -> t_ordinal t = x_attempt_count x + 1 ->
  t_state t = ATTEMPT_RUNNING -> sql_inv (save_attempt t (save_execution x' d)).
Proof.
  intros Hw Hr Hc Hnew Hte Hto Hts. apply view_oget in Hx as Hv. rewrite Hw in Hv.
  pose proof (xok_count _ (proj2 (execution_at _ _ _ HI Hx))) as Hcount.
  destruct HI as [? Ht Hm ?]. split; [apply executions_keeps| | |done].
  - eapply attempts_ok_claim with (f := view (x_rows d)) (id := x_id x) (c := x_attempt_count x)
      (v := (x_attempt_count x + 1, Run)); try done; [|lia].
    intros i. simpl. by rewrite view_keeps, Hc, Hr.
  - eapply messages_ok_leave with (f := view (x_rows d)) (id := x_id x)
      (v := (x_attempt_count x + 1, Run)); try done; [|by right].
    intros i. simpl. by rewrite view_keeps, Hc, Hr.
Qed.

Variables (t t' : JobAttempt).
Hypothesis Hrun : standing_of (x_state x) = Run.
Hypothesis Hcount : x_attempt_count x' = x_attempt_count x.
Hypothesis Ht : oget (t_id t) (t_rows d) = Some t.
Hypothesis Hte : t_execution_id t = x_id x.
Hypothesis Hto : t_ordinal t = x_attempt_count x.
Hypothesis Hend : ended t t'.

Lemma sql_inv_end_attempts : standing_of (x_state x') <> Run ->
  attempts_ok (view (oset (x_id x') x' (x_rows d))) (oset (t_id t') t' (t_rows d)).
Proof.
  intros Hs. destruct Hend as (E1 & E2 & E3 & E4). apply view_oget in Hx as Hv. rewrite Hrun in Hv.
  eapply attempts_ok_end with (f := view (x_rows d)) (id := x_id x) (t := t)
    (v := (x_attempt_count x, standing_of (x_state x'))); try done; try congruence.
  - intros i. by rewrite view_keeps, Hcount.
  - apply HI.
Qed.

Lemma sql_inv_end_over : standing_of (x_state x') = Over ->
  sql_inv (save_execution x' (save_attempt t' d)).
Proof.
  intros Hs. apply view_oget in Hx as Hv. rewrite Hrun in Hv.
  split; [apply executions_keeps|apply sql_inv_end_attempts; congruence| |apply HI].
  eapply messages_ok_leave with (f := view (x_rows d)) (id := x_id x)
    (v := (x_attempt_count x, Over)); try done; [|apply HI|by left].
  intros i. simpl. by rewrite view_keeps, Hcount, Hs.
Qed.

Lemma sql_inv_end_retry m : standing_of (x_state x') = Wait -> oget (m_id m) (m_rows d) = None ->
  is_new_message (x_id x) (x_attempt_count x + 1) m ->
  sql_inv (save_message m (save_execution x' (save_attempt t' d))).
Proof.
  intros Hs Hnew Hm. apply view_oget in Hx as Hv. rewrite Hrun in Hv.
  pose proof (xok_count _ (proj2 (execution_at _ _ _ HI Hx))) as Hc0.
  split; [apply executions_keeps|apply sql_inv_end_attempts; congruence| |apply HI].
  eapply messages_ok_enqueue with (f := view (x_rows d)) (id := x_id x)
    (v := (x_attempt_count x, Wait)); try done; [|apply HI|simpl; lia|by right].
  intros i. simpl. by rewrite view_keeps, Hcount, Hs.
Qed.
End execution_moves.

Lemma sql_inv_create d x m : sql_inv d -> oget (x_id x) (x_rows d) = None -> execution_ok x ->
  (forall k y, oget k (x_rows d) = Some y -> identity_key (x_identity y) <> identity_key (x_identity x)) ->
  standing_of (x_state x) = Wait -> x_attempt_count x = 0 ->
  oget (m_id m) (m_rows d) = None -> is_new_message (x_id x) 1 m ->
  sql_inv (save_message m (save_execution x d)).
Proof.
  intros HI Hx Hok Hu Hw Hc Hnew Hm.
  assert (Hv : view (x_rows d) (x_id x) = None) by (unfold view; by rewrite Hx).
  split; [by apply executions_ok_insert; [apply HI|..]| | |apply HI].
  - eapply attempts_ok_create with (f := view (x_rows d)) (id := x_id x) (v := (0, Wait)); try done;
      [|apply HI]. intros i. simpl. by rewrite view_oset, Hc, Hw.
  - eapply messages_ok_enqueue with (f := view (x_rows d)) (id := x_id x) (v := (0, Wait)); try done;
      [|apply HI|by left]. intros i. simpl. by rewrite view_oset, Hc, Hw.
Qed.

Lemma sql_inv_message d m m' : sql_inv d -> oget (m_id m) (m_rows d) = Some m ->
  m_id m' = m_id m -> m_execution_id m' = m_execution_id m ->
  m_attempt_number m' = m_attempt_number m -> 0 <= m_publish_attempts m' <= 100 ->
  (m_state m' = M_PENDING -> m_publish_attempts m' < 100) -> sql_inv (save_message m' d).
Proof. intros [] *. split; try done. by apply (messages_ok_update _ _ m). Qed.
