(* ===== verification/SqlRefinement.v ===== *)
(** * The PostgreSQL runtime implements the job specification

    Each transaction keeps [sql_inv] and is a sequence of steps of [JobSpec]; the
    transactions of all the processes make up [sql_step]. *)

From S2P Require Export JobInvariant JobStoreInvariant.
#[local] Open Scope list_scope.

(** An attempt is locked only by a transaction that holds its execution. *)
Definition locks_ok (lk : locks) (d : jobs_db) : Prop :=
  forall k t, oget k (t_rows d) = Some t -> lk_attempt lk k = true ->
    lk_execution lk (t_execution_id t) = true.

(** ** Running the monad *)

Lemma add_row_Ok {R} refused (save : R -> jobs_db -> jobs_db) row w s u s' :
  add_row refused save row w s = (Ok u, s') ->
  refused row (state_of s) = false /\ state_of s' = save row (state_of s).
Proof. unfold add_row, mbind, M_bind, get. simpl. case_match; [done|]. by intros [= <- <-]. Qed.

(** Opens a run of primitive operations that succeeded. *)
Ltac run_m :=
  inv_bind;
  repeat (
    match goal with
    | H : get _ _ = (Ok _, _) |- _ => injection H as <- <-
    | H : put _ _ _ = (Ok _, _) |- _ => injection H as <- <-
    | H : modify _ _ _ = (Ok _, _) |- _ => injection H as <- <-
    | H : uuid4 _ _ = (Ok _, _) |- _ => injection H as <- <-
    | H : clock _ _ = (Ok _, _) |- _ => injection H as <- <-
    | H : sql_now _ _ _ = (Ok _, _) |- _ => injection H as <- <-
    | H : session_get _ _ _ = (Ok _, _) |- _ => injection H as <- <-
    | H : get_for_update _ _ _ _ = (Ok _, _) |- _ => injection H as <- <-
    | H : attempt_for_update _ _ _ _ _ = (Ok _, _) |- _ => injection H as <- <-
    | H : outbox_for_update _ _ _ _ = (Ok _, _) |- _ => injection H as <- <-
    | H : mret _ _ _ = (Ok _, _) |- _ => injection H as <- <-
    | H : raise _ _ _ = (Ok _, _) |- _ => discriminate H
    | H : lift ?r _ _ = (Ok _, _) |- _ => unfold lift in H; destruct r eqn:?; [|discriminate H];
                                         injection H as <- <-
    | H : add_row _ _ _ _ _ = (Ok _, _) |- _ =>
        let Hr := fresh "Hrow" in let Hs := fresh "Hstate" in apply add_row_Ok in H as [Hr Hs]
    end; simpl in *; inv_bind).

Lemma session_moves {A} (m : M jobs_db (close * A)) w s (P : jobs_db -> jobs_db -> Prop) :
  P (state_of s) (state_of s) ->
  (forall a s', m w s = (Ok (Commit, a), s') -> P (state_of s) (state_of s')) ->
  P (state_of s) (state_of (session m w s).2).
Proof.
  intros Hr Hc. unfold session. destruct (m w s) as [[[[] a]|e] s'] eqn:E; simpl; [|done..].
  by apply (Hc a).
Qed.

Lemma moves_refl d : sql_inv d -> moves d d.
Proof. by split. Qed.

Lemma moves_trans d1 d2 d3 : moves d1 d2 -> moves d2 d3 -> moves d1 d3.
Proof. intros [_ ?] [? ?]. split; [done|]. by etrans. Qed.

Lemma omem_false {K V} `{EqDecision K} (k : K) (d : odict K V) : omem k d = false -> oget k d = None.
Proof. unfold omem. intros H%bool_decide_eq_false. by destruct (oget k d); [exfalso; eauto|]. Qed.

Lemma message_new m d : message_refused m d = false -> oget (m_id m) (m_rows d) = None.
Proof. intros [[? _]%orb_false_iff _]%orb_false_iff. by apply omem_false. Qed.
Lemma attempt_new t d : attempt_refused t d = false -> oget (t_id t) (t_rows d) = None.
Proof. intros [[? _]%orb_false_iff _]%orb_false_iff. by apply omem_false. Qed.
Lemma execution_new x d : execution_refused x d = false ->
  oget (x_id x) (x_rows d) = None
  /\ forall k y, oget k (x_rows d) = Some y -> identity_key (x_identity y) <> identity_key (x_identity x).
Proof.
  intros [[? Hu]%orb_false_iff _]%orb_false_iff. split; [by apply omem_false|].
  apply existsb_false_Forall in Hu. rewrite Forall_forall in Hu. intros k y Hy%oget_in_ovalues.
  specialize (Hu _ Hy). by apply bool_decide_eq_false in Hu.
Qed.

(** ** The attempt of a run *)

Lemma find_attempt d f t : sql_inv d -> find_first f (ovalues (t_rows d)) = Some t ->
  oget (t_id t) (t_rows d) = Some t /\ f t = true.
Proof.
  intros HI [Hin Hf]%find_first_Some. split; [|done].
  apply (oget_ovalues t_id); [apply (si_t _ HI)| |done].
  intros k y Hy. apply (ts_row _ _ (si_t _ HI) k y Hy).
Qed.

Lemma running_attempt d x : sql_inv d -> oget (x_id x) (x_rows d) = Some x -> x_state x = RUNNING ->
  exists t, oget (t_id t) (t_rows d) = Some t /\ t_execution_id t = x_id x
    /\ t_ordinal t = x_attempt_count x /\ t_state t = ATTEMPT_RUNNING.
Proof.
  intros HI Hx Hr. apply view_oget in Hx as Hv. rewrite Hr in Hv. simpl in Hv.
  destruct (ts_running _ _ (si_t _ HI) _ _ Hv) as (k & t & Ht & ?).
  destruct (ts_row _ _ (si_t _ HI) k t Ht) as [Hid _]. exists t. by rewrite Hid.
Qed.

Lemma job_expired x x' now until : x_state x = RUNNING -> x_lease_until x = Some until ->
  until <= now -> x_identity x' = x_identity x -> x_max_attempts x' = x_max_attempts x ->
  x_attempt_count x' = x_attempt_count x -> x_phase x' = after_expiry now (x_job x) ->
  job_step (x_job x) (x_job x').
Proof.
  intros Hr Hu Hle Hi Hm Hc Hp. unfold x_job at 2. rewrite Hi, Hm, Hc, Hp.
  eapply (job_expire (x_job x) now _ until); [|done].
  unfold x_job, x_phase. simpl. by rewrite Hr, Hu.
Qed.

Lemma jobs_step d d' x x' : oget (x_id x) (x_rows d) = Some x ->
  x_rows d' = oset (x_id x') x' (x_rows d) -> x_id x' = x_id x ->
  job_step (x_job x) (x_job x') -> rtc spec_step (sql_jobs d) (sql_jobs d').
Proof.
  intros Hx Hd Hid Hs. unfold sql_jobs. rewrite Hd, Hid. by eapply jobs_of_step.
Qed.

Lemma execution_ok_over x state available code fin now :
  execution_ok x -> standing_of state = Over ->
  execution_ok (x_release state available code (Some fin) now x).
Proof. intros [] Hs. split; simpl; rewrite ?Hs; try done. Qed.

Lemma execution_ok_retry x available code now : execution_ok x -> x_state x = RUNNING ->
  x_attempt_count x < x_max_attempts x ->
  execution_ok (x_release RETRY_WAIT available code (x_finished_at x) now x).
Proof.
  intros [? ? Hf ? ? ? ?] Hr Hlt. rewrite Hr in *. split; simpl; try done.
  split; [done|]. intros H. by apply Hf in H.
Qed.

(** ** Abandoning an attempt *)

Lemma abandon_moves lk x now until w s u s' :
  sql_inv (state_of s) -> oget (x_id x) (x_rows (state_of s)) = Some x ->
  x_state x = RUNNING -> x_lease_until x = Some until -> until <= now ->
  locks_ok lk (state_of s) -> lk_execution lk (x_id x) = false ->
  abandon lk x now w s = (Ok u, s') ->
  moves (state_of s) (state_of s')
  /\ (forall k, k <> x_id x -> oget k (x_rows (state_of s')) = oget k (x_rows (state_of s)))
  /\ locks_ok lk (state_of s').
Proof.
  intros HI Hx Hr Hu Hle Hlk Hfree H. unfold abandon in H. run_m.
  destruct (execution_at _ _ _ HI Hx) as [_ Hok].
  destruct (find_first _ _) as [t|] eqn:Ht.
  2:{ exfalso. destruct (running_attempt _ _ HI Hx Hr) as (t & Hin & E1 & E2 & E3).
      apply find_first_None in Ht. rewrite Forall_forall in Ht.
      specialize (Ht t (oget_in_ovalues _ _ _ Hin)). simpl in Ht.
      rewrite E1, E2, E3, !Z.eqb_refl in Ht. simpl in Ht.
      destruct (lk_attempt lk (t_id t)) eqn:E; [|done]. pose proof (Hlk _ _ Hin E). congruence. }
  apply find_attempt in Ht as [Hin Hf]; [|done].
  rewrite !andb_true_iff, !Z.eqb_eq in Hf. destruct Hf as [[[E1 E2] _] _]. run_m.
  assert (Hlk' : forall x' m' d', locks_ok lk (MkJobsDb x'
    (oset (t_id t) (end_attempt ABANDONED now (Some "job.lease_expired") t) (t_rows (state_of s))) m' d')).
  { intros x' m' d' k y. simpl. rewrite oget_oset. case_decide as Hk; [|apply Hlk].
    intros [= <-]. simpl. subst k. by apply (Hlk _ t). }
  destruct (x_attempt_count x <? x_max_attempts x) eqn:Hc.
  - apply Z.ltb_lt in Hc. unfold create_outbox in H. run_m. rewrite Hstate.
    split; [split|split].
    + eapply sql_inv_end_retry; try done; [by apply execution_ok_retry|by rewrite Hr|].
      by apply message_new in Hrow.
    + eapply (jobs_step _ _ x); try done. apply (job_expired x _ now until); try done.
      unfold after_expiry. simpl. by rewrite (proj2 (Z.ltb_lt _ _) Hc).
    + intros k Hk. simpl. by rewrite oget_oset_ne.
    + apply Hlk'.
  - injection H as <- <-. simpl. split; [split|split].
    + eapply sql_inv_end_over; try done; [by apply execution_ok_over|by rewrite Hr].
    + eapply (jobs_step _ _ x); try done. apply (job_expired x _ now until); try done.
      unfold after_expiry. simpl. by rewrite Hc.
    + intros k Hk. simpl. by rewrite oget_oset_ne.
    + apply Hlk'.
Qed.

(** ** Queries that lock rows *)

Section selected.
Context {R : Type} (id_of : R -> Z).

Lemma select_locked_spec (rows : odict Z R) locked f lt limit :
  NoDup (okeys rows) -> (forall k x, oget k rows = Some x -> id_of x = k) ->
  NoDup (id_of <$> select_locked rows locked f lt limit)
  /\ Forall (fun x => oget (id_of x) rows = Some x /\ f x = true /\ locked (id_of x) = false)
       (select_locked rows locked f lt limit).
Proof.
  intros Hnd Hid. set (p := fun kv : Z * R => f kv.2 && negb (locked kv.1)).
  assert (Hsub : sublist (map snd (List.filter p rows)) (ovalues rows)).
  { unfold ovalues. clear Hnd Hid. induction rows as [|kv rows IH]; [done|]. simpl.
    destruct (p kv); simpl; by constructor. }
  assert (Hkeys : id_of <$> ovalues rows = okeys rows).
  { assert (Hall : Forall (fun kv => id_of kv.2 = kv.1) rows).
    { apply Forall_forall. intros [k x] Hin. apply (Hid k x). by apply oget_elem_NoDup. }
    unfold ovalues, okeys. clear -Hall. induction Hall as [|kv rows E _ IH]; [done|].
    csimpl. by rewrite E, IH. }
  unfold select_locked. fold p. split.
  - eapply (sublist_NoDup _ (id_of <$> sort_by lt (map snd (List.filter p rows)))).
    2:{ apply fmap_sublist, sublist_take. }
    rewrite (sort_by_perm lt _). eapply sublist_NoDup; [|by apply fmap_sublist]. by rewrite Hkeys.
  - apply Forall_take. rewrite (sort_by_perm lt _). apply Forall_forall. intros x Hin.
    apply list_elem_of_fmap in Hin as ([k y] & -> & Hin). simpl.
    apply list_elem_of_In, filter_In in Hin as [Hin%list_elem_of_In Hp].
    unfold p in Hp. simpl in Hp. apply andb_true_iff in Hp as [Hf Hl%negb_true_iff].
    apply oget_elem_NoDup in Hin; [|done]. by rewrite (Hid k y Hin).
Qed.
End selected.

(** ** The reaper *)

Lemma abandon_all_moves lk now l w s u s' :
  sql_inv (state_of s) -> locks_ok lk (state_of s) -> NoDup (x_id <$> l) ->
  Forall (fun x => oget (x_id x) (x_rows (state_of s)) = Some x /\ x_expired now x = true
                   /\ lk_execution lk (x_id x) = false) l ->
  abandon_all lk now l w s = (Ok u, s') -> moves (state_of s) (state_of s').
Proof.
  revert s. induction l as [|x l IH]; intros s HI Hlk Hnd Hl H; simpl in H.
  - injection H as <- <-. by apply moves_refl.
  - run_m. apply NoDup_cons in Hnd as [Hnotin Hnd]. apply Forall_cons in Hl as [(Hx & He & Hf) Hl].
    unfold x_expired in He. apply andb_true_iff in He as [Hr%bool_decide_eq_true Hu].
    destruct (x_lease_until x) as [until|] eqn:Hlu; [|done]. apply Z.leb_le in Hu.
    match goal with Ha : abandon _ _ _ _ _ = _ |- _ =>
      eapply abandon_moves in Ha as (Hm & Hother & Hlk1); try done end.
    eapply moves_trans; [exact Hm|]. eapply IH; try done; [apply Hm|].
    rewrite Forall_forall in Hl |- *. intros y Hy. rewrite Hother; [by apply Hl|].
    intros E. apply Hnotin. rewrite <- E. by apply list_elem_of_fmap_2.
Qed.

Lemma reap_moves lk now limit w s n s' : sql_inv (state_of s) -> locks_ok lk (state_of s) ->
  repo_reap_expired lk now limit w s = (Ok n, s') -> moves (state_of s) (state_of s').
Proof.
  intros HI Hlk H. unfold repo_reap_expired in H. run_m.
  destruct (select_locked_spec x_id (x_rows (state_of s)) (lk_execution lk) (x_expired now) unordered
              limit) as [Hnd Hl].
  { apply (si_x _ HI). }
  { intros k x Hx. by apply (execution_at _ _ _ HI Hx). }
  by eapply abandon_all_moves.
Qed.

(** ** The claim *)

Lemma repo_claim_moves lk id n worker rel now lease w s t s' : sql_inv (state_of s) ->
  repo_claim lk id n worker rel now lease w s = (Ok (Some t), s') ->
  moves (state_of s) (state_of s').
Proof.
  intros HI H. unfold repo_claim in H. run_m.
  destruct (lk_execution lk id); [run_m; done|].
  destruct (oget id (x_rows (state_of s))) as [x|] eqn:Hx; [|run_m; done].
  destruct (execution_at _ _ _ HI Hx) as [Hid Hok]. rewrite <- Hid in Hx. clear id Hid.
  destruct (n =? _) eqn:Hn; simpl in H; [|run_m; done]. apply Z.eqb_eq in Hn.
  case_bool_decide as Hover; [run_m; done|].
  destruct (bool_decide (x_state x = RETRY_WAIT) && _); [run_m; done|].
  case_bool_decide as Hrun.
  { destruct (x_lease_until x); [|run_m; done]. destruct (now <? _); run_m; done. }
  destruct (now <? x_available_at x) eqn:Hav; [run_m; done|]. apply Z.ltb_ge in Hav. run_m.
  assert (Hw : standing_of (x_state x) = Wait) by (destruct (x_state x); naive_solver).
  subst n. rewrite Hstate. pose proof (xok_wait _ Hok Hw) as Hlt. split.
  - apply (sql_inv_claim _ x); try done; [|by apply attempt_new in Hrow].
    destruct Hok as [? ? Hfin ? ? ? ?]. split; simpl; try done; try lia.
    rewrite <- Hfin, Hw. done.
  - eapply (jobs_step _ _ x); try done.
    apply (job_claim (x_job x) (x_available_at x) now worker (now + seconds lease)); try done.
    unfold x_job, x_phase. simpl. destruct (x_state x); done.
Qed.

(** ** Submission *)

Definition wf_command (c : SubmitJob) : Prop := wf_submit c /\ normalized (sub_identity c).

Lemma create_moves c source now w s x s' : sql_inv (state_of s) -> wf_command c ->
  create_execution c source now w s = (Ok x, s') ->
  moves (state_of s) (state_of s') /\ oget (x_id x) (x_rows (state_of s')) = Some x
  /\ d_rows (state_of s') = d_rows (state_of s).
Proof.
  intros HI [Hwf Hn] H. unfold create_execution in H. run_m.
  match goal with Hm : message_refused _ _ = false, He : execution_refused _ _ = false |- _ =>
    apply message_new in Hm; apply execution_new in He as [Hx Hu] end.
  simpl in Hx, Hu. repeat match goal with Hs : state_of _ = _ |- _ => rewrite Hs in *; clear Hs end.
  unfold wf_submit in Hwf. split; [split|].
  - eapply (sql_inv_create (state_of s) (new_execution_row _ now source c)); try done.
    split; simpl; try done; lia.
  - unfold sql_jobs. simpl. rewrite jobs_of_oset. apply rtc_once, spec_submit.
    + rewrite jobs_of_lookup. by rewrite Hx.
    + intros i j. rewrite jobs_of_lookup. destruct (oget i _) as [y|] eqn:Hy; [|done].
      simpl. intros [= <-]. by apply (Hu i y).
    + done.
  - split; [simpl; by rewrite oget_oset_eq|done].
Qed.

(** ** Outcomes *)

Lemma job_over x x' now until ok : x_state x = RUNNING -> x_lease_until x = Some until ->
  now < until -> x_identity x' = x_identity x -> x_max_attempts x' = x_max_attempts x ->
  x_attempt_count x' = x_attempt_count x -> x_phase x' = Finished ok ->
  job_step (x_job x) (x_job x').
Proof.
  intros Hr Hu Hle Hi Hm Hc Hp. unfold x_job at 2. rewrite Hi, Hm, Hc, Hp.
  eapply (job_report (x_job x) now _ until); [|done].
  unfold x_job, x_phase. simpl. by rewrite Hr, Hu.
Qed.

Lemma job_retried x x' checked now until : x_state x = RUNNING -> x_lease_until x = Some until ->
  checked < until -> x_identity x' = x_identity x -> x_max_attempts x' = x_max_attempts x ->
  x_attempt_count x' = x_attempt_count x -> x_state x' = RETRY_WAIT ->
  now <= x_available_at x' <= now + seconds 300 -> x_attempt_count x < x_max_attempts x ->
  job_step (x_job x) (x_job x').
Proof.
  intros Hr Hu Hle Hi Hm Hc Hp Ha Hlt. unfold x_job at 2. rewrite Hi, Hm, Hc.
  unfold x_phase. rewrite Hp. eapply (job_retry (x_job x) checked now _ until); try done.
  unfold x_job, x_phase. simpl. by rewrite Hr, Hu.
Qed.

(** The outcome of the attempt [t] of the leased execution [x] *)
Section outcome.
Context `{JsonbColumns}.
Variables (w : world) (s : sys jobs_db) (x : JobExecution) (t : JobAttempt) (checked now until : Z).
Hypothesis HI : sql_inv (state_of s).
Hypothesis Hx : oget (x_id x) (x_rows (state_of s)) = Some x.
Hypothesis Hr : x_state x = RUNNING.
Hypothesis Hu : x_lease_until x = Some until.
Hypothesis Hlt : checked < until.
Hypothesis Ht : oget (t_id t) (t_rows (state_of s)) = Some t.
Hypothesis Hte : t_execution_id t = x_id x.
Hypothesis Hto : t_ordinal t = x_attempt_count x.

Lemma outcome_ok : execution_ok x.
Proof. apply (execution_at _ _ _ HI Hx). Qed.

(** Writing the execution twice is writing it once. *)
Lemma oset_oset {K V} `{EqDecision K} (k : K) (v v' : V) d : oset k v' (oset k v d) = oset k v' d.
Proof.
  induction d as [|[a b] d IH]; simpl; [by rewrite decide_True|].
  destruct (decide (k = a)) as [->|?] eqn:E; simpl; [by rewrite decide_True|].
  by rewrite E, IH.
Qed.

Lemma save_twice y y' d : x_id y = x_id y' -> save_execution y' (save_execution y d) = save_execution y' d.
Proof. unfold save_execution. simpl. intros ->. by rewrite oset_oset. Qed.

Lemma outcome_over x' state code ok :
  keeps x x' -> execution_ok x' -> standing_of (x_state x') = Over ->
  x_attempt_count x' = x_attempt_count x -> x_phase x' = Finished ok ->
  state <> ATTEMPT_RUNNING ->
  moves (state_of s) (save_execution x' (save_attempt (end_attempt state now code t) (state_of s))).
Proof.
  intros Hk Hok' Ho Hc Hp Hst. split.
  - eapply (sql_inv_end_over (state_of s) x x' HI Hx Hk Hok' t (end_attempt state now code t));
      try done; by rewrite Hr.
  - eapply (jobs_step _ _ x x'); [done|done|apply Hk|].
    destruct Hk as (_ & ? & ?). by apply (job_over x x' checked until ok).
Qed.

Lemma success_moves value x' s' : record_success t value now w s = (Ok x', s') ->
  moves (state_of s) (state_of s').
Proof.
  intros H0. unfold record_success, finish_attempt in H0. rewrite Hte in H0. run_m.
  rewrite Hx in *. run_m. destruct (jsonb_accepts _); run_m.
  rewrite save_twice by done. pose proof outcome_ok as [].
  eapply (outcome_over _ ATTEMPT_SUCCEEDED None true); done.
Qed.

Lemma failure_moves error x' s' : wf_outcome (OutError error) ->
  record_failure t error now w s = (Ok x', s') -> moves (state_of s) (state_of s').
Proof.
  intros Hwf H0. unfold record_failure, finish_attempt in H0. rewrite Hte in H0. run_m.
  rewrite Hx in *. run_m.
  match goal with Hb : (if ?b then _ else _) _ _ = _ |- _ => destruct b eqn:Hretry; rename Hb into Hend end.
  - apply andb_true_iff in Hretry as [Hkind Hcount%Z.ltb_lt]. simpl in Hcount.
    destruct (retry_delay_ok (x_attempt_count x) error Hwf) as (delay & Hd & Hbound).
    unfold schedule_retry, create_outbox in Hend. simpl in Hend. rewrite Hd in Hend. run_m.
    rewrite Hstate. rewrite save_twice in * by done. apply message_new in Hrow. split.
    + eapply (sql_inv_end_retry (state_of s) x _ HI Hx); try done; try (by rewrite Hr).
      * pose proof outcome_ok as Hok. destruct Hok as [? ? Hf Hl ? ? ?]. rewrite Hr in *.
        split; simpl; try done. split; [done|]. intros E. by apply Hf in E.
      * unfold ended, _attempt_state. simpl. split_and!; try done. by case_bool_decide.
    + eapply (jobs_step _ _ x); try done. eapply (job_retried x _ checked now until); try done.
      simpl. unfold seconds, us_per_second. simplify_eq. lia.
  - run_m. rewrite save_twice by done. pose proof outcome_ok as [].
    eapply (outcome_over _ _ _ false); try done. unfold _attempt_state. by case_bool_decide.
Qed.
End outcome.


(** ** The outbox *)

(** An update of a message that the constraints and the attempts allow *)
Definition message_update (f : JobOutboxMessage -> JobOutboxMessage) (m : JobOutboxMessage) : Prop :=
  m_id (f m) = m_id m /\ m_execution_id (f m) = m_execution_id m
  /\ m_attempt_number (f m) = m_attempt_number m /\ 0 <= m_publish_attempts (f m) <= 100
  /\ (m_state (f m) = M_PENDING -> m_publish_attempts (f m) < 100).

Definition same_executions (d d' : jobs_db) : Prop :=
  x_rows d' = x_rows d /\ t_rows d' = t_rows d.

Lemma same_executions_moves d d' : sql_inv d' -> same_executions d d' -> moves d d'.
Proof. intros HI [E _]. split; [done|]. unfold sql_jobs. by rewrite E. Qed.

Lemma messages_fold f rows d : sql_inv d -> NoDup (m_id <$> rows) ->
  Forall (fun m => oget (m_id m) (m_rows d) = Some m /\ message_update f m) rows ->
  sql_inv (foldl (fun d m => save_message (f m) d) d rows)
  /\ same_executions d (foldl (fun d m => save_message (f m) d) d rows).
Proof.
  revert d. induction rows as [|m rows IH]; intros d HI Hnd Hl; simpl; [by split|].
  apply NoDup_cons in Hnd as [Hm Hnd]. apply Forall_cons in Hl as [(Hin & E1 & E2 & E3 & Hp & Hs) Hl].
  edestruct (IH (save_message (f m) d)) as [HI' [Ex Et]]; [|done| |by split].
  - by apply (sql_inv_message _ m).
  - rewrite Forall_forall in Hl |- *. intros y Hy. destruct (Hl y Hy) as [Hyin ?].
    split; [|done]. simpl. rewrite oget_oset_ne; [done|]. rewrite E1. intros E.
    apply Hm. rewrite E. by apply list_elem_of_fmap_2.
Qed.

(** The rows a query locks, updated *)
Lemma selected_messages_moves f d locked q lt limit : sql_inv d ->
  (forall m, q m = true -> 0 <= m_publish_attempts m <= 100 -> message_update f m) ->
  let rows := select_locked (m_rows d) locked q lt limit in
  let d' := foldl (fun d m => save_message (f m) d) d rows in
  sql_inv d' /\ same_executions d d'.
Proof.
  intros HI Hf rows d'.
  destruct (select_locked_spec m_id (m_rows d) locked q lt limit) as [Hnd Hl].
  { apply (si_m _ HI). }
  { intros k m Hm. apply (ms_row _ _ (si_m _ HI) k m Hm). }
  apply messages_fold; [done|done|]. eapply Forall_impl; [exact Hl|].
  intros m (Hin & Hq & _). split; [done|]. apply Hf; [done|].
  apply (ms_row _ _ (si_m _ HI) _ _ Hin).
Qed.

Lemma reclaimed_update now m : 0 <= m_publish_attempts m <= 100 -> message_update (reclaimed now) m.
Proof.
  intros ?. unfold message_update, reclaimed. destruct (100 <=? _) eqn:E; simpl; split_and!; try done; lia.
Qed.
Lemma rebuilt_update m : 0 <= m_publish_attempts m <= 100 -> message_update rebuilt m.
Proof.
  intros ?. unfold message_update, rebuilt. destruct (100 <=? _) eqn:E; simpl; split_and!; try done; lia.
Qed.

Lemma reclaim_moves lk now limit w s n s' : sql_inv (state_of s) ->
  repo_reclaim_expired_outbox lk now limit w s = (Ok n, s') ->
  sql_inv (state_of s') /\ same_executions (state_of s) (state_of s').
Proof.
  intros HI H. unfold repo_reclaim_expired_outbox in H. run_m.
  apply selected_messages_moves; [done|]. intros m _. apply reclaimed_update.
Qed.

Lemma rebuild_moves lk limit w s n s' : sql_inv (state_of s) ->
  repo_rebuild_outbox lk limit w s = (Ok n, s') -> moves (state_of s) (state_of s').
Proof.
  intros HI H. unfold repo_rebuild_outbox in H. run_m.
  edestruct selected_messages_moves as [? ?]; [done| |by eapply same_executions_moves].
  intros m _. apply rebuilt_update.
Qed.

Lemma foldl_map_save (f : JobOutboxMessage -> JobOutboxMessage) rows d :
  foldl (fun d m => save_message m d) d (map f rows) = foldl (fun d m => save_message (f m) d) d rows.
Proof. revert d. induction rows as [|m rows IH]; intros d; [done|]. apply IH. Qed.

Lemma claim_outbox_moves lk owner now lease limit w s rows s' : sql_inv (state_of s) ->
  claim_outbox lk owner now lease limit w s = (Ok rows, s') ->
  sql_inv (state_of s') /\ same_executions (state_of s) (state_of s').
Proof.
  intros HI H. unfold claim_outbox in H. run_m. rewrite foldl_map_save.
  apply selected_messages_moves; [done|]. intros m Hq Hp.
  rewrite !andb_true_iff, Z.ltb_lt in Hq. unfold message_update, publishing. simpl.
  split_and!; try done; lia.
Qed.

Lemma map_m_state {A B} (f : A -> M jobs_db B) l w s bs s' :
  (forall a w s b s', f a w s = (Ok b, s') -> state_of s' = state_of s) ->
  map_m f l w s = (Ok bs, s') -> state_of s' = state_of s.
Proof.
  intros Hf. revert s bs s'. induction l as [|a l IH]; intros s bs s' H; simpl in H; run_m; [done|].
  match goal with H1 : f _ _ _ = _, H2 : map_m _ _ _ _ = _ |- _ =>
    apply Hf in H1; apply IH in H2; congruence end.
Qed.

Lemma relay_claim_moves p lk owner limit w s : sql_inv (state_of s) ->
  moves (state_of s) (state_of (relay_claim p lk owner limit w s).2).
Proof.
  intros HI. unfold relay_claim, _finish_outbox. apply (session_moves _ w s moves); [by apply moves_refl|]. intros a s' H. run_m.
  match goal with Hr : repo_reclaim_expired_outbox _ _ _ _ _ = _,
                  Hc : claim_outbox _ _ _ _ _ _ _ = _, Hm : map_m _ _ _ _ = _ |- _ =>
    apply reclaim_moves in Hr as [HI1 [E1 E1']]; [|done];
    apply claim_outbox_moves in Hc as [HI2 [E2 E2']]; [|done];
    apply map_m_state in Hm; [|intros x w' y b y' Hx; unfold message_correlation in Hx; run_m;
                               destruct (oget _ _); run_m; done] end.
  simpl in *. match goal with Hm : state_of ?z = _ |- moves _ (state_of ?z) => rewrite Hm end.
  apply same_executions_moves; [done|]. split; congruence.
Qed.

Section marks.
Variables (m : JobOutboxMessage) (now : Z) (w : world) (s : sys jobs_db).
Hypothesis HI : sql_inv (state_of s).
Hypothesis Hm : oget (m_id m) (m_rows (state_of s)) = Some m.

Lemma message_update_inv f : message_update f m -> sql_inv (save_message (f m) (state_of s)).
Proof. intros (? & ? & ? & ? & ?). by apply (sql_inv_message _ m). Qed.

Lemma mark_published_moves u s' : mark_outbox_published m now w s = (Ok u, s') ->
  moves (state_of s) (state_of s').
Proof.
  intros H. unfold mark_outbox_published in H. run_m.
  destruct (ms_row _ _ (si_m _ HI) _ _ Hm) as [_ Hp _ _].
  set (f := fun m => m_update M_PUBLISHED (m_available_at m) None None (m_publish_attempts m)
                       (Some now) (m_error_code m) now m) in *.
  change (m_update _ _ _ _ _ _ _ _ m) with (f m) in *.
  assert (HI' : sql_inv (save_message (f m) (state_of s))) by (by apply message_update_inv).
  destruct (oget (m_execution_id m) (x_rows (state_of s))) as [x|] eqn:Hx;
    [|run_m; by apply same_executions_moves].
  case_bool_decide as Hst; run_m; [|by apply same_executions_moves].
  destruct (execution_at _ _ _ HI Hx) as [Hid Hok]. rewrite <- Hid in Hx. split.
  - apply (sql_inv_same _ x); try done; [|by rewrite Hst].
    destruct Hok. rewrite Hst in *. by split.
  - unfold sql_jobs. simpl. erewrite jobs_of_same; [done|exact Hx|].
    unfold x_job, x_phase. simpl. by rewrite Hst.
Qed.

Lemma mark_failed_moves u s' : mark_outbox_failed m now w s = (Ok u, s') ->
  moves (state_of s) (state_of s').
Proof.
  intros H. unfold mark_outbox_failed in H.
  destruct (ms_row _ _ (si_m _ HI) _ _ Hm) as [_ Hp _ _].
  destruct (100 <=? m_publish_attempts m) eqn:E; run_m; apply same_executions_moves; try done;
    apply (sql_inv_message _ m); simpl; try done; lia.
Qed.
End marks.

Lemma finish_outbox_moves p lk id owner published w s : sql_inv (state_of s) ->
  moves (state_of s) (state_of (_finish_outbox p lk id owner published w s).2).
Proof.
  intros HI. unfold relay_claim, _finish_outbox. apply (session_moves _ w s moves); [by apply moves_refl|]. intros a s' H. run_m.
  destruct (lk_outbox lk id); [run_m; done|].
  destruct (oget id (m_rows (state_of s))) as [m|] eqn:Hm; [|run_m; done].
  destruct (ms_row _ _ (si_m _ HI) _ _ Hm) as [Hid Hp _ _]. rewrite <- Hid in Hm. clear id Hid.
  destruct (m_lease_until m) as [until|]; [|run_m; done].
  destruct (bool_decide _ && _); [|run_m; done]. run_m.
  destruct (until <=? _); [run_m; done|]. run_m. destruct published.
  - match goal with Hf : mark_outbox_published _ _ _ ?s0 = _ |- _ =>
      exact (mark_published_moves m _ w s0 HI Hm _ _ Hf) end.
  - match goal with Hf : mark_outbox_failed _ _ _ ?s0 = _ |- _ =>
      exact (mark_failed_moves m _ w s0 HI Hm _ _ Hf) end.
Qed.

(** ** Schedules *)

Lemma sql_inv_schedules d f : sql_inv d -> schedules_ok f ->
  moves d (MkJobsDb (x_rows d) (t_rows d) (m_rows d) f).
Proof. intros [] ?. apply same_executions_moves; [by split|done]. Qed.

Lemma schedules_ok_oset rows s : schedules_ok rows -> schedule_ok s ->
  schedules_ok (oset (d_id s) s rows).
Proof.
  intros [Hnd Hrow] Hs. split; [by apply NoDup_oset|].
  intros k y. rewrite oget_oset. case_decide; [|apply Hrow]. by intros [= <-].
Qed.

Lemma schedules_ok_rekey d old new d' : schedules_ok (d_rows d) -> rekey_schedule old new d = Some d' ->
  schedules_ok (d_rows d') /\ d' = MkJobsDb (x_rows d) (t_rows d) (m_rows d) (d_rows d').
Proof.
  intros [Hnd Hrow] H. unfold rekey_schedule in H. case_bool_decide; [simplify_eq; by destruct d'|].
  destruct (omem new (d_rows d)) eqn:Hnew; [done|]. apply omem_false in Hnew. injection H as <-.
  split; [|done]. simpl. clear -Hnd Hrow Hnew. set (rows := d_rows d) in *. clearbody rows.
  set (g := fun kv : Z * JobSchedule => if kv.1 =? old then _ else kv).
  assert (Hin : forall kv, kv ∈ rows -> d_id kv.2 = kv.1 /\ schedule_ok kv.2 /\ kv.1 <> new).
  { intros [k s] Hk. apply oget_elem_NoDup in Hk as Ho; [|done]. destruct (Hrow k s Ho) as [? ?].
    split_and!; try done. simpl. congruence. }
  clear Hrow Hnew. split.
  - unfold okeys in *. induction rows as [|[k s] rows IH]; [done|]. simpl in *.
    apply NoDup_cons in Hnd as [Hk Hnd]. apply NoDup_cons.
    split; [|apply IH; [done|]; intros kv Hkv; apply Hin; by apply list_elem_of_further].
    rewrite list_elem_of_fmap. intros (kv' & E & Hkv').
    apply list_elem_of_fmap in Hkv' as (kv & -> & Hkv).
    destruct (Hin kv (list_elem_of_further _ _ _ Hkv)) as (_ & _ & Hne).
    destruct (Hin (k, s) (list_elem_of_here _ _)) as (_ & _ & Hne'). simpl in Hne'.
    assert (Hkin : kv.1 ∈ rows.*1) by (by apply list_elem_of_fmap_2).
    unfold g in E. simpl in E.
    destruct (Z.eqb_spec k old), (Z.eqb_spec kv.1 old); simpl in E; try congruence.
    all: apply Hk; by replace k with kv.1 by congruence.
  - intros k s Hs%oget_Some_elem. apply list_elem_of_fmap in Hs as (kv & E & Hkv).
    destruct (Hin kv Hkv) as (Hid & Hok & _). unfold g in E.
    destruct (kv.1 =? old); [|destruct kv; by simplify_eq/=]. by simplify_eq/=.
Qed.

Lemma create_schedule_ok jt lt k next cid max interval now w s x s' : schedules_ok (d_rows (state_of s)) ->
  create_schedule jt lt k next cid max interval now w s = (Ok x, s') ->
  schedules_ok (d_rows (state_of s'))
  /\ state_of s' = MkJobsDb (x_rows (state_of s)) (t_rows (state_of s)) (m_rows (state_of s))
                     (d_rows (state_of s')).
Proof.
  intros HI H. unfold create_schedule in H. run_m. rewrite Hstate. split; [|done].
  apply schedules_ok_oset; [done|].
  apply orb_false_iff in Hrow as [_ Hc%negb_false_iff]. rewrite !andb_true_iff, !Z.leb_le in Hc.
  destruct Hc as [[Hi ?] ?]. simpl in *. split; [simpl; lia|]. simpl.
  intros ->. destruct interval as [i|]; [|done]. exists i. split; [done|]. by apply Z.leb_le.
Qed.

Lemma schedules_moves d d' : sql_inv d -> schedules_ok (d_rows d') ->
  d' = MkJobsDb (x_rows d) (t_rows d) (m_rows d) (d_rows d') -> moves d d'.
Proof. intros HI Hok ->. by apply sql_inv_schedules. Qed.

Lemma add_schedule_moves p jt lt kind next interval max id w s : sql_inv (state_of s) ->
  moves (state_of s) (state_of (sql_add_schedule p jt lt kind next interval max id w s).2).
Proof.
  intros HI. unfold sql_add_schedule. destruct (schedule_kind_of kind) as [k|]; [|by apply moves_refl].
  match goal with |- context [if ?b then _ else _] => destruct b end; [by apply moves_refl|].
  apply (session_moves _ w s moves); [by apply moves_refl|]. intros a s' H. run_m.
  match goal with Hc : create_schedule _ _ _ _ _ _ _ _ _ _ = _ |- _ =>
    apply create_schedule_ok in Hc as [Hok E]; [|apply HI] end. simpl in E.
  destruct id as [id|]; run_m; [|by apply schedules_moves].
  destruct (rekey_schedule _ _ _) as [d'|] eqn:Hk; run_m.
  apply schedules_ok_rekey in Hk as [Hok' E']; [|done].
  apply schedules_moves; [done|done|]. simpl. rewrite E', E. done.
Qed.

Lemma advance_schedule_moves sc now w s u s' : sql_inv (state_of s) ->
  schedule_ok sc -> repo_advance_schedule sc now w s = (Ok u, s') ->
  moves (state_of s) (state_of s').
Proof.
  intros HI [Hm Hi] H. unfold repo_advance_schedule in H.
  destruct (d_schedule_kind sc) eqn:Hk; [|destruct (d_interval_seconds sc) eqn:Hs]; run_m;
    (apply sql_inv_schedules; [done|]; apply schedules_ok_oset; [apply HI|]; split; simpl; try done;
     rewrite ?Hk; done).
Qed.

Lemma due_schedule_ok lk now w s x s' : schedules_ok (d_rows (state_of s)) ->
  claim_due_schedule lk now w s = (Ok (Some x), s') ->
  s' = s /\ schedule_ok x /\ oget (d_id x) (d_rows (state_of s)) = Some x.
Proof.
  intros [Hnd Hrow] H. unfold claim_due_schedule, mbind, M_bind, get, mret, M_ret in H. simpl in H.
  injection H as H <-. split; [done|].
  assert (Hx : x ∈ ovalues (d_rows (state_of s))).
  { apply head_Some in H as [l H].
    assert (Hin : x ∈ x :: l) by apply list_elem_of_here. rewrite <- H, elem_sort_by in Hin.
    apply list_elem_of_fmap in Hin as (kv & -> & Hkv).
    apply list_elem_of_In, filter_In in Hkv as [Hkv%list_elem_of_In _].
    unfold ovalues. by apply list_elem_of_fmap_2. }
  assert (Ho : oget (d_id x) (d_rows (state_of s)) = Some x).
  { apply (oget_ovalues d_id); [done| |done]. intros k y Hy. by apply (Hrow k y). }
  split; [by apply (Hrow _ _ Ho)|done].
Qed.

(** ** Transactions *)

Lemma SubmitJob_create_command fr jt lt ik cid a max c :
  SubmitJob_create fr jt lt ik cid a max = Ok c -> wf_command c.
Proof.
  intros [? Hi]%SubmitJob_create_wf. split; [done|]. exact (JobIdentity_create_idemp _ _ _ _ Hi).
Qed.

Lemma resolve_command_command cfg c c' : wf_command c -> resolve_command cfg c = Ok c' -> wf_command c'.
Proof.
  intros [Hwf Hn] H. split; [by eapply resolve_command_wf|]. unfold resolve_command in H.
  destruct (handlers cfg) as [table|]; [|by simplify_eq].
  destruct (table _) as [[f|]|]; [|by simplify_eq|done]. inv_bind.
  case_bool_decide; [by simplify_eq|]. inv_bind.
  match goal with Hc : JobIdentity_create _ _ _ = Ok ?i, Hi : SubmitJob_init _ _ _ _ = Ok _ |- _ =>
    apply JobIdentity_create_idemp in Hc; apply SubmitJob_init_wf in Hi as (_ & -> & _) end.
  done.
Qed.

Section transactions.
Context `{JsonbColumns}.
Variables (p : process) (w : world) (s : sys jobs_db).
Hypothesis HI : sql_inv (state_of s).

Lemma submit_insert_moves c : wf_command c -> moves (state_of s) (state_of (submit_insert p c w s).2).
Proof.
  intros Hc. unfold submit_insert. apply (session_moves _ w s moves); [by apply moves_refl|].
  intros a s' Hr. run_m.
  match goal with Hx : create_execution _ _ _ _ ?s0 = _ |- _ =>
    by apply (create_moves _ _ _ w s0) in Hx as [? _] end.
Qed.

Lemma claim_moves lk id n worker : moves (state_of s) (state_of (sql_claim p lk id n worker w s).2).
Proof.
  unfold sql_claim. apply (session_moves _ w s moves); [by apply moves_refl|].
  intros a s' Hr. run_m. match goal with Hx : repo_claim _ _ _ _ _ _ _ _ ?s0 = (Ok ?t, _) |- _ =>
    destruct t as [t|]; [apply (repo_claim_moves _ _ _ _ _ _ _ w s0) in Hx; [|done]|run_m; done] end.
  run_m. destruct (oget _ _); run_m; done.
Qed.

Lemma outcome_moves lk c out : wf_outcome out ->
  moves (state_of s) (state_of (outcome_session p lk c out w s).2).
Proof.
  intros Hwf. unfold outcome_session. apply (session_moves _ w s moves); [by apply moves_refl|].
  intros a s' Hr. run_m.
  destruct (lk_execution lk _); [run_m; done|].
  destruct (oget _ (x_rows (state_of s))) as [x|] eqn:Hx; [|run_m; done]. run_m.
  destruct (find_first _ _) as [t|] eqn:Ht; [|run_m; done].
  apply find_attempt in Ht as [Ht Hf]; [|done].
  rewrite !andb_true_iff, !Z.eqb_eq in Hf. destruct Hf as [[Hte Hto] _].
  destruct (execution_at _ _ _ HI Hx) as [Hid Hok]. rewrite <- Hid in Hx, Hte.
  match goal with Hs : outcome_stale _ _ _ _ _ _ = _ |- _ => unfold outcome_stale in Hs; rename Hs into Hst end.
  destruct (x_lease_until x) as [until|] eqn:Hu; [|run_m; done].
  destruct (bool_decide (x_state x = RUNNING)) eqn:Hrun; simpl in Hst; [|run_m; done].
  apply bool_decide_eq_true in Hrun.
  destruct (x_attempt_count x =? _) eqn:Hc; simpl in Hst; [|run_m; done]. apply Z.eqb_eq in Hc.
  case_bool_decide; [|run_m; done]. run_m.
  destruct (until <=? _) eqn:Hlt; [run_m; done|]. apply Z.leb_gt in Hlt. run_m.
  match goal with Ho : context [record_success] |- _ => destruct out as [v|error]; simpl in Ho end.
  - match goal with Ho : record_success _ _ _ _ ?s0 = _ |- _ =>
      eapply (success_moves w s0 x t _ _ until HI) in Ho; eauto; congruence end.
  - match goal with Ho : record_failure _ _ _ _ ?s0 = _ |- _ =>
      eapply (failure_moves w s0 x t _ _ until HI) in Ho; eauto; congruence end.
Qed.

Lemma reap_session_moves lk limit : locks_ok lk (state_of s) ->
  moves (state_of s) (state_of (sql_reap_expired p lk limit w s).2).
Proof.
  intros Hlk. unfold sql_reap_expired. apply (session_moves _ w s moves); [by apply moves_refl|].
  intros a s' Hr. run_m. match goal with Hx : repo_reap_expired _ _ _ _ ?s0 = _ |- _ =>
    by apply (reap_moves _ _ _ w s0) in Hx end.
Qed.

Lemma rebuild_session_moves lk limit : moves (state_of s) (state_of (sql_rebuild_outbox lk limit w s).2).
Proof.
  unfold sql_rebuild_outbox. apply (session_moves _ w s moves); [by apply moves_refl|].
  intros a s' Hr. run_m. match goal with Hx : repo_rebuild_outbox _ _ _ ?s0 = _ |- _ =>
    by apply (rebuild_moves _ _ w s0) in Hx end.
Qed.

Lemma reclaim_session_moves lk limit :
  moves (state_of s) (state_of (sql_reclaim_expired_outbox p lk limit w s).2).
Proof.
  unfold sql_reclaim_expired_outbox. apply (session_moves _ w s moves); [by apply moves_refl|].
  intros a s' Hr. run_m. match goal with Hx : repo_reclaim_expired_outbox _ _ _ _ ?s0 = _ |- _ =>
    apply (reclaim_moves _ _ _ w s0) in Hx as [? ?]; [|done]; by apply same_executions_moves end.
Qed.

Lemma tick_moves lk : moves (state_of s) (state_of (sql_schedule_tick p lk w s).2).
Proof.
  unfold sql_schedule_tick. apply (session_moves _ w s moves); [by apply moves_refl|].
  intros a s' Hr. run_m. match goal with Hx : claim_due_schedule _ _ _ ?s0 = (Ok ?x, _) |- _ =>
    destruct x as [x1|]; [apply (due_schedule_ok _ _ w s0) in Hx as (-> & Hok & _); [|apply HI]
                        |run_m; done] end.
  match goal with Hc : context [lift (SubmitJob_create ?a ?b ?c ?d ?e ?f ?g)] |- _ =>
    destruct (SubmitJob_create a b c d e f g) as [command|] eqn:Hcmd; [|discriminate Hc] end.
  apply SubmitJob_create_command in Hcmd. run_m. simplify_eq.
  match goal with Hx : create_execution _ _ _ _ ?s0 = _, Ha : repo_advance_schedule _ _ _ ?s1 = _ |- _ =>
    apply (create_moves _ _ _ w s0) in Hx as (Hm & _); [|done|done]; simpl in Hm;
    eapply moves_trans; [exact Hm|]; eapply (advance_schedule_moves x1 _ w s1); [|done|exact Ha]; apply Hm end.
Qed.
End transactions.
