(* ===== verification/MemoryRefinement.v ===== *)
(** * The in-memory runtime implements the job specification

    Step by step, as long as no execution is left running without a lease: the one case
    in which it happens, a result that is refused, is [JobTheorems.invalid_result_wedges].
    [complete] is not among its steps either ([JobTheorems.complete_then_relay_reopens]). *)

From S2P Require Export JobInvariant JobSpec.
#[local] Open Scope list_scope.

Definition m_phase (e : _Execution) : phase :=
  match e_state e with
  | SUCCEEDED => Finished true
  | FAILED => Finished false
  | RUNNING => Leased (default "" (e_lease_owner e)) (default 0 (e_lease_until e))
  | _ => Waiting (e_available_at e)
  end.
Definition m_job (e : _Execution) : job :=
  Job (identity_key (e_identity e)) (e_max_attempts e) (e_attempt_count e) (m_phase e).
Definition mem_jobs (r : runtime) : jobs := jobs_of m_job (_executions r).

(** Every running execution has a lease. *)
Definition leased (r : runtime) : Prop :=
  forall k e, oget k (_executions r) = Some e -> e_state e = RUNNING -> e_lease_until e <> None.

Definition mem_moves (r r' : runtime) : Prop := rtc spec_step (mem_jobs r) (mem_jobs r').

#[export] Instance mem_moves_preorder : PreOrder mem_moves.
Proof. unfold mem_moves. split; [intros r; done|intros a b c ? ?; by etrans]. Qed.

Lemma mem_moves_execs r r' : _executions r' = _executions r -> mem_moves r r'.
Proof. unfold mem_moves, mem_jobs. by intros ->. Qed.

(** The execution [e] becomes [e'] *)
Lemma mem_moves_step r r' e e' : oget (e_execution_id e) (_executions r) = Some e ->
  _executions r' = oset (e_execution_id e') e' (_executions r) ->
  e_execution_id e' = e_execution_id e -> job_step (m_job e) (m_job e') -> mem_moves r r'.
Proof. intros He E Hid Hs. unfold mem_moves, mem_jobs. rewrite E, Hid. by eapply jobs_of_step. Qed.

Lemma mem_moves_same r r' e e' : oget (e_execution_id e) (_executions r) = Some e ->
  _executions r' = oset (e_execution_id e') e' (_executions r) ->
  e_execution_id e' = e_execution_id e -> m_job e' = m_job e -> mem_moves r r'.
Proof.
  intros He E Hid Hs. unfold mem_moves, mem_jobs. rewrite E, Hid. by erewrite jobs_of_same.
Qed.

Lemma mem_submit cfg fresh c r : Inv r -> wf_submit c -> fresh ∉ okeys (_executions r) ->
  mem_moves r (submit cfg fresh c r).2.
Proof.
  intros HI Hc Hf%oget_None. unfold submit. destruct (resolve_command cfg c) as [c'|] eqn:Hr;
    [|reflexivity].
  apply resolve_command_wf in Hr; [|done]. unfold wf_submit in Hr.
  destruct (_identity_index r !! _) as [id|] eqn:Hid; [by destruct (oget id _)|]. simpl.
  unfold mem_moves, mem_jobs. simpl. rewrite jobs_of_oset. apply rtc_once, spec_submit; [| |done].
  - rewrite jobs_of_lookup. by rewrite Hf.
  - intros i j. rewrite jobs_of_lookup. destruct (oget i _) as [e|] eqn:He; [|done].
    simpl. intros [= <-] E. simpl in E.
    assert (_identity_index r !! identity_key (sub_identity c') = Some i); [|congruence].
    apply (inv_index _ HI). by exists e.
Qed.

Lemma mem_abandon e until r : oget (e_execution_id e) (_executions r) = Some e ->
  e_state e = RUNNING -> e_lease_until e = Some until -> until <= _now r ->
  mem_moves r (_abandon_locked e r).
Proof.
  intros He Hr Hu Hle. unfold _abandon_locked. simpl.
  assert (Hs : job_step (m_job e) (j_set (j_attempts (m_job e)) (after_expiry (_now r) (m_job e)) (m_job e))).
  { eapply (job_expire _ (_now r) _ until); [|done]. unfold m_job, m_phase. simpl. by rewrite Hr, Hu. }
  unfold after_expiry in Hs. simpl in Hs.
  destruct (e_attempt_count e <? e_max_attempts e);
    (eapply mem_moves_step; [exact He|done|done|]; exact Hs).
Qed.

Lemma mem_claim cfg id n worker r : Inv r -> mem_moves r (claim cfg id n worker r).2.
Proof.
  intros HI. unfold claim. destruct (oget id (_executions r)) as [e|] eqn:He; [|reflexivity].
  destruct (inv_exec _ HI _ _ He) as [Hid Hwf]. rewrite <- Hid in He.
  case_match eqn:Hn; [reflexivity|]. case_bool_decide as Ht; [reflexivity|].
  destruct (bool_decide (e_state e = RETRY_WAIT) && _); [reflexivity|].
  case_bool_decide as Hrun.
  { destruct (e_lease_until e) as [u|] eqn:Hu; [|reflexivity]. case_match eqn:Hle; [reflexivity|].
    apply Z.ltb_ge in Hle. by eapply mem_abandon. }
  case_match eqn:Hav; [reflexivity|]. apply Z.ltb_ge in Hav.
  assert (Hw : waiting e) by (apply waiting_dec; [done|]; destruct (e_state e) eqn:?; naive_solver).
  pose proof (wf_waiting _ Hwf Hw). simpl.
  eapply mem_moves_step; [exact He|done|done|].
  eapply (job_claim (m_job e) (e_available_at e) (_now r) worker); [|done|done].
  unfold m_job, m_phase. simpl. by destruct Hw as [->|[->| ->]].
Qed.

Lemma mem_record_outcome t c out r : Inv r -> wf_outcome out -> leased (record_outcome t c out r).2 ->
  mem_moves r (record_outcome t c out r).2.
Proof.
  intros HI Hout. unfold record_outcome.
  destruct (oget _ (_executions r)) as [e|] eqn:He; [|reflexivity].
  destruct (inv_exec _ HI _ _ He) as [Hid Hwf]. rewrite <- Hid in He. clear Hid.
  destruct (holds_lease c (_now r) e) eqn:Hl; [|reflexivity]. simpl.
  apply holds_lease_running in Hl as (Hrun & _ & _ & until & Hu & Hlt).
  assert (Hp : exists wk, m_phase e = Leased wk until).
  { eexists. unfold m_phase. by rewrite Hrun, Hu. }
  destruct Hp as [wk Hp].
  case_bool_decide; [reflexivity|]. destruct out as [v|error].
  - destruct (_json_object v) as [res|]; simpl.
    + intros _. eapply mem_moves_step; [exact He|done|done|].
      exact (job_report (m_job e) (_now r) wk until true Hp Hlt).
    + intros Hle. exfalso.
      assert (Hx := Hle (e_execution_id e)). simpl in Hx. rewrite oget_oset_eq in Hx.
      by eapply Hx.
  - destruct (retry_delay_ok (e_attempt_count e) error Hout) as (d & Hd & Hb). simpl.
    destruct (bool_decide _ && _) eqn:Hretry.
    + apply andb_true_iff in Hretry as [_ Hc%Z.ltb_lt]. rewrite Hd. simpl. intros _.
      eapply mem_moves_step; [exact He|done|done|].
      assert (Hs : _now r <= _now r + seconds d <= _now r + seconds 300)
        by (unfold seconds, us_per_second; lia).
      exact (job_retry (m_job e) (_now r) (_now r) wk until _ Hp Hlt Hs Hc).
    + intros _. eapply mem_moves_step; [exact He|done|done|].
      exact (job_report (m_job e) (_now r) wk until false Hp Hlt).
Qed.

Section relay.
Context {Q : Type} `{JobQueue Q}.

Lemma mem_relay_one k (s : relay_state) : Inv s.1.1 -> mem_moves s.1.1 (relay_one k s).2.1.1.
Proof.
  destruct s as [[r q] [np nf]]. simpl. intros HI.
  destruct (oget k (_outbox r)) as [o|] eqn:Ho; [|reflexivity].
  destruct (inv_row _ HI _ _ Ho) as [_ _ _ (e & He & _ & Hw)]. rewrite He.
  destruct (inv_exec _ HI _ _ He) as [Hid Hwf]. rewrite <- Hid in He.
  destruct (publish _ _ _ q) as [[m|x] q']; simpl; [|by apply mem_moves_execs].
  eapply (mem_moves_same _ _ e); [exact He|done|done|].
  unfold publish_done, m_job, m_phase. simpl.
  destruct (o_attempt_number o =? e_attempt_count e + 1) eqn:E; [|done].
  apply Z.eqb_eq in E. by destruct (Hw E) as [->|[->| ->]].
Qed.

Lemma mem_relay_loop ks r q np nf : Inv r -> NoDup ks -> Forall (row_ready r) ks ->
  mem_moves r (relay_loop ks (r, q, (np, nf))).2.1.1.
Proof.
  revert r q np nf. induction ks as [|k ks IH]; intros r q np nf HI Hnd Hd; [reflexivity|].
  apply NoDup_cons in Hnd as [Hk Hnd]. apply Forall_cons in Hd as [(o & Ho & Hp) Hd].
  destruct (relay_one_ok k r q np nf) as (r1 & q1 & np1 & nf1 & E & _ & _ & _ & _ & Hother); eauto.
  pose proof (Inv_relay_one k (r, q, (np, nf))) as HI1.
  pose proof (mem_relay_one k (r, q, (np, nf)) HI) as Hev. rewrite E in HI1, Hev.
  cbn [relay_loop]. rewrite E. etrans; [exact Hev|]. apply IH; [|done|].
  - apply HI1; [done|]. intros o'. simpl. congruence.
  - rewrite Forall_forall in Hd |- *. intros k' Hk'. destruct (Hd k' Hk') as (o' & ? & ?).
    exists o'. simpl. rewrite Hother; [done|]. by intros ->.
Qed.

Lemma mem_relay_due limit r q : Inv r -> mem_moves r (relay_due limit r q).2.1.
Proof.
  intros HI. unfold relay_due. case_match; [reflexivity|].
  destruct (due_keys_ready limit r (inv_nodup_o _ HI)) as (Hnd & Hr & _).
  pose proof (mem_relay_loop _ r q 0 0 HI Hnd Hr) as Hev.
  by destruct (relay_loop _ _) as [[[]|x] [[r' q'] [np nf]]].
Qed.
End relay.

Lemma mem_abandon_now e r : _now (_abandon_locked e r) = _now r.
Proof. unfold _abandon_locked. by case_match. Qed.

Lemma mem_reap limit r : Inv r -> mem_moves r (reap_expired limit r).2.
Proof.
  intros HI. unfold reap_expired. simpl.
  destruct (reap_keys_spec limit r (inv_nodup_e _ HI)) as [Hnd Hd]. revert Hnd Hd.
  generalize (reap_keys limit r) as ks. intros ks. revert r HI.
  induction ks as [|k ks IH]; intros r HI Hnd Hd; [reflexivity|]. simpl.
  apply NoDup_cons in Hnd as [Hk Hnd]. apply Forall_cons in Hd as [(e & He & Hx) Hd].
  destruct (inv_exec _ HI _ _ He) as [Hid _].
  apply andb_true_iff in Hx as [Hx%bool_decide_eq_true Hu].
  destruct (e_lease_until e) as [u|] eqn:Hl; [|done]. apply Z.leb_le in Hu.
  assert (reap_one r k = _abandon_locked e r) as -> by (unfold reap_one; by rewrite He).
  rewrite <- Hid in He.
  etrans; [by eapply mem_abandon|]. apply IH; [by apply Inv_abandon|done|].
  rewrite mem_abandon_now. rewrite Forall_forall in Hd |- *. intros k' Hk'.
  destruct (Hd k' Hk') as (e' & ? & ?).
  exists e'. rewrite abandon_other; [done|]. intros ->. congruence.
Qed.

Lemma mem_step_moves cfg r r' : Inv r -> leased r' -> step cfg r r' -> mem_moves r r'.
Proof.
  intros HI Hl Hs. destruct Hs.
  - by apply mem_submit.
  - unfold advance_time. case_match; [reflexivity|by apply mem_moves_execs].
  - by apply mem_claim.
  - by apply mem_record_outcome.
  - by apply mem_relay_due.
  - apply mem_moves_execs, rebuild_execs.
  - by apply mem_reap.
  - unfold add_schedule. repeat (case_match; try reflexivity); by apply mem_moves_execs.
  - unfold schedule_tick. destruct (find_first _ _) as [[k s]|]; [|reflexivity].
    destruct (SubmitJob_create _ _ _ _ _ _ _) as [c|] eqn:Hc; [|reflexivity].
    apply SubmitJob_create_wf in Hc as [Hc _].
    pose proof (mem_submit cfg fresh c r HI Hc ltac:(done)) as Hev.
    destruct (submit cfg fresh c r) as [[snap|x] r']; [|done].
    destruct (advance_schedule _ s); (etrans; [exact Hev|by apply mem_moves_execs]).
Qed.

(** The in-memory runtime behind the interface *)
#[export] Program Instance MemoryJobs (cfg : config) : JobSystem runtime := {|
  js_init r := exists now, r = new_runtime now;
  js_step r r' := step cfg r r' /\ leased r';
  js_jobs := mem_jobs;
  js_inv := Inv
|}.
Next Obligation. intros cfg r (now & ->). split; [apply Inv_new|done]. Qed.
Next Obligation.
  intros cfg r r' HI [Hs Hl]. split; [by eapply Inv_step|by eapply mem_step_moves].
Qed.
