(* ===== verification/JobRefinement.v ===== *)
(** * Both job runtimes against their specification

    [sql_step] is one transaction of some process on the shared tables; the methods of
    the PostgreSQL runtime are sequences of them.  The theorems that follow from
    [JobSpec] are stated for every [JobSystem] and hold of both runtimes. *)

From S2P Require Export SqlRefinement MemoryRefinement JobTheorems.
#[local] Open Scope list_scope.

Section steps.
Context `{JsonbColumns}.

(** The state that a method leaves, for every supply of identifiers and instants *)
Definition leaves {A} (m : M jobs_db A) (d d' : jobs_db) : Prop :=
  exists w n k, d' = state_of (m w (Sys d n k)).2.

Inductive sql_step (d : jobs_db) : jobs_db -> Prop :=
  | tx_submit p c d' : wf_command c -> leaves (submit_insert p c) d d' -> sql_step d d'
  | tx_claim p lk id n worker d' : leaves (sql_claim p lk id n worker) d d' -> sql_step d d'
  | tx_outcome p lk c out d' : wf_outcome out -> leaves (outcome_session p lk c out) d d' ->
      sql_step d d'
  | tx_relay p lk owner limit d' : leaves (relay_claim p lk owner limit) d d' -> sql_step d d'
  | tx_finish p lk id owner sent d' : leaves (_finish_outbox p lk id owner sent) d d' ->
      sql_step d d'
  | tx_rebuild lk limit d' : leaves (sql_rebuild_outbox lk limit) d d' -> sql_step d d'
  | tx_reclaim p lk limit d' : leaves (sql_reclaim_expired_outbox p lk limit) d d' -> sql_step d d'
  | tx_reap p lk limit d' : locks_ok lk d -> leaves (sql_reap_expired p lk limit) d d' ->
      sql_step d d'
  | tx_schedule p jt lt kind next interval max id d' :
      leaves (sql_add_schedule p jt lt kind next interval max id) d d' -> sql_step d d'
  | tx_tick p lk d' : leaves (sql_schedule_tick p lk) d d' -> sql_step d d'.

Lemma sql_step_moves d d' : sql_inv d -> sql_step d d' -> moves d d'.
Proof.
  intros HI Hs. destruct Hs as
    [p c d' Hc (w & n & k & ->)|p lk id n worker d' (w & m & k & ->)
    |p lk c out d' Ho (w & n & k & ->)|p lk owner limit d' (w & n & k & ->)
    |p lk id owner sent d' (w & n & k & ->)|lk limit d' (w & n & k & ->)
    |p lk limit d' (w & n & k & ->)|p lk limit d' Hlk (w & n & k & ->)
    |p jt lt kind next interval max id d' (w & n & k & ->)|p lk d' (w & n & k & ->)].
  - by apply (submit_insert_moves p w (Sys d n k)).
  - by apply (claim_moves p w (Sys d m k)).
  - by apply (outcome_moves p w (Sys d n k)).
  - by apply (relay_claim_moves p lk owner limit w (Sys d n k)).
  - by apply (finish_outbox_moves p lk id owner sent w (Sys d n k)).
  - by apply (rebuild_session_moves w (Sys d n k)).
  - by apply (reclaim_session_moves p w (Sys d n k)).
  - by apply (reap_session_moves p w (Sys d n k)).
  - by apply (add_schedule_moves p jt lt kind next interval max id w (Sys d n k)).
  - by apply (tick_moves p w (Sys d n k)).
Qed.

Lemma sql_inv_empty : sql_inv empty_jobs_db.
Proof. split; split; simpl; try done; apply NoDup_nil_2. Qed.

(** The PostgreSQL runtime behind the interface *)
#[export] Program Instance SqlJobs : JobSystem jobs_db := {|
  js_init d := d = empty_jobs_db;
  js_step := sql_step;
  js_jobs := sql_jobs;
  js_inv := sql_inv
|}.
Next Obligation. intros d ->. split; [apply sql_inv_empty|done]. Qed.
Next Obligation. intros d d' HI Hs. by apply sql_step_moves. Qed.

(** ** Methods made of several transactions *)

(** What the peers do is transactions too. *)
Definition peers_ok (f : jobs_db -> jobs_db) : Prop := forall d, rtc sql_step d (f d).

Lemma submit_steps p f c w s : wf_command c -> peers_ok f ->
  rtc sql_step (state_of s) (state_of (sql_submit p f c w s).2).
Proof.
  intros Hc Hf. unfold sql_submit, mbind, M_bind, lift at 1.
  destruct (resolve_command (p_config p) c) as [c'|] eqn:Hr; [|done].
  apply resolve_command_command in Hr; [|done]. unfold get_by_identity, mbind, M_bind, get.
  simpl. destruct (find_first _ _); [done|]. unfold modify, try_except. simpl.
  etrans; [apply Hf|].
  destruct (submit_insert p c' w _) as [[x|e] s'] eqn:E; simpl.
  - apply rtc_once. eapply tx_submit; [exact Hr|]. eexists w, _, _. by rewrite E.
  - assert (Hs : sql_step (f (state_of s)) (state_of s')).
    { eapply tx_submit; [exact Hr|]. eexists w, _, _. by rewrite E. }
    unfold submit_race, get_by_identity, mbind, M_bind, get, raise. case_decide; simpl;
      [destruct (find_first _ _)|]; simpl; by apply rtc_once.
Qed.

Section relay.
Context {Q : Type} `{JobQueue Q}.

Lemma on_db_steps {A} (m : M jobs_db A) (w : world) (s : sys (jobs_db * Q)) :
  (forall d d', leaves m d d' -> sql_step d d') ->
  rtc sql_step (state_of s).1 (state_of (on_db m w s).2).1.
Proof.
  intros Hm. unfold on_db. destruct (m w _) as [r s'] eqn:E. simpl.
  apply rtc_once, Hm. eexists w, _, _. by rewrite E.
Qed.

Lemma M_bind_rtc {A B} (m : M (jobs_db * Q) A) (f : A -> M (jobs_db * Q) B) w s :
  rtc sql_step (state_of s).1 (state_of (m w s).2).1 ->
  (forall a s', rtc sql_step (state_of s').1 (state_of (f a w s').2).1) ->
  rtc sql_step (state_of s).1 (state_of (mbind f m w s).2).1.
Proof.
  intros Hm Hf. unfold mbind, M_bind. destruct (m w s) as [[a|e] s1]; [|exact Hm].
  etrans; [exact Hm|]. apply Hf.
Qed.

Lemma relay_messages_steps p env n owner messages counts w s : (forall i, peers_ok (others (env i))) ->
  rtc sql_step (state_of s).1 (state_of (relay_messages p env n owner messages counts w s).2).1.
Proof.
  intros He. revert n counts s. induction messages as [|[[[mid eid] no] cid] l IH]; intros n counts s;
    [done|]. cbn [relay_messages].
  apply M_bind_rtc; [unfold sql_publish; by destruct (publish _ _ _ _)|]. intros sent s1.
  apply M_bind_rtc; [apply He|]. intros _ s2.
  apply M_bind_rtc; [|intros finished s3; apply IH].
  apply on_db_steps. intros d d' Hl. by eapply tx_finish.
Qed.

Lemma relay_due_steps p env limit w s : (forall i, peers_ok (others (env i))) ->
  rtc sql_step (state_of s).1 (state_of (sql_relay_due p env limit w s).2).1.
Proof.
  intros He. unfold sql_relay_due. apply M_bind_rtc; [done|]. intros n s1.
  apply M_bind_rtc; [done|]. intros id s2.
  apply M_bind_rtc; [|intros messages s3; by apply relay_messages_steps].
  apply on_db_steps. intros d d' Hl. by eapply tx_relay.
Qed.
End relay.
End steps.

(** ** Progress *)

Section progress.
Context `{JsonbColumns}.

(** A process, a world whose identifiers are [u] and whose clock shows [t], and the locks
    of peers who hold every execution but [id] *)
Definition lone_process (lease : Z) : process := Process (Config "release" lease None) 30 0.
Definition still_world (u t : Z) : world := World (fun _ => u) (fun _ => t).
Definition all_but (id : Z) : locks :=
  MkLocks (fun k => negb (k =? id)) (fun _ => false) (fun _ => false) (fun _ => false).

Lemma fresh_key {V} (rows : odict Z V) : exists u, oget u rows = None.
Proof.
  exists (fresh (okeys rows)). apply oget_None. apply infinite_is_fresh.
Qed.

Lemma attempt_accepted d x t : sql_inv d -> oget (x_id x) (x_rows d) = Some x ->
  oget (t_id t) (t_rows d) = None -> t_execution_id t = x_id x ->
  t_ordinal t = x_attempt_count x + 1 -> attempt_refused t d = false.
Proof.
  intros HI Hx Hnew He Ho. unfold attempt_refused. rewrite !orb_false_iff. split_and!.
  - unfold omem. apply bool_decide_eq_false. rewrite Hnew. by intros [].
  - apply existsb_false_Forall, Forall_forall. intros y Hy.
    assert (Hin : oget (t_id y) (t_rows d) = Some y).
    { apply (oget_ovalues t_id); [apply (si_t _ HI)| |done].
      intros k z Hz. apply (ts_row _ _ (si_t _ HI) k z Hz). }
    destruct (ts_row _ _ (si_t _ HI) _ _ Hin) as [_ (c & st & Hv & Hb & _)].
    apply andb_false_iff. rewrite He, Ho. destruct (Z.eqb_spec (t_execution_id y) (x_id x)) as [E|];
      [right|by left].
    rewrite E, (view_oget _ _ Hx) in Hv. simplify_eq. lia.
  - rewrite Ho. pose proof (xok_count _ (proj2 (execution_at _ _ _ HI Hx))).
    apply negb_false_iff. lia.
Qed.

Lemma message_accepted d x m : sql_inv d -> oget (x_id x) (x_rows d) = Some x ->
  standing_of (x_state x) = Run -> oget (m_id m) (m_rows d) = None ->
  is_new_message (x_id x) (x_attempt_count x + 1) m -> message_refused m d = false.
Proof.
  intros HI Hx Hr Hnew (He & Ho & Hp). unfold message_refused. rewrite !orb_false_iff. split_and!.
  - unfold omem. apply bool_decide_eq_false. rewrite Hnew. by intros [].
  - apply existsb_false_Forall, Forall_forall. intros y Hy.
    assert (Hin : oget (m_id y) (m_rows d) = Some y).
    { apply (oget_ovalues m_id); [apply (si_m _ HI)| |done].
      intros k z Hz. apply (ms_row _ _ (si_m _ HI) k z Hz). }
    destruct (ms_row _ _ (si_m _ HI) _ _ Hin) as [_ _ _ (c & st & Hv & Hb & Hw)].
    apply andb_false_iff. rewrite He, Ho. destruct (Z.eqb_spec (m_execution_id y) (x_id x)) as [E|];
      [right|by left].
    rewrite E, (view_oget _ _ Hx) in Hv. simplify_eq. apply Z.eqb_neq. intros E'.
    specialize (Hw E'). congruence.
  - rewrite Ho, Hp. pose proof (xok_count _ (proj2 (execution_at _ _ _ HI Hx))).
    apply negb_false_iff. lia.
Qed.

(** A waiting job whose time has come is claimed. *)
Lemma claim_granted d x u t lease : sql_inv d -> oget (x_id x) (x_rows d) = Some x ->
  standing_of (x_state x) = Wait -> x_available_at x <= t -> oget u (t_rows d) = None ->
  exists c s', sql_claim (lone_process lease) no_locks (x_id x) (x_attempt_count x + 1) "worker"
                 (still_world u t) (Sys d 0 0) = (Ok (Some c), s')
    /\ oget (x_id x) (x_rows (state_of s'))
       = Some (x_claimed (x_attempt_count x + 1) "worker" (t + seconds lease) t x).
Proof.
  intros HI Hx Hw Hav Hu. unfold sql_claim, session, repo_claim, get_for_update, session_get, sql_now.
  unfold mbind, M_bind, mret, M_ret, clock, get. cbn -[oset].
  rewrite Hx, Z.eqb_refl. cbn -[oset]. rewrite Z.add_0_r.
  rewrite (bool_decide_eq_false_2 (_ \/ _)) by (destruct (x_state x); naive_solver).
  assert (E : (t <? x_available_at x) = false) by lia. rewrite E, andb_false_r.
  rewrite (bool_decide_eq_false_2 (x_state x = RUNNING)) by (destruct (x_state x); naive_solver).
  unfold modify, add_row, mbind, M_bind, get, put, mret, M_ret, uuid4. cbn -[oset attempt_refused].
  match goal with |- context [attempt_refused ?t ?d'] => assert (Ha : attempt_refused t d' = false) end.
  { by apply (attempt_accepted d x). }
  rewrite Ha. cbn -[oset]. rewrite oget_oset_eq. eexists _, _. split; [done|]. cbn -[oset].
  apply oget_oset_eq.
Qed.

Lemma filter_one {V} (f : V -> bool) rows id x : NoDup (okeys rows) -> oget id rows = Some x ->
  f x = true -> List.filter (fun kv => f kv.2 && negb (negb (kv.1 =? id))) rows = [(id, x)].
Proof.
  unfold okeys. intros Hnd Hx Hf. induction rows as [|[k y] rows IH]; [done|]. simpl in *.
  apply NoDup_cons in Hnd as [Hk Hnd]. destruct (decide (id = k)) as [->|Hne].
  - injection Hx as ->. rewrite Hf, Z.eqb_refl. simpl. f_equal.
    assert (Hnone : Forall (fun kv : Z * V => kv.1 <> k) rows).
    { apply Forall_forall. intros kv Hkv E. apply Hk. rewrite <- E. by apply list_elem_of_fmap_2. }
    clear -Hnone. induction Hnone as [|kv rows E _ IH]; [done|]. simpl.
    apply Z.eqb_neq in E. by rewrite E, andb_false_r.
  - assert (E : (k =? id) = false) by (apply Z.eqb_neq; congruence).
    rewrite E, andb_false_r. by apply IH.
Qed.

(** An expired lease is abandoned: the job waits again, or has failed. *)
Lemma reap_granted d x u t until lease : sql_inv d -> oget (x_id x) (x_rows d) = Some x ->
  x_state x = RUNNING -> x_lease_until x = Some until -> until <= t -> oget u (m_rows d) = None ->
  exists s' x', sql_reap_expired (lone_process lease) (all_but (x_id x)) 1 (still_world u t) (Sys d 0 0)
                = (Ok 1, s')
    /\ oget (x_id x) (x_rows (state_of s')) = Some x' /\ x_job x' <> x_job x.
Proof.
  intros HI Hx Hr Hl Hle Hu.
  destruct (running_attempt _ _ HI Hx Hr) as (t0 & Hin & E1 & E2 & E3).
  assert (Hsel : select_locked (x_rows d) (lk_execution (all_but (x_id x))) (x_expired t) unordered 1 = [x]).
  { unfold select_locked. cbn [lk_execution all_but]. rewrite (filter_one _ _ (x_id x) x); [done| |done|].
    - apply (si_x _ HI).
    - unfold x_expired. rewrite Hr, Hl, bool_decide_eq_true_2 by done. by apply Z.leb_le. }
  unfold sql_reap_expired, session, repo_reap_expired, sql_now, mbind, M_bind, mret, M_ret, clock, get.
  cbn -[oset select_locked abandon_all lk_execution]. rewrite Z.add_0_r, Hsel.
  cbn -[oset abandon]. unfold mbind at 1, M_bind at 1. unfold abandon, mbind, M_bind, get.
  cbn -[oset]. destruct (find_first _ (ovalues (t_rows d))) as [t1|] eqn:Ht1.
  2:{ exfalso. apply find_first_None in Ht1. rewrite Forall_forall in Ht1.
      specialize (Ht1 t0 (oget_in_ovalues _ _ _ Hin)). simpl in Ht1.
      rewrite E1, E2, E3, !Z.eqb_refl in Ht1. done. }
  unfold modify, mret, M_ret. cbn -[oset].
  assert (Hne : forall x', x_phase x' <> x_phase x -> x_job x' <> x_job x).
  { intros x' Hp E. apply Hp. by apply (f_equal j_phase) in E. }
  assert (Hp : x_phase x = Leased (default "" (x_lease_owner x)) until).
  { unfold x_phase. by rewrite Hr, Hl. }
  destruct (x_attempt_count x <? x_max_attempts x).
  - unfold create_outbox, add_row, mbind, M_bind, uuid4, get, put. cbn -[oset message_refused].
    match goal with |- context [message_refused ?m ?d'] => assert (Hm : message_refused m d' = false) end.
    { apply (message_accepted d x); try done. by rewrite Hr. }
    rewrite Hm. eexists _, _. split; [done|]. cbn -[oset]. split; [apply oget_oset_eq|].
    apply Hne. rewrite Hp. done.
  - eexists _, _. split; [done|]. cbn -[oset]. split; [apply oget_oset_eq|].
    apply Hne. rewrite Hp. done.
Qed.

Definition finished (d : jobs_db) (id : Z) : Prop :=
  exists j ok, sql_jobs d !! id = Some j /\ j_phase j = Finished ok.

Lemma sql_jobs_lookup d id : sql_jobs d !! id = x_job <$> oget id (x_rows d).
Proof. apply jobs_of_lookup. Qed.

(** A job that is not finished has a transaction that changes it. *)
Lemma sql_job_moves d id x : sql_inv d -> oget id (x_rows d) = Some x ->
  finished d id \/ exists d' x', sql_step d d' /\ oget id (x_rows d') = Some x' /\ x_job x' <> x_job x.
Proof.
  intros HI Hx. destruct (execution_at _ _ _ HI Hx) as [Hid Hok]. subst id.
  assert (Hp : sql_jobs d !! x_id x = Some (x_job x)) by (rewrite sql_jobs_lookup; by rewrite Hx).
  destruct (standing_of (x_state x)) eqn:Hs.
  - right. destruct (fresh_key (t_rows d)) as [u Hu].
    destruct (claim_granted d x u (x_available_at x) 60 HI Hx Hs ltac:(lia) Hu) as (c & s' & E & Hx').
    exists (state_of s'). eexists. split_and!; [|exact Hx'|].
    + eapply tx_claim. eexists _, _, _. by rewrite E.
    + intros E'. apply (f_equal j_attempts) in E'. simpl in E'. lia.
  - right. destruct (fresh_key (m_rows d)) as [u Hu].
    assert (Hr : x_state x = RUNNING) by (by destruct (x_state x)).
    pose proof (xok_lease _ Hok) as Hl. rewrite Hs in Hl.
    destruct (x_lease_until x) as [until|] eqn:Hlu; [|naive_solver].
    destruct (reap_granted d x u until until 60 HI Hx Hr Hlu ltac:(lia) Hu) as (s' & x' & E & Hx' & Hne).
    exists (state_of s'), x'. split_and!; [|done|done].
    eapply tx_reap; [|eexists _, _, _; by rewrite E]. by intros k t _.
  - left. exists (x_job x). unfold x_job, x_phase. simpl.
    destruct (x_state x) eqn:E; try done; eexists; (split; [rewrite Hp; unfold x_job, x_phase; by rewrite E|done]).
Qed.

(** How many changes a sequence of specification steps makes to one job *)
Lemma spec_steps_remaining s s' id j j' : jobs_ok s -> rtc spec_step s s' ->
  s !! id = Some j -> s' !! id = Some j' -> j' = j \/ remaining j' < remaining j.
Proof.
  intros Hok Hs. revert j Hok. induction Hs as [s|s1 s2 s3 H12 Hs IH]; intros j Hok Hj Hj'.
  - left. congruence.
  - pose proof (spec_step_ok _ _ Hok H12) as Hok2.
    assert (Hj2 : exists j2, s2 !! id = Some j2 /\ (j2 = j \/ remaining j2 < remaining j)).
    { destruct H12 as [i identity max now Hi _ _|i y y' Hi Hy].
      - exists j. rewrite lookup_insert_ne by congruence. auto.
      - destruct (decide (i = id)) as [->|Hne].
        + exists y'. rewrite lookup_insert_eq. assert (y = j) as -> by congruence.
          split; [done|]. right. apply job_step_remaining; [|done]. by apply (proj1 Hok id).
        + exists j. rewrite lookup_insert_ne by done. auto. }
    destruct Hj2 as (j2 & H2 & Hr). destruct (IH j2 Hok2 H2 Hj') as [->|?]; [auto|].
    destruct Hr as [->|?]; [by right|]. right. lia.
Qed.

Lemma jobs_ok_of_inv d : sql_inv d -> jobs_ok (sql_jobs d).
Proof.
  intros HI. split.
  - intros id j. rewrite sql_jobs_lookup. destruct (oget id (x_rows d)) as [x|] eqn:Hx; [|done].
    simpl. intros [= <-]. destruct (execution_at _ _ _ HI Hx) as [_ [? ? ? ? Hw Hr ?]].
    split; simpl; try done; unfold x_phase; intros; destruct (x_state x); naive_solver.
  - intros id id' j j'. rewrite !sql_jobs_lookup.
    destruct (oget id (x_rows d)) as [x|] eqn:Hx; [|done].
    destruct (oget id' (x_rows d)) as [x'|] eqn:Hx'; [|done]. simpl.
    intros [= <-] [= <-] E. by apply (xs_unique _ (si_x _ HI) _ _ _ _ Hx Hx').
Qed.
End progress.
