(* ===== verification/JobSystems.v ===== *)
(** * Correctness of the two job runtimes

    The claims about the PostgreSQL runtime and about what it shares with the in-memory
    one: refinement of [JobSpec], progress, and the behaviours in which they differ. *)

From S2P Require Export JobRefinement.
#[local] Open Scope list_scope.

(** ** A concrete run *)

Definition ex_world : world := World (fun n => 100 + Z.of_nat n) (fun n => seconds (Z.of_nat n)).
Definition ex_process : process := Process ex_cfg 30 0.
Definition ex_sql_submitted : sys jobs_db := (submit_insert ex_process ex_command ex_world (Sys empty_jobs_db 0 0)).2.
Definition ex_sql_claimed : sys jobs_db := (sql_claim ex_process no_locks 100 1 "w1" ex_world ex_sql_submitted).2.

(** A JSONB column that takes every document *)
#[local] Instance ex_jsonb : JsonbColumns := fun _ => true.

Lemma ex_command_wf : wf_command ex_command.
Proof. split; [unfold wf_submit; simpl; lia|vm_compute; reflexivity]. Qed.

Lemma ex_sql_submitted_steps : rtc sql_step empty_jobs_db (state_of ex_sql_submitted).
Proof.
  apply rtc_once. eapply (tx_submit _ ex_process ex_command); [apply ex_command_wf|].
  exists ex_world, 0%nat, 0%nat. reflexivity.
Qed.

Lemma ex_sql_claimed_steps : rtc sql_step empty_jobs_db (state_of ex_sql_claimed).
Proof.
  etrans; [apply ex_sql_submitted_steps|]. apply rtc_once.
  eapply (tx_claim _ ex_process no_locks 100 1 "w1").
  exists ex_world, (drawn ex_sql_submitted), (ticks ex_sql_submitted). reflexivity.
Qed.

(** ** Claims *)





(** C4: No job of the PostgreSQL runtime is ever stuck: from every state that processes
    can bring about, and for every job in it, there are at most [2 * max_attempts]
    transactions after which the job has succeeded or failed; as long as it has not,
    one of them is always possible, a claim when it waits and the reaper when its
    lease is over. *)
Theorem sql_job_can_finish `{JsonbColumns} d id j :
  rtc sql_step empty_jobs_db d -> sql_jobs d !! id = Some j ->
  exists n d', nsteps sql_step n d d' /\ Z.of_nat n <= remaining j <= 20 /\ finished d' id.
Proof.
  intros Hd Hj. destruct (js_steps (S := jobs_db) (H := SqlJobs) _ _ sql_inv_empty Hd) as [HI _].
  pose proof (proj1 (jobs_ok_of_inv d HI) _ _ Hj) as Hok.
  assert (Hbound : remaining j <= 20).
  { destruct Hok. unfold remaining. case_match; [lia| |lia].
    assert (1 <= j_attempts j) by eauto. lia. }
  cut (exists n d', nsteps sql_step n d d' /\ Z.of_nat n <= remaining j /\ finished d' id).
  { intros (n & d' & ? & ? & ?). by exists n, d'. }
  clear Hd Hbound. pose proof (remaining_nonneg _ Hok) as Hnn.
  assert (Hk : remaining j <= Z.of_nat (Z.to_nat (remaining j))) by lia.
  revert Hk. generalize (Z.to_nat (remaining j)) as k. intros k. revert d j HI Hj Hok Hnn.
  induction k as [|k IH]; intros d j HI Hj Hok Hnn Hk; rewrite sql_jobs_lookup in Hj;
    destruct (oget id (x_rows d)) as [x|] eqn:Hx; try done; injection Hj as <-;
    (destruct (sql_job_moves d id x HI Hx) as [Hf|(d1 & x1 & Hs & Hx1 & Hne)];
     [exists 0%nat, d; split; [constructor|split; [lia|done]]|]);
    destruct (sql_step_moves d d1 HI Hs) as [HI1 Hr];
    assert (Hj1 : sql_jobs d1 !! id = Some (x_job x1)) by (rewrite sql_jobs_lookup; by rewrite Hx1);
    assert (Hj0 : sql_jobs d !! id = Some (x_job x)) by (rewrite sql_jobs_lookup; by rewrite Hx);
    destruct (spec_steps_remaining _ _ _ _ _ (jobs_ok_of_inv d HI) Hr Hj0 Hj1) as [?|Hlt]; try done;
    pose proof (proj1 (jobs_ok_of_inv d1 HI1) _ _ Hj1) as Hok1;
    pose proof (remaining_nonneg _ Hok1); [lia|].
  destruct (IH d1 (x_job x1)) as (n & d2 & Hn & Hle & Hf); try done; [lia|].
  exists (S n), d2. split; [by econstructor|]. split; [lia|done].
Qed.

Theorem sql_job_can_finish_witness : exists j n d',
  sql_jobs (state_of ex_sql_claimed) !! 100 = Some j
  /\ nsteps sql_step n (state_of ex_sql_claimed) d' /\ finished d' 100.
Proof.
  eexists. destruct (sql_job_can_finish (state_of ex_sql_claimed) 100 (Job ("silver.normalize", "run:1", "normalize:1") 2 1 (Leased "w1" (seconds 61)))) as (n & d' & Hn & _ & Hf).
  - apply ex_sql_claimed_steps.
  - vm_compute. reflexivity.
  - exists n, d'. split; [vm_compute; reflexivity|]. split; [exact Hn|exact Hf].
Defined.

Lemma session_unchanged {A} (m : M jobs_db (close * A)) w s :
  (forall a s', m w s <> (Ok (Commit, a), s')) -> state_of (session m w s).2 = state_of s.
Proof.
  intros Hm. unfold session. destruct (m w s) as [[[[] a]|e] s'] eqn:E; try done.
  by destruct (Hm a s').
Qed.

(** C40: Two behaviours in which the PostgreSQL runtime differs from the in-memory one,
    because a session is all or nothing.  A result that is refused leaves the tables as
    they were - the attempt keeps its lease and is retried by the reaper, where the
    in-memory runtime loses the lease for ever.  And a claim that meets an expired lease
    abandons the attempt in its session and then returns nothing, so that the caller rolls
    the abandonment back: it changes nothing, where the in-memory runtime frees the job. *)
Theorem sql_rollbacks `{JsonbColumns} p lk w s :
  (forall c v, is_ok (sql_json_object v) = false \/ match sql_json_object v with
                 Ok r => jsonb_accepts r = false | Raise _ => True end ->
     state_of (sql_record_outcome p lk c (OutResult v) w s).2 = state_of s)
  /\ (forall id n worker x, oget id (x_rows (state_of s)) = Some x -> x_state x = RUNNING ->
     state_of (sql_claim p lk id n worker w s).2 = state_of s).
Proof.
  split.
  - intros c v Hv.
    assert (E : state_of (outcome_session p lk c (OutResult v) w s).2 = state_of s).
    { unfold outcome_session. apply session_unchanged. intros a s' Hr. run_m.
      destruct (lk_execution lk _); [run_m; done|].
      destruct (oget _ (x_rows (state_of s))) as [x|]; [|run_m; done]. run_m.
      destruct (find_first _ _) as [t|]; [|run_m; done].
      match goal with Hr : (if ?b then _ else _) _ _ = _ |- _ => destruct b end; [run_m; done|].
      run_m. match goal with Hs : record_success _ _ _ _ _ = _ |- _ =>
        unfold record_success in Hs; run_m end.
      match goal with Hs : (if _ then _ else _) _ _ = _ |- _ => destruct (jsonb_accepts _) eqn:Ha; run_m end.
      by destruct Hv. }
    unfold sql_record_outcome, mbind, M_bind, lift.
    by destruct (outcome_session _ _ _ _ _ _) as [[x|e] s'].
  - intros id n worker x Hx Hr. unfold sql_claim. apply session_unchanged. intros a s' Hc. run_m.
    match goal with Ht : repo_claim _ _ _ _ _ _ _ _ _ = _ |- _ => unfold repo_claim in Ht; rename Ht into Hrepo end.
    run_m. destruct (lk_execution lk id); [run_m; done|]. rewrite Hx in Hrepo.
    destruct (negb _); [run_m; done|].
    destruct (bool_decide (x_state x = SUCCEEDED \/ _)); [run_m; done|].
    destruct (bool_decide (x_state x = RETRY_WAIT) && _); [run_m; done|].
    rewrite bool_decide_eq_true_2 in Hrepo by done.
    destruct (x_lease_until x) as [u|]; [destruct (_ <? u)|]; run_m; done.
Qed.

Definition ex_late : world := World (fun n => 200 + Z.of_nat n) (fun n => seconds (1000 + Z.of_nat n)).

(** The claim that finds the lease of "w1" expired, which the reaper then ends *)
Theorem sql_rollbacks_witness : exists x,
  oget 100 (x_rows (state_of ex_sql_claimed)) = Some x /\ x_state x = RUNNING
  /\ is_ok (sql_json_object (VList [])) = false
  /\ state_of (sql_claim ex_process no_locks 100 2 "w2" ex_late ex_sql_claimed).2
     = state_of ex_sql_claimed
  /\ state_of (sql_record_outcome ex_process no_locks ex_claim (OutResult (VList [])) ex_world
                 ex_sql_claimed).2 = state_of ex_sql_claimed.
Proof.
  eexists. split; [vm_compute; reflexivity|]. split; [reflexivity|]. split; [reflexivity|].
  split.
  - eapply (proj2 (sql_rollbacks ex_process no_locks ex_late ex_sql_claimed));
      [vm_compute; reflexivity|reflexivity].
  - apply (proj1 (sql_rollbacks ex_process no_locks ex_world ex_sql_claimed)). left. reflexivity.
Defined.

(** The scheduler of the PostgreSQL runtime inserts the execution of a due occurrence
    instead of submitting it: if an execution with its identity exists already, every tick
    raises and changes nothing, so that the schedule stays the first due one and neither it
    nor the schedules after it ever run.  (The in-memory scheduler submits, which returns
    the existing execution and moves the schedule on.) *)
Theorem sql_tick_blocked p lk w s sc c y t :
  t = time_at w (ticks s) + _offset p ->
  sql_inv (state_of s) -> (claim_due_schedule lk t w s).1 = Ok (Some sc) ->
  SubmitJob_create 0 (d_job_type sc) (d_logical_target sc)
    (schedule_key (d_id sc) (d_next_run_at sc)) (Some (d_correlation_id sc)) None
    (d_max_attempts sc) = Ok c ->
  oget (x_id y) (x_rows (state_of s)) = Some y -> x_identity y = sub_identity c ->
  exists s', sql_schedule_tick p lk w s = (Raise JobsIntegrityError, s') /\ state_of s' = state_of s.
Proof.
  intros -> HI Hdue Hc Hy Hi. unfold sql_schedule_tick, session, mbind, M_bind, sql_now, clock.
  unfold claim_due_schedule, mbind, M_bind, get, mret, M_ret in Hdue |- *. cbn -[SubmitJob_create] in *.
  injection Hdue as Hdue. rewrite Hdue. unfold lift. cbn -[SubmitJob_create].
  rewrite Hc. cbn -[execution_refused].
  unfold create_execution, add_row, mbind, M_bind, get, uuid4, raise. cbn -[execution_refused].
  match goal with |- context [execution_refused ?x ?d] => assert (Hr : execution_refused x d = true) end.
  { unfold execution_refused. apply orb_true_iff. left. apply orb_true_iff. right.
    apply existsb_exists. exists y. split; [apply list_elem_of_In; by eapply oget_in_ovalues|].
    apply bool_decide_eq_true. simpl. by rewrite Hi. }
  rewrite Hr. eexists. split; [done|]. done.
Qed.

Definition ex_taken_command : SubmitJob :=
  MkSubmitJob (MkJobIdentity "silver.normalize" "run:1" (schedule_key 5 0)) 7 AuditActor_system 2.
Definition ex_scheduled : sys jobs_db :=
  (sql_add_schedule ex_process "silver.normalize" "run:1" "one_shot" (Stamp true 0) None 2 (Some 5)
     ex_world (Sys empty_jobs_db 0 0)).2.
Definition ex_taken : sys jobs_db := (submit_insert ex_process ex_taken_command ex_world ex_scheduled).2.

Lemma ex_taken_inv : sql_inv (state_of ex_taken).
Proof.
  apply submit_insert_moves.
  - apply (add_schedule_moves ex_process "silver.normalize" "run:1" "one_shot" (Stamp true 0) None 2
             (Some 5) ex_world (Sys empty_jobs_db 0 0)), sql_inv_empty.
  - split; [unfold wf_submit; simpl; lia|vm_compute; reflexivity].
Qed.

Theorem sql_tick_blocked_witness : exists s',
  sql_schedule_tick ex_process no_locks ex_late ex_taken = (Raise JobsIntegrityError, s')
  /\ state_of s' = state_of ex_taken.
Proof.
  refine (sql_tick_blocked ex_process no_locks ex_late ex_taken
            (default (MkScheduleRow 0 0 0 "" "" OneShot None 0 0 false None 0)
               (snd <$> head (d_rows (state_of ex_taken)))) _
            (default (new_execution_row 0 0 "" ex_command)
               (snd <$> head (x_rows (state_of ex_taken)))) _ eq_refl ex_taken_inv _ _ _ _).
  - vm_compute. reflexivity.
  - vm_compute. reflexivity.
  - vm_compute. reflexivity.
  - vm_compute. reflexivity.
Defined.
