(* ===== verification/IngestionContracts.v ===== *)
(** * Ingestion contracts ([application/ingestion/contracts.py])

    The identifiers of a source and a batch with their normalisation, and the
    records of an import run. *)

From S2P Require Export PyVal PyTime JobContracts.

Inductive ImportFormat := FormatCsv | FormatJson.
Inductive ImportRunState := ImportPending | ImportRunning | ImportSucceeded | ImportFailed.

#[export] Instance ImportRunState_eq_dec : EqDecision ImportRunState.
Proof. solve_decision. Defined.

(** A scanner for [first rest{0,n}] over the whole string *)
Definition bounded_re (first rest : ascii -> bool) (n : nat) (s : string) : bool :=
  match chars s with
  | [] => false
  | c :: l => first c && forallb rest l && Nat.leb (length l) n
  end.

(** [[a-z0-9][a-z0-9._-]{0,99}], twice in the source *)
Definition _SAFE_SOURCE_RE : string -> bool := bounded_re is_alnum_az09 is_code_char 99.
(** [[A-Za-z0-9][A-Za-z0-9 ._(){}[\]-]{0,199}] *)
Definition is_file_char (c : ascii) : bool :=
  is_alnum c || bool_decide (c ∈ chars " ._(){}[]-").
Definition _SAFE_FILE_RE : string -> bool := bounded_re is_alnum is_file_char 199.

Definition normalize_source_id (value : string) : result string :=
  let normalized := lower (strip value) in
  if negb (_SAFE_SOURCE_RE normalized) then Raise ValueError else Ok normalized.

Definition normalize_source_version (value : string) : result string :=
  let normalized := lower (strip value) in
  if negb (_SAFE_SOURCE_RE normalized) then Raise ValueError else Ok normalized.

Definition normalize_contract_version (value : string) : result string :=
  let normalized := strip value in
  if negb (bool_decide (normalized = "1")) then Raise ValueError else Ok normalized.

(** The batch key's pattern is the idempotency key's. *)
Definition normalize_batch_key (value : string) : result string :=
  let normalized := strip value in
  if negb (_SAFE_KEY_RE normalized) then Raise ValueError else Ok normalized.

(** [Path(p).name]: the last component that is neither empty nor ["."] *)
Fixpoint path_parts (cur : list ascii) (l : list ascii) : list string :=
  match l with
  | [] => [of_chars (rev cur)]
  | c :: l' => if bool_decide (c = "/"%char) then of_chars (rev cur) :: path_parts [] l'
               else path_parts (c :: cur) l'
  end.
Definition path_name (s : string) : string :=
  default "" (last (List.filter (fun p => negb (bool_decide (p = "") || bool_decide (p = ".")))
                      (path_parts [] (chars s)))).

Definition normalize_file_name (value : string) : result string :=
  let base := strip (path_name (replace value "\" "/")) in
  if negb (_SAFE_FILE_RE base) then Raise ValueError else Ok base.

Definition raw_content_type (f : ImportFormat) : string :=
  match f with FormatCsv => "text/csv" | FormatJson => "application/json" end.

Record SourceIdentity := MkSourceIdentity {
  source_id : string; source_version : string; source_contract_version : string
}.

#[export] Instance SourceIdentity_eq_dec : EqDecision SourceIdentity.
Proof. solve_decision. Defined.

(** [SourceIdentity.__post_init__] *)
Definition SourceIdentity_init (id version contract : string) : result SourceIdentity :=
  i ← normalize_source_id id;
  v ← normalize_source_version version;
  c ← normalize_contract_version contract;
  Ok (MkSourceIdentity i v c).

(** Bytes are a string of characters below 256. *)
Record ImportBatchRequest := MkImportBatchRequest {
  ibr_source : SourceIdentity; ibr_batch_key : string; ibr_file_format : ImportFormat;
  ibr_file_name : string; ibr_raw : string; ibr_actor : AuditActor; ibr_correlation_id : Z
}.

(** [ImportBatchRequest.__post_init__] for a [bytes] content; [file_format] is the string *)
Definition ImportBatchRequest_init (source : SourceIdentity) (batch_key file_format file_name raw : string)
    (actor : AuditActor) (correlation_id : Z) : result ImportBatchRequest :=
  if bool_decide (raw = "") then Raise ValueError
  else
    format ← (if bool_decide (file_format = "csv") then Ok FormatCsv
              else if bool_decide (file_format = "json") then Ok FormatJson
              else Raise ValueError);
    key ← normalize_batch_key batch_key;
    name ← normalize_file_name file_name;
    Ok (MkImportBatchRequest source key format name raw actor correlation_id).

Record ParsedRecord := MkParsedRecord {
  pr_payload : odict string pyval; pr_raw_bytes : string; pr_published_at : option Z
}.
Record ParsedError := MkParsedError { pe_index : Z; pe_code : string; pe_detail : string }.
Record ParsedBatch := MkParsedBatch { pb_records : list ParsedRecord; pb_errors : list ParsedError }.

(** [ParsedBatch.total] *)
Definition ParsedBatch_total (b : ParsedBatch) : Z :=
  Z.of_nat (length (pb_records b)) + Z.of_nat (length (pb_errors b)).

Record RunCounts := MkRunCounts {
  total_records : Z; accepted : Z; quarantined : Z; duplicates : Z; missing_fields : Z
}.

Record ImportRun := MkImportRun {
  ir_run_id : Z; ir_source : SourceIdentity; ir_batch_key : string; ir_file_format : ImportFormat;
  ir_file_name : string; ir_file_sha256 : string; ir_file_size_bytes : Z;
  ir_raw_storage_key : string; ir_job_execution_id : option Z; ir_state : ImportRunState;
  ir_created_at : Z; ir_updated_at : Z; ir_finished_at : option Z; ir_counts : RunCounts;
  ir_error_code : option string; ir_error_detail : option string; ir_version : Z
}.

Record RawListingSnapshot := MkRawListingSnapshot {
  rls_snapshot_id : Z; rls_run_id : Z; rls_source : SourceIdentity; rls_external_id : string;
  rls_payload : odict string pyval; rls_content_sha256 : string; rls_content_type : string;
  rls_size_bytes : Z; rls_published_at : option Z; rls_captured_at : Z
}.

Example path_ex : map path_name ["a/b.csv"; "a/b/"; "x/."; ""; "b.json"] = ["b.csv"; "b"; "x"; ""; "b.json"].
Proof. vm_compute. reflexivity. Qed.
Example file_ex : normalize_file_name "C:\data\lote 1.csv" = Ok "lote 1.csv".
Proof. vm_compute. reflexivity. Qed.

(** [^https?://[^\s/$.?#].[^\s]*$] without regard to case, over the whole string *)
Definition is_http_url (s : string) : bool :=
  let l := chars s in
  let rest :=
    if is_prefix (chars "http://") (chars (lower s)) then Some (drop 7 l)
    else if is_prefix (chars "https://") (chars (lower s)) then Some (drop 8 l)
    else None in
  match rest with
  | Some (c :: d :: l') =>
      negb (is_space c || bool_decide (c ∈ chars "/$.?#")) && negb (code d =? 10)
      && forallb (fun x => negb (is_space x)) l'
  | _ => false
  end.

Example is_http_url_ex :
  map is_http_url ["https://a.b/c?d"; "HTTP://ab"; "http://a"; "http:///ab"; "ftp://ab"; "https://a b"; "http://ab c"]
  = [true; true; false; false; false; true; false].
Proof. vm_compute. reflexivity. Qed.

(** [hashlib.sha256(s.encode()).hexdigest()] *)
Class HexDigest := hex_digest : string -> string.

Record ImportRunSnapshot := MkImportRunSnapshot {
  irs_run_id : Z; irs_source : SourceIdentity; irs_batch_key : string; irs_file_format : ImportFormat;
  irs_file_name : string; irs_file_sha256 : string; irs_state : ImportRunState; irs_created_at : Z;
  irs_finished_at : option Z; irs_counts : RunCounts; irs_error_code : option string;
  irs_error_detail : option string
}.

(** [ImportRun.snapshot] *)
Definition run_snapshot (r : ImportRun) : ImportRunSnapshot :=
  MkImportRunSnapshot (ir_run_id r) (ir_source r) (ir_batch_key r) (ir_file_format r) (ir_file_name r)
    (ir_file_sha256 r) (ir_state r) (ir_created_at r) (ir_finished_at r) (ir_counts r)
    (ir_error_code r) (ir_error_detail r).

Record QuarantineRecord := MkQuarantineRecord {
  qr_record_id : Z; qr_run_id : Z; qr_source : SourceIdentity; qr_external_id : option string;
  qr_code : string; qr_rule : string; qr_detail : string; qr_payload : option (odict string pyval);
  qr_created_at : Z
}.

Record AbnormalDistribution := MkAbnormalDistribution {
  ad_field : string; ad_signal : string; ad_detail : string
}.
Record QualityReport := MkQualityReport {
  qual_run_id : Z; qual_counts : RunCounts; missing_fields_by_name : odict string Z;
  abnormal_distributions : list AbnormalDistribution
}.

(** * Silver contracts ([application/silver/contracts.py])

    Normalised listings, canonical properties, dedupe links and listing changes. *)
Inductive OperationType := Rental.
Inductive PropertyType := Apartment | House | Room | Studio | Commercial | OtherProperty.
Inductive CurrencyType := ARS | USD.
Inductive GeoPrecision := Exact | Block | Neighborhood | Approximate | UnknownPrecision.
Inductive DedupeMethod := Deterministic | Proposal.
Inductive DedupeLinkState := LinkPending | LinkConfirmed | LinkRejected.
Inductive ChangeType := ChangePrice | ChangeText | ChangeAttribute | ChangeStatus.

#[export] Instance OperationType_eq_dec : EqDecision OperationType.
Proof. solve_decision. Defined.
#[export] Instance PropertyType_eq_dec : EqDecision PropertyType.
Proof. solve_decision. Defined.
#[export] Instance CurrencyType_eq_dec : EqDecision CurrencyType.
Proof. solve_decision. Defined.
#[export] Instance GeoPrecision_eq_dec : EqDecision GeoPrecision.
Proof. solve_decision. Defined.
#[export] Instance DedupeMethod_eq_dec : EqDecision DedupeMethod.
Proof. solve_decision. Defined.
#[export] Instance DedupeLinkState_eq_dec : EqDecision DedupeLinkState.
Proof. solve_decision. Defined.

(** The literal each precision stands for *)
Definition geo_str (g : GeoPrecision) : string :=
  match g with
  | Exact => "exact" | Block => "block" | Neighborhood => "neighborhood"
  | Approximate => "approximate" | UnknownPrecision => "unknown"
  end.

Record NormalizedFields := MkNormalizedFields {
  nf_operation : OperationType; nf_property_type : PropertyType;
  nf_price_value : float; nf_price_currency : CurrencyType;
  nf_expenses_value : option float; nf_expenses_currency : option CurrencyType;
  nf_total_cost : float; nf_price_assumptions : odict string pyval;
  nf_surface_m2 : option float; nf_rooms : option Z; nf_bedrooms : option Z; nf_floor : option Z;
  nf_amenities : list string; nf_description_text : option string; nf_location_text : string;
  nf_neighborhood : option string; nf_geo_precision : GeoPrecision;
  nf_geometry : option (float * float); nf_geo_source : option string; nf_url : option string;
  nf_normalization_errors : list string
}.

(** [total_cost] is a float, but the readers test it for [None]: a [None] is kept. *)
Record NormalizedListing := MkNormalizedListing {
  listing_id : Z; canonical_property_id : Z; nl_run_id : Z; nl_snapshot_id : Z;
  nl_source : SourceIdentity; external_id : string; nl_url : option string;
  published_at : option Z; last_observed_at : Z; normalizer_version : string;
  operation : OperationType; property_type : PropertyType; price_value : float;
  price_currency : CurrencyType; expenses_value : option float;
  expenses_currency : option CurrencyType; total_cost : option float;
  price_assumptions : odict string pyval; surface_m2 : option float; rooms : option Z;
  bedrooms : option Z; floor_number : option Z; amenities : list string;
  description_text : option string; location_text : string; neighborhood : option string;
  geo_precision : GeoPrecision; geometry : option (float * float); geo_source : option string;
  normalization_errors : list string
}.

(** [state] is always ["active"]. *)
Record CanonicalProperty := MkCanonicalProperty {
  cp_id : Z; cp_first_seen_at : Z; cp_latest_listing_id : option Z; cp_version : Z
}.

Record DedupeLink := MkDedupeLink {
  link_id : Z; link_listing_a_id : Z; link_listing_b_id : Z; link_method : DedupeMethod;
  link_state : DedupeLinkState; link_fingerprint : option string; link_score : option float;
  link_evidence : odict string pyval; link_created_at : Z; link_version : Z;
  link_decided_by : option string; link_decided_at : option Z
}.

Record ListingChange := MkListingChange {
  change_id : Z; change_listing_id : Z; change_previous_listing_id : option Z;
  change_type : ChangeType; change_field : string; change_before : pyval; change_after : pyval;
  change_origin : odict string pyval
}.

Record GeoResult := MkGeoResult {
  gr_geometry : option (float * float); gr_precision : GeoPrecision; gr_source : option string
}.

Record NormalizeSummary := MkNormalizeSummary {
  ns_run_id : Z; ns_total_snapshots : Z; ns_listings_inserted : Z; ns_skipped : Z;
  ns_changes_emitted : Z; ns_links_created : Z; ns_proposals_created : Z
}.
