(* ===== verification/ImportContract.v ===== *)
(** * The import contract ([application/ingestion/import_contract.py])

    The contract document, the rules of a file, the validation of a record, and the canonical
    text of a payload.  [datetime.fromisoformat] is a parameter: the validation only asks
    whether it accepts a text, and the capture keeps the instant. *)

From S2P Require Export IngestionContracts PyParse.
From Stdlib Require Import QArith.
#[global] Open Scope Z_scope.
#[local] Open Scope list_scope.

(** [datetime.fromisoformat]: the instant a text denotes, that of a text without an offset
    being in the time zone of the database session *)
Class IsoDates := fromisoformat : string -> option Z.
(** [hashlib.sha256(raw).hexdigest()] of a string of bytes *)
Class BytesDigest := bytes_digest : string -> string.

Inductive FieldType :=
  | FString | FNumber | FInteger | FEnum | FArrayString | FArrayUrl | FUrl | FDatetime.
#[export] Instance FieldType_eq_dec : EqDecision FieldType.
Proof. solve_decision. Defined.
Definition field_types : odict string FieldType :=
  [("string", FString); ("number", FNumber); ("integer", FInteger); ("enum", FEnum);
   ("array_string", FArrayString); ("array_url", FArrayUrl); ("url", FUrl); ("datetime", FDatetime)]%string.

Record FieldSpec := MkFieldSpec {
  fs_name : string; fs_required : bool; fs_value_type : FieldType; fs_values : list string;
  fs_min_length : option Z; fs_max_length : option Z; fs_gt : option float; fs_ge : option float;
  fs_max : option float; fs_max_items : option Z; fs_item_max_length : option Z
}.
(** [FieldSpec.rule] *)
Definition field_rule (f : FieldSpec) : string := ("field." ++ fs_name f)%string.

Record FileSpec := MkFileSpec {
  file_formats : list string; file_encodings : list string; max_file_size_bytes : Z; max_records : Z
}.
Record ContractSpec := MkContractSpec {
  cs_contract_version : string; cs_file : FileSpec; cs_fields : list FieldSpec
}.
(** [ContractSpec.field] *)
Definition contract_field (name : string) (c : ContractSpec) : option FieldSpec :=
  find_first (fun f => bool_decide (fs_name f = name)) (cs_fields c).

Record FileCheck := MkFileCheck { fc_valid : bool; fc_code : option string }.
Record ValidationIssue := MkValidationIssue { vi_code : string; vi_rule : string; vi_detail : string }.
#[export] Instance ValidationIssue_eq_dec : EqDecision ValidationIssue.
Proof. solve_decision. Defined.
Record ValidationResult := MkValidationResult {
  vr_valid : bool; vr_issues : list ValidationIssue; vr_missing_optional : Z
}.

(** ** The document *)

Definition _string_tuple (v : pyval) : result (list string) :=
  match v with
  | VList (_ :: _ as l) => if forallb is_str l then Ok (map py_str l) else Raise ValueError
  | _ => Raise ValueError
  end.
Definition _positive_int (v : pyval) : result Z :=
  match v with VInt z => if z <=? 0 then Raise ValueError else Ok z | _ => Raise ValueError end.
Definition _optional_int (v : pyval) : result (option Z) :=
  match v with VNone => Ok None | VInt z => Ok (Some z) | _ => Raise ValueError end.
Definition _optional_float (v : pyval) : result (option float) :=
  match v with
  | VNone => Ok None
  | VInt _ | VFloat _ => f ← to_float v; if ffinite f then Ok (Some f) else Raise ValueError
  | _ => Raise ValueError
  end.

Definition parse_field (name : string) (raw : pyval) : result FieldSpec :=
  match raw with
  | VDict d =>
      _ ← in_str_set (dget "type" d) (okeys field_types);
      match dget "type" d with
      | VStr t =>
          match oget t field_types with
          | Some value_type =>
              values ← (if truthy (dget "values" d) then l ← py_iter (dget "values" d); Ok (map py_str l)
                        else Ok []);
              min_length ← _optional_int (dget "min_length" d);
              max_length ← _optional_int (dget "max_length" d);
              gt ← _optional_float (dget "gt" d);
              ge ← _optional_float (dget "ge" d);
              max ← _optional_float (dget "max" d);
              max_items ← _optional_int (dget "max_items" d);
              item_max_length ← _optional_int (dget "item_max_length" d);
              Ok (MkFieldSpec name (truthy (dget "required" d)) value_type values min_length max_length
                    gt ge max max_items item_max_length)
          | None => Raise ValueError
          end
      | _ => Raise ValueError
      end
  | _ => Raise ValueError
  end.

Definition parse_contract (data : odict string pyval) : result ContractSpec :=
  match dget "contract_version" data, dget "file" data, dget "fields" data with
  | VStr "1", VDict file, VDict raw_fields =>
      formats ← _string_tuple (dget "formats" file);
      encodings ← _string_tuple (dget "encodings" file);
      max_size ← _positive_int (dget "max_file_size_bytes" file);
      records ← _positive_int (dget "max_records" file);
      fields ← map_result (fun kv => parse_field kv.1 kv.2) raw_fields;
      Ok (MkContractSpec "1" (MkFileSpec formats encodings max_size records) fields)
  | _, _, _ => Raise ValueError
  end.

(** ** The file *)

(** A continuation byte within bounds *)
Definition continuation (lo hi : Z) (c : ascii) : bool := in_range (Z.max 128 lo) (Z.min 191 hi) c.

(** [raw.decode("utf-8")] succeeds: no overlong forms, no surrogates, at most U+10FFFF. *)
Fixpoint utf8_valid (l : list ascii) : bool :=
  match l with
  | [] => true
  | c :: l1 =>
      if in_range 0 127 c then utf8_valid l1
      else if in_range 194 223 c then
        match l1 with a :: l2 => continuation 128 191 a && utf8_valid l2 | _ => false end
      else if in_range 224 239 c then
        match l1 with
        | a :: b :: l2 => continuation (if code c =? 224 then 160 else 128) (if code c =? 237 then 159 else 191) a
                          && continuation 128 191 b && utf8_valid l2
        | _ => false
        end
      else if in_range 240 244 c then
        match l1 with
        | a :: b :: d :: l2 => continuation (if code c =? 240 then 144 else 128) (if code c =? 244 then 143 else 191) a
                               && continuation 128 191 b && continuation 128 191 d && utf8_valid l2
        | _ => false
        end
      else false
  end.
Definition _is_utf8 (raw : string) : bool := utf8_valid (chars raw).

Definition check_file (spec : ContractSpec) (raw file_format declared : string) : FileCheck :=
  if negb (bool_decide (declared = cs_contract_version spec))
  then MkFileCheck false (Some "file.version_unsupported"%string)
  else if negb (bool_decide (file_format ∈ file_formats (cs_file spec)))
  then MkFileCheck false (Some "file.format_unsupported"%string)
  else if negb (_is_utf8 raw) then MkFileCheck false (Some "file.encoding_invalid"%string)
  else if max_file_size_bytes (cs_file spec) <? len raw
  then MkFileCheck false (Some "file.size_exceeded"%string)
  else MkFileCheck true None.

(** ** A record *)

Section validation.
Context `{IsoDates}.

Definition field_issue (code : string) (f : FieldSpec) (text : string) : ValidationIssue :=
  MkValidationIssue code (field_rule f) ("field " ++ str_repr (fs_name f) ++ " " ++ text)%string.
Definition _type_issue (f : FieldSpec) : ValidationIssue :=
  field_issue "contract.type_invalid" f "has an invalid type".
Definition _range_issue (f : FieldSpec) (detail : string) : ValidationIssue :=
  field_issue "contract.range_invalid" f detail.
Definition required_issue (f : FieldSpec) : ValidationIssue :=
  MkValidationIssue "contract.required_field" (field_rule f)
    ("required field " ++ str_repr (fs_name f) ++ " is missing")%string.

(** A number, or a text that reads as one: first as an [int], then as a [float] *)
Definition _as_number (v : pyval) : option pyval :=
  match v with
  | VInt _ | VFloat _ => Some v
  | VStr s =>
      let text := strip s in
      if bool_decide (text = "") then None
      else match int_of_str text with
           | Ok z => Some (VInt z)
           | Raise _ => match float_of_str text with Ok f => Some (VFloat f) | Raise _ => None end
           end
  | _ => None
  end.
Definition _as_datetime (v : pyval) : option Z :=
  match v with VStr s => fromisoformat (replace (strip s) "Z" "+00:00") | _ => None end.
Definition _split_list (v : pyval) : option (list string) :=
  match v with
  | VStr s => Some (List.filter (fun x => negb (bool_decide (x = "")))
                      (map strip (split_by (is_char "|"%char) [] (chars s))))
  | _ => None
  end.

Definition _field_missing (f : FieldSpec) (v : pyval) : bool :=
  match v with
  | VNone => true
  | VStr s => bool_decide (strip s = "")
              && negb (bool_decide (fs_value_type f = FArrayString \/ fs_value_type f = FArrayUrl))
  | _ => false
  end.

Definition _validate_string (f : FieldSpec) (v : pyval) : option ValidationIssue :=
  match v with
  | VStr s =>
      if match fs_min_length f with Some n => len s <? n | None => false end
      then Some (_range_issue f ("shorter than " ++ str_of_Z (default 0 (fs_min_length f)))%string)
      else if match fs_max_length f with Some n => n <? len s | None => false end
      then Some (_range_issue f ("longer than " ++ str_of_Z (default 0 (fs_max_length f)))%string)
      else None
  | _ => Some (_type_issue f)
  end.

(** The exact value of a number: an [int] is compared with a [float] without rounding. *)
Definition number_value (v : pyval) : float := default FNan (num_of v).
(** [float(number).is_integer()] *)
Definition is_integral (v : pyval) : result bool := f ← to_float v; Ok (fis_integer f).

Definition bound_failed (test : float -> float -> bool) (bound : option float) (x : float) : bool :=
  match bound with Some b => negb (test b x) | None => false end.
Definition bound_text (b : option float) : string := float_repr (default FNan b).

Definition _validate_number (f : FieldSpec) (v : pyval) : result (option ValidationIssue) :=
  match _as_number v with
  | None => Ok (Some (_type_issue f))
  | Some n =>
      integral ← (if bool_decide (fs_value_type f = FInteger) then is_integral n else Ok true);
      let x := number_value n in
      Ok (if negb integral then Some (_type_issue f)
          else if bound_failed fltb (fs_gt f) x
          then Some (_range_issue f ("must be greater than " ++ bound_text (fs_gt f))%string)
          else if bound_failed fleb (fs_ge f) x
          then Some (_range_issue f ("must be at least " ++ bound_text (fs_ge f))%string)
          else if bound_failed (fun b y => fleb y b) (fs_max f) x
          then Some (_range_issue f ("must be at most " ++ bound_text (fs_max f))%string)
          else None)
  end.

Definition _validate_enum (f : FieldSpec) (v : pyval) : option ValidationIssue :=
  if match v with VStr s => bool_decide (s ∈ fs_values f) | _ => false end then None
  else Some (field_issue "contract.enum_invalid" f "has an unsupported value").

Definition _validate_url (f : FieldSpec) (v : pyval) : option ValidationIssue :=
  if match v with VStr s => is_http_url (strip s) | _ => false end then None
  else Some (field_issue "contract.url_invalid" f "is not a valid http(s) URL").

Definition _validate_datetime (f : FieldSpec) (v : pyval) : option ValidationIssue :=
  match _as_datetime v with Some _ => None | None => Some (_type_issue f) end.

Definition validate_item (f : FieldSpec) (item : pyval) : option ValidationIssue :=
  match item with
  | VStr s =>
      if bool_decide (fs_value_type f = FArrayUrl) && negb (is_http_url (strip s))
      then Some (field_issue "contract.url_invalid" f "contains an invalid URL")
      else if match fs_item_max_length f with Some n => n <? len s | None => false end
      then Some (_range_issue f ("item longer than " ++ str_of_Z (default 0 (fs_item_max_length f)))%string)
      else None
  | _ => Some (_type_issue f)
  end.
Fixpoint first_issue (f : FieldSpec) (items : list pyval) : option ValidationIssue :=
  match items with
  | [] => None
  | item :: items' => match validate_item f item with Some i => Some i | None => first_issue f items' end
  end.

Definition _validate_array (f : FieldSpec) (v : pyval) : option ValidationIssue :=
  match match v with VList l => Some l | _ => map VStr <$> _split_list v end with
  | None => Some (_type_issue f)
  | Some items =>
      if match fs_max_items f with Some n => n <? Z.of_nat (length items) | None => false end
      then Some (_range_issue f ("has more than " ++ str_of_Z (default 0 (fs_max_items f)) ++ " items")%string)
      else first_issue f items
  end.

(** What a check raises is an issue too. *)
Definition _validate_value (f : FieldSpec) (v : pyval) : option ValidationIssue :=
  match fs_value_type f with
  | FString => _validate_string f v
  | FNumber | FInteger =>
      match _validate_number f v with
      | Ok issue => issue
      | Raise _ => Some (field_issue "contract.type_invalid" f "has an invalid value")
      end
  | FEnum => _validate_enum f v
  | FUrl => _validate_url f v
  | FDatetime => _validate_datetime f v
  | FArrayString | FArrayUrl => _validate_array f v
  end.

(** The issues of the fields, and how many optional fields are missing *)
Fixpoint validate_fields (fields : list FieldSpec) (payload : odict string pyval) : list ValidationIssue * Z :=
  match fields with
  | [] => ([], 0)
  | f :: fields' =>
      let '(issues, missing) := validate_fields fields' payload in
      let v := dget (fs_name f) payload in
      if _field_missing f v then
        if fs_required f then (required_issue f :: issues, missing) else (issues, missing + 1)
      else match _validate_value f v with Some i => (i :: issues, missing) | None => (issues, missing) end
  end.

Definition validate_record (payload : odict string pyval) (spec : ContractSpec) : ValidationResult :=
  let '(issues, missing) := validate_fields (cs_fields spec) payload in
  MkValidationResult (bool_decide (issues = [])) issues missing.

(** Fields in the order of the contract, with how many payloads miss them *)
Definition count_missing_by_name (payloads : list (odict string pyval)) (spec : ContractSpec)
  : odict string Z :=
  foldl (fun counts f =>
    if fs_required f then counts
    else foldl (fun counts p =>
           if _field_missing f (dget (fs_name f) p)
           then oset (fs_name f) (default 0 (oget (fs_name f) counts) + 1) counts else counts) counts payloads)
    [] (cs_fields spec).
End validation.

(** ** Canonical text *)

(** [json.dumps(v, sort_keys=True, ensure_ascii=False, separators=(",", ":"))] *)
Fixpoint json_text (v : pyval) : string :=
  match v with
  | VList l => ("[" ++ join "," (map json_text l) ++ "]")%string
  | VDict d =>
      ("{" ++ join "," (map (fun kv => json_string kv.1 ++ ":" ++ kv.2)%string
                          (sort_by (fun a b : string * string => str_ltb a.1 b.1)
                             (map (fun kv => (kv.1, json_text kv.2)) d))) ++ "}")%string
  | _ => json_scalar_text v
  end.

(** [s.encode("utf-8")] of a text of code points below 256 *)
Definition utf8_char (c : ascii) : list ascii :=
  if code c <? 128 then [c] else [chr (192 + code c / 64); chr (128 + code c mod 64)].
Definition utf8_encode (s : string) : string := of_chars (flat_map utf8_char (chars s)).

Definition canonical_bytes (payload : odict string pyval) : string := utf8_encode (json_text (VDict payload)).
Definition canonical_hash `{BytesDigest} (payload : odict string pyval) : string :=
  bytes_digest (canonical_bytes payload).

Example canonical_ex : canonical_bytes [("b", VList [VInt 1; VNone]); ("a", VStr "x")]
  = ("{" ++ json_string "a" ++ ":" ++ json_string "x" ++ "," ++ json_string "b" ++ ":[1,null]}")%string.
Proof. reflexivity. Qed.
Example utf8_ex : map (fun l => _is_utf8 (of_chars (map chr l)))
  [[104; 195; 177]; [195]; [192; 128]; [237; 160; 128]; [244; 143; 191; 191]; [244; 144; 128; 128]]
  = [true; false; false; false; true; false].
Proof. vm_compute. reflexivity. Qed.

(** ** The published contract ([contracts/import/v1/import-contract.json]) *)

Definition plain (name : string) (required : bool) (t : FieldType) : FieldSpec :=
  MkFieldSpec name required t [] None None None None None None None.
Definition number_field (name : string) (required : bool) (t : FieldType) (gt ge mx : option float) : FieldSpec :=
  MkFieldSpec name required t [] None None gt ge mx None None.
Definition text_field (name : string) (required : bool) (lo hi : option Z) : FieldSpec :=
  MkFieldSpec name required FString [] lo hi None None None None None.
Definition enum_field (name : string) (values : list string) : FieldSpec :=
  MkFieldSpec name true FEnum values None None None None None None None.
Definition array_field (name : string) (t : FieldType) (items item_length : option Z) : FieldSpec :=
  MkFieldSpec name false t [] None None None None None items item_length.

Definition published_contract : ContractSpec := {|
  cs_contract_version := "1";
  cs_file := MkFileSpec ["json"; "csv"]%string ["utf-8"]%string 10485760 10000;
  cs_fields := [
    text_field "external_id" true (Some 1) (Some 500);
    enum_field "operation" ["rental"];
    enum_field "property_type" ["apartment"; "house"; "room"; "studio"; "commercial"; "other"];
    number_field "price" true FNumber (Some (FFin 0)) None None;
    enum_field "currency" ["ARS"; "USD"];
    number_field "expenses" false FNumber None (Some (FFin 0)) None;
    text_field "address_text" true (Some 1) (Some 500);
    text_field "neighborhood" false None (Some 200);
    number_field "latitude" false FNumber None (Some (flit (-3475) 100)) (Some (flit (-3445) 100));
    number_field "longitude" false FNumber None (Some (flit (-5865) 100)) (Some (flit (-5825) 100));
    number_field "surface_m2" false FNumber (Some (FFin 0)) None (Some (flit 1000000 1));
    number_field "rooms" false FInteger None (Some (FFin 0)) (Some (flit 200 1));
    number_field "bedrooms" false FInteger None (Some (FFin 0)) (Some (flit 100 1));
    number_field "floor" false FInteger None (Some (flit (-10) 1)) (Some (flit 1000 1));
    array_field "amenities" FArrayString (Some 100) (Some 100);
    text_field "description" false None (Some 20000);
    array_field "media_urls" FArrayUrl (Some 50) None;
    plain "url" false FUrl; plain "published_at" false FDatetime]%string
|}.
