(* ===== verification/JsonTheorems.v ===== *)
(** * Reading back canonical texts

    The canonical text of a document is read back as the document: [json_loads] is a left
    inverse of [json_text]. *)

From S2P Require Export PyParse ImportContract.
From stdpp Require Import pretty.
#[local] Open Scope list_scope.
#[local] Open Scope Z_scope.

(** ** Integers *)

(** The interpreter neither writes nor reads an integer of more than 4300 digits. *)
Definition digit_limit : Z := 10 ^ 4300.
Lemma digit_limit_below m : 4300 <= m -> digit_limit <= 10 ^ m.
Proof. apply Z.pow_le_mono_r. reflexivity. Qed.
#[local] Opaque digit_limit.

Definition decimal_digits (n : Z) (ds : list ascii) : Prop :=
  Forall (fun c => is_digit c = true) ds /\ digits_value ds = n
  /\ (0 < n -> 10 ^ (Z.of_nat (length ds) - 1) <= n /\ match ds with c :: _ => code c <> 48 | [] => False end).

Lemma digits_value_snoc ds c : digits_value (ds ++ [c]) = 10 * digits_value ds + (code c - 48).
Proof. unfold digits_value. by rewrite foldl_app. Qed.

Lemma pretty_char_digit n : (n < 10)%N ->
  is_digit (pretty_N_char n) = true /\ code (pretty_N_char n) = 48 + Z.of_N n.
Proof.
  intros Hn. assert (Hc : n ∈ map N.of_nat (seq 0 10)).
  { apply list_elem_of_fmap. exists (N.to_nat n). split; [lia|]. apply elem_of_seq. lia. }
  revert Hc. apply (Forall_forall (fun n => is_digit (pretty_N_char n) = true /\ code (pretty_N_char n) = 48 + Z.of_N n)).
  by repeat constructor.
Qed.

Lemma pretty_N_go_digits n s : exists ds, chars (pretty_N_go n s) = ds ++ chars s /\ decimal_digits (Z.of_N n) ds.
Proof.
  revert s. induction (N.lt_wf_0 n) as [n _ IH]. intros s. destruct (decide (0 < n)%N) as [Hn|Hn].
  2:{ assert (n = 0%N) as -> by lia. exists []. rewrite pretty_N_go_0. split; [done|]. split; [constructor|]. split; [done|lia]. }
  rewrite pretty_N_go_step by done.
  destruct (IH (n / 10)%N (N.div_lt n 10 Hn ltac:(lia)) (String (pretty_N_char (n mod 10)) s))
    as (ds & E & Hd & Hv & Hpos).
  destruct (pretty_char_digit (n mod 10)%N) as [Hdig Hcode]; [by apply N.mod_lt|].
  set (c := pretty_N_char (n mod 10)) in *.
  exists (ds ++ [c]). split; [rewrite E; unfold chars; simpl; by rewrite <- app_assoc|].
  assert (En : Z.of_N n = 10 * Z.of_N (n / 10) + Z.of_N (n mod 10)).
  { rewrite N2Z.inj_div, N2Z.inj_mod by lia. apply Z.div_mod. lia. }
  split; [apply Forall_app; split; [done|by constructor]|]. split; [rewrite digits_value_snoc; lia|]. intros _.
  rewrite length_app. simpl. destruct (decide (0 < n / 10)%N) as [Hq|Hq].
  - destruct Hpos as [Hlen Hhead]; [lia|]. split; [|by destruct ds].
    replace (Z.of_nat (length ds + 1) - 1) with (Z.succ (Z.of_nat (length ds) - 1)) by lia.
    rewrite Z.pow_succ_r by (destruct ds; [done|]; simpl; lia).
    pose proof (N2Z.is_nonneg (n mod 10)). rewrite En. eapply Z.le_trans; [apply Z.mul_le_mono_nonneg_l; [done|exact Hlen]|]. lia.
  - assert (n / 10 = 0)%N as E0 by (apply N.le_0_r, N.nlt_ge, Hq). rewrite E0, pretty_N_go_0 in E.
    assert (ds = []) as ->.
    { apply (f_equal length) in E. rewrite length_app in E. destruct ds; [done|]. simpl in E. unfold chars in E. simpl in E. lia. }
    simpl. split; [lia|]. rewrite E0 in En. lia.
Qed.

(** What may follow a value in a document *)
Definition closes (rest : list ascii) : Prop :=
  match rest with [] => True | c :: _ => c ∈ [","; "]"; "}"]%char end.

Lemma closes_head rest : closes rest ->
  match rest with [] => True | c :: _ => is_digit c = false /\ is_char "."%char c = false
                                         /\ is_char "e"%char c = false /\ is_char "E"%char c = false end.
Proof. destruct rest as [|c rest]; [done|]. simpl. rewrite !elem_of_cons, elem_of_nil. by intros [-> |[-> |[-> |[]]]]. Qed.

Lemma span_digits ds rest : Forall (fun c => is_digit c = true) ds -> closes rest ->
  span not_digit (ds ++ rest) = (ds, rest).
Proof.
  intros Hd Hr. induction Hd as [|c ds Hc _ IH]; simpl.
  - destruct rest as [|c rest]; [done|]. apply closes_head in Hr as [Hr _]. simpl. unfold not_digit. by rewrite Hr.
  - unfold not_digit at 1. by rewrite Hc, IH.
Qed.

Lemma digit_plain c : is_digit c = true -> is_space c = false /\ is_char "_"%char c = false
  /\ is_char "-"%char c = false /\ is_char "+"%char c = false.
Proof. destruct c as [[] [] [] [] [] [] [] []]; vm_compute; auto. Qed.

Lemma drop_underscores_digits b ds : Forall (fun c => is_digit c = true) ds -> drop_underscores b ds = Some ds.
Proof.
  intros Hd. revert b. induction Hd as [|c ds Hc _ IH]; intros b; [done|]. simpl.
  destruct (digit_plain c Hc) as (_ & -> & _). rewrite Hc. by rewrite IH.
Qed.

Lemma trimmed_all f (l : list ascii) : Forall (fun c => f c = false) l -> trimmed f l.
Proof.
  intros Hl. split; apply lstrip_by_fix.
  - by destruct Hl.
  - apply Forall_rev in Hl. by destruct Hl.
Qed.

Lemma trimmed_digits (sign ds : list ascii) : Forall (fun c => is_digit c = true) ds ->
  sign ∈ [[]; ["-"%char]] -> trimmed is_space (sign ++ ds).
Proof.
  intros Hd Hs. apply trimmed_all, Forall_app. split.
  - rewrite !elem_of_cons, elem_of_nil in Hs. destruct Hs as [-> | [-> | []]]; by repeat constructor.
  - eapply Forall_impl; [exact Hd|]. intros c Hc. by apply digit_plain.
Qed.

Lemma int_of_digits (negative : bool) n ds : decimal_digits n ds -> 0 < n < digit_limit ->
  int_of_str (of_chars ((if negative then ["-"%char] else []) ++ ds)) = Ok (if negative then - n else n).
Proof.
  intros (Hd & Hv & Hpos) [Hn Hmax]. destruct (Hpos Hn) as [Hlen Hhead].
  assert (Hne : ds <> []) by (by destruct ds).
  unfold int_of_str. unfold strip. rewrite strip_by_trimmed, chars_of_chars.
  2:{ rewrite chars_of_chars. apply trimmed_digits; [done|]. destruct negative; set_solver. }
  assert (Hsign : take_sign ((if negative then ["-"%char] else []) ++ ds) = (negative, ds)).
  { destruct negative; [done|]. destruct ds as [|c ds]; [done|]. simpl. apply Forall_cons in Hd as [Hc _].
    by destruct (digit_plain c Hc) as (_ & _ & -> & ->). }
  rewrite Hsign, drop_underscores_digits by done. simpl. unfold digits.
  assert (forallb is_digit ds = true) as ->.
  { apply forallb_forall. intros x Hx. rewrite Forall_forall in Hd. by apply Hd, list_elem_of_In. }
  rewrite bool_decide_eq_false_2 by done. simpl. rewrite Hv.
  destruct (Z.ltb_spec 4300 (Z.of_nat (length ds))); [|done].
  pose proof (digit_limit_below (Z.of_nat (length ds) - 1) ltac:(lia)).
  exfalso. apply (Z.lt_irrefl n). eapply Z.lt_le_trans; [exact Hmax|]. by eapply Z.le_trans.
Qed.

Lemma read_digits (negative : bool) n ds rest : decimal_digits n ds -> 0 < n < digit_limit -> closes rest ->
  read_number ((if negative then ["-"%char] else []) ++ ds ++ rest) = Ok (VInt (if negative then - n else n), rest).
Proof.
  intros Hds Hn Hr. pose proof Hds as (Hd & _ & Hpos). destruct (Hpos (proj1 Hn)) as [_ Hhead].
  unfold read_number.
  set (sign := if negative then ["-"%char] else []).
  assert (Hs : match sign ++ ds ++ rest with
               | c :: l' => if is_char "-"%char c then ([c], l') else ([], sign ++ ds ++ rest)
               | [] => ([], []) end = (sign, ds ++ rest)).
  { unfold sign. destruct negative; [done|]. destruct ds as [|c ds]; [done|]. simpl.
    apply Forall_cons in Hd as [Hc _]. by destruct (digit_plain c Hc) as (_ & _ & -> & _). }
  rewrite Hs.
  assert (Hw : read_whole (ds ++ rest) = Some (ds, rest)).
  { destruct ds as [|c ds]; [done|]. unfold read_whole. cbn [app]. apply Forall_cons in Hd as Hc. destruct Hc as [Hc _].
    destruct (Z.eqb_spec (code c) 48); [done|]. rewrite Hc. f_equal. by apply (span_digits (c :: ds)). }
  rewrite Hw. simpl.
  assert (read_fraction rest = None) as ->.
  { destruct rest as [|c rest]; [done|]. apply closes_head in Hr as (_ & Hdot & _). simpl. by rewrite Hdot. }
  simpl. assert (read_exponent rest = None) as ->.
  { destruct rest as [|c rest]; [done|]. apply closes_head in Hr as (_ & _ & He & HE). simpl. by rewrite He, HE. }
  simpl. unfold sign. by rewrite (int_of_digits negative n).
Qed.

Lemma read_number_int z rest : Z.abs z < digit_limit -> closes rest ->
  read_number (chars (str_of_Z z) ++ rest) = Ok (VInt z, rest).
Proof.
  intros Hz Hr. destruct z as [|p|p].
  - unfold str_of_Z. change (chars (pretty 0)) with ["0"%char]. unfold read_number. simpl.
    destruct rest as [|c rest]; [done|]. pose proof (closes_head _ Hr) as (Hd & Hdot & He & HE). simpl. rewrite Hdot. simpl.
    by rewrite He, HE.
  - destruct (pretty_N_go_digits (N.pos p) "") as (ds & E & Hds). rewrite app_nil_r in E.
    change (chars (str_of_Z (Z.pos p))) with (chars (pretty_N_go (N.pos p) "")). rewrite E.
    apply (read_digits false (Z.pos p) ds rest Hds); [lia|exact Hr].
  - destruct (pretty_N_go_digits (N.pos p) "") as (ds & E & Hds). rewrite app_nil_r in E.
    change (chars (str_of_Z (Z.neg p))) with ("-"%char :: chars (pretty_N_go (N.pos p) "")). rewrite E.
    apply (read_digits true (Z.pos p) ds rest Hds); [lia|exact Hr].
Qed.

(** ** Strings *)

Lemma read_plain c l : code c <> 34 -> code c <> 92 -> 32 <= code c ->
  read_string (c :: l) = ('(t, rest) ← read_string l; Some (c :: t, rest)).
Proof.
  intros H1 H2 H3. cbn [read_string]. destruct (Z.eqb_spec (code c) 34); [done|].
  destruct (Z.eqb_spec (code c) 92); [done|]. by destruct (Z.ltb_spec (code c) 32); [lia|].
Qed.
Lemma read_escape e l : code e <> 117 ->
  read_string ("\"%char :: e :: l) = (x ← unescape e; '(t, rest) ← read_string l; Some (x :: t, rest)).
Proof. intros He. cbn [read_string]. destruct (Z.eqb_spec (code e) 117); [done|reflexivity]. Qed.
Lemma read_hex p q r s l :
  read_string ("\"%char :: "u"%char :: p :: q :: r :: s :: l)
  = (z ← hex4 p q r s; if z <? 256 then '(t, rest) ← read_string l; Some (chr z :: t, rest) else None).
Proof. reflexivity. Qed.

(** What [json_char] writes, by the kind of the character *)
Definition written (c : ascii) : bool :=
  match json_char c with
  | [x] => bool_decide (x = c) && negb (code c =? 34) && negb (code c =? 92) && (32 <=? code c)
  | [b; e] => bool_decide (b = "\"%char) && negb (code e =? 117) && bool_decide (unescape e = Some c)
  | [b; u; p; q; r; s] => bool_decide (b = "\"%char) && bool_decide (u = "u"%char)
                          && bool_decide (hex4 p q r s = Some (code c)) && (code c <? 256)
  | _ => false
  end.
Lemma written_all c : written c = true.
Proof. destruct c as [[] [] [] [] [] [] [] []]; vm_compute; reflexivity. Qed.

Lemma read_char c l t rest : read_string l = Some (t, rest) -> read_string (json_char c ++ l) = Some (c :: t, rest).
Proof.
  intros Hl. pose proof (written_all c) as Hw. unfold written in Hw.
  destruct (json_char c) as [|x [|y [|p [|q [|r [|s [|? ?]]]]]]]; try done; cbn [app];
    repeat (apply andb_true_iff in Hw as [Hw ?]);
    repeat match goal with H : bool_decide _ = true |- _ => apply bool_decide_eq_true in H end; subst.
  - rewrite read_plain; [by rewrite Hl|lia..].
  - rewrite read_escape by lia. by rewrite H, Hl.
  - rewrite read_hex, H0. simpl. rewrite H, Hl. simpl. do 3 f_equal. unfold chr, code.
    by rewrite N2Z.id, Ascii.ascii_N_embedding.
Qed.

Lemma read_chars s rest : read_string (flat_map json_char s ++ chr 34 :: rest) = Some (s, rest).
Proof.
  induction s as [|c s IH]; [reflexivity|]. simpl. rewrite <- app_assoc. by apply read_char.
Qed.

(** ** Documents *)

(** The documents with no floats, whose members are in the order of the canonical text *)
Inductive plain_json : pyval -> Prop :=
  | plain_none : plain_json VNone
  | plain_bool b : plain_json (VBool b)
  | plain_int z : Z.abs z < digit_limit -> plain_json (VInt z)
  | plain_str s : plain_json (VStr s)
  | plain_list l : Forall plain_json l -> plain_json (VList l)
  | plain_dict d : StronglySorted (fun a b => str_ltb a b = true) (okeys d) ->
      Forall (fun kv => plain_json kv.2) d -> plain_json (VDict d).

Lemma insert_by_last {A} (lt : A -> A -> bool) x l : Forall (fun y => lt x y = false) l -> insert_by lt x l = l ++ [x].
Proof. induction 1 as [|y l Hy _ IH]; [done|]. simpl. by rewrite Hy, IH. Qed.

Lemma sort_by_id {A} (lt : A -> A -> bool) l : StronglySorted (fun a b => lt b a = false) l -> sort_by lt l = l.
Proof.
  intros Hs. unfold sort_by. rewrite <- (app_nil_l l) at 2.
  assert (Hacc : Forall (fun y => Forall (fun x => lt x y = false) l) (@nil A)) by constructor.
  revert Hacc. generalize (@nil A) as acc. induction Hs as [|x l Hs IH Hx]; intros acc Hacc; simpl; [by rewrite app_nil_r|].
  rewrite insert_by_last.
  - rewrite IH; [by rewrite <- app_assoc|]. apply Forall_app. split; [|by constructor].
    eapply Forall_impl; [exact Hacc|]. intros y Hy. by apply Forall_cons in Hy as [_ ?].
  - eapply Forall_impl; [exact Hacc|]. intros y Hy. by apply Forall_cons in Hy as [? _].
Qed.

(** The text of a value is read back, whatever closes it, with as much fuel as it is long. *)
Definition reads (v : pyval) : Prop := forall fuel rest,
  (length (chars (json_text v)) <= fuel)%nat -> closes rest ->
  read_value fuel (chars (json_text v) ++ rest) = Ok (v, rest).

Definition opens (l : list ascii) : Prop :=
  match l with c :: _ => is_json_space c = false /\ is_char "]"%char c = false | [] => False end.

Lemma opens_app l r : opens l -> skip_space (l ++ r) = l ++ r /\ exists c l', l ++ r = c :: l' /\ is_char "]"%char c = false.
Proof.
  destruct l as [|c l]; [done|]. intros [Hs Hc]. split; [unfold skip_space; simpl; by rewrite Hs|by exists c, (l ++ r)].
Qed.

Lemma int_text z : exists c l, chars (str_of_Z z) = c :: l
  /\ (is_digit c = true \/ c = "-"%char /\ match l with d :: _ => is_digit d = true | [] => False end).
Proof.
  destruct z as [|p|p]; [by exists "0"%char, []; split; [|left]| |];
    destruct (pretty_N_go_digits (N.pos p) "") as (ds & E & Hd & _ & Hpos); rewrite app_nil_r in E;
    destruct (Hpos ltac:(lia)) as [_ Hne]; destruct ds as [|c ds]; try done; apply Forall_cons in Hd as [Hc _].
  - exists c, ds. split; [exact E|by left].
  - exists "-"%char, (c :: ds). split; [|by right]. 
    change (chars (str_of_Z (Z.neg p))) with ("-"%char :: chars (pretty_N_go (N.pos p) "")). by rewrite E.
Qed.

Lemma digit_opens c : is_digit c = true -> is_json_space c = false /\ is_char "]"%char c = false
  /\ (code c =? 34) = false /\ is_char "["%char c = false /\ is_char "{"%char c = false
  /\ Forall (fun w => match chars w.1 with a :: _ => a <> c | [] => False end) json_words.
Proof.
  intros Hc. assert (Hr : 48 <= code c <= 57) by (unfold is_digit, in_range in Hc; lia).
  assert (Hne : forall x, code x < 48 \/ 57 < code x -> is_char x c = false).
  { intros x Hx. unfold is_char. apply bool_decide_eq_false. intros ->. lia. }
  assert (Hne' : forall x, code x < 48 \/ 57 < code x -> x <> c) by (intros x Hx ->; lia).
  split; [|split; [apply Hne; vm_compute; auto|split; [lia|split; [apply Hne; vm_compute; auto|split; [apply Hne; vm_compute; auto|]]]]].
  - unfold is_json_space. apply bool_decide_eq_false. rewrite !elem_of_cons, elem_of_nil. lia.
  - repeat constructor; apply Hne'; vm_compute; auto.
Qed.

Lemma text_opens v : plain_json v -> opens (chars (json_text v)).
Proof.
  intros []; try (by vm_compute).
  - by destruct b.
  - destruct (int_text z) as (c & l & E & Hc). cbn [json_text json_scalar_text]. rewrite E. destruct Hc as [Hc|[-> _]]; [|done].
    by destruct (digit_opens c Hc) as (? & ? & _).
Qed.

Lemma no_word c l words : Forall (fun w => match chars w.1 with a :: _ => a <> c | [] => False end) words ->
  read_word words (c :: l) = None.
Proof.
  induction 1 as [|[w v] words Hw _ IH]; [done|]. simpl in *. destruct (chars w) as [|a w']; [done|]. simpl.
  by rewrite bool_decide_eq_false_2.
Qed.

Lemma read_value_int z fuel rest : Z.abs z < digit_limit -> closes rest ->
  read_value (S fuel) (chars (str_of_Z z) ++ rest) = Ok (VInt z, rest).
Proof.
  intros Hz Hr. pose proof (read_number_int z rest Hz Hr) as Hn.
  destruct (int_text z) as (c & l & E & Hc). rewrite E in *. cbn [read_value app].
  destruct Hc as [Hc|[-> Hl]].
  - destruct (digit_opens c Hc) as (_ & _ & -> & -> & -> & Hw). by rewrite no_word.
  - destruct l as [|d l]; [done|]. cbn [app] in *.
    assert (read_word json_words ("-"%char :: d :: l ++ rest) = None) as ->; [|exact Hn].
    assert (Hd : "I"%char <> d) by (by intros <-). simpl. by rewrite bool_decide_eq_false_2.
Qed.

Lemma read_value_string s fuel rest :
  read_value (S fuel) (chars (json_string s) ++ rest) = Ok (VStr s, rest).
Proof.
  unfold json_string. rewrite chars_of_chars. cbn [app]. rewrite <- app_assoc. cbn [app].
  cbn [read_value]. change (code (chr 34) =? 34) with true. cbn [app]. rewrite read_chars. simpl.
  by rewrite of_chars_chars.
Qed.

Lemma chars_join sep x y l : chars (PyStr.join sep (x :: y :: l)) = chars x ++ chars sep ++ chars (PyStr.join sep (y :: l)).
Proof. simpl. by rewrite !chars_app. Qed.

Lemma skip_closing c l : c ∈ [","; "]"; "}"; ":"]%char -> skip_space (c :: l) = c :: l.
Proof. rewrite !elem_of_cons, elem_of_nil. by intros [-> |[-> |[-> |[-> |[]]]]]. Qed.

Lemma read_items_text l fuel rest : l <> [] -> Forall (fun v => plain_json v /\ reads v) l ->
  (length (chars (PyStr.join "," (map json_text l))) < fuel)%nat ->
  read_items fuel (chars (PyStr.join "," (map json_text l)) ++ "]"%char :: rest) = Ok (l, rest).
Proof.
  intros Hne Hl. revert fuel. induction Hl as [|v l [Hp Hv] Hl IH]; [done|]. intros [|n] Hn; [lia|].
  destruct l as [|v2 l].
  - cbn [map PyStr.join] in *. cbn [read_items]. rewrite Hv by (simpl; first [lia|set_solver]). reflexivity.
  - cbn [map] in *. rewrite chars_join in *. rewrite !length_app in Hn. rewrite <- !app_assoc. cbn [read_items].
    rewrite Hv; [|lia|simpl; set_solver]. cbn [mbind result_bind read_or_fail app].
    change (chars ",") with [","%char] in *. cbn [app length] in *.
    assert (Ho : opens (chars (PyStr.join "," (json_text v2 :: map json_text l)))).
    { apply Forall_cons in Hl as [[Hp2 _] _]. apply text_opens in Hp2. destruct l as [|v3 l]; [exact Hp2|].
      cbn [map]. rewrite chars_join. by destruct (chars (json_text v2)). }
    cbn [map] in IH. set (text := PyStr.join "," _) in *. clearbody text.
    rewrite skip_closing by set_solver. change (is_char "]"%char ","%char) with false.
    change (is_char ","%char ","%char) with true. cbv iota.
    destruct (opens_app _ ("]"%char :: rest) Ho) as [-> _]. by rewrite IH by (try done; lia).
Qed.

(** The text of the members of an object *)
Definition member_text (kv : string * pyval) : string := json_string kv.1 +:+ ":" +:+ json_text kv.2.

Lemma members_text d : StronglySorted (fun a b => str_ltb a b = true) (okeys d) ->
  json_text (VDict d) = "{" +:+ PyStr.join "," (map member_text d) +:+ "}".
Proof.
  intros Hs. cbn [json_text]. do 2 f_equal. rewrite sort_by_id.
  - by rewrite map_map.
  - unfold okeys in Hs. induction d as [|[k v] d IH]; simpl; [constructor|].
    apply StronglySorted_inv in Hs as [Hs Hk]. constructor; [by apply IH|]. apply Forall_map. apply Forall_map in Hk.
    eapply Forall_impl; [exact Hk|]. intros [k2 v2]. simpl. apply codes_ltb_asym.
Qed.

Lemma sorted_keys_fresh (k : string) ks : Forall (fun b => str_ltb k b = true) ks -> k ∉ ks.
Proof. intros Hk Hin. rewrite Forall_forall in Hk. specialize (Hk _ Hin). by rewrite str_ltb_irrefl in Hk. Qed.

Lemma read_members_text d fuel acc rest : d <> [] ->
  StronglySorted (fun a b => str_ltb a b = true) (okeys d) ->
  Forall (fun k => k ∉ okeys acc) (okeys d) -> Forall (fun kv => plain_json kv.2 /\ reads kv.2) d ->
  (length (chars (PyStr.join "," (map member_text d))) < fuel)%nat ->
  read_members fuel acc (chars (PyStr.join "," (map member_text d)) ++ "}"%char :: rest) = Ok (acc ++ d, rest).
Proof.
  intros Hne Hs Hf Hd. revert fuel acc Hf. induction Hd as [|[k v] d [Hp Hv] Hd IH]; [done|]. intros [|n] acc Hf Hn; [lia|].
  simpl in Hp, Hv. change (okeys ((k, v) :: d)) with (k :: okeys d) in *. apply StronglySorted_inv in Hs as [Hs Hk].
  apply Forall_cons in Hf as [Hfk Hf].
  set (tail := match d with [] => "}"%char :: rest
               | _ => ","%char :: chars (PyStr.join "," (map member_text d)) ++ "}"%char :: rest end).
  assert (Htext : chars (PyStr.join "," (map member_text ((k, v) :: d))) ++ "}"%char :: rest
                  = chr 34 :: flat_map json_char (chars k) ++ chr 34 :: ":"%char :: chars (json_text v) ++ tail).
  { destruct d as [|kv2 d]; cbn [map]; [cbn [PyStr.join]|rewrite chars_join]; unfold member_text at 1;
      rewrite !chars_app; unfold json_string; rewrite chars_of_chars; cbn [fst snd]; unfold tail; cbn [map];
      change (chars ":") with [":"%char]; try change (chars ",") with [","%char]; cbn [app]; rewrite <- !app_assoc; reflexivity. }
  rewrite Htext. cbn [read_members]. change (code (chr 34) =? 34) with true. cbv iota.
  rewrite read_chars. cbn [mbind result_bind read_or_fail].
  rewrite skip_closing by set_solver. change (is_char ":"%char ":"%char) with true. cbv iota.
  destruct (opens_app _ tail (text_opens v Hp)) as [-> _].
  assert (Hlen : (length (chars (json_text v)) <= n)%nat).
  { apply (f_equal length) in Htext. rewrite length_app in Htext. simpl in Htext. rewrite !length_app in Htext. simpl in Htext.
    rewrite length_app in Htext. unfold tail in Htext. destruct d as [|kv2 d]; [simpl in *; lia|].
    cbn [map] in *. rewrite chars_join, !length_app in Hn. unfold member_text at 1 in Hn. rewrite !chars_app, !length_app in Hn.
    cbn [fst snd] in Hn. lia. }
  rewrite Hv; [|exact Hlen|unfold tail; destruct d; simpl; set_solver]. cbn [mbind result_bind read_or_fail].
  rewrite of_chars_chars, oset_fresh by exact Hfk. unfold tail. destruct d as [|[k2 v2] d].
  - rewrite skip_closing by set_solver. reflexivity.
  - rewrite skip_closing by set_solver. change (is_char "}"%char ","%char) with false.
    change (is_char ","%char ","%char) with true. cbv iota.
    assert (Ho : opens (chars (PyStr.join "," (map member_text ((k2, v2) :: d))))).
    { destruct d as [|kv3 d]; cbn [map]; [cbn [PyStr.join]|rewrite chars_join]; unfold member_text at 1;
        rewrite !chars_app; unfold json_string; rewrite chars_of_chars; by vm_compute. }
    destruct (opens_app _ ("}"%char :: rest) Ho) as [-> _]. rewrite IH; [by rewrite <- app_assoc|done|exact Hs| |].
    + apply Forall_forall. intros x Hx. unfold okeys. rewrite fmap_app, elem_of_app. rewrite Forall_forall in Hf.
      intros [Hin|Hin]; [by apply (Hf x)|]. apply list_elem_of_singleton in Hin as ->. by apply (sorted_keys_fresh k (okeys ((k2, v2) :: d))).
    + cbn [map] in Hn. rewrite chars_join, !length_app in Hn. unfold member_text at 1 in Hn. rewrite !chars_app, !length_app in Hn.
      change (length (chars ":")) with 1%nat in Hn. change (length (chars ",")) with 1%nat in Hn. cbn [map]. lia.
Qed.

Lemma reads_list l : Forall (fun v => plain_json v /\ reads v) l -> reads (VList l).
Proof.
  intros Hl [|n] rest Hn Hr; [simpl in Hn; lia|]. cbn [json_text] in *. rewrite !chars_app in *.
  change (chars "[") with ["["%char] in *. change (chars "]") with ["]"%char] in *.
  rewrite !length_app in Hn. cbn [length] in Hn. rewrite <- !app_assoc. cbn [app read_value].
  change (code "["%char =? 34) with false. change (is_char "["%char "["%char) with true. cbv iota.
  destruct l as [|v l]; [reflexivity|].
  assert (Ho : opens (chars (PyStr.join "," (map json_text (v :: l))))).
  { apply Forall_cons in Hl as [[Hp _] _]. apply text_opens in Hp. destruct l as [|v2 l]; [exact Hp|].
    cbn [map]. rewrite chars_join. by destruct (chars (json_text v)). }
  destruct (opens_app _ ("]"%char :: rest) Ho) as [-> (c & l' & E & Hc)].
  pose proof (read_items_text (v :: l) n rest ltac:(done) Hl ltac:(lia)) as Hi. rewrite E in *. by rewrite Hc, Hi.
Qed.

Lemma reads_dict d : StronglySorted (fun a b => str_ltb a b = true) (okeys d) ->
  Forall (fun kv => plain_json kv.2 /\ reads kv.2) d -> reads (VDict d).
Proof.
  intros Hs Hd [|n] rest Hn Hr; rewrite (members_text d Hs), !chars_app in *; [simpl in Hn; lia|].
  change (chars "{") with ["{"%char] in *. change (chars "}") with ["}"%char] in *.
  rewrite !length_app in Hn. cbn [length] in Hn. rewrite <- !app_assoc. cbn [app read_value].
  change (code "{"%char =? 34) with false. change (is_char "["%char "{"%char) with false.
  change (is_char "{"%char "{"%char) with true. cbv iota. destruct d as [|[k v] d]; [reflexivity|].
  assert (Hhead : exists l, chars (PyStr.join "," (map member_text ((k, v) :: d))) = chr 34 :: l).
  { destruct d as [|kv2 d]; cbn [map]; [cbn [PyStr.join]|rewrite chars_join]; unfold member_text at 1;
      rewrite !chars_app; unfold json_string; rewrite chars_of_chars; by eexists. }
  destruct Hhead as [l El].
  pose proof (read_members_text ((k, v) :: d) n [] rest ltac:(done) Hs) as Hm. rewrite El in *.
  cbn [app] in *. change (skip_space (chr 34 :: ?x)) with (chr 34 :: x).
  change (is_char "}"%char (chr 34)) with false. cbv iota. rewrite Hm; [reflexivity| |done|simpl in *; lia].
  apply Forall_forall. intros x _. apply not_elem_of_nil.
Qed.

Lemma plain_reads v : plain_json v -> reads v.
Proof.
  induction v as [|b|z|f|s|l IH|d IH] using pyval_nested_ind; intros Hp; inversion Hp; subst.
  1-4: intros [|n] rest Hn Hr;
    [pose proof (text_opens _ Hp) as Ho; exfalso; destruct (chars _); [done|]; simpl in Hn; lia|].
  - reflexivity.
  - by destruct b.
  - by apply read_value_int.
  - apply read_value_string.
  - apply reads_list. rewrite Forall_forall in *. intros v Hv. split; [auto|apply IH; auto].
  - apply reads_dict; [done|]. rewrite Forall_forall in *. intros v Hv. split; [auto|apply IH; auto].
Qed.

(** The canonical text of a plain document is read back as the document. *)
Lemma json_loads_text v : plain_json v -> json_loads (json_text v) = Ok v.
Proof.
  intros Hp. unfold json_loads. destruct (opens_app _ [] (text_opens v Hp)) as [Hs _]. rewrite app_nil_r in Hs. rewrite Hs.
  pose proof (plain_reads v Hp (S (length (chars (json_text v)))) [] ltac:(lia) I) as Hr. rewrite app_nil_r in Hr.
  by rewrite Hr.
Qed.

(** The canonical text of a document is read back as the document, for every document without
    floats whose members are in order: the text of a payload determines the payload. *)
Theorem json_roundtrip v : plain_json v -> json_loads (json_text v) = Ok v.
Proof. apply json_loads_text. Qed.

Lemma json_roundtrip_witness :
  let v := VDict [("a", VList [VInt (-120); VBool true; VNone]); ("b", VStr (of_chars [chr 34; chr 10; chr 233]))]%string in
  plain_json v /\ json_loads (json_text v) = Ok v.
Proof.
  intros v. assert (Hp : plain_json v).
  { apply plain_dict; [repeat constructor|]. repeat constructor. }
  split; [exact Hp|exact (json_roundtrip v Hp)].
Defined.

(** * UTF-8

    [raw.decode("utf-8")], strict as Python's: no overlong forms, no surrogates.  A decoded text
    is a list of code points, which [latin1] turns into a text when it holds nothing beyond
    U+00FF. *)
#[local] Open Scope list_scope.

Definition continues (c : ascii) : bool := in_range 128 191 c.
Definition low6 (c : ascii) : Z := code c - 128.

Fixpoint utf8_points (l : list ascii) : option (list Z) :=
  match l with
  | [] => Some []
  | a :: l1 =>
      let x := code a in
      if x <? 128 then ps ← utf8_points l1; Some (x :: ps)
      else match l1 with
      | [] => None
      | b :: l2 =>
          if negb (continues b) then None
          else if in_range 194 223 a then ps ← utf8_points l2; Some ((x - 192) * 64 + low6 b :: ps)
          else match l2 with
          | [] => None
          | c :: l3 =>
              if negb (continues c) then None
              else if in_range 224 239 a then
                let p := ((x - 224) * 64 + low6 b) * 64 + low6 c in
                if (2048 <=? p) && negb ((55296 <=? p) && (p <=? 57343))
                then ps ← utf8_points l3; Some (p :: ps) else None
              else match l3 with
              | [] => None
              | d :: l4 =>
                  let p := (((x - 240) * 64 + low6 b) * 64 + low6 c) * 64 + low6 d in
                  if continues d && in_range 240 244 a && (65536 <=? p) && (p <=? 1114111)
                  then ps ← utf8_points l4; Some (p :: ps) else None
              end
          end
      end
  end.
Definition utf8_decode (raw : string) : option (list Z) := utf8_points (chars raw).

Definition latin1 (points : list Z) : option string :=
  if forallb (fun p => p <? 256) points then Some (of_chars (map chr points)) else None.

(** [text.lstrip("\ufeff")] *)
Fixpoint lstrip_bom (points : list Z) : list Z :=
  match points with
  | p :: points' => if p =? 65279 then lstrip_bom points' else points
  | [] => []
  end.

Example utf8_decode_ex :
  map (fun l => utf8_decode (of_chars (map chr l)))
    [[239; 187; 191; 97]; [195; 177]; [192; 175]; [237; 160; 128]; [240; 159; 143; 160]; [226; 130]]
  = [Some [65279; 97]; Some [241]; None; None; Some [127968]; None].
Proof. vm_compute. reflexivity. Qed.

(** ** Decoding what was encoded *)

Lemma code_range c : 0 <= code c < 256.
Proof. unfold code. pose proof (Ascii.N_ascii_bounded c). lia. Qed.

Lemma chr_code c : chr (code c) = c.
Proof. apply code_inj, code_chr, code_range. Qed.

Lemma utf8_points_char c l : utf8_points (utf8_char c ++ l) = (ps ← utf8_points l; Some (code c :: ps)).
Proof.
  destruct c as [b0 b1 b2 b3 b4 b5 b6 b7].
  destruct b0, b1, b2, b3, b4, b5, b6, b7; reflexivity.
Qed.

Lemma utf8_points_encode l : utf8_points (flat_map utf8_char l) = Some (map code l).
Proof. induction l as [|c l IH]; [done|]. cbn [flat_map map]. by rewrite utf8_points_char, IH. Qed.

Lemma utf8_decode_encode s : utf8_decode (utf8_encode s) = Some (map code (chars s)).
Proof. unfold utf8_decode, utf8_encode. rewrite chars_of_chars. apply utf8_points_encode. Qed.

Lemma map_chr_code l : map chr (map code l) = l.
Proof. induction l as [|c l IH]; [done|]. cbn [map]. by rewrite chr_code, IH. Qed.

Lemma latin1_codes s : latin1 (map code (chars s)) = Some s.
Proof.
  unfold latin1. rewrite map_chr_code, of_chars_chars. replace (forallb _ _) with true; [done|].
  symmetry. apply forallb_forall. intros p (c & <- & _)%in_map_iff. pose proof (code_range c). lia.
Qed.

Lemma lstrip_bom_codes l : lstrip_bom (map code l) = map code l.
Proof. destruct l as [|c l]; [done|]. simpl. pose proof (code_range c). case_match; [lia|done]. Qed.
