(* ===== verification/Telemetry.v ===== *)
(** * Telemetry signals ([application/runtime/telemetry.py])

    The metadata a part of the runtime reports, its attributes, and the trace of the signals
    of one correlation. *)

From S2P Require Export PyVal.
#[local] Open Scope list_scope.

Record TelemetrySignal := MkTelemetrySignal {
  ts_correlation_id : string; ts_service_name : string; ts_environment : string; ts_release_id : string;
  ts_operation : string; ts_state : string; ts_request_id : option string; ts_status_code : option Z;
  ts_duration_ms : option Z; ts_route_template : option string; ts_http_method : option string;
  ts_error_code : option string; ts_job_type : option string; ts_job_state : option string;
  ts_attempt_number : option Z; ts_queue_lag_ms : option Z; ts_object_operation : option string;
  ts_content_class : option string
}.

Definition opt_text (name : string) (x : option string) : odict string pyval :=
  match x with Some s => [(name, VStr s)] | None => [] end.
Definition opt_int (name : string) (x : option Z) : odict string pyval :=
  match x with Some n => [(name, VInt n)] | None => [] end.

Definition attributes (s : TelemetrySignal) : odict string pyval :=
  [("correlation_id", VStr (ts_correlation_id s)); ("service_name", VStr (ts_service_name s));
   ("environment", VStr (ts_environment s)); ("release_id", VStr (ts_release_id s));
   ("operation", VStr (ts_operation s)); ("state", VStr (ts_state s))]
  ++ opt_text "request_id" (ts_request_id s) ++ opt_int "status_code" (ts_status_code s)
  ++ opt_int "duration_ms" (ts_duration_ms s) ++ opt_text "route_template" (ts_route_template s)
  ++ opt_text "http_method" (ts_http_method s) ++ opt_text "error_code" (ts_error_code s)
  ++ opt_text "job_type" (ts_job_type s) ++ opt_text "job_state" (ts_job_state s)
  ++ opt_int "attempt_number" (ts_attempt_number s) ++ opt_int "queue_lag_ms" (ts_queue_lag_ms s)
  ++ opt_text "object_operation" (ts_object_operation s) ++ opt_text "content_class" (ts_content_class s).

Definition build_correlation_trace (signals : list TelemetrySignal) : result (list (odict string pyval)) :=
  match signals with
  | [] => Raise ValueError
  | first :: _ =>
      if existsb (fun s => negb (bool_decide (ts_correlation_id s = ts_correlation_id first))
                           || negb (bool_decide (ts_release_id s = ts_release_id first))) signals
      then Raise ValueError
      else Ok (map attributes signals)
  end.

(** A trace has one identity, and one entry per signal. *)
Lemma correlation_trace_identity signals trace : build_correlation_trace signals = Ok trace ->
  length trace = length signals /\
  exists correlation release, Forall (fun entry =>
    dget "correlation_id" entry = VStr correlation /\ dget "release_id" entry = VStr release) trace.
Proof.
  destruct signals as [|first signals]; [done|]. unfold build_correlation_trace.
  destruct (existsb _ _) eqn:E; [done|]. intros [= <-]. split; [simpl; by rewrite length_map|].
  exists (ts_correlation_id first), (ts_release_id first).
  change (attributes first :: map attributes signals) with (map attributes (first :: signals)). apply Forall_map.
  eapply Forall_impl; [by apply existsb_false_Forall|]. intros s [H1 H2]%orb_false_iff.
  apply negb_false_iff, bool_decide_eq_true in H1, H2. unfold compose. by rewrite <- H1, <- H2.
Qed.
