(* ===== verification/ObjectContracts.v ===== *)
(** * Object contracts ([application/objects/contracts.py], [ports.py])

    References, verified metadata and repository records of immutable object versions, and the
    port of the stores that keep their bytes.  Keys and provider references are strings, bodies
    strings of bytes. *)

From S2P Require Export ImportContract Tables PyTime.
#[local] Open Scope list_scope.

(** [_SHA256.fullmatch(s)] *)
Definition _SHA256 (s : string) : bool :=
  (len s =? 64) && forallb (fun c => is_digit c || in_range 97 102 c) (chars s).

(** ** Values *)

Record ObjectVersionRef := MkObjectVersionRef {
  or_object_id : Z; or_version_id : Z; or_sha256 : string; or_size_bytes : Z; or_content_type : string
}.
Definition ObjectVersionRef_init (object_id version_id : Z) (sha256 : string) (size_bytes : Z) (content_type : string)
    : result ObjectVersionRef :=
  let digest := lower sha256 in
  if negb (_SHA256 digest) then Raise ValueError
  else if size_bytes <? 0 then Raise ValueError
  else
    let media_type := lower (strip content_type) in
    if bool_decide (media_type = "") || contains ";" media_type then Raise ValueError
    else Ok (MkObjectVersionRef object_id version_id digest size_bytes media_type).

Definition ProviderObjectRef_init (value : string) : result string :=
  if bool_decide (value = "") then Raise ValueError else Ok value.

Record ObjectInfo := MkObjectInfo {
  oi_provider_ref : string; oi_sha256 : string; oi_size_bytes : Z; oi_content_type : string;
  oi_provider_version : option string
}.
Definition ObjectInfo_init (provider_ref sha256 : string) (size_bytes : Z) (content_type : string)
    (provider_version : option string) : result ObjectInfo :=
  let digest := lower sha256 in
  if negb (_SHA256 digest) then Raise ValueError
  else if size_bytes <? 0 then Raise ValueError
  else if contains ";" content_type then Raise ValueError
  else Ok (MkObjectInfo provider_ref digest size_bytes (lower (strip content_type)) provider_version).

Record ObjectVersionMetadata := MkObjectVersionMetadata {
  ov_object_id : Z; ov_version_id : Z; ov_purpose : string; ov_state : string; ov_storage_key : string;
  ov_sha256 : string; ov_size_bytes : Z; ov_content_type : string; ov_created_at : Z; ov_correlation_id : Z;
  ov_provider_ref : option string; ov_provider_version : option string; ov_available_at : option Z;
  ov_failure_code : option string
}.
Definition metadata_ref (m : ObjectVersionMetadata) : result ObjectVersionRef :=
  ObjectVersionRef_init (ov_object_id m) (ov_version_id m) (ov_sha256 m) (ov_size_bytes m) (ov_content_type m).

(** ** Ports *)

(** The application calls a store with one argument per keyword; [object_open] and [object_stat]
    are [open] and [stat]. *)
Class ObjectStore (O : Type) := {
  put_if_absent : string -> string -> string -> Z -> string -> M O string;
  object_open : string -> M O string;
  object_stat : string -> M O ObjectInfo;
  ref_for_key : string -> M O string
}.

(** [getattr(error, "code", None)]; SQLAlchemy's errors have codes of their own. *)
Definition exn_code (e : exn) : option string :=
  match e with
  | BatchRejected c | IngestionPermanentError c | IngestionTransientError c
  | SilverPermanentError c | SilverTransientError c | RadarPermanentError c | RadarTransientError c
  | CriteriaPermanentError c | CriteriaTransientError c | PermanentJobError c
  | TransientJobError c _ | IdentityError c _ _ => Some c
  | ObjectVersionConflict => Some "object.version_conflict"
  | ObjectIntegrityError => Some "object.integrity_error"
  | ObjectNotFound => Some "object.not_found"
  | ObjectStateError => Some "object.invalid_state"
  | OtherError n => if bool_decide (n = "IntegrityError") then Some "gkpj" else None
  | _ => None
  end%string.

(** A computation that reads and changes its own state only *)
Definition pure_step {S A} (f : S -> result A * S) : M S A := fun w s =>
  let '(r, x) := f (state_of s) in (r, Sys x (drawn s) (ticks s)).

(** * The metadata of object versions
    ([application/objects/ports.py], [service.py], [infrastructure/db/repositories/objects.py],
     [infrastructure/db/models/objects.py])

    The port of the repositories, its in-memory implementation and the one over the tables of
    the database.  [pending] is a generator: [repo_pending] are the versions it goes through,
    [repo_next] is what it yields for one of them in the state the consumer has reached. *)
#[local] Open Scope list_scope.

Definition version_key : Type := Z * Z.
Definition metadata_key (m : ObjectVersionMetadata) : version_key := (ov_object_id m, ov_version_id m).

Class ObjectMetadataRepository (R : Type) := {
  repo_get : version_key -> R -> option ObjectVersionMetadata;
  repo_create_pending : version_key -> string -> string -> string -> Z -> string -> Z -> Z ->
    R -> result ObjectVersionMetadata * R;
  repo_mark_available : version_key -> string -> option string -> Z -> R -> result ObjectVersionMetadata * R;
  repo_mark_failed : version_key -> string -> R -> result ObjectVersionMetadata * R;
  repo_pending : option Z -> R -> list version_key;
  repo_next : option Z -> version_key -> R -> option ObjectVersionMetadata
}.

(** ** In memory *)

Definition versions : Type := odict version_key ObjectVersionMetadata.

Definition differs (m : ObjectVersionMetadata) (sha256 : string) (size_bytes : Z) (content_type : string) : bool :=
  negb (bool_decide (ov_sha256 m = sha256)) || negb (ov_size_bytes m =? size_bytes)
  || negb (bool_decide (ov_content_type m = content_type)).

Definition pending_version (key : version_key) (purpose storage_key sha256 : string) (size_bytes : Z)
    (content_type : string) (created_at correlation_id : Z) : ObjectVersionMetadata :=
  MkObjectVersionMetadata key.1 key.2 purpose "pending" storage_key sha256 size_bytes content_type created_at
    correlation_id None None None None.
Definition available_version (provider_ref : string) (provider_version : option string) (available_at : Z)
    (m : ObjectVersionMetadata) : ObjectVersionMetadata :=
  MkObjectVersionMetadata (ov_object_id m) (ov_version_id m) (ov_purpose m) "available" (ov_storage_key m)
    (ov_sha256 m) (ov_size_bytes m) (ov_content_type m) (ov_created_at m) (ov_correlation_id m)
    (Some provider_ref) provider_version (Some available_at) (ov_failure_code m).

Definition _safe_failure_code (value : string) : string :=
  let candidate := replace (lower value) " " "_" in
  if bool_decide (candidate = "")
     || existsb (fun c => negb (is_alnum_az09 c || bool_decide (c ∈ chars "._-"))) (chars candidate)
  then "object.write_failed" else take_str 100 candidate.
Definition failed_version (failure_code : string) (m : ObjectVersionMetadata) : ObjectVersionMetadata :=
  MkObjectVersionMetadata (ov_object_id m) (ov_version_id m) (ov_purpose m) "failed" (ov_storage_key m)
    (ov_sha256 m) (ov_size_bytes m) (ov_content_type m) (ov_created_at m) (ov_correlation_id m)
    None (ov_provider_version m) None (Some (_safe_failure_code failure_code)).

Definition mem_create_pending (key : version_key) (purpose storage_key sha256 : string) (size_bytes : Z)
    (content_type : string) (created_at correlation_id : Z) (r : versions) : result ObjectVersionMetadata * versions :=
  match oget key r with
  | Some existing =>
      if differs existing sha256 size_bytes content_type then (Raise ObjectVersionConflict, r) else (Ok existing, r)
  | None =>
      let m := pending_version key purpose storage_key sha256 size_bytes content_type created_at correlation_id in
      (Ok m, oset key m r)
  end.

Definition mem_mark_available (key : version_key) (provider_ref : string) (provider_version : option string)
    (available_at : Z) (r : versions) : result ObjectVersionMetadata * versions :=
  match oget key r with
  | None => (Raise ObjectNotFound, r)
  | Some m =>
      if bool_decide (ov_state m = "available") then
        if bool_decide (ov_provider_ref m <> Some provider_ref) then (Raise ObjectVersionConflict, r) else (Ok m, r)
      else if bool_decide (ov_state m <> "pending") then (Raise ObjectStateError, r)
      else let m' := available_version provider_ref provider_version available_at m in (Ok m', oset key m' r)
  end.

Definition mem_mark_failed (key : version_key) (failure_code : string) (r : versions)
    : result ObjectVersionMetadata * versions :=
  match oget key r with
  | None => (Raise ObjectNotFound, r)
  | Some m =>
      if bool_decide (ov_state m = "available") then (Ok m, r)
      else let m' := failed_version failure_code m in (Ok m', oset key m' r)
  end.

Definition created_before (before : option Z) (m : ObjectVersionMetadata) : bool :=
  match before with Some b => negb (b <=? ov_created_at m) | None => true end.
Definition mem_next (before : option Z) (key : version_key) (r : versions) : option ObjectVersionMetadata :=
  m ← oget key r;
  if bool_decide (ov_state m = "pending") && created_before before m then Some m else None.

#[export] Instance in_memory_repository : ObjectMetadataRepository versions := {|
  repo_get := oget;
  repo_create_pending := mem_create_pending;
  repo_mark_available := mem_mark_available;
  repo_mark_failed := mem_mark_failed;
  repo_pending _ := okeys;
  repo_next := mem_next
|}.
Definition mem_ref (key : version_key) (r : versions) : result ObjectVersionRef :=
  match oget key r with Some m => metadata_ref m | None => Raise ObjectNotFound end.

(** ** The tables *)

Record StoredObject := MkStoredObject {
  so_id : Z; so_purpose : string; so_created_at : Z; so_updated_at : Z; so_version : Z;
  so_actor_kind : ActorKind; so_actor_id : option string; so_source : string; so_correlation_id : Z
}.
Record StoredObjectVersion := MkStoredObjectVersion {
  sv_id : Z; sv_object_id : Z; sv_state : string; sv_storage_key : string; sv_sha256 : string;
  sv_size_bytes : Z; sv_content_type : string; sv_provider_version : option string;
  sv_failure_code : option string; sv_available_at : option Z; sv_created_at : Z;
  sv_actor_kind : ActorKind; sv_actor_id : option string; sv_source : string; sv_correlation_id : Z
}.
Record object_tables := MkObjectTables { ot_objects : list StoredObject; ot_versions : list StoredObjectVersion }.

Definition stored_object_clash (a b : StoredObject) : bool := so_id a =? so_id b.
Definition stored_object_check (o : StoredObject) : bool :=
  (1 <=? len (so_purpose o)) && (len (so_purpose o) <=? 100).
Definition stored_version_clash (a b : StoredObjectVersion) : bool :=
  (sv_id a =? sv_id b) || bool_decide (sv_storage_key a = sv_storage_key b).
Definition stored_version_check (v : StoredObjectVersion) : bool :=
  bool_decide (sv_state v ∈ ["pending"; "available"; "failed"]) && (0 <=? sv_size_bytes v) && _SHA256 (sv_sha256 v)
  && Bool.eqb (bool_decide (sv_state v = "available")) (bool_decide (is_Some (sv_available_at v))).

Definition _to_metadata (row : StoredObjectVersion) (purpose : string) : ObjectVersionMetadata :=
  MkObjectVersionMetadata (sv_object_id row) (sv_id row) purpose (sv_state row) (sv_storage_key row)
    (sv_sha256 row) (sv_size_bytes row) (sv_content_type row) (sv_created_at row) (sv_correlation_id row)
    (match sv_provider_version row with Some v => if bool_decide (v = "") then None else Some v | None => None end)
    (sv_provider_version row) (sv_available_at row) (sv_failure_code row).
Definition row_metadata (r : object_tables) (row : StoredObjectVersion) : ObjectVersionMetadata :=
  _to_metadata row (match get_by so_id (sv_object_id row) (ot_objects r) with
                    | Some logical => so_purpose logical | None => "runtime_reference" end).

Definition version_row (key : version_key) (r : object_tables) : option StoredObjectVersion :=
  row ← get_by sv_id key.2 (ot_versions r); if sv_object_id row =? key.1 then Some row else None.
Definition sql_object_get (key : version_key) (r : object_tables) : option ObjectVersionMetadata :=
  row_metadata r <$> version_row key r.

Definition sql_create_pending (key : version_key) (purpose storage_key sha256 : string) (size_bytes : Z)
    (content_type : string) (created_at correlation_id : Z) (r : object_tables)
    : result ObjectVersionMetadata * object_tables :=
  match sql_object_get key r with
  | Some existing =>
      if differs existing sha256 size_bytes content_type then (Raise ObjectVersionConflict, r) else (Ok existing, r)
  | None =>
      let logical := get_by so_id key.1 (ot_objects r) in
      if match logical with Some o => negb (bool_decide (so_purpose o = purpose)) | None => false end
      then (Raise ObjectVersionConflict, r)
      else
        let objects := match logical with
                       | Some _ => Some (ot_objects r)
                       | None => insert_row stored_object_clash stored_object_check
                                   (MkStoredObject key.1 purpose created_at created_at 1 System None "object_service"
                                      correlation_id) (ot_objects r)
                       end in
        let row := MkStoredObjectVersion key.2 key.1 "pending" storage_key sha256 size_bytes content_type None None
                     None created_at System None "object_service" correlation_id in
        match objects, insert_row stored_version_clash stored_version_check row (ot_versions r) with
        | Some objects, Some rows => let r' := MkObjectTables objects rows in (Ok (row_metadata r' row), r')
        | _, _ => (Raise IntegrityError, r)
        end
  end.

Definition available_row (provider_version : string) (available_at : Z) (v : StoredObjectVersion) : StoredObjectVersion :=
  MkStoredObjectVersion (sv_id v) (sv_object_id v) "available" (sv_storage_key v) (sv_sha256 v) (sv_size_bytes v)
    (sv_content_type v) (Some provider_version) (sv_failure_code v) (Some available_at) (sv_created_at v)
    (sv_actor_kind v) (sv_actor_id v) (sv_source v) (sv_correlation_id v).
Definition failed_row (failure_code : string) (v : StoredObjectVersion) : StoredObjectVersion :=
  MkStoredObjectVersion (sv_id v) (sv_object_id v) "failed" (sv_storage_key v) (sv_sha256 v) (sv_size_bytes v)
    (sv_content_type v) (sv_provider_version v) (Some (take_str 100 failure_code)) None (sv_created_at v)
    (sv_actor_kind v) (sv_actor_id v) (sv_source v) (sv_correlation_id v).
Definition save_row (row : StoredObjectVersion) (r : object_tables) : object_tables :=
  MkObjectTables (ot_objects r) (update_by sv_id (sv_id row) (fun _ => row) (ot_versions r)).

Definition sql_object_mark_available (key : version_key) (provider_ref : string) (provider_version : option string)
    (available_at : Z) (r : object_tables) : result ObjectVersionMetadata * object_tables :=
  match version_row key r with
  | None => (Raise KeyError, r)
  | Some row =>
      if bool_decide (sv_state row = "available") then (Ok (row_metadata r row), r)
      else if bool_decide (sv_state row <> "pending") then (Raise ObjectVersionConflict, r)
      else
        let value := match provider_version with
                     | Some v => if bool_decide (v = "") then provider_ref else v | None => provider_ref end in
        let row := available_row value available_at row in
        let r' := save_row row r in (Ok (row_metadata r' row), r')
  end.

Definition sql_object_mark_failed (key : version_key) (failure_code : string) (r : object_tables)
    : result ObjectVersionMetadata * object_tables :=
  match version_row key r with
  | None => (Raise KeyError, r)
  | Some row =>
      if bool_decide (sv_state row = "available") then (Ok (row_metadata r row), r)
      else let row := failed_row failure_code row in
           let r' := save_row row r in (Ok (row_metadata r' row), r')
  end.

(** The statement is evaluated before the first row is yielded. *)
Definition sql_object_pending (before : option Z) (r : object_tables) : list version_key :=
  map (fun v => (sv_object_id v, sv_id v))
    (List.filter (fun v => bool_decide (sv_state v = "pending")
                           && match before with Some b => sv_created_at v <? b | None => true end) (ot_versions r)).

#[export] Instance sql_object_repository : ObjectMetadataRepository object_tables := {|
  repo_get := sql_object_get;
  repo_create_pending := sql_create_pending;
  repo_mark_available := sql_object_mark_available;
  repo_mark_failed := sql_object_mark_failed;
  repo_pending := sql_object_pending;
  repo_next _ := sql_object_get
|}.
