(* ===== verification/ObjectService.v ===== *)
(** * Versioned objects ([application/objects/service.py])

    [VersionedObjects] over a repository of metadata and a store of bytes: a version is
    recorded as pending, its bytes are written and verified, and it becomes available;
    [reconcile_pending] settles the versions a crash has left behind. *)

From S2P Require Export ObjectContracts Telemetry.
#[local] Open Scope list_scope.

Record ReconciliationResult := MkReconciliationResult { rc_completed : Z; rc_failed : Z; rc_pending : Z }.

Record objects (R O : Type) := MkObjects { os_repository : R; os_store : O; os_signals : list TelemetrySignal }.
Arguments MkObjects {R O} _ _ _.
Arguments os_repository {R O} _.
Arguments os_store {R O} _.
Arguments os_signals {R O} _.

Definition _normalize_content_type (value : string) : result string :=
  let media_type := lower (strip value) in
  if contains ";" media_type || negb (contains "/" media_type) then Raise ValueError else Ok media_type.

Definition _ensure_metadata_match (m : ObjectVersionMetadata) (digest : string) (size : Z) (content_type : string)
    : result unit :=
  if differs m digest size content_type then Raise ObjectVersionConflict else Ok tt.

Definition info_differs (info : ObjectInfo) (digest : string) (size : Z) (content_type : string) : bool :=
  negb (bool_decide (oi_sha256 info = digest)) || negb (oi_size_bytes info =? size)
  || negb (bool_decide (oi_content_type info = content_type)).
Definition _ensure_info_match (info : ObjectInfo) (digest : string) (size : Z) (content_type : string) : result unit :=
  if info_differs info digest size content_type then Raise ObjectIntegrityError else Ok tt.

Section service.
Context {R O : Type} `{ObjectMetadataRepository R} `{ObjectStore O} `{BytesDigest}.
Variables release_id environment : string.

Definition on_repository {A} (f : R -> result A * R) : M (objects R O) A :=
  zoom os_repository (fun r s => MkObjects r (os_store s) (os_signals s)) (pure_step f).
Definition on_store {A} (m : M O A) : M (objects R O) A :=
  zoom os_store (fun o s => MkObjects (os_repository s) o (os_signals s)) m.
Definition version_of (key : version_key) (s : objects R O) : option ObjectVersionMetadata :=
  repo_get key (os_repository s).

(** ** Writing *)

Definition put_signal (m : ObjectVersionMetadata) : TelemetrySignal :=
  MkTelemetrySignal (uuid_str (ov_correlation_id m)) "worker" environment release_id "object.put" "available"
    None None (Some 0) None None None None None None None (Some "put") None.

(** The bytes are written, then read back by [stat]; a failure other than a conflict marks the version. *)
Definition write_bytes (key : version_key) (storage_key raw digest : string) (size : Z) (media_type : string)
    : M (objects R O) (string * ObjectInfo) :=
  try_except
    (provider_ref ← on_store (put_if_absent storage_key raw digest size media_type);
     info ← on_store (object_stat provider_ref);
     _ ← lift (_ensure_info_match info digest size media_type);
     mret (provider_ref, info))
    (fun e => match e with
              | ObjectVersionConflict => raise e
              | _ => _ ← on_repository (repo_mark_failed key (default "object.write_failed" (exn_code e))); raise e
              end).

(** What is known of the version already: its reference, when it is available *)
Definition known_version (existing : option ObjectVersionMetadata) (digest : string) (size : Z) (media_type : string)
    (intact : bool) : result (option ObjectVersionRef) :=
  match existing with
  | None => Ok None
  | Some m =>
      _ ← _ensure_metadata_match m digest size media_type;
      if negb intact then Raise ObjectVersionConflict
      else if bool_decide (ov_state m = "available") then ref ← metadata_ref m; Ok (Some ref)
      else if bool_decide (ov_state m = "failed") then Raise ObjectStateError
      else Ok None
  end.

Definition objects_storage_key (key : version_key) : string :=
  "objects/" ++ uuid_str key.1 ++ "/" ++ uuid_str key.2.

Definition objects_put (key : version_key) (raw : string) (sha256 : option string) (size_bytes : option Z)
    (content_type purpose : string) (correlation_id : option Z) : M (objects R O) ObjectVersionRef :=
  let actual_digest := bytes_digest raw in
  let actual_size := len raw in
  let declared_digest := lower (match sha256 with
                                | Some d => if bool_decide (d = "") then actual_digest else d
                                | None => actual_digest end) in
  let declared_size := default actual_size size_bytes in
  media_type ← lift (_normalize_content_type content_type);
  existing ← gets (version_of key);
  let intact := bool_decide (declared_digest = actual_digest) && (declared_size =? actual_size) in
  known ← lift (known_version existing declared_digest declared_size media_type intact);
  match known with
  | Some ref => mret ref
  | None =>
      if negb intact then raise ObjectIntegrityError
      else
        let storage_key := objects_storage_key key in
        created_at ← clock;
        correlation ← (match correlation_id with Some c => mret c | None => uuid4 end);
        _ ← on_repository (repo_create_pending key purpose storage_key declared_digest declared_size media_type
                             created_at correlation);
        '(provider_ref, info) ← write_bytes key storage_key raw declared_digest declared_size media_type;
        available_at ← clock;
        m ← on_repository (repo_mark_available key provider_ref (oi_provider_version info) available_at);
        _ ← modify (fun s => MkObjects (os_repository s) (os_store s) (os_signals s ++ [put_signal m]));
        lift (metadata_ref m)
  end.

(** ** Reading *)

Definition _available (ref : ObjectVersionRef) : M (objects R O) ObjectVersionMetadata :=
  existing ← gets (version_of (or_object_id ref, or_version_id ref));
  match existing with
  | Some m => if bool_decide (ov_state m <> "available") then raise ObjectNotFound
              else _ ← lift (_ensure_metadata_match m (or_sha256 ref) (or_size_bytes ref) (or_content_type ref));
                   mret m
  | None => raise ObjectNotFound
  end.

Definition verified (ref : ObjectVersionRef) : M (objects R O) (string * ObjectInfo) :=
  m ← _available ref;
  match ov_provider_ref m with
  | None => raise ObjectIntegrityError
  | Some provider_ref =>
      info ← on_store (object_stat provider_ref);
      _ ← lift (_ensure_info_match info (or_sha256 ref) (or_size_bytes ref) (or_content_type ref));
      mret (provider_ref, info)
  end.
Definition objects_open (ref : ObjectVersionRef) : M (objects R O) string :=
  '(provider_ref, _) ← verified ref; on_store (object_open provider_ref).
Definition objects_stat (ref : ObjectVersionRef) : M (objects R O) ObjectInfo :=
  '(_, info) ← verified ref; mret info.

(** ** Reconciliation *)

Inductive settlement := Completed | Failed | StillPending.
#[export] Instance settlement_eq_dec : EqDecision settlement.
Proof. solve_decision. Defined.

Definition settle_failed (key : version_key) (code : string) : M (objects R O) settlement :=
  _ ← on_repository (repo_mark_failed key code); mret Failed.

(** The [except] clauses of a version that cannot be verified *)
Definition unreadable (now : Z) (max_age : option Z) (m : ObjectVersionMetadata) (e : exn)
    : M (objects R O) (ObjectInfo + settlement) :=
  match e with
  | ObjectNotFound =>
      if match max_age with Some a => a <=? now - ov_created_at m | None => false end
      then outcome ← settle_failed (metadata_key m) "object.bytes_missing"; mret (inr outcome)
      else mret (inr StillPending)
  | ObjectIntegrityError | ObjectVersionConflict =>
      outcome ← settle_failed (metadata_key m) "object.bytes_conflict"; mret (inr outcome)
  | e => raise e
  end.

Definition reconcile_one (now : Z) (max_age : option Z) (m : ObjectVersionMetadata) : M (objects R O) settlement :=
  provider_ref ← (match ov_provider_ref m with
                  | Some p => mret p | None => on_store (ref_for_key (ov_storage_key m)) end);
  found ← try_except
    (info ← on_store (object_stat provider_ref);
     _ ← lift (_ensure_info_match info (ov_sha256 m) (ov_size_bytes m) (ov_content_type m));
     mret (inl info))
    (unreadable now max_age m);
  match found with
  | inr outcome => mret outcome
  | inl info =>
      _ ← on_repository (repo_mark_available (metadata_key m) provider_ref (oi_provider_version info) now);
      mret Completed
  end.

Definition count_settlement (c : ReconciliationResult) (outcome : settlement) : ReconciliationResult :=
  match outcome with
  | Completed => MkReconciliationResult (rc_completed c + 1) (rc_failed c) (rc_pending c)
  | Failed => MkReconciliationResult (rc_completed c) (rc_failed c + 1) (rc_pending c)
  | StillPending => MkReconciliationResult (rc_completed c) (rc_failed c) (rc_pending c + 1)
  end.

Fixpoint reconcile_each (now : Z) (max_age before : option Z) (keys : list version_key) (c : ReconciliationResult)
    : M (objects R O) ReconciliationResult :=
  match keys with
  | [] => mret c
  | key :: keys' =>
      next ← gets (fun s => repo_next before key (os_repository s));
      match next with
      | None => reconcile_each now max_age before keys' c
      | Some m => outcome ← reconcile_one now max_age m;
                  reconcile_each now max_age before keys' (count_settlement c outcome)
      end
  end.

Definition reconcile_pending (max_age : option Z) : M (objects R O) ReconciliationResult :=
  now ← clock;
  let before := (fun a => now - a) <$> max_age in
  keys ← gets (fun s => repo_pending before (os_repository s));
  reconcile_each now max_age before keys (MkReconciliationResult 0 0 0).
End service.
