(* ===== verification/ObjectLaws.v ===== *)
(** * What the objects service relies on

    The laws of a repository of versions, which both repositories satisfy, and those of a store
    that never changes what it has accepted. *)

From S2P Require Export ObjectService Hoare.
#[local] Open Scope list_scope.

(** ** Repositories *)

(** What never changes in a version *)
Definition same_version (m m' : ObjectVersionMetadata) : Prop :=
  metadata_key m' = metadata_key m /\ ov_storage_key m' = ov_storage_key m /\ ov_sha256 m' = ov_sha256 m
  /\ ov_size_bytes m' = ov_size_bytes m /\ ov_content_type m' = ov_content_type m
  /\ ov_created_at m' = ov_created_at m /\ ov_correlation_id m' = ov_correlation_id m.

Section repository.
Context {R : Type} `{ObjectMetadataRepository R}.

(** All versions but one are as before. *)
Definition others_kept (key : version_key) (r r' : R) : Prop :=
  forall key', key' <> key -> repo_get key' r' = repo_get key' r.

Definition created_version (key : version_key) (storage_key sha256 : string) (size_bytes : Z) (content_type : string)
    (created_at : Z) (m : ObjectVersionMetadata) : Prop :=
  metadata_key m = key /\ ov_state m = "pending" /\ ov_storage_key m = storage_key /\ ov_sha256 m = sha256
  /\ ov_size_bytes m = size_bytes /\ ov_content_type m = content_type /\ ov_created_at m = created_at
  /\ ov_provider_ref m = None.

Class RepositoryLaws := {
  repo_inv : R -> Prop;
  repo_key r key m : repo_inv r -> repo_get key r = Some m -> metadata_key m = key;
  repo_create_law r key purpose storage_key sha256 size_bytes content_type created_at correlation_id res r' :
    repo_inv r ->
    repo_create_pending key purpose storage_key sha256 size_bytes content_type created_at correlation_id r = (res, r') ->
    repo_inv r' /\ others_kept key r r' /\
    match res with
    | Ok m => repo_get key r' = Some m /\
        (repo_get key r = Some m
         \/ repo_get key r = None /\ created_version key storage_key sha256 size_bytes content_type created_at m)
    | Raise _ => repo_get key r' = repo_get key r
    end;
  repo_available_law r key provider_ref provider_version at_ m :
    repo_inv r -> repo_get key r = Some m -> ov_state m = "pending" -> provider_ref <> "" ->
    provider_version = None \/ provider_version = Some provider_ref ->
    exists m' r', repo_mark_available key provider_ref provider_version at_ r = (Ok m', r') /\
      repo_inv r' /\ others_kept key r r' /\ repo_get key r' = Some m' /\ same_version m m' /\
      ov_state m' = "available" /\ ov_provider_ref m' = Some provider_ref /\ ov_available_at m' = Some at_;
  repo_failed_law r key code m :
    repo_inv r -> repo_get key r = Some m -> ov_state m = "pending" ->
    exists m' r', repo_mark_failed key code r = (Ok m', r') /\
      repo_inv r' /\ others_kept key r r' /\ repo_get key r' = Some m' /\ same_version m m' /\ ov_state m' = "failed";
  repo_pending_law r before : repo_inv r ->
    NoDup (repo_pending before r) /\
    forall key m, key ∈ repo_pending before r -> repo_next before key r = Some m -> ov_state m = "pending";
  repo_pending_all r before key m : repo_inv r -> repo_get key r = Some m -> ov_state m = "pending" ->
    created_before before m = true -> key ∈ repo_pending before r /\ repo_next before key r = Some m;
  repo_next_law r before key m : repo_next before key r = Some m -> repo_get key r = Some m;
  repo_next_frame r r' before key : repo_get key r' = repo_get key r -> repo_next before key r' = repo_next before key r
}.
End repository.
Arguments RepositoryLaws R {_}.

(** ** Stores *)

Section stores.
Context {O : Type} `{ObjectStore O} `{BytesDigest}.

(** A step of a store: the references and the keys that answer keep their content. *)
Definition store_order (inv : world -> sys O -> Prop) (kept stored : O -> string -> string -> string -> Prop)
    (w : world) (s s' : sys O) : Prop :=
  inv w s ->
  inv w s' /\ (drawn s <= drawn s')%nat /\
  (forall ref body kind, kept (state_of s) ref body kind -> kept (state_of s') ref body kind) /\
  (forall key body kind, stored (state_of s) key body kind -> stored (state_of s') key body kind).

(** [kept o ref body kind]: the reference answers with this body and type; [stored]: so does the
    key. *)
Class StoreLaws := {
  store_inv : world -> sys O -> Prop;
  kept : O -> string -> string -> string -> Prop;
  stored : O -> string -> string -> string -> Prop;
  store_later w s n t : store_inv w s -> (drawn s <= n)%nat -> store_inv w (Sys (state_of s) n t);
  put_moves key body sha256 size kind :
    moves (store_order store_inv kept stored) (put_if_absent key body sha256 size kind);
  open_moves ref : moves (store_order store_inv kept stored) (object_open ref);
  stat_moves ref : moves (store_order store_inv kept stored) (object_stat ref);
  ref_moves key : moves (store_order store_inv kept stored) (ref_for_key key);
  stat_shows w s ref info s' : store_inv w s -> object_stat ref w s = (Ok info, s') ->
    exists body, kept (state_of s') ref body (oi_content_type info) /\ oi_sha256 info = bytes_digest body
      /\ oi_size_bytes info = len body /\ ref <> ""
      /\ (oi_provider_version info = None \/ oi_provider_version info = Some ref);
  open_shows w s ref body s' : store_inv w s -> object_open ref w s = (Ok body, s') ->
    exists kind, kept (state_of s') ref body kind;
  kept_unique o ref body kind body' kind' : kept o ref body kind -> kept o ref body' kind' -> body = body' /\ kind = kind';
  put_stored w s key body sha256 size kind ref s' : store_inv w s -> len body < 2 ^ 63 ->
    put_if_absent key body sha256 size kind w s = (Ok ref, s') ->
    exists body' kind', stored (state_of s') key body' kind' /\ bytes_digest body' = bytes_digest body
      /\ len body' = len body;
  ref_stored w s key body kind : store_inv w s -> stored (state_of s) key body kind ->
    exists ref s', ref_for_key key w s = (Ok ref, s') /\ kept (state_of s') ref body kind
}.

(** A store that is never out of reach *)
Class StoreAnswers `{StoreLaws} := {
  stat_kept w s ref body kind : store_inv w s -> kept (state_of s) ref body kind ->
    exists info s', object_stat ref w s = (Ok info, s') /\ oi_sha256 info = bytes_digest body
      /\ oi_size_bytes info = len body /\ oi_content_type info = kind;
  open_kept w s ref body kind : store_inv w s -> kept (state_of s) ref body kind ->
    exists s', object_open ref w s = (Ok body, s')
}.

#[export] Instance store_order_order inv kept_ stored_ : StateOrder (store_order inv kept_ stored_).
Proof.
  split.
  - intros w s Hi. auto.
  - intros w s1 s2 s3 H12 H23 Hi. destruct (H12 Hi) as (I2 & D2 & K2 & S2).
    destruct (H23 I2) as (I3 & D3 & K3 & S3). repeat split; auto. lia.
Qed.
End stores.
Arguments StoreLaws O {_ _}.
Arguments StoreAnswers O {_ _ _}.

(** * Both repositories of versions satisfy their laws *)
#[local] Open Scope list_scope.

(** ** In memory *)

Definition mem_inv (r : versions) : Prop :=
  NoDup (okeys r) /\ forall key m, oget key r = Some m -> metadata_key m = key.

Lemma mem_inv_set key m r : mem_inv r -> metadata_key m = key -> mem_inv (oset key m r).
Proof.
  intros [Hnd Hk] Hm. split; [by apply NoDup_oset|]. intros key' m'. rewrite oget_oset.
  case_decide; [by intros [= <-]; subst|apply Hk].
Qed.
Lemma mem_others key m (r : versions) : others_kept key r (oset key m r).
Proof. intros key' Hne. simpl. by rewrite oget_oset_ne. Qed.

#[export] Instance in_memory_laws : RepositoryLaws versions.
Proof.
  unshelve econstructor; [exact mem_inv|..]; simpl.
  - intros r key m [_ Hk]. apply Hk.
  - intros r key purpose sk sha n kind at_ cid res r' Hi. unfold mem_create_pending.
    destruct (oget key r) as [e|] eqn:E.
    + destruct (differs _ _ _ _); intros [= <- <-]; (split; [exact Hi|]); (split; [done|]); [done|].
      split; [done|by left].
    + intros [= <- <-]. split; [apply mem_inv_set; [done|by destruct key]|]. split; [apply mem_others|].
      rewrite oget_oset_eq. split; [done|]. right. split; [done|]. by destruct key.
  - intros r key p pv at_ m Hi Hm Hs _ _. unfold mem_mark_available. rewrite Hm, Hs.
    eexists _, _. split; [reflexivity|]. pose proof (proj2 Hi _ _ Hm) as Hk.
    split; [by apply mem_inv_set|]. split; [apply mem_others|]. rewrite oget_oset_eq. repeat split.
  - intros r key code m Hi Hm Hs. unfold mem_mark_failed. rewrite Hm, Hs.
    eexists _, _. split; [reflexivity|]. pose proof (proj2 Hi _ _ Hm) as Hk.
    split; [by apply mem_inv_set|]. split; [apply mem_others|]. rewrite oget_oset_eq. repeat split.
  - intros r before [Hnd _]. split; [done|]. intros key m _. unfold mem_next.
    destruct (oget key r) as [x|]; [|done]. simpl. destruct (bool_decide _) eqn:E; [|done]. simpl.
    destruct (created_before _ _); [|done]. intros [= ->]. by apply bool_decide_eq_true in E.
  - intros r before key m _ Hm Hs Hb. unfold mem_next. rewrite Hm. simpl. rewrite bool_decide_eq_true_2, Hb by done.
    split; [|done]. apply oget_Some_elem in Hm. unfold okeys. apply list_elem_of_fmap. by exists (key, m).
  - intros r before key m. unfold mem_next. destruct (oget key r) as [x|]; [|done]. simpl. by case_match; [intros [= ->]|].
  - intros r r' before key E. unfold mem_next. by rewrite E.
Defined.

(** ** The tables *)

Definition tables_inv (r : object_tables) : Prop :=
  NoDup (map sv_id (ot_versions r)) /\
  forall v, v ∈ ot_versions r -> is_Some (get_by so_id (sv_object_id v) (ot_objects r)).

Lemma version_row_Some key r v : version_row key r = Some v ->
  get_by sv_id key.2 (ot_versions r) = Some v /\ v ∈ ot_versions r /\ sv_id v = key.2 /\ sv_object_id v = key.1.
Proof.
  unfold version_row. destruct (get_by _ _ _) as [x|] eqn:E; [|done]. simpl. destruct (Z.eqb_spec (sv_object_id x) key.1); [|done].
  intros [= ->]. by apply get_by_Some in E as [? ?].
Qed.

Lemma row_metadata_objects r r' v : get_by so_id (sv_object_id v) (ot_objects r') = get_by so_id (sv_object_id v) (ot_objects r) ->
  row_metadata r' v = row_metadata r v.
Proof. unfold row_metadata. by intros ->. Qed.

Lemma map_update_by (row : StoredObjectVersion) l : map sv_id (update_by sv_id (sv_id row) (fun _ => row) l) = map sv_id l.
Proof. unfold update_by. rewrite map_map. apply map_ext. intros v. by destruct (Z.eqb_spec (sv_id v) (sv_id row)). Qed.

Lemma get_by_save id (v row : StoredObjectVersion) l : get_by sv_id id l = Some v -> sv_id row = id ->
  get_by sv_id id (update_by sv_id id (fun _ => row) l) = Some row.
Proof.
  intros Hg Hid. unfold get_by, update_by in *. induction l as [|x l IH]; [done|]. simpl in *.
  destruct (Z.eqb_spec (sv_id x) id) as [E|E]; simpl.
  - by rewrite (proj2 (Z.eqb_eq _ _) Hid).
  - rewrite (proj2 (Z.eqb_neq _ _) E) in *. by apply IH.
Qed.

Lemma save_row_law key r v row : tables_inv r -> version_row key r = Some v -> sv_id row = key.2 -> sv_object_id row = key.1 ->
  let r' := save_row row r in
  tables_inv r' /\ others_kept key r r' /\ sql_object_get key r' = Some (row_metadata r' row)
  /\ row_metadata r' row = row_metadata r row.
Proof.
  intros [Hnd Hfk] Hv Hid Hoid r'. destruct (version_row_Some key r v Hv) as (Hg & Hin & Hvid & Hvoid).
  split.
  { split; [by unfold r', save_row; cbn [ot_versions]; rewrite map_update_by|]. intros x Hx. unfold r', save_row in Hx. cbn [ot_versions] in Hx.
    unfold update_by in Hx. apply list_elem_of_In, in_map_iff in Hx as (y & <- & Hy). apply list_elem_of_In in Hy.
    destruct (Z.eqb_spec (sv_id y) (sv_id row)); [|by apply Hfk]. rewrite Hoid, <- Hvoid. by apply Hfk. }
  assert (Hrow : get_by sv_id key.2 (ot_versions r') = Some row).
  { unfold r', save_row. cbn [ot_versions]. rewrite Hid. by apply (get_by_save _ v). }
  split.
  { intros key' Hne. simpl. unfold sql_object_get, version_row. destruct (decide (key'.2 = key.2)) as [E|E].
    - rewrite E, Hrow, Hg. simpl. rewrite Hoid, Hvoid. destruct (Z.eqb_spec key.1 key'.1); [|done].
      destruct key, key'; simpl in *; subst; done.
    - unfold r', save_row. cbn [ot_versions]. rewrite get_by_update_ne by (rewrite ?Hid; done).
      reflexivity. }
  split; [|by apply row_metadata_objects].
  unfold sql_object_get, version_row. rewrite Hrow. simpl. by rewrite Hoid, Z.eqb_refl.
Qed.

Lemma sql_object_get_row key r m : sql_object_get key r = Some m ->
  exists v, version_row key r = Some v /\ m = row_metadata r v.
Proof. unfold sql_object_get. destruct (version_row key r) as [v|]; [|done]. intros [= <-]. by exists v. Qed.

Lemma get_by_None {A} (id_of : A -> Z) id (l : list A) : get_by id_of id l = None -> id ∉ map id_of l.
Proof.
  unfold get_by. rewrite find_first_None, Forall_forall. intros Hl Hin.
  apply list_elem_of_In, in_map_iff in Hin as (x & E & Hx). apply list_elem_of_In, Hl in Hx. lia.
Qed.

Lemma sql_create_law key purpose sk sha n kind at_ cid (r : object_tables) res r' : tables_inv r ->
  sql_create_pending key purpose sk sha n kind at_ cid r = (res, r') ->
  tables_inv r' /\ others_kept key r r' /\
  match res with
  | Ok m => sql_object_get key r' = Some m /\
      (sql_object_get key r = Some m \/ sql_object_get key r = None /\ created_version key sk sha n kind at_ m)
  | Raise _ => sql_object_get key r' = sql_object_get key r
  end.
Proof.
  intros Hi. unfold sql_create_pending.
  destruct (sql_object_get key r) as [e|] eqn:E.
  { destruct (differs _ _ _ _); intros [= <- <-]; (split; [exact Hi|]); (split; [done|]); [done|]. split; [done|by left]. }
  set (logical := get_by so_id key.1 (ot_objects r)). set (row := MkStoredObjectVersion key.2 key.1 _ _ _ _ _ _ _ _ _ _ _ _ _).
  destruct (match logical with Some _ => _ | None => _ end); [by intros [= <- <-]|].
  set (made := match logical with Some _ => Some _ | None => _ end).
  destruct made as [objects|] eqn:Em; [|by intros [= <- <-]].
  destruct (insert_row stored_version_clash _ row (ot_versions r)) as [rows|] eqn:Er; [|by intros [= <- <-]].
  intros [= <- <-]. apply insert_row_Some in Er as (-> & _ & Hclash). destruct Hi as [Hnd Hfk].
  assert (Hgrow : forall id o, get_by so_id id (ot_objects r) = Some o -> get_by so_id id objects = Some o).
  { intros id o Ho. unfold made in Em. destruct logical; [by injection Em as <-|].
    apply insert_row_Some in Em as (-> & _ & _). rewrite get_by_app. by rewrite Ho. }
  assert (Hown : is_Some (get_by so_id key.1 objects)).
  { unfold made in Em. destruct logical as [o|] eqn:El; [exists o; by apply Hgrow|].
    apply insert_row_Some in Em as (-> & _ & _). rewrite get_by_app. fold logical. rewrite El. unfold get_by. simpl.
    rewrite Z.eqb_refl. by eexists. }
  assert (Hnew : get_by sv_id key.2 (ot_versions r) = None).
  { unfold get_by. apply find_first_None. eapply Forall_impl; [exact Hclash|]. intros v Hv.
    unfold stored_version_clash in Hv. apply orb_false_iff in Hv as [Hv _]. simpl in Hv. by rewrite Z.eqb_sym. }
  split; [|split].
  - split; cbn [ot_versions ot_objects].
    + rewrite map_app. apply NoDup_app. split; [done|]. split; [|simpl; repeat constructor; set_solver].
      intros id Hin Hid. apply list_elem_of_singleton in Hid as ->. by apply get_by_None in Hnew.
    + intros v [Hv | ->%list_elem_of_singleton]%elem_of_app; [|exact Hown].
      destruct (Hfk v Hv) as [o Ho]. exists o. by apply Hgrow.
  - intros key' Hne. simpl. unfold sql_object_get, version_row. cbn [ot_versions]. rewrite get_by_app.
    destruct (get_by sv_id key'.2 (ot_versions r)) as [v|] eqn:Ev; simpl.
    + destruct (Z.eqb_spec (sv_object_id v) key'.1); [|done]. simpl. f_equal. apply row_metadata_objects.
      apply get_by_Some in Ev as [Hin _]. destruct (Hfk v Hin) as [o Ho]. simpl. by rewrite Ho, (Hgrow _ _ Ho).
    + unfold get_by. simpl. destruct (Z.eqb_spec key.2 key'.2); [|done]. simpl. destruct (Z.eqb_spec key.1 key'.1); [|done].
      destruct key, key'; simpl in *; subst; done.
  - split.
    + unfold sql_object_get, version_row. cbn [ot_versions]. rewrite get_by_app, Hnew. unfold get_by. simpl.
      rewrite Z.eqb_refl. simpl. by rewrite Z.eqb_refl.
    + right. split; [done|]. repeat split. by destruct key.
Qed.

Lemma NoDup_map_eq {A B} (f : A -> B) l x y : NoDup (map f l) -> x ∈ l -> y ∈ l -> f x = f y -> x = y.
Proof.
  induction l as [|z l IH]; simpl; [set_solver|]. intros [Hz Hnd]%NoDup_cons.
  assert (Hmem : forall u, u ∈ l -> f u ∈ map f l).
  { intros u Hu. apply list_elem_of_In. apply in_map. by apply list_elem_of_In. }
  intros [->|Hx]%elem_of_cons [->|Hy]%elem_of_cons E; [done| | |by apply IH].
  - exfalso. apply Hz. rewrite E. by apply Hmem.
  - exfalso. apply Hz. rewrite <- E. by apply Hmem.
Qed.

Lemma map_filter_sublist {A B} (g : A -> B) f l : sublist (map g (List.filter f l)) (map g l).
Proof. induction l as [|x l IH]; simpl; [constructor|]. destruct (f x); by constructor. Qed.

#[export] Instance sql_object_laws : RepositoryLaws object_tables.
Proof.
  unshelve econstructor; [exact tables_inv|..]; simpl.
  - intros r key m _ (v & Hv & ->)%sql_object_get_row. apply version_row_Some in Hv as (_ & _ & Hid & Hoid).
    destruct key. unfold metadata_key. simpl in *. by rewrite Hid, Hoid.
  - intros r key purpose sk sha n kind at_ cid res r'. apply sql_create_law.
  - intros r key p pv at_ m Hi (v & Hv & ->)%sql_object_get_row Hs Hp Hpv. unfold sql_object_mark_available. rewrite Hv.
    simpl in Hs. rewrite bool_decide_eq_false_2 by (rewrite Hs; done). rewrite bool_decide_eq_false_2 by tauto.
    set (value := match pv with Some _ => _ | None => _ end).
    assert (value = p) as ->. { unfold value. destruct Hpv as [-> | ->]; [done|]. by case_bool_decide. }
    pose proof (version_row_Some key r v Hv) as (_ & _ & Hid & Hoid).
    destruct (save_row_law key r v (available_row p at_ v) Hi Hv Hid Hoid) as (I' & Hothers & Hget & Hobj).
    eexists _, _. split; [reflexivity|]. split; [exact I'|]. split; [exact Hothers|]. split; [exact Hget|].
    rewrite Hobj. split; [repeat split|]. split; [done|]. simpl. by rewrite bool_decide_eq_false_2.
  - intros r key code m Hi (v & Hv & ->)%sql_object_get_row Hs. unfold sql_object_mark_failed. rewrite Hv.
    simpl in Hs. rewrite bool_decide_eq_false_2 by (rewrite Hs; done).
    pose proof (version_row_Some key r v Hv) as (_ & _ & Hid & Hoid).
    destruct (save_row_law key r v (failed_row code v) Hi Hv Hid Hoid) as (I' & Hothers & Hget & Hobj).
    eexists _, _. split; [reflexivity|]. split; [exact I'|]. split; [exact Hothers|]. split; [exact Hget|].
    rewrite Hobj. repeat split.
  - intros r before [Hnd _]. split.
    + unfold sql_object_pending. apply (NoDup_fmap_1 snd). rewrite <- list_fmap_compose.
      eapply sublist_NoDup; [exact Hnd|apply map_filter_sublist].
    + intros key m Hin (v & Hv & ->)%sql_object_get_row. apply list_elem_of_In, in_map_iff in Hin as (v' & <- & Hv').
      apply filter_In in Hv' as [Hin' Hs]. apply andb_true_iff in Hs as [Hs%bool_decide_eq_true _].
      apply version_row_Some in Hv as (_ & Hin & Hid & _). simpl in Hid. apply list_elem_of_In in Hin'.
      assert (v = v') as ->; [|done]. eapply (NoDup_map_eq sv_id); eauto.
  - intros r before key m _ (v & Hv & ->)%sql_object_get_row Hs Hb. split; [|by unfold sql_object_get; rewrite Hv].
    apply version_row_Some in Hv as (_ & Hin & Hid & Hoid). unfold sql_object_pending. apply list_elem_of_In, in_map_iff.
    exists v. split; [by destruct key; simpl in *; subst|]. apply filter_In. split; [by apply list_elem_of_In|].
    simpl in Hs. rewrite bool_decide_eq_true_2 by done. simpl. destruct before as [b|]; [|done]. simpl in Hb. lia.
  - done.
  - intros r r' before key E. exact E.
Defined.
