(* ===== verification/ObjectTheory.v ===== *)
(** * Versioned objects keep their promises

    Over any repository and any store with their laws: the invariant of the service, what each
    operation may do to a version, and what a reconciliation settles. *)

From S2P Require Export ObjectLaws.
#[local] Open Scope list_scope.

Section theory.
Context {R O : Type} {repository : ObjectMetadataRepository R} {store : ObjectStore O} {digest_of : BytesDigest}
  {repository_laws : RepositoryLaws R} {store_laws : StoreLaws O}.
Variables release_id environment : string.
Implicit Types (s : sys (objects R O)) (m : ObjectVersionMetadata).

(** The store, as its own operations see it *)
Definition store_of s : sys O := Sys (os_store (state_of s)) (drawn s) (ticks s).
Abbreviation versions_at key s := (version_of key (state_of s)).

(** Bytes that the reference of a version answers with *)
Definition holds_bytes (o : O) (ref : string) m : Prop :=
  exists body, kept o ref body (ov_content_type m) /\ bytes_digest body = ov_sha256 m /\ len body = ov_size_bytes m.

Definition version_ok (o : O) m : Prop :=
  lower (ov_sha256 m) = ov_sha256 m /\ lower (strip (ov_content_type m)) = ov_content_type m
  /\ (ov_state m = "pending" \/ ov_state m = "failed"
      \/ ov_state m = "available" /\ exists ref, ov_provider_ref m = Some ref /\ holds_bytes o ref m).

Definition objects_inv (w : world) s : Prop :=
  store_inv w (store_of s) /\ repo_inv (os_repository (state_of s))
  /\ forall key m, versions_at key s = Some m -> version_ok (os_store (state_of s)) m.

(** What may become of a version: nothing, or a pending one is settled. *)
Definition version_step m m' : Prop :=
  m' = m \/ ov_state m = "pending" /\ same_version m m' /\ (ov_state m' = "available" \/ ov_state m' = "failed").

Definition objects_order (w : world) s s' : Prop :=
  objects_inv w s ->
  objects_inv w s' /\ (drawn s <= drawn s')%nat
  /\ forall key m, versions_at key s = Some m -> exists m', versions_at key s' = Some m' /\ version_step m m'.

Lemma same_version_trans m1 m2 m3 : same_version m1 m2 -> same_version m2 m3 -> same_version m1 m3.
Proof. unfold same_version. intuition congruence. Qed.

Lemma version_step_trans m1 m2 m3 : version_step m1 m2 -> version_step m2 m3 -> version_step m1 m3.
Proof.
  intros [-> | (H1 & H2 & H3)] [-> | (H4 & H5 & H6)]; unfold version_step; auto.
  right. split; [done|]. split; [by eapply same_version_trans|done].
Qed.

#[export] Instance objects_order_order : StateOrder objects_order.
Proof.
  split.
  - intros w s Hi. split; [done|]. split; [done|]. intros key m Hm. exists m. split; [done|by left].
  - intros w s1 s2 s3 H12 H23 Hi. destruct (H12 Hi) as (I2 & D2 & V2). destruct (H23 I2) as (I3 & D3 & V3).
    split; [done|]. split; [lia|]. intros key m1 (m2 & E2 & S2)%V2. destruct (V3 _ _ E2) as (m3 & E3 & S3).
    exists m3. split; [done|by eapply version_step_trans].
Qed.

(** ** Steps *)

Definition store_kept s s' : Prop :=
  forall ref body kind, kept (os_store (state_of s)) ref body kind -> kept (os_store (state_of s')) ref body kind.

Lemma holds_bytes_kept s s' ref m : store_kept s s' -> holds_bytes (os_store (state_of s)) ref m ->
  holds_bytes (os_store (state_of s')) ref m.
Proof. intros Hk (body & H1 & H2). exists body. auto. Qed.

Lemma version_ok_kept s s' m : store_kept s s' -> version_ok (os_store (state_of s)) m -> version_ok (os_store (state_of s')) m.
Proof.
  intros Hk (H1 & H2 & H3). split; [done|]. split; [done|].
  destruct H3 as [? | [? | (? & ref & ? & Hb)]]; auto. right. right. split; [done|]. exists ref. split; [done|].
  by eapply holds_bytes_kept.
Qed.

(** A step of the store leaves the versions alone. *)
Lemma wp_on_store {A} (m : M O A) w s (Q : result A -> sys (objects R O) -> Prop) :
  moves (store_order store_inv kept stored) m -> objects_inv w s ->
  (forall r s', m w (store_of s) = (r, store_of s') -> objects_inv w s' -> objects_order w s s' ->
    os_repository (state_of s') = os_repository (state_of s) -> store_kept s s' -> Q r s') ->
  wp (on_store m) w s Q.
Proof.
  intros Hm Hi HQ. apply wp_zoom. fold (store_of s). unfold wp. destruct (m w (store_of s)) as [r o] eqn:E.
  pose proof Hi as (Hs & Hr & Hv). destruct (moves_run _ _ _ _ _ _ Hm E Hs) as (Hs' & Hd & Hk & _).
  set (s' := Sys _ _ _). assert (Eo : store_of s' = o) by (by destruct o).
  assert (Hkept : store_kept s s') by exact Hk.
  assert (Hi' : objects_inv w s').
  { split; [by rewrite Eo|]. split; [exact Hr|]. intros key m' Hm'. by apply (version_ok_kept s), (Hv key). }
  apply HQ; [by rewrite Eo|done| |done|done].
  intros _. split; [done|]. split; [exact Hd|]. intros key m' Hm'. exists m'. split; [exact Hm'|by left].
Qed.

Lemma on_repository_eq {A} (f : R -> result A * R) w s : on_repository f w s =
  ((f (os_repository (state_of s))).1,
   Sys (MkObjects (f (os_repository (state_of s))).2 (os_store (state_of s)) (os_signals (state_of s))) (drawn s) (ticks s)).
Proof. unfold on_repository, zoom, pure_step. simpl. by destruct (f _). Qed.

(** A step of the repository that changes one version *)
Lemma repository_step w s r' key :
  objects_inv w s -> repo_inv r' -> others_kept key (os_repository (state_of s)) r' ->
  (forall m', repo_get key r' = Some m' -> version_ok (os_store (state_of s)) m') ->
  (forall m, versions_at key s = Some m -> exists m', repo_get key r' = Some m' /\ version_step m m') ->
  objects_order w s (Sys (MkObjects r' (os_store (state_of s)) (os_signals (state_of s))) (drawn s) (ticks s)).
Proof.
  intros (Hs & Hr & Hv) Hr' Ho Hok Hstep _. split; [split; [done|split; [done|]]|split; [done|]].
  - intros key' m'. unfold version_of. simpl. destruct (decide (key' = key)) as [->|Hne]; [by apply Hok|].
    rewrite Ho by done. apply Hv.
  - intros key' m Hm. unfold version_of in *. simpl. destruct (decide (key' = key)) as [->|Hne]; [by apply Hstep|].
    rewrite Ho by done. exists m. split; [done|by left].
Qed.

Definition others_same key s s' : Prop := forall key', key' <> key -> versions_at key' s' = versions_at key' s.

Lemma wp_mark_failed key code m w s (Q : result ObjectVersionMetadata -> sys (objects R O) -> Prop) :
  objects_inv w s -> versions_at key s = Some m -> ov_state m = "pending" ->
  (forall m' s', objects_order w s s' -> others_same key s s' -> versions_at key s' = Some m' ->
    same_version m m' -> ov_state m' = "failed" -> Q (Ok m') s') ->
  wp (on_repository (repo_mark_failed key code)) w s Q.
Proof.
  intros Hi Hm Hp HQ. unfold wp. rewrite on_repository_eq.
  destruct (repo_failed_law _ key code m (proj1 (proj2 Hi)) Hm Hp) as (m' & r' & -> & Hr' & Ho & Hg & Hsame & Hf).
  simpl. apply HQ; [|exact Ho|exact Hg|done|done]. apply (repository_step w s r' key); [done|done|done| |].
  - rewrite Hg. intros ? [= <-]. destruct (proj2 (proj2 Hi) key m Hm) as (H1 & H2 & _).
    destruct Hsame as (_ & _ & E1 & _ & E2 & _). unfold version_ok. rewrite E1, E2. auto.
  - intros ? E. simplify_eq. exists m'. split; [done|]. right. auto.
Qed.

Lemma wp_mark_available key ref pv at_ m w s (Q : result ObjectVersionMetadata -> sys (objects R O) -> Prop) :
  objects_inv w s -> versions_at key s = Some m -> ov_state m = "pending" ->
  ref <> "" -> pv = None \/ pv = Some ref -> holds_bytes (os_store (state_of s)) ref m ->
  (forall m' s', objects_order w s s' -> others_same key s s' -> versions_at key s' = Some m' ->
    same_version m m' -> ov_state m' = "available" -> Q (Ok m') s') ->
  wp (on_repository (repo_mark_available key ref pv at_)) w s Q.
Proof.
  intros Hi Hm Hp Href Hpv Hb HQ. unfold wp. rewrite on_repository_eq.
  destruct (repo_available_law _ key ref pv at_ m (proj1 (proj2 Hi)) Hm Hp Href Hpv)
    as (m' & r' & -> & Hr' & Ho & Hg & Hsame & Ha & Hpr & _).
  simpl. apply HQ; [|exact Ho|exact Hg|done|done]. apply (repository_step w s r' key); [done|done|done| |].
  - rewrite Hg. intros ? [= <-]. destruct (proj2 (proj2 Hi) key m Hm) as (H1 & H2 & _).
    pose proof Hsame as (_ & _ & E1 & E3 & E2 & _). unfold version_ok. rewrite E1, E2.
    split; [done|]. split; [done|]. right. right. split; [done|]. exists ref. split; [done|].
    destruct Hb as (body & B1 & B2 & B3). exists body. rewrite E1, E2, E3. auto.
  - intros ? E. simplify_eq. exists m'. split; [done|]. right. auto.
Qed.

(** ** Writing *)

(** A reference that [stat] has verified against a version *)
Definition verified_bytes (o : O) (ref : string) (info : ObjectInfo) m : Prop :=
  ref <> "" /\ (oi_provider_version info = None \/ oi_provider_version info = Some ref) /\ holds_bytes o ref m.

Lemma stat_verifies w s ref info s' m : store_inv w (store_of s) -> object_stat ref w (store_of s) = (Ok info, store_of s') ->
  info_differs info (ov_sha256 m) (ov_size_bytes m) (ov_content_type m) = false ->
  verified_bytes (os_store (state_of s')) ref info m.
Proof.
  intros Hi E Hd. destruct (stat_shows _ _ _ _ _ Hi E) as (body & Hk & Hsha & Hsize & Href & Hpv).
  unfold info_differs in Hd. apply orb_false_iff in Hd as [Hd Hkind]. apply orb_false_iff in Hd as [Hd1 Hd2].
  apply negb_false_iff in Hd1, Hd2, Hkind. apply bool_decide_eq_true in Hd1, Hkind. apply Z.eqb_eq in Hd2.
  split; [done|]. split; [done|]. exists body. rewrite <- Hkind. split; [exact Hk|]. split; congruence.
Qed.

Lemma wp_write_bytes key storage_key raw m w s (Q : result (string * ObjectInfo) -> sys (objects R O) -> Prop) :
  objects_inv w s -> versions_at key s = Some m -> ov_state m = "pending" ->
  (forall ref info s', objects_order w s s' -> objects_inv w s' -> versions_at key s' = Some m ->
     verified_bytes (os_store (state_of s')) ref info m -> Q (Ok (ref, info)) s') ->
  (forall e s', objects_order w s s' -> Q (Raise e) s') ->
  wp (write_bytes key storage_key raw (ov_sha256 m) (ov_size_bytes m) (ov_content_type m)) w s Q.
Proof.
  intros Hi Hm Hp HOk HRaise. apply wp_try.
  assert (Hfail : forall e s', objects_order w s s' -> objects_inv w s' -> versions_at key s' = Some m ->
    wp (match e with
        | ObjectVersionConflict => raise e
        | _ => _ ← on_repository (repo_mark_failed key (default "object.write_failed" (exn_code e))); raise e
        end) w s' Q).
  { intros e s' Ho Hi' Hm'.
    assert (Hmark : wp (_ ← on_repository (repo_mark_failed key (default "object.write_failed" (exn_code e)));
                        (@raise (objects R O) (string * ObjectInfo) e)) w s' Q).
    { apply wp_bind. eapply wp_mark_failed; [done|done|done|]. intros m' s2 Ho2 _ _ _ _. apply wp_raise, HRaise.
      by eapply order_trans. }
    destruct e; first [exact Hmark | by apply wp_raise, HRaise]. }
  apply wp_bind, wp_on_store; [apply put_moves|done|]. intros [ref|e] s1 E1 Hi1 Ho1 Hr1 Hk1.
  2:{ apply Hfail; [done|done|]. unfold version_of in *. by rewrite Hr1. }
  apply wp_bind, wp_on_store; [apply stat_moves|done|]. intros [info|e] s2 E2 Hi2 Ho2 Hr2 Hk2;
    (assert (Hm2 : versions_at key s2 = Some m) by (unfold version_of in *; by rewrite Hr2, Hr1));
    (assert (Ho : objects_order w s s2) by (by eapply order_trans)).
  2:{ by apply Hfail. }
  unfold _ensure_info_match. destruct (info_differs _ _ _ _) eqn:Hd; [by apply Hfail|].
  apply wp_ret, HOk; [done|done|done|]. eapply stat_verifies; [apply Hi1|exact E2|exact Hd].
Qed.

Lemma wp_create_pending key purpose sk sha n kind at_ cid w s (Q : result ObjectVersionMetadata -> sys (objects R O) -> Prop) :
  objects_inv w s -> lower sha = sha -> lower (strip kind) = kind ->
  (forall m s', objects_order w s s' -> objects_inv w s' -> versions_at key s' = Some m ->
     versions_at key s = Some m \/ created_version key sk sha n kind at_ m -> Q (Ok m) s') ->
  (forall e s', objects_order w s s' -> Q (Raise e) s') ->
  wp (on_repository (repo_create_pending key purpose sk sha n kind at_ cid)) w s Q.
Proof.
  intros Hi Hsha Hkind HOk HRaise. unfold wp. rewrite on_repository_eq.
  destruct (repo_create_pending key purpose sk sha n kind at_ cid (os_repository (state_of s))) as [res r'] eqn:E.
  destruct (repo_create_law _ _ _ _ _ _ _ _ _ _ _ (proj1 (proj2 Hi)) E) as (Hr' & Ho & Hres). simpl.
  assert (Hord : objects_order w s (Sys (MkObjects r' (os_store (state_of s)) (os_signals (state_of s))) (drawn s) (ticks s))).
  { apply (repository_step w s r' key); [done|done|done| |].
    - intros m' Hm'. destruct res as [m|e].
      + destruct Hres as [Hg Hres]. assert (m' = m) as -> by congruence. destruct Hres as [Hold|(_ & Hnew)].
        * by apply (proj2 (proj2 Hi) key).
        * destruct Hnew as (_ & Hs & _ & Es & _ & Ek & _). unfold version_ok. rewrite Es, Ek. auto.
      + rewrite Hres in Hm'. by apply (proj2 (proj2 Hi) key).
    - intros m Hm. unfold version_of in Hm. exists m. split; [|by left].
      destruct res as [m'|e]; [|congruence]. destruct Hres as [Hg [Hold|[Hnone _]]]; congruence. }
  destruct res as [m|e]; [|by apply HRaise]. destruct Hres as [Hg Hres].
  apply HOk; [exact Hord|by apply Hord|exact Hg|]. destruct Hres as [?|[_ ?]]; auto.
Qed.

(** What a reference promises of the version it names *)
Definition refers_to (ref : ObjectVersionRef) (digest : string) (size : Z) s : Prop :=
  exists m, versions_at (or_object_id ref, or_version_id ref) s = Some m /\ ov_state m = "available"
    /\ metadata_ref m = Ok ref /\ ov_sha256 m = digest /\ ov_size_bytes m = size.

Lemma metadata_ref_key m ref : metadata_ref m = Ok ref -> (or_object_id ref, or_version_id ref) = metadata_key m.
Proof.
  unfold metadata_ref, ObjectVersionRef_init. repeat (case_match; [done|]). by intros [= <-].
Qed.

(** Time passing and identifiers being drawn change nothing. *)
Lemma later_order w s n t : objects_inv w s -> (drawn s <= n)%nat ->
  objects_inv w (Sys (state_of s) n t) /\ objects_order w s (Sys (state_of s) n t).
Proof.
  intros (Hs & Hr & Hv) Hn.
  assert (Hi : objects_inv w (Sys (state_of s) n t)) by (split; [by apply (store_later w (store_of s))|done]).
  split; [done|]. intros _. split; [done|]. split; [done|]. intros key m Hm. exists m. split; [exact Hm|by left].
Qed.

Lemma known_version_law m digest size kind intact known : known_version (Some m) digest size kind intact = Ok known ->
  intact = true /\ ov_sha256 m = digest /\ ov_size_bytes m = size /\ ov_content_type m = kind /\
  ((ov_state m = "available" /\ exists ref, known = Some ref /\ metadata_ref m = Ok ref)
   \/ known = None /\ ov_state m <> "available" /\ ov_state m <> "failed").
Proof.
  unfold known_version, _ensure_metadata_match. destruct (differs _ _ _ _) eqn:Hdiff; [done|]. unfold differs in Hdiff.
  apply orb_false_iff in Hdiff as [Hdiff D3]. apply orb_false_iff in Hdiff as [D1 D2].
  apply negb_false_iff in D1, D2, D3. apply bool_decide_eq_true in D1, D3. apply Z.eqb_eq in D2.
  simpl. destruct intact; [|done]. simpl. intros Hknown. do 4 (split; [done|]).
  destruct (bool_decide (ov_state m = "available")) eqn:Ha.
  - apply bool_decide_eq_true in Ha. left. split; [done|]. apply result_bind_Ok in Hknown as (ref & Hr & [= <-]). by exists ref.
  - destruct (bool_decide (ov_state m = "failed")) eqn:Hf; [done|]. injection Hknown as <-.
    apply bool_decide_eq_false in Ha, Hf. by right.
Qed.

(** A [put] that the version it finds refuses *)
Lemma put_refused key raw content_type purpose correlation w s kind e :
  _normalize_content_type content_type = Ok kind -> lower (bytes_digest raw) = bytes_digest raw ->
  known_version (versions_at key s) (bytes_digest raw) (len raw) kind true = Raise e ->
  objects_put release_id environment key raw None None content_type purpose correlation w s = (Raise e, s).
Proof.
  intros Hk Hlow Hv. unfold objects_put. cbn [default]. rewrite Hlow, Hk, bool_decide_eq_true_2, Z.eqb_refl by done. cbn [andb].
  erewrite M_bind_run by reflexivity. erewrite M_bind_run by reflexivity. apply M_bind_raise. unfold lift. by rewrite Hv.
Qed.

Lemma versions_key key m w s : objects_inv w s -> versions_at key s = Some m -> metadata_key m = key.
Proof. intros (_ & Hr & _) Hm. by eapply repo_key. Qed.

Lemma wp_correlation (correlation : option Z) w s {B} (f : Z -> M (objects R O) B) (Q : result B -> sys (objects R O) -> Prop) :
  objects_inv w s ->
  (forall c s', objects_inv w s' -> objects_order w s s' -> os_repository (state_of s') = os_repository (state_of s) ->
     wp (f c) w s' Q) ->
  wp (c ← (match correlation with Some c => mret c | None => uuid4 end); f c) w s Q.
Proof.
  intros Hi HQ. destruct correlation as [c|].
  - apply wp_bind, wp_ret, HQ; [done|apply order_refl|done].
  - apply wp_uuid4. destruct (later_order w s (S (drawn s)) (ticks s) Hi) as [Hi' Ho]; [lia|]. by apply HQ.
Qed.

(** The part of [put] after the checks: the version [m] is pending under its key. *)
Lemma wp_put_bytes key raw storage_key m w s : objects_inv w s -> versions_at key s = Some m -> ov_state m = "pending" ->
  wp ('(provider_ref, info) ← write_bytes key storage_key raw (ov_sha256 m) (ov_size_bytes m) (ov_content_type m);
      available_at ← clock;
      m ← on_repository (repo_mark_available key provider_ref (oi_provider_version info) available_at);
      _ ← modify (fun x => MkObjects (os_repository x) (os_store x) (os_signals x ++ [put_signal release_id environment m]));
      lift (metadata_ref m)) w s (fun r s' => objects_order w s s' /\
    match r with
    | Ok ref => (or_object_id ref, or_version_id ref) = key /\ refers_to ref (ov_sha256 m) (ov_size_bytes m) s'
    | Raise _ => True
    end).
Proof.
  intros Hi Hm Hp. apply wp_bind. apply (wp_write_bytes key _ raw m); [done|done|done| |done].
  intros ref info s1 Ho1 Hi1 Hm1 (Href & Hpv & Hb). apply wp_clock.
  destruct (later_order w s1 (drawn s1) (S (ticks s1)) Hi1 ltac:(lia)) as [Hi2 Ho2].
  apply wp_bind. eapply (wp_mark_available key ref _ _ m); [done|exact Hm1|done|done|done|exact Hb|].
  intros m' s3 Ho3 _ Hm3 Hsame Ha. apply wp_bind.
  assert (Ho13 : objects_order w s s3) by (eapply order_trans; [exact Ho1|]; by eapply order_trans).
  unfold wp, modify. cbn [state_of]. set (s4 := Sys (MkObjects _ _ _) _ _).
  assert (Ho4 : objects_order w s s4).
  { intros Hi0. destruct (Ho13 Hi0) as (I3 & D3 & V3). split; [exact I3|]. split; [exact D3|exact V3]. }
  unfold lift. destruct (metadata_ref m') as [out|e] eqn:Hout; (split; [done|]); [|done].
  pose proof (metadata_ref_key m' out Hout) as Hkey. destruct Hsame as (Hmk & _ & S1 & S2 & _).
  pose proof (versions_key key m w s1 Hi1 Hm1) as Hmk'.
  split; [congruence|]. exists m'. rewrite Hkey, Hmk, Hmk'. split; [exact Hm3|]. split; [done|]. split; [done|]. split; congruence.
Qed.

Lemma wp_objects_put key raw sha256 size_bytes content_type purpose correlation w s :
  objects_inv w s ->
  wp (objects_put release_id environment key raw sha256 size_bytes content_type purpose correlation) w s (fun r s' =>
    objects_order w s s' /\
    match r with
    | Ok ref => (or_object_id ref, or_version_id ref) = key /\ refers_to ref (bytes_digest raw) (len raw) s'
    | Raise _ => True
    end).
Proof.
  intros Hi. unfold objects_put. set (declared := lower _). set (size := default _ _). set (intact := _ && _).
  apply wp_lift; [|by intros e _; split; [apply order_refl|]]. intros kind Hkind.
  assert (Hk : lower (strip kind) = kind).
  { unfold _normalize_content_type in Hkind. destruct (_ || _); [done|]. injection Hkind as <-.
    by rewrite strip_lower_strip, lower_idemp. }
  apply wp_gets, wp_lift; [|by intros e _; split; [apply order_refl|]]. intros known Hknown.
  assert (Hint : intact = true -> declared = bytes_digest raw /\ size = len raw).
  { intros [? ?%Z.eqb_eq]%andb_true_iff. split; [by eapply bool_decide_eq_true|done]. }
  destruct known as [ref|].
  - apply wp_ret. split; [apply order_refl|]. destruct (versions_at key s) as [m|] eqn:Hm; [|done].
    apply known_version_law in Hknown as (Hin & E1 & E2 & _ & [(Ha & ref' & [= <-] & Hr)|[? _]]); [|done].
    destruct (Hint Hin) as [E3 E4]. pose proof (metadata_ref_key m ref Hr) as Hkey.
    pose proof (versions_key key m w s Hi Hm) as Hmk. split; [congruence|].
    exists m. rewrite Hkey, Hmk. do 3 (split; [done|]). split; congruence.
  - destruct intact eqn:Hin; cbn [negb]; [|apply wp_raise; split; [apply order_refl|done]]. destruct (Hint eq_refl) as [Ed Es].
    apply wp_clock. destruct (later_order w s (drawn s) (S (ticks s)) Hi ltac:(lia)) as [Hi1 Ho1].
    apply wp_correlation; [done|]. intros cid s2 Hi2 Ho2 Hr2.
    assert (Ho12 : objects_order w s s2) by (by eapply order_trans).
    apply wp_bind, wp_create_pending; [done|apply lower_idemp|done| |by intros e s3 Ho3; split; [by eapply order_trans|]].
    intros m s3 Ho3 Hi3 Hm3 Hwhich.
    assert (Hm : ov_state m = "pending" /\ ov_sha256 m = declared /\ ov_size_bytes m = size /\ ov_content_type m = kind).
    { destruct Hwhich as [Hwas|(_ & ? & _ & ? & ? & ? & _)]; [|done]. unfold version_of in Hwas. rewrite Hr2 in Hwas.
      change (versions_at key s = Some m) in Hwas. rewrite Hwas in Hknown.
      apply known_version_law in Hknown as (_ & E1 & E2 & E3 & [(_ & ref' & ? & _)|(_ & Ha & Hf)]); [done|].
      destruct (proj2 (proj2 Hi) key m Hwas) as (_ & _ & [?|[?|[? _]]]); done. }
    destruct Hm as (Hp & <- & <- & <-). rewrite <- Ed, <- Es. eapply wp_mono; [by apply wp_put_bytes|].
    intros r s4 [Ho4 Hres]. split; [by eapply order_trans; [exact Ho12|]; eapply order_trans|exact Hres].
Qed.

(** ** Reading *)

Lemma on_store_moves {A} (m : M O A) : moves (store_order store_inv kept stored) m -> moves objects_order (on_store m).
Proof.
  intros Hm w s Hi. pose proof (wp_on_store m w s (fun _ s' => objects_order w s s') Hm Hi ltac:(auto)) as Hw.
  unfold wp in Hw. destruct (on_store m w s) as [r s']. by apply Hw.
Qed.

Lemma verified_moves ref : moves objects_order (verified ref).
Proof.
  unfold verified, _available.
  repeat (first [moves_step | apply on_store_moves, stat_moves | case_match]).
Qed.
Lemma objects_open_moves ref : moves objects_order (objects_open ref).
Proof. unfold objects_open. moves_step; [apply verified_moves|]. destruct a as [? ?]. apply on_store_moves, open_moves. Qed.
Lemma objects_stat_moves ref : moves objects_order (objects_stat ref).
Proof. unfold objects_stat. moves_step; [apply verified_moves|]. destruct a as [? ?]. moves_step. Qed.

(** What [open] has verified of the version before it reads the bytes *)
Lemma refers_to_version ref digest size w s : objects_inv w s -> refers_to ref digest size s ->
  exists m pref body, versions_at (or_object_id ref, or_version_id ref) s = Some m /\ ov_state m = "available"
    /\ ov_provider_ref m = Some pref /\ kept (os_store (state_of s)) pref body (ov_content_type m)
    /\ bytes_digest body = digest /\ len body = size
    /\ or_sha256 ref = digest /\ or_size_bytes ref = size /\ or_content_type ref = ov_content_type m
    /\ ov_sha256 m = digest /\ ov_size_bytes m = size.
Proof.
  intros Hi (m & Hm & Ha & Hr & <- & <-).
  destruct (proj2 (proj2 Hi) _ m Hm) as (Hlow & Hkind & [Hs|[Hs|(_ & pref & Hp & body & Hk & Hd & Hl)]]);
    [by rewrite Ha in Hs..|].
  assert (Hfields : or_sha256 ref = ov_sha256 m /\ or_size_bytes ref = ov_size_bytes m /\ or_content_type ref = ov_content_type m).
  { unfold metadata_ref, ObjectVersionRef_init in Hr. rewrite Hlow, Hkind in Hr. repeat (case_match; [done|]). by injection Hr as <-. }
  destruct Hfields as (F1 & F2 & F3). by exists m, pref, body.
Qed.

(** The bytes [open] returns are those of the version. *)
Lemma refers_to_opened ref digest size w s body s' : objects_inv w s -> refers_to ref digest size s ->
  objects_open ref w s = (Ok body, s') -> bytes_digest body = digest /\ len body = size.
Proof.
  intros Hi Hr E. destruct (refers_to_version _ _ _ _ _ Hi Hr) as (m & pref & body0 & Hm & Ha & Hp & Hk & Hd & Hl & F1 & F2 & F3 & E1 & E2).
  assert (Hopen : wp (objects_open ref) w s (fun r _ => match r with Ok b => b = body0 | Raise _ => True end)).
  { unfold objects_open, verified, _available. do 2 apply wp_bind. apply wp_gets. rewrite Hm.
    rewrite bool_decide_eq_false_2 by tauto.
    apply wp_lift; [intros _ _|done]. apply wp_ret. rewrite Hp. apply wp_bind.
    apply wp_on_store; [apply stat_moves|done|]. intros [info|e] s1 Es Hi1 Ho1 Hr1 Hk1; [|done].
    apply wp_lift; [intros _ _|done]. apply wp_ret.
    apply wp_on_store; [apply open_moves|done|]. intros [b|e] s2 E3 _ _ _ Hk2; [|done].
    destruct (open_shows w (store_of s1) pref b _ (proj1 Hi1) E3) as (kind & Hb).
    exact (proj1 (kept_unique _ _ _ _ _ _ Hb (Hk2 _ _ _ (Hk1 _ _ _ Hk)))). }
  unfold wp in Hopen. rewrite E in Hopen. by subst.
Qed.

(** An available version opens with the bytes it was verified against, when the store answers. *)
Lemma refers_to_opens {answers : StoreAnswers O} ref digest size w s : objects_inv w s -> refers_to ref digest size s ->
  exists body s', objects_open ref w s = (Ok body, s') /\ bytes_digest body = digest /\ len body = size.
Proof.
  intros Hi Hr. destruct (refers_to_version _ _ _ _ _ Hi Hr) as (m & pref & body & Hm & Ha & Hp & Hk & Hd & Hl & F1 & F2 & F3 & D1 & D2).
  destruct (stat_kept w (store_of s) pref body (ov_content_type m) (proj1 Hi) Hk) as (info & o1 & E1 & I1 & I2 & I3).
  assert (Hopen : wp (objects_open ref) w s (fun r _ => r = Ok body)).
  { unfold objects_open, verified, _available. do 2 apply wp_bind. apply wp_gets. rewrite Hm.
    rewrite bool_decide_eq_false_2 by tauto. rewrite F1, F2, F3.
    unfold _ensure_metadata_match, differs. rewrite !bool_decide_eq_true_2, (proj2 (Z.eqb_eq _ _) D2) by done. cbn [negb orb].
    apply wp_lift; [intros _ _|done]. apply wp_ret. rewrite Hp. apply wp_bind.
    apply wp_on_store; [apply stat_moves|done|]. intros r s1 E Hi1 Ho1 Hr1 Hk1. rewrite E1 in E. injection E as <- ->.
    unfold _ensure_info_match, info_differs. rewrite I1, I2, I3, Hd, Hl, !bool_decide_eq_true_2, Z.eqb_refl by done. cbn [negb orb].
    apply wp_lift; [intros _ _|done]. apply wp_ret.
    apply wp_on_store; [apply open_moves|done|]. intros r s2 E2 _ _ _ _.
    destruct (open_kept w (store_of s1) pref body _ (proj1 Hi1) (Hk1 _ _ _ Hk)) as (o2 & E3). rewrite E3 in E2. by injection E2 as <- _. }
  unfold wp in Hopen. destruct (objects_open ref w s) as [r s'] eqn:E. subst r. by exists body, s'.
Qed.

(** What a reference refers to does not change. *)
Lemma refers_to_later ref digest size w s s' : objects_inv w s -> objects_order w s s' ->
  refers_to ref digest size s -> refers_to ref digest size s'.
Proof.
  intros Hi Ho (m & Hm & Ha & Hr & Hd & Hs). destruct (Ho Hi) as (_ & _ & Hv).
  destruct (Hv _ m Hm) as (m' & Hm' & [-> | (Hp & _)]); [by exists m|congruence].
Qed.

(** ** Reconciliation *)

Definition settled (m : ObjectVersionMetadata) (outcome : settlement) (m' : ObjectVersionMetadata) : Prop :=
  match outcome with
  | Completed => same_version m m' /\ ov_state m' = "available"
  | Failed => same_version m m' /\ ov_state m' = "failed"
  | StillPending => m' = m
  end.

Lemma wp_settle_failed key code m w s (Q : result settlement -> sys (objects R O) -> Prop) :
  objects_inv w s -> versions_at key s = Some m -> ov_state m = "pending" ->
  (forall m' s', objects_order w s s' -> others_same key s s' -> versions_at key s' = Some m' -> settled m Failed m' -> Q (Ok Failed) s') ->
  wp (settle_failed key code) w s Q.
Proof.
  intros Hi Hm Hp HQ. unfold settle_failed. apply wp_bind. eapply wp_mark_failed; [done|done|done|].
  intros m' s' Ho Hothers Hm' Hsame Hf. apply wp_ret. by eapply HQ.
Qed.

Lemma others_same_repository key s s' : os_repository (state_of s') = os_repository (state_of s) -> others_same key s s'.
Proof. intros E key' _. unfold version_of. by rewrite E. Qed.
Lemma others_same_trans key s1 s2 s3 : others_same key s1 s2 -> others_same key s2 s3 -> others_same key s1 s3.
Proof. intros H12 H23 key' Hne. by rewrite H23, H12. Qed.

(** With an age limit, a version that was created before it is not left pending. *)
Definition limit_allows (now : Z) (max_age : option Z) m (outcome : settlement) : Prop :=
  outcome = StillPending -> match max_age with Some a => a <=? now - ov_created_at m | None => false end = false.

Definition one_settled (now : Z) (max_age : option Z) key m w s (r : result settlement) s' : Prop :=
  objects_order w s s' /\ others_same key s s' /\
  match r with
  | Ok outcome => limit_allows now max_age m outcome /\ exists m', versions_at key s' = Some m' /\ settled m outcome m'
  | Raise _ => True
  end.

(** The [except] clauses settle the version or leave it. *)
Definition found_settled (now : Z) (max_age : option Z) key m w s (r : result (ObjectInfo + settlement)) s' : Prop :=
  match r with
  | Ok found => exists outcome, found = inr outcome /\ one_settled now max_age key m w s (Ok outcome) s'
  | Raise e => one_settled now max_age key m w s (Raise e) s'
  end.

Lemma one_settled_before now max_age key m w s0 s r s' : objects_order w s0 s ->
  os_repository (state_of s) = os_repository (state_of s0) ->
  one_settled now max_age key m w s r s' -> one_settled now max_age key m w s0 r s'.
Proof.
  intros Ho Hr (H1 & H2 & H3). split; [by eapply order_trans|]. split; [|done].
  eapply others_same_trans; [by apply others_same_repository|done].
Qed.

Lemma wp_unreadable now max_age key m e w s : objects_inv w s -> versions_at key s = Some m -> ov_state m = "pending" ->
  wp (unreadable now max_age m e) w s (found_settled now max_age key m w s).
Proof.
  intros Hi Hm Hp.
  assert (Hfail : forall code, wp (outcome ← settle_failed key code; mret (inr outcome)) w s (found_settled now max_age key m w s)).
  { intros code. apply wp_bind. eapply wp_settle_failed; [done|done|done|]. intros m' s' Ho Hothers Hm' Hset.
    apply wp_ret. exists Failed. split; [done|]. split; [done|]. split; [done|]. split; [by intros ?|by exists m']. }
  assert (Hraise : forall e, wp (@raise (objects R O) (ObjectInfo + settlement) e) w s (found_settled now max_age key m w s)).
  { intros e'. apply wp_raise. split; [apply order_refl|done]. }
  unfold unreadable. rewrite (versions_key key m w s Hi Hm). destruct e; first [apply Hraise | apply Hfail | idtac].
  destruct (match max_age with Some a => _ | None => false end) eqn:El; [by apply Hfail|].
  apply wp_ret. exists StillPending. split; [done|]. split; [apply order_refl|]. split; [done|]. split; [by intros _|by exists m].
Qed.

Lemma wp_reconcile_one now max_age key m w s : objects_inv w s -> versions_at key s = Some m -> ov_state m = "pending" ->
  wp (reconcile_one now max_age m) w s (one_settled now max_age key m w s).
Proof.
  intros Hi Hm Hp. unfold reconcile_one. apply wp_bind.
  assert (Href : wp (match ov_provider_ref m with Some p => mret p | None => on_store (ref_for_key (ov_storage_key m)) end) w s
    (fun _ s' => objects_inv w s' /\ objects_order w s s' /\ os_repository (state_of s') = os_repository (state_of s))).
  { destruct (ov_provider_ref m) as [p|]; [apply wp_ret; split; [done|split; [apply order_refl|done]]|].
    by apply wp_on_store; [apply ref_moves|done|]. }
  eapply wp_mono; [exact Href|]. clear Href. intros r s1 (Hi1 & Ho1 & Hr1).
  destruct r as [pref|e]; [|by split; [done|split; [by apply others_same_repository|]]].
  apply wp_bind, wp_try, wp_bind, wp_on_store; [apply stat_moves|done|]. intros r s2 E2 Hi2 Ho2 Hr2 Hk2.
  assert (Ho02 : objects_order w s s2) by (by eapply order_trans).
  assert (Hr02 : os_repository (state_of s2) = os_repository (state_of s)) by congruence.
  assert (Hm2 : versions_at key s2 = Some m) by (unfold version_of in *; by rewrite Hr02).
  assert (Hexcept : forall e, wp (unreadable now max_age m e) w s2 (fun r s3 =>
    match r with
    | Ok (inr outcome) => one_settled now max_age key m w s (Ok outcome) s3
    | Ok (inl _) => False
    | Raise e => one_settled now max_age key m w s (Raise e) s3
    end)).
  { intros e. eapply wp_mono; [by eapply (wp_unreadable now max_age key)|]. intros [found|e'] s3 Hres.
    - destruct Hres as (outcome & -> & Hres). by eapply one_settled_before.
    - by eapply one_settled_before. }
  destruct r as [info|e].
  2:{ eapply wp_mono; [apply Hexcept|]. intros [[]|e'] s3 Hres; [done|by apply wp_ret|done]. }
  unfold _ensure_info_match. destruct (info_differs _ _ _ _) eqn:Hd.
  { apply wp_bind. unfold wp at 1, lift. eapply (wp_mono _ w s2); [exact (Hexcept ObjectIntegrityError)|].
    intros [[]|e'] s3 Hres; [done|by apply wp_ret|done]. }
  apply wp_lift; [intros _ _|done]. apply wp_ret, wp_bind.
  destruct (stat_verifies w s1 pref info s2 m (proj1 Hi1) E2 Hd) as (Hpref & Hpv & Hb).
  rewrite (versions_key key m w s Hi Hm).
  eapply wp_mark_available; [done|exact Hm2|done|done|done|exact Hb|]. intros m' s3 Ho3 Hothers Hm3 Hsame Ha.
  apply wp_ret. eapply one_settled_before; [exact Ho02|exact Hr02|].
  split; [done|]. split; [done|]. split; [by intros ?|]. by exists m'.
Qed.

(** ** A whole pass *)

Abbreviation next_at before key s := (repo_next before key (os_repository (state_of s))).
Abbreviation state_at key s := (ov_state <$> versions_at key s).

(** How many of the versions the pass goes through are in a state at its end *)
Definition ended_in (before : option Z) s s' (state : string) (keys : list version_key) : Z :=
  Z.of_nat (length (List.filter (fun key => bool_decide (is_Some (next_at before key s))
                                            && bool_decide (state_at key s' = Some state)) keys)).

Definition pass_settled (now : Z) (max_age before : option Z) keys c w s (r : result ReconciliationResult) s' : Prop :=
  objects_order w s s' /\ (forall key, key ∉ keys -> versions_at key s' = versions_at key s) /\
  match r with
  | Ok c' =>
      rc_completed c' = rc_completed c + ended_in before s s' "available" keys
      /\ rc_failed c' = rc_failed c + ended_in before s s' "failed" keys
      /\ rc_pending c' = rc_pending c + ended_in before s s' "pending" keys
      /\ forall key m, key ∈ keys -> next_at before key s = Some m ->
           exists outcome m', limit_allows now max_age m outcome /\ versions_at key s' = Some m' /\ settled m outcome m'
  | Raise _ => True
  end.

Lemma ended_in_cons before s s' state key keys : ended_in before s s' state (key :: keys)
  = (if bool_decide (is_Some (next_at before key s)) && bool_decide (state_at key s' = Some state) then 1 else 0)
    + ended_in before s s' state keys.
Proof. unfold ended_in. simpl. destruct (_ && _); simpl; lia. Qed.

Lemma ended_in_frame before s1 s2 s' state keys : Forall (fun key => next_at before key s1 = next_at before key s2) keys ->
  ended_in before s1 s' state keys = ended_in before s2 s' state keys.
Proof.
  induction 1 as [|key keys E _ IH]; [done|]. by rewrite !ended_in_cons, IH, E.
Qed.

(** The counters move with the state a settlement leaves. *)
Lemma count_settled c outcome m m' : ov_state m = "pending" -> settled m outcome m' ->
  let ends state : Z := if bool_decide (ov_state m' = state) then 1 else 0 in
  rc_completed (count_settlement c outcome) = rc_completed c + ends "available"
  /\ rc_failed (count_settlement c outcome) = rc_failed c + ends "failed"
  /\ rc_pending (count_settlement c outcome) = rc_pending c + ends "pending".
Proof.
  intros Hp Hset ends. unfold ends. destruct outcome; simpl in Hset.
  - destruct Hset as [_ ->]. simpl. lia.
  - destruct Hset as [_ ->]. simpl. lia.
  - subst m'. rewrite Hp. simpl. lia.
Qed.

Lemma wp_reconcile_each now max_age before keys c w s : objects_inv w s -> NoDup keys ->
  (forall key m, key ∈ keys -> next_at before key s = Some m -> ov_state m = "pending") ->
  wp (reconcile_each now max_age before keys c) w s (pass_settled now max_age before keys c w s).
Proof.
  revert c s. induction keys as [|key keys IH]; intros c s Hi Hnd Hpend; simpl.
  { apply wp_ret. split; [apply order_refl|]. split; [done|]. unfold ended_in. simpl.
    do 3 (split; [lia|]). intros key m Hin. by apply not_elem_of_nil in Hin. }
  apply NoDup_cons in Hnd as [Hnot Hnd]. apply wp_gets. destruct (next_at before key s) as [m|] eqn:Hn.
  - pose proof (repo_next_law _ _ _ _ Hn) as Hm. pose proof (Hpend key m ltac:(set_solver) Hn) as Hp. apply wp_bind.
    eapply wp_mono; [by apply (wp_reconcile_one now max_age key)|]. intros [outcome|e] s1 (Ho1 & Hothers & Hone).
    2:{ split; [done|]. split; [|done]. intros key' Hk. apply Hothers. set_solver. }
    destruct Hone as (Hlim & m1 & Hm1 & Hset). destruct (Ho1 Hi) as (Hi1 & _).
    assert (Hframe : forall key', key' ∈ keys -> next_at before key' s1 = next_at before key' s).
    { intros key' Hin. apply repo_next_frame, Hothers. set_solver. }
    eapply wp_mono.
    { apply (IH (count_settlement c outcome) s1 Hi1 Hnd). intros key' m' Hin. rewrite Hframe by done. apply Hpend. set_solver. }
    intros r s' (Ho & Hrest & Hres). split; [by eapply order_trans|]. split.
    { intros key' Hk. rewrite Hrest by set_solver. apply Hothers. set_solver. }
    destruct r as [c'|e]; [|done]. destruct Hres as (R1 & R2 & R3 & Rall).
    assert (Hend : versions_at key s' = Some m1) by (by rewrite Hrest).
    destruct (count_settled c outcome m m1 Hp Hset) as (C1 & C2 & C3).
    assert (Hf : Forall (fun k => next_at before k s1 = next_at before k s) keys) by (by apply Forall_forall).
    rewrite !ended_in_cons, Hn, Hend. rewrite !(ended_in_frame before s1 s) in * by exact Hf.
    rewrite bool_decide_eq_true_2 by (by eexists). cbn [andb fmap option_fmap option_map].
    assert (Hst : forall state, bool_decide (Some (ov_state m1) = Some state) = bool_decide (ov_state m1 = state)).
    { intros state. apply bool_decide_ext. split; [by intros [= ->]|by intros ->]. }
    rewrite !Hst. split; [lia|]. split; [lia|]. split; [lia|].
    intros key' m' [->|Hin]%elem_of_cons Hn'.
    + rewrite Hn in Hn'. injection Hn' as <-. by exists outcome, m1.
    + apply (Rall key' m' Hin). by rewrite Hframe.
  - eapply wp_mono; [apply IH; [done|done|intros key' m' Hin; apply Hpend; set_solver]|].
    intros r s' (Ho & Hrest & Hres). split; [done|]. split; [intros key' Hk; apply Hrest; set_solver|].
    destruct r as [c'|e]; [|done]. rewrite !ended_in_cons, Hn. destruct Hres as (R1 & R2 & R3 & Rall). simpl.
    do 3 (split; [done|]). intros key' m' [->|Hin]%elem_of_cons Hn'; [congruence|by apply Rall].
Qed.

Lemma wp_reconcile_pending max_age w s : objects_inv w s ->
  wp (reconcile_pending max_age) w s (fun r s' => let now := time_at w (ticks s) in
    let before := (fun a => now - a) <$> max_age in
    pass_settled now max_age before (repo_pending before (os_repository (state_of s))) (MkReconciliationResult 0 0 0) w s r s').
Proof.
  intros Hi. unfold reconcile_pending. apply wp_clock, wp_gets.
  destruct (later_order w s (drawn s) (S (ticks s)) Hi ltac:(lia)) as [Hi1 Ho1]. simpl.
  destruct (repo_pending_law (os_repository (state_of s)) ((fun a => time_at w (ticks s) - a) <$> max_age) (proj1 (proj2 Hi))) as [Hnd Hp].
  eapply wp_mono; [apply wp_reconcile_each; [exact Hi1|exact Hnd|exact Hp]|].
  intros r s' (Ho & Hrest & Hres). split; [by eapply order_trans|done].
Qed.

Lemma objects_put_moves key raw sha256 size_bytes content_type purpose correlation :
  moves objects_order (objects_put release_id environment key raw sha256 size_bytes content_type purpose correlation).
Proof.
  intros w s Hi. pose proof (wp_objects_put key raw sha256 size_bytes content_type purpose correlation w s Hi) as Hw.
  unfold wp in Hw. destruct (objects_put _ _ _ _ _ _ _ _ _ w s) as [r s']. by apply Hw.
Qed.
Lemma reconcile_moves max_age : moves objects_order (reconcile_pending max_age).
Proof.
  intros w s Hi. pose proof (wp_reconcile_pending max_age w s Hi) as Hw.
  unfold wp in Hw. destruct (reconcile_pending max_age w s) as [r s']. by apply Hw.
Qed.

(** ** Histories *)

(** What happens to the service between two moments: its own operations, whatever they return,
    those of another client of the store, and time passing *)
Inductive objects_happens (w : world) : sys (objects R O) -> sys (objects R O) -> Prop :=
  | happens_put s key raw sha256 size_bytes content_type purpose correlation :
      objects_happens w s
        (objects_put release_id environment key raw sha256 size_bytes content_type purpose correlation w s).2
  | happens_open s ref : objects_happens w s (objects_open ref w s).2
  | happens_stat s ref : objects_happens w s (objects_stat ref w s).2
  | happens_reconcile s max_age : objects_happens w s (reconcile_pending max_age w s).2
  | happens_write s key body sha256 size kind :
      objects_happens w s (on_store (put_if_absent key body sha256 size kind) w s).2
  | happens_read s ref : objects_happens w s (on_store (object_open ref) w s).2
  | happens_time s n t : (drawn s <= n)%nat -> objects_happens w s (Sys (state_of s) n t).
Definition objects_history (w : world) := rtc (objects_happens w).

Lemma happens_order w s s' : objects_happens w s s' -> objects_order w s s'.
Proof.
  intros []; try (intros Hi; by apply later_order); (eapply moves_run; [|apply surjective_pairing]).
  - apply objects_put_moves.
  - apply objects_open_moves.
  - apply objects_stat_moves.
  - apply reconcile_moves.
  - apply on_store_moves, put_moves.
  - apply on_store_moves, open_moves.
Qed.

Lemma history_order w s s' : objects_history w s s' -> objects_order w s s'.
Proof.
  induction 1 as [s|s1 s2 s3 H12 _ IH]; [apply order_refl|]. eapply order_trans; [by apply happens_order|done].
Qed.
End theory.
