(* ===== verification/ObjectStores.v ===== *)
(** * The file system store ([infrastructure/object_store/filesystem.py])

    Objects are files below a private root, each beside a file of metadata; provider references
    are random tokens that the adapter keeps in memory.  Paths are relative to the root.  A
    temporary file has a random name, is linked to its final name when that does not exist, and
    is removed on every path, so it is not part of the state; the directories that hold it are.
    Failures of the operating system other than a name that is taken are not modelled. *)

From S2P Require Export ObjectContracts JsonTheorems.
#[local] Open Scope list_scope.

Record filesystem := MkFilesystem {
  fs_files : gmap string string; fs_directories : gset string;
  fs_keys_by_token : gmap string string; fs_tokens_by_key : gmap string string
}.
Definition empty_filesystem : filesystem := MkFilesystem ∅ ∅ ∅ ∅.

(** ** Names *)

(** [PurePosixPath(key).parts] of a relative path *)
Definition path_parts (key : string) : list string :=
  List.filter (fun p => negb (bool_decide (p = "."))) (split_by (is_char "/"%char) [] (chars key)).

Definition fs_validate_key (storage_key : string) : result string :=
  let parts := path_parts storage_key in
  if bool_decide (storage_key = "") || contains "\" storage_key || startswith storage_key "/"
     || bool_decide (".." ∈ parts) || negb (bool_decide (take 1 parts = ["objects"])) || Nat.ltb (length parts) 3
  then Raise ValueError else Ok (join "/" parts).

Definition fs_validate_digest (value : string) : result string :=
  let digest := lower value in if _SHA256 digest then Ok digest else Raise ValueError.

Definition type_char (c : ascii) : bool := is_alnum_az09 c || bool_decide (c ∈ chars "!#$&^_.+-").
(** [_CONTENT_TYPE.fullmatch(s)] *)
Definition _CONTENT_TYPE (s : string) : bool :=
  let '(kind, r) := span (is_char "/"%char) (chars s) in
  match r with
  | _ :: subtype => negb (bool_decide (kind = [])) && forallb type_char kind
                    && negb (bool_decide (subtype = [])) && forallb type_char subtype
  | [] => false
  end.
Definition fs_normalize_content_type (value : string) : result string :=
  let media_type := lower (strip value) in if _CONTENT_TYPE media_type then Ok media_type else Raise ValueError.

Definition _metadata_path (target : string) : string := target ++ ".meta.json".

(** The directories above a path *)
Definition ancestors (key : string) : list string :=
  map (fun n => join "/" (take n (path_parts key))) (seq 1 (length (path_parts key) - 1)).

(** ** The namespace *)

Definition with_file (path body : string) (s : filesystem) : filesystem :=
  MkFilesystem (<[path := body]> (fs_files s)) (fs_directories s) (fs_keys_by_token s) (fs_tokens_by_key s).
Definition with_directories (paths : list string) (s : filesystem) : filesystem :=
  MkFilesystem (fs_files s) (list_to_set paths ∪ fs_directories s) (fs_keys_by_token s) (fs_tokens_by_key s).
Definition with_token (token key : string) (s : filesystem) : filesystem :=
  MkFilesystem (fs_files s) (fs_directories s) (<[token := key]> (fs_keys_by_token s))
    (<[key := token]> (fs_tokens_by_key s)).

(** [target.parent.mkdir(parents=True, exist_ok=True)] *)
Definition make_parents (key : string) : M filesystem unit :=
  s ← get;
  if existsb (fun p => bool_decide (is_Some (fs_files s !! p))) (ancestors key) then raise (OtherError "FileExistsError")
  else put (with_directories (ancestors key) s).

(** Links a file of this content to a name that is free, and says whether it was. *)
Definition _publish_exclusive (path body : string) : M filesystem bool :=
  s ← get;
  if bool_decide (is_Some (fs_files s !! path)) || bool_decide (path ∈ fs_directories s) then mret false
  else _ ← put (with_file path body s); mret true.

(** [path.read_text(encoding="utf-8")] *)
Definition read_text (path : string) (s : filesystem) : result string :=
  match fs_files s !! path with
  | Some raw => match utf8_decode raw ≫= latin1 with Some text => Ok text | None => Raise ValueError end
  | None => Raise (OtherError "OSError")
  end.

(** [uuid4().hex], which is ['%032x' % int] *)
Definition token_length (u : Z) : nat := Nat.max 32 (S (Z.to_nat (Z.log2 u / 4))).
Definition token_of (u : Z) : string := of_chars (hex_digits (token_length u) u).
#[global] Arguments token_of : simpl never.

Section store.
Context `{BytesDigest}.

(** ** References *)

Definition fs_ref_for (key : string) : M filesystem string :=
  s ← get;
  match fs_tokens_by_key s !! key with
  | Some token => mret token
  | None => u ← uuid4;
            let token := token_of u in
            _ ← put (with_token token key s); mret token
  end.
Definition _key_for_ref (provider_ref : string) : M filesystem string :=
  s ← get;
  match fs_keys_by_token s !! provider_ref with Some key => mret key | None => raise ObjectNotFound end.
Definition fs_ref_for_key (storage_key : string) : M filesystem string :=
  key ← lift (fs_validate_key storage_key); fs_ref_for key.

(** ** Metadata *)

(** [int(v)] *)
Definition py_int (v : pyval) : result Z :=
  match v with
  | VInt n => Ok n
  | VBool b => Ok (if b then 1 else 0)
  | VStr s => int_of_str s
  | VFloat (FFin q) => Ok (Z.quot (Qnum q) (Zpos (Qden q)))
  | VFloat FNan => Raise ValueError
  | VFloat (FInf _) => Raise OverflowError
  | VNone | VList _ | VDict _ => Raise TypeError
  end.

(** [metadata[name]] *)
Definition metadata_field (name : string) (v : pyval) : result pyval :=
  match v with VDict d => dsub name d | _ => Raise TypeError end.

Definition read_metadata (metadata_path : string) (s : filesystem) : result (string * Z * string) :=
  text ← read_text metadata_path s;
  metadata ← json_loads text;
  sha256 ← metadata_field "sha256" metadata;
  digest ← fs_validate_digest (py_str sha256);
  size ← metadata_field "size_bytes" metadata;
  expected_size ← py_int size;
  kind ← metadata_field "content_type" metadata;
  content_type ← fs_normalize_content_type (py_str kind);
  Ok (digest, expected_size, content_type).

Definition _stat_path (key : string) : M filesystem ObjectInfo :=
  s ← get;
  match fs_files s !! key with
  | None => raise ObjectNotFound
  | Some body =>
      if negb (bool_decide (is_Some (fs_files s !! _metadata_path key))) then raise ObjectIntegrityError
      else match read_metadata (_metadata_path key) s with
      | Raise OverflowError => raise OverflowError
      | Raise _ => raise ObjectIntegrityError
      | Ok (digest, size, content_type) =>
          if negb (len body =? size) || negb (bool_decide (bytes_digest body = digest)) then raise ObjectIntegrityError
          else provider_ref ← fs_ref_for key;
               lift (ObjectInfo_init provider_ref (bytes_digest body) (len body) content_type None)
      end
  end.

Definition metadata_document (digest : string) (size : Z) (media_type : string) : odict string pyval :=
  [("sha256", VStr digest); ("size_bytes", VInt size); ("content_type", VStr media_type)].

Definition _publish_metadata (path : string) (metadata : odict string pyval) : M filesystem unit :=
  published ← _publish_exclusive path (json_text (VDict metadata));
  if (published : bool) then mret tt
  else
    s ← get;
    text ← lift (read_text path s);
    existing ← lift (json_loads text);
    if py_eqb (VDict metadata) existing then mret tt else raise ObjectVersionConflict.

(** ** The port *)

Definition fs_put_if_absent (storage_key body sha256 : string) (size_bytes : Z) (content_type : string)
    : M filesystem string :=
  key ← lift (fs_validate_key storage_key);
  digest ← lift (fs_validate_digest sha256);
  media_type ← lift (fs_normalize_content_type content_type);
  if size_bytes <? 0 then raise ObjectIntegrityError
  else
    _ ← make_parents key;
    if negb (bool_decide (bytes_digest body = digest)) || negb (len body =? size_bytes)
    then raise ObjectIntegrityError
    else
      published ← _publish_exclusive key body;
      _ ← (if (published : bool) then
             _publish_metadata (_metadata_path key) (metadata_document digest size_bytes media_type)
           else
             existing ← _stat_path key;
             if negb (bool_decide (oi_sha256 existing = digest)) || negb (oi_size_bytes existing =? size_bytes)
                || negb (bool_decide (oi_content_type existing = media_type))
             then raise ObjectVersionConflict else mret tt);
      fs_ref_for key.

Definition fs_stat (provider_ref : string) : M filesystem ObjectInfo :=
  key ← _key_for_ref provider_ref; _stat_path key.

Definition fs_open (provider_ref : string) : M filesystem string :=
  key ← _key_for_ref provider_ref;
  info ← _stat_path key;
  s ← get;
  match fs_files s !! key with
  | None => raise ObjectIntegrityError
  | Some body =>
      if negb (len body =? oi_size_bytes info) || negb (bool_decide (bytes_digest body = oi_sha256 info))
      then raise ObjectIntegrityError else mret body
  end.

#[export] Instance filesystem_store : ObjectStore filesystem := {|
  put_if_absent := fs_put_if_absent; object_open := fs_open; object_stat := fs_stat; ref_for_key := fs_ref_for_key
|}.
End store.

(** * The S3 store ([infrastructure/object_store/s3.py])

    The adapter over a client of the provider.  The client is not part of the repository: its
    operations are the class [S3Client], and what the adapter relies on, the documented
    behaviour of conditional writes and consistent reads, is [S3Behaviour].  A reply is a value
    or an error, of which the adapter reads the code and whether it is a [TypeError]. *)
#[local] Open Scope list_scope.

Record client_error := MkClientError { ce_code : string; ce_type_error : bool }.
(** A reply of [head_object]; a body arrives by [get_object]. *)
Record s3_head := MkHead { h_metadata : odict string string; h_length : option Z; h_content_type : option string }.

Class S3Client (C : Type) := {
  client_put : bool -> string -> string -> string -> odict string string -> C -> (unit + client_error) * C;
  client_head : string -> C -> (s3_head + client_error) * C;
  client_get : string -> C -> (string + client_error) * C
}.

(** ** Names and errors *)

(** [s.split(c)] *)
Fixpoint split_on (c : ascii) (cur l : list ascii) : list string :=
  match l with
  | [] => [of_chars (rev cur)]
  | x :: l' => if bool_decide (x = c) then of_chars (rev cur) :: split_on c [] l' else split_on c (x :: cur) l'
  end.

Definition s3_validate_key (storage_key : string) : result string :=
  let parts := split_on "/"%char [] (chars storage_key) in
  if bool_decide (storage_key = "") || contains "\" storage_key || startswith storage_key "/"
     || contains ":" storage_key || contains "?" storage_key || contains "#" storage_key
     || Nat.ltb (length parts) 3 || negb (bool_decide (take 1 parts = ["objects"]))
     || existsb (fun p => bool_decide (p ∈ [""; "."; ".."])) parts
  then Raise ValueError else Ok storage_key.

Definition _is_missing (e : client_error) : bool := bool_decide (ce_code e ∈ ["404"; "NoSuchKey"; "NoSuchBucket"; "NotFound"]).
Definition _is_precondition_failure (e : client_error) : bool :=
  bool_decide (ce_code e ∈ ["412"; "PreconditionFailed"; "ConditionalRequestConflict"]).
Definition _is_conditional_unsupported (e : client_error) : bool :=
  ce_type_error e || bool_decide (ce_code e ∈ ["InvalidRequest"; "NotImplemented"; "InvalidArgument"]).
(** The exception of the client, when the adapter lets it through *)
Definition client_exn (e : client_error) : exn := if ce_type_error e then TypeError else OtherError "ClientError".

(** What the adapter reads in a reply of [head_object] *)
Definition read_head (head : s3_head) : result (string * Z * string) :=
  let digest := match oget "sha256" (h_metadata head) with Some d => d | None => "None" end in
  normalized_digest ← fs_validate_digest digest;
  normalized_size ← (match h_length head with Some n => Ok n | None => Raise TypeError end);
  normalized_type ← fs_normalize_content_type (default "application/octet-stream" (h_content_type head));
  Ok (normalized_digest, normalized_size, normalized_type).

Section store.
Context {C : Type} `{S3Client C} `{BytesDigest}.

Definition s3_ref_for_key (key : string) : M C string := lift (s3_validate_key key).
Definition s3_key_for_ref (provider_ref : string) : M C string :=
  match s3_validate_key provider_ref with Ok key => mret key | Raise _ => raise ObjectNotFound end.

Definition _ensure_body (body digest : string) (size : Z) : result unit :=
  if negb (len body =? size) || negb (bool_decide (bytes_digest body = digest)) then Raise ObjectIntegrityError else Ok tt.

(** A body by [get_object], any failure being an integrity error *)
Definition get_body (key : string) : M C string :=
  reply ← pure_step (fun c => let '(r, c') := client_get key c in (Ok r, c'));
  match reply with inl body => mret body | inr _ => raise ObjectIntegrityError end.
Definition get_head (key : string) : M C (s3_head + client_error) :=
  pure_step (fun c => let '(r, c') := client_head key c in (Ok r, c')).

Definition _stat_key (key : string) : M C ObjectInfo :=
  reply ← get_head key;
  match reply with
  | inr e => raise (if _is_missing e then ObjectNotFound else ObjectIntegrityError)
  | inl head =>
      match read_head head with
      | Raise _ => raise ObjectIntegrityError
      | Ok (digest, size, content_type) =>
          body ← get_body key;
          _ ← lift (_ensure_body body digest size);
          provider_ref ← s3_ref_for_key key;
          lift (ObjectInfo_init provider_ref digest size content_type (Some provider_ref))
      end
  end.

Definition s3_ensure_match (info : ObjectInfo) (digest : string) (size : Z) (content_type : string) : result unit :=
  if negb (bool_decide (oi_sha256 info = digest)) || negb (oi_size_bytes info =? size)
     || negb (bool_decide (oi_content_type info = content_type))
  then Raise ObjectVersionConflict else Ok tt.

Definition _remote_exists (key : string) : M C bool :=
  reply ← get_head key;
  match reply with
  | inl _ => mret true
  | inr e => if _is_missing e then mret false else raise ObjectIntegrityError
  end.

Definition put_object (conditional : bool) (key body media_type digest : string) (size : Z) : M C (unit + client_error) :=
  pure_step (fun c =>
    let '(r, c') := client_put conditional key body media_type [("sha256", digest); ("size_bytes", str_of_Z size)] c in
    (Ok r, c')).

Definition s3_put_if_absent (storage_key body sha256 : string) (size_bytes : Z) (content_type : string) : M C string :=
  key ← lift (s3_validate_key storage_key);
  digest ← lift (fs_validate_digest sha256);
  media_type ← lift (fs_normalize_content_type content_type);
  if size_bytes <? 0 then raise ObjectIntegrityError
  else if negb (len body =? size_bytes) || negb (bool_decide (bytes_digest body = digest)) then raise ObjectIntegrityError
  else
    reply ← put_object true key body media_type digest size_bytes;
    _ ← (match reply with
         | inl _ => mret tt
         | inr e =>
             if _is_precondition_failure e then mret tt
             else if _is_missing e then raise ObjectNotFound
             else if negb (_is_conditional_unsupported e) then raise ObjectIntegrityError
             else
               there ← _remote_exists key;
               if (there : bool) then mret tt
               else
                 reply ← put_object false key body media_type digest size_bytes;
                 match reply with inl _ => mret tt | inr e => raise (client_exn e) end
         end);
    info ← _stat_key key;
    _ ← lift (s3_ensure_match info digest size_bytes media_type);
    s3_ref_for_key key.

Definition s3_open (provider_ref : string) : M C string :=
  key ← s3_key_for_ref provider_ref;
  info ← _stat_key key;
  body ← get_body key;
  _ ← lift (_ensure_body body (oi_sha256 info) (oi_size_bytes info));
  mret body.

Definition s3_stat (provider_ref : string) : M C ObjectInfo :=
  key ← s3_key_for_ref provider_ref; _stat_key key.

#[export] Instance s3_store : ObjectStore C := {|
  put_if_absent := s3_put_if_absent; object_open := s3_open; object_stat := s3_stat; ref_for_key := s3_ref_for_key
|}.
End store.

(** The provider is a map from keys to bodies with their metadata: reads agree with it and change
    nothing, a conditional write never replaces an object, and an unconditional one may. *)
Class S3Behaviour (C : Type) `{S3Client C} := {
  s3_object : C -> string -> option (string * s3_head);
  head_reads c key r c' : client_head key c = (r, c') ->
    (forall k, s3_object c' k = s3_object c k) /\
    match r with
    | inl head => exists body, s3_object c key = Some (body, head)
    | inr e => _is_missing e = true -> s3_object c key = None
    end;
  get_reads c key r c' : client_get key c = (r, c') ->
    (forall k, s3_object c' k = s3_object c k) /\
    match r with inl body => exists head, s3_object c key = Some (body, head) | inr _ => True end;
  put_writes c conditional key body kind metadata r c' : client_put conditional key body kind metadata c = (r, c') ->
    (forall k, k <> key -> s3_object c' k = s3_object c k) /\
    (conditional = true -> is_Some (s3_object c key) -> s3_object c' key = s3_object c key)
}.
