(* ===== verification/ObjectStoreLaws.v ===== *)
(** * The file system store keeps what it accepts

    No operation changes a file that exists, and references are never reused, so an object that
    can be read stays readable: the laws of a store. *)

From S2P Require Export ObjectStores ObjectLaws.
#[local] Open Scope list_scope.

(** Identifiers drawn by [uuid4()] never repeat. *)
Definition unique_uuids (w : world) : Prop :=
  (forall n, 0 <= uuid_at w n) /\ forall m n, uuid_at w m = uuid_at w n -> m = n.

(** ** Texts *)

Definition ascii7 (s : string) : Prop := Forall (fun c => code c < 128) (chars s).

Lemma ascii7_app s t : ascii7 s -> ascii7 t -> ascii7 (s +:+ t).
Proof. unfold ascii7. rewrite chars_app, Forall_app. done. Qed.

Lemma ascii7_join sep l : ascii7 sep -> Forall ascii7 l -> ascii7 (PyStr.join sep l).
Proof.
  intros Hsep Hl. induction Hl as [|x l Hx Hl IH]; [constructor|].
  destruct l as [|y l]; [exact Hx|]. apply ascii7_app; [exact Hx|]. by apply ascii7_app.
Qed.

Lemma machine_below_limit : 2 ^ 63 <= digit_limit.
Proof.
  unfold digit_limit. apply Z.le_trans with (10 ^ 63); [apply Z.pow_le_mono_l; lia|].
  apply Z.pow_le_mono_r; lia.
Qed.

Lemma json_char_ascii7 c : (code c <? 128) = true -> forallb (fun x => code x <? 128) (json_char c) = true.
Proof. destruct c as [[] [] [] [] [] [] [] []]; vm_compute; auto. Qed.

Lemma json_string_ascii7 s : ascii7 s -> ascii7 (json_string s).
Proof.
  unfold ascii7, json_string. rewrite chars_of_chars. intros Hs. constructor; [done|].
  apply Forall_app. split; [|by constructor].
  induction Hs as [|c l Hc _ IH]; [constructor|]. cbn [flat_map]. apply Forall_app. split; [|exact IH].
  apply Forall_forall. intros x Hx%list_elem_of_In. apply Z.ltb_lt in Hc.
  pose proof (json_char_ascii7 c Hc) as Hj. rewrite forallb_forall in Hj. by apply Z.ltb_lt, Hj.
Qed.

Lemma str_of_Z_ascii7 n : 0 <= n -> ascii7 (str_of_Z n).
Proof.
  intros Hn. unfold ascii7. destruct n as [|p|p]; [by constructor| |lia].
  destruct (pretty_N_go_digits (N.pos p) "") as (ds & E & Hd & _). rewrite app_nil_r in E.
  change (chars (str_of_Z (Z.pos p))) with (chars (pretty_N_go (N.pos p) "")). rewrite E.
  eapply Forall_impl; [exact Hd|]. intros c. unfold is_digit, in_range. lia.
Qed.

Lemma utf8_ascii7 s : ascii7 s -> utf8_decode s ≫= latin1 = Some s.
Proof.
  intros Hs. assert (utf8_encode s = s) as E.
  { unfold utf8_encode. rewrite <- (of_chars_chars s) at 2. f_equal. unfold ascii7 in Hs.
    induction Hs as [|c l Hc _ IH]; [done|]. cbn [flat_map]. unfold utf8_char at 1.
    rewrite (proj2 (Z.ltb_lt _ _) Hc). cbn [app]. by rewrite IH. }
  rewrite <- E at 1. rewrite utf8_decode_encode. apply latin1_codes.
Qed.

(** A content type that fits the pattern *)
Definition fits_type (kind : string) : Prop := _CONTENT_TYPE kind = true /\ lower (strip kind) = kind.
Definition fits_digest (digest : string) : Prop := _SHA256 digest = true /\ lower digest = digest.

Lemma span_app f l a b : span f l = (a, b) -> l = a ++ b /\ match b with c :: _ => f c = true | [] => True end.
Proof.
  revert a. induction l as [|c l IH]; simpl; intros a; [by intros [= <- <-]|].
  destruct (f c) eqn:E; [by intros [= <- <-]|]. destruct (span f l) as [a' b'] eqn:Es.
  intros [= <- <-]. destruct (IH a' eq_refl) as [-> Hb]. done.
Qed.

(** The characters of a content type *)
Lemma content_type_chars kind : _CONTENT_TYPE kind = true ->
  Forall (fun c => type_char c = true \/ c = "/"%char) (chars kind).
Proof.
  unfold _CONTENT_TYPE. destruct (span _ _) as [a [|c b]] eqn:E; [done|].
  apply span_app in E as [-> Hc]. apply bool_decide_eq_true in Hc as ->.
  intros H. repeat (apply andb_true_iff in H as [H ?]). rewrite forallb_forall in *.
  apply Forall_app. split; [|constructor; [by right|]]; apply Forall_forall; intros c Hc%list_elem_of_In; left; auto.
Qed.

Lemma contains_char c s : contains (of_chars [c]) s = false <-> Forall (fun x => x <> c) (chars s).
Proof.
  unfold contains. rewrite chars_of_chars. induction (chars s) as [|x l IH].
  - simpl. split; [constructor|done].
  - cbn [contains_list is_prefix]. rewrite Forall_cons, <- IH.
    destruct (bool_decide (c = x)) eqn:E; cbn [andb orb].
    + apply bool_decide_eq_true in E. split; [done|]. by intros [? _].
    + apply bool_decide_eq_false in E. split; [auto|]. by intros [_ ?].
Qed.

Lemma type_no_semicolon kind : _CONTENT_TYPE kind = true -> contains ";" kind = false.
Proof.
  intros Hk%content_type_chars. apply (contains_char ";"%char). eapply Forall_impl; [exact Hk|].
  intros c Hc ->. destruct Hc as [Hc|Hc]; [by vm_compute in Hc|done].
Qed.

Lemma type_char_ascii7 c : type_char c = true -> (code c <? 128) = true.
Proof. destruct c as [[] [] [] [] [] [] [] []]; vm_compute; auto. Qed.

Lemma type_ascii7 kind : _CONTENT_TYPE kind = true -> ascii7 kind.
Proof.
  intros Hk%content_type_chars. eapply Forall_impl; [exact Hk|]. intros c [Hc| ->]; [|done].
  by apply Z.ltb_lt, type_char_ascii7.
Qed.

Lemma digest_ascii7 digest : _SHA256 digest = true -> ascii7 digest.
Proof.
  unfold _SHA256. intros [_ H]%andb_true_iff. rewrite forallb_forall in H. apply Forall_forall.
  intros c Hc%list_elem_of_In%H. unfold is_digit, in_range in Hc. lia.
Qed.

Lemma fs_validate_digest_Ok value digest : fs_validate_digest value = Ok digest -> fits_digest digest /\ digest = lower value.
Proof.
  unfold fs_validate_digest. destruct (_SHA256 _) eqn:E; [|done]. intros [= <-].
  split; [split; [done|apply lower_idemp]|done].
Qed.
Lemma fs_validate_digest_fits digest : fits_digest digest -> fs_validate_digest digest = Ok digest.
Proof. intros [H1 H2]. unfold fs_validate_digest. by rewrite H2, H1. Qed.

Lemma fs_normalize_Ok value kind : fs_normalize_content_type value = Ok kind -> fits_type kind.
Proof.
  unfold fs_normalize_content_type. destruct (_CONTENT_TYPE _) eqn:E; [|done]. intros [= <-].
  split; [done|]. by rewrite strip_lower_strip, lower_idemp.
Qed.
Lemma fs_normalize_fits kind : fits_type kind -> fs_normalize_content_type kind = Ok kind.
Proof. intros [H1 H2]. unfold fs_normalize_content_type. by rewrite H2, H1. Qed.

Lemma ObjectInfo_init_fits ref digest size kind pv : fits_digest digest -> fits_type kind -> 0 <= size ->
  ObjectInfo_init ref digest size kind pv = Ok (MkObjectInfo ref digest size kind pv).
Proof.
  intros [Hd1 Hd2] [Hk1 Hk2] Hs. unfold ObjectInfo_init. rewrite Hd2, Hd1, Hk2. simpl.
  rewrite (proj2 (Z.ltb_ge _ _) Hs). by rewrite type_no_semicolon.
Qed.

(** ** The metadata of an object *)

Section laws.
Context `{BytesDigest}.

(** The bytes of a key, with metadata that describes them *)
Definition fs_object (o : filesystem) (key body kind : string) : Prop :=
  fs_files o !! key = Some body /\ is_Some (fs_files o !! _metadata_path key)
  /\ read_metadata (_metadata_path key) o = Ok (bytes_digest body, len body, kind).
Definition fs_kept (o : filesystem) (ref body kind : string) : Prop :=
  exists key, fs_keys_by_token o !! ref = Some key /\ fs_object o key body kind.
Definition fs_stored (o : filesystem) (storage_key body kind : string) : Prop :=
  exists key, fs_validate_key storage_key = Ok key /\ fs_object o key body kind.

Lemma read_metadata_fits path o digest size kind : read_metadata path o = Ok (digest, size, kind) ->
  fits_digest digest /\ fits_type kind.
Proof.
  unfold read_metadata. intros Hr. inv_bind. injection Hr as <- <- <-.
  split; [by eapply fs_validate_digest_Ok|by eapply fs_normalize_Ok].
Qed.

Lemma metadata_text digest size kind :
  json_text (VDict (metadata_document digest size kind))
  = json_text (VDict [("content_type", VStr kind); ("sha256", VStr digest); ("size_bytes", VInt size)]).
Proof. reflexivity. Qed.

(** What is written beside an object is what is read from there. *)
Lemma read_written_metadata path o digest size kind :
  fits_digest digest -> fits_type kind -> 0 <= size < 2 ^ 63 ->
  fs_files o !! path = Some (json_text (VDict (metadata_document digest size kind))) ->
  read_metadata path o = Ok (digest, size, kind).
Proof.
  intros Hd Hk Hs Hf. unfold read_metadata, read_text. rewrite Hf, metadata_text.
  set (doc := VDict [_; _; _]).
  assert (Hs' : StronglySorted (fun a b => str_ltb a b = true) (okeys [("content_type", VStr kind); ("sha256", VStr digest);
                  ("size_bytes", VInt size)])) by repeat constructor.
  assert (Ha : ascii7 (json_text doc)).
  { unfold doc. rewrite members_text by exact Hs'. apply ascii7_app; [by constructor|]. apply ascii7_app; [|by constructor].
    pose proof (json_string_ascii7 _ (type_ascii7 _ (proj1 Hk))). pose proof (json_string_ascii7 _ (digest_ascii7 _ (proj1 Hd))).
    pose proof (str_of_Z_ascii7 size (proj1 Hs)).
    apply ascii7_join; [by constructor|]. cbn [map]. rewrite !Forall_cons, Forall_nil. unfold member_text. cbn [fst snd].
    repeat apply conj; try done; (apply ascii7_app; [by repeat constructor|]); (apply ascii7_app; [by constructor|done]). }
  rewrite utf8_ascii7 by exact Ha. cbn [mbind result_bind].
  assert (Hp : plain_json doc).
  { apply plain_dict; [repeat constructor|]. repeat constructor. rewrite Z.abs_eq by lia.
    eapply Z.lt_le_trans; [apply Hs|apply machine_below_limit]. }
  rewrite (json_loads_text doc Hp). simpl. rewrite (fs_validate_digest_fits _ Hd). simpl. by rewrite (fs_normalize_fits _ Hk).
Qed.

(** ** The invariant of the adapter *)

(** Every token was drawn, and a token of a key leads back to it. *)
Definition fs_inv (w : world) (s : sys filesystem) : Prop :=
  unique_uuids w
  /\ (forall token key, fs_keys_by_token (state_of s) !! token = Some key ->
        exists n, (n < drawn s)%nat /\ token = token_of (uuid_at w n))
  /\ (forall key token, fs_tokens_by_key (state_of s) !! key = Some token ->
        fs_keys_by_token (state_of s) !! token = Some key).

(** Files and references are only added. *)
Definition fs_order (w : world) (s s' : sys filesystem) : Prop :=
  fs_inv w s ->
  fs_inv w s' /\ (drawn s <= drawn s')%nat /\ fs_files (state_of s) ⊆ fs_files (state_of s')
  /\ fs_keys_by_token (state_of s) ⊆ fs_keys_by_token (state_of s').

#[export] Instance fs_order_order : StateOrder fs_order.
Proof.
  split.
  - intros w s Hi. auto.
  - intros w s1 s2 s3 H12 H23 Hi. destruct (H12 Hi) as (I2 & D2 & F2 & K2).
    destruct (H23 I2) as (I3 & D3 & F3 & K3). split; [done|]. split; [lia|]. split; by etrans.
Qed.

Lemma read_metadata_kept path o o' x : fs_files o ⊆ fs_files o' -> read_metadata path o = Ok x -> read_metadata path o' = Ok x.
Proof.
  intros Hf. unfold read_metadata, read_text. destruct (fs_files o !! path) as [raw|] eqn:E; [|done].
  by rewrite (lookup_weaken _ _ _ _ E Hf).
Qed.

Lemma fs_object_kept o o' key body kind : fs_files o ⊆ fs_files o' -> fs_object o key body kind -> fs_object o' key body kind.
Proof.
  intros Hf (Hb & [m Hm] & Hr). split; [by eapply lookup_weaken|]. split; [exists m; by eapply lookup_weaken|].
  by eapply read_metadata_kept.
Qed.

Lemma fs_order_store {A} (m : M filesystem A) : moves fs_order m -> moves (store_order fs_inv fs_kept fs_stored) m.
Proof.
  intros Hm w s Hi. destruct (Hm w s Hi) as (I' & D' & F' & K'). split; [done|]. split; [done|]. split.
  - intros ref body kind (key & Hk & Ho). exists key. split; [by eapply lookup_weaken|by eapply fs_object_kept].
  - intros sk body kind (key & Hk & Ho). exists key. split; [done|by eapply fs_object_kept].
Qed.

Lemma token_bound u : 0 <= u -> 0 <= u < 16 ^ Z.of_nat (token_length u).
Proof.
  intros Hu. split; [done|]. unfold token_length. destruct (decide (u = 0)) as [->|Hne]; [by vm_compute|].
  pose proof (Z.log2_spec u ltac:(lia)) as [_ Hlog]. eapply Z.lt_le_trans; [exact Hlog|].
  change 16 with (2 ^ 4). rewrite <- Z.pow_mul_r by lia. apply Z.pow_le_mono_r; [lia|].
  pose proof (Z.log2_nonneg u). pose proof (Z.div_mod (Z.log2 u) 4 ltac:(lia)).
  pose proof (Z.mod_pos_bound (Z.log2 u) 4 ltac:(lia)). pose proof (Z.div_pos (Z.log2 u) 4 ltac:(lia) ltac:(lia)). lia.
Qed.

Lemma token_of_inj w m n : unique_uuids w -> token_of (uuid_at w m) = token_of (uuid_at w n) -> m = n.
Proof.
  intros [Hu Hinj] E. apply Hinj. apply (f_equal chars) in E. unfold token_of in E. rewrite !chars_of_chars in E.
  assert (El : token_length (uuid_at w m) = token_length (uuid_at w n)).
  { apply (f_equal length) in E. by rewrite !length_hex_digits in E. }
  pose proof (token_bound _ (Hu m)) as Bm. rewrite El in E, Bm.
  apply (hex_digits_inj _ _ _ Bm (token_bound _ (Hu n)) E).
Qed.
Lemma token_not_empty u : token_of u <> "".
Proof.
  intros E. apply (f_equal (fun s => length (chars s))) in E. unfold token_of in E.
  rewrite chars_of_chars, length_hex_digits in E. unfold token_length in E. simpl in E. lia.
Qed.

(** ** Operations *)

Lemma fs_ref_for_eq key w s : fs_ref_for key w s =
  match fs_tokens_by_key (state_of s) !! key with
  | Some token => (Ok token, s)
  | None => let token := token_of (uuid_at w (drawn s)) in
            (Ok token, Sys (with_token token key (state_of s)) (S (drawn s)) (ticks s))
  end.
Proof. unfold fs_ref_for, mbind, M_bind, get. cbn. by destruct (fs_tokens_by_key (state_of s) !! key). Qed.

Lemma make_parents_eq key w s : make_parents key w s =
  if existsb (fun p => bool_decide (is_Some (fs_files (state_of s) !! p))) (ancestors key)
  then (Raise (OtherError "FileExistsError"), s)
  else (Ok tt, Sys (with_directories (ancestors key) (state_of s)) (drawn s) (ticks s)).
Proof. unfold make_parents, mbind, M_bind, get. by destruct (existsb _ _). Qed.

Lemma publish_eq path body w s : _publish_exclusive path body w s =
  if bool_decide (is_Some (fs_files (state_of s) !! path)) || bool_decide (path ∈ fs_directories (state_of s))
  then (Ok false, s) else (Ok true, Sys (with_file path body (state_of s)) (drawn s) (ticks s)).
Proof. unfold _publish_exclusive, mbind, M_bind, get. by destruct (_ || _). Qed.

Lemma fs_ref_for_moves key : moves fs_order (fs_ref_for key).
Proof.
  intros w s Hi. rewrite fs_ref_for_eq. destruct (fs_tokens_by_key (state_of s) !! key) as [token|] eqn:E; simpl.
  { exact (order_refl w s Hi). }
  destruct Hi as (Hu & Ht & Hk).
  assert (Hnew : fs_keys_by_token (state_of s) !! token_of (uuid_at w (drawn s)) = None).
  { apply eq_None_not_Some. intros (k & (n & Hn & E2)%Ht). apply token_of_inj in E2; [lia|done]. }
  split; [|split; [simpl; lia|split; [reflexivity|by apply insert_subseteq]]]. split; [done|]. simpl. split.
  - intros token key'. rewrite lookup_insert. case_decide; [intros _; exists (drawn s); by split; [lia|]|].
    intros (n & Hn & ->)%Ht. exists n. by split; [lia|].
  - intros key' token. rewrite lookup_insert. case_decide; subst.
    + intros [= <-]. by rewrite lookup_insert_eq.
    + intros Hk'%Hk. rewrite lookup_insert_ne; [done|]. intros <-. congruence.
Qed.

(** A reference for a key leads to it. *)
Lemma fs_ref_for_run key w s : fs_inv w s -> exists ref s',
  fs_ref_for key w s = (Ok ref, s') /\ fs_keys_by_token (state_of s') !! ref = Some key
  /\ fs_files (state_of s') = fs_files (state_of s).
Proof.
  intros (_ & _ & Hk). rewrite fs_ref_for_eq. destruct (fs_tokens_by_key (state_of s) !! key) as [token|] eqn:E; simpl.
  - exists token, s. auto.
  - eexists _, _. split; [reflexivity|]. simpl. by rewrite lookup_insert_eq.
Qed.

Lemma make_parents_moves key : moves fs_order (make_parents key).
Proof. intros w s Hi. rewrite make_parents_eq. by destruct (existsb _ _). Qed.

Lemma publish_moves path body : moves fs_order (_publish_exclusive path body).
Proof.
  intros w s Hi. rewrite publish_eq.
  destruct (bool_decide (is_Some (fs_files (state_of s) !! path))) eqn:E; simpl; [exact (order_refl w s Hi)|].
  destruct (bool_decide (path ∈ _)); simpl; [exact (order_refl w s Hi)|]. apply bool_decide_eq_false, eq_None_not_Some in E.
  split; [done|]. split; [done|]. split; [by apply insert_subseteq|reflexivity].
Qed.

(** Splits a computation down to the operations above. *)
Ltac fs_moves :=
  repeat (first [moves_step | apply fs_ref_for_moves | apply publish_moves | apply make_parents_moves
                | case_match]).

Lemma stat_path_moves key : moves fs_order (_stat_path key).
Proof. unfold _stat_path. fs_moves. Qed.
Lemma publish_metadata_moves path metadata : moves fs_order (_publish_metadata path metadata).
Proof. unfold _publish_metadata. fs_moves. Qed.

Lemma fs_put_moves key body sha256 size kind : moves fs_order (fs_put_if_absent key body sha256 size kind).
Proof. unfold fs_put_if_absent. fs_moves; first [apply publish_metadata_moves | apply stat_path_moves]. Qed.
Lemma fs_stat_moves ref : moves fs_order (fs_stat ref).
Proof. unfold fs_stat, _key_for_ref. fs_moves. apply stat_path_moves. Qed.
Lemma fs_open_moves ref : moves fs_order (fs_open ref).
Proof. unfold fs_open, _key_for_ref. fs_moves. apply stat_path_moves. Qed.
Lemma fs_ref_for_key_moves key : moves fs_order (fs_ref_for_key key).
Proof. unfold fs_ref_for_key. fs_moves. Qed.

(** ** What an object answers *)

Lemma _key_for_ref_eq ref w s : _key_for_ref ref w s =
  match fs_keys_by_token (state_of s) !! ref with Some key => (Ok key, s) | None => (Raise ObjectNotFound, s) end.
Proof. unfold _key_for_ref, mbind, M_bind, get. by destruct (_ !! _). Qed.

Lemma stat_path_object key body kind w s : fs_inv w s -> fs_object (state_of s) key body kind ->
  exists ref s', _stat_path key w s = (Ok (MkObjectInfo ref (bytes_digest body) (len body) kind None), s')
    /\ fs_keys_by_token (state_of s') !! ref = Some key /\ fs_files (state_of s') = fs_files (state_of s).
Proof.
  intros Hi (Hb & Hm & Hr). unfold _stat_path, mbind, M_bind, get. rewrite Hb.
  rewrite bool_decide_eq_true_2 by done. cbn [negb]. rewrite Hr. rewrite Z.eqb_refl, bool_decide_eq_true_2 by done. cbn [negb orb].
  destruct (fs_ref_for_run key w s Hi) as (ref & s' & E & Hk & Hf). exists ref, s'. rewrite E. split; [|done].
  unfold lift. apply read_metadata_fits in Hr as [Hd Hk']. by rewrite ObjectInfo_init_fits by (try done; unfold len; lia).
Qed.

Lemma stat_path_Ok key w s info s' : fs_inv w s -> _stat_path key w s = (Ok info, s') ->
  exists body, fs_object (state_of s) key body (oi_content_type info) /\ fs_object (state_of s') key body (oi_content_type info)
    /\ oi_sha256 info = bytes_digest body /\ oi_size_bytes info = len body /\ oi_provider_version info = None.
Proof.
  intros Hi E. assert (Hsome : exists body kind, fs_object (state_of s) key body kind).
  { revert E. unfold _stat_path, mbind, M_bind, get. destruct (fs_files (state_of s) !! key) as [body|] eqn:Hb; [|done].
    destruct (bool_decide (is_Some (fs_files (state_of s) !! _metadata_path key))) eqn:Hm; [|done]. cbn [negb].
    destruct (read_metadata _ _) as [[[digest size] kind]|e] eqn:Hr; [|by destruct e].
    destruct (Z.eqb_spec (len body) size) as [<-|]; [|done]. destruct (bool_decide (bytes_digest body = digest)) eqn:Hd; [|done].
    apply bool_decide_eq_true in Hm, Hd as <-. intros _. by exists body, kind. }
  destruct Hsome as (body & kind & Ho). exists body.
  destruct (stat_path_object key body kind w s Hi Ho) as (ref & s1 & E1 & _ & Hf). rewrite E1 in E.
  injection E as <- <-. simpl. split; [done|]. split; [|done].
  eapply fs_object_kept; [|exact Ho]. by rewrite Hf.
Qed.

(** A document equal to the metadata reads as the metadata. *)
Lemma document_equal digest size kind v : py_eqb (VDict (metadata_document digest size kind)) v = true ->
  exists d x, v = VDict d /\ oget "sha256" d = Some (VStr digest) /\ oget "size_bytes" d = Some x /\ py_int x = Ok size
    /\ oget "content_type" d = Some (VStr kind).
Proof.
  destruct v as [| | | | | |d]; try done. unfold metadata_document. cbn [py_eqb].
  intros [_ H1]%andb_true_iff. apply andb_true_iff in H1 as [Hs H1]. apply andb_true_iff in H1 as [Hz H1].
  apply andb_true_iff in H1 as [Hk _].
  destruct (oget "sha256" d) as [[]|] eqn:E1; try done. apply bool_decide_eq_true in Hs as <-.
  destruct (oget "content_type" d) as [[]|] eqn:E3; try done. apply bool_decide_eq_true in Hk as <-.
  destruct (oget "size_bytes" d) as [x|] eqn:E2; [|done]. exists d, x. repeat split; try done.
  destruct x as [|b|n|f| | |]; try done; simpl in Hz; try (apply Qeq_bool_eq in Hz; unfold Qeq in Hz; simpl in Hz).
  - simpl. f_equal. destruct b; lia.
  - simpl. f_equal. lia.
  - destruct f as [| |q]; [done..|]. apply Qeq_bool_eq in Hz. unfold Qeq in Hz. simpl in Hz. simpl. f_equal.
    rewrite Z.mul_1_r in Hz. rewrite <- Hz. by apply Z.quot_mul.
Qed.

Lemma publish_metadata_reads path digest size kind w s u s' :
  fits_digest digest -> fits_type kind -> 0 <= size < 2 ^ 63 ->
  _publish_metadata path (metadata_document digest size kind) w s = (Ok u, s') ->
  is_Some (fs_files (state_of s') !! path) /\ read_metadata path (state_of s') = Ok (digest, size, kind).
Proof.
  intros Hd Hk Hs E. unfold _publish_metadata in E. apply M_bind_Ok in E as (published & s1 & E1 & E).
  rewrite publish_eq in E1. destruct (_ || _); injection E1 as <- <-.
  - apply M_bind_Ok in E as (o & ? & [= <- <-] & E). apply M_bind_Ok in E as (text & ? & [Ht ->]%lift_Ok & E).
    apply M_bind_Ok in E as (v & ? & [Hv ->]%lift_Ok & E). destruct (py_eqb _ v) eqn:Heq; [|done]. injection E as _ <-.
    apply document_equal in Heq as (d & x & -> & H1 & H2 & H3 & H4). split.
    + unfold read_text in Ht. by destruct (fs_files (state_of s) !! path).
    + unfold read_metadata. rewrite Ht. cbn [mbind result_bind]. rewrite Hv. cbn [mbind result_bind metadata_field].
      unfold dsub. rewrite H1. cbn [mbind result_bind py_str]. rewrite (fs_validate_digest_fits _ Hd). cbn [mbind result_bind].
      rewrite H2. cbn [mbind result_bind]. rewrite H3. cbn [mbind result_bind]. rewrite H4. cbn [mbind result_bind py_str].
      by rewrite (fs_normalize_fits _ Hk).
  - injection E as _ <-. simpl. rewrite lookup_insert_eq. split; [by eexists|].
    apply read_written_metadata; [done..|]. simpl. apply lookup_insert_eq.
Qed.

(** What a successful write leaves under its key *)
Lemma fs_put_object storage_key body sha256 size kind w s ref s' : fs_inv w s -> len body < 2 ^ 63 ->
  fs_put_if_absent storage_key body sha256 size kind w s = (Ok ref, s') ->
  exists key body' kind', fs_validate_key storage_key = Ok key /\ fs_object (state_of s') key body' kind'
    /\ fs_keys_by_token (state_of s') !! ref = Some key
    /\ bytes_digest body' = bytes_digest body /\ len body' = len body /\ fs_normalize_content_type kind = Ok kind'.
Proof.
  intros Hi Hlen E. unfold fs_put_if_absent in E.
  apply M_bind_Ok in E as (key & ? & [Hkey ->]%lift_Ok & E).
  apply M_bind_Ok in E as (digest & ? & [Hdig ->]%lift_Ok & E).
  apply M_bind_Ok in E as (media & ? & [Hmedia ->]%lift_Ok & E).
  destruct (size <? 0); [done|].
  apply M_bind_Ok in E as (? & s1 & E1 & E). destruct (moves_run fs_order _ _ _ _ _ (make_parents_moves key) E1 Hi) as (Hi1 & _).
  destruct (bool_decide (bytes_digest body = digest)) eqn:Hd; [|done]. apply bool_decide_eq_true in Hd as <-.
  destruct (Z.eqb_spec (len body) size) as [<-|]; [|done]. cbn [negb orb] in E.
  apply M_bind_Ok in E as (published & s2 & E2 & E). destruct (moves_run fs_order _ _ _ _ _ (publish_moves key body) E2 Hi1) as (Hi2 & _).
  apply M_bind_Ok in E as (? & s3 & E3 & E).
  assert (H3 : fs_inv w s3 /\ exists body', fs_object (state_of s3) key body' media /\ bytes_digest body' = bytes_digest body
                 /\ len body' = len body).
  { destruct published.
    - destruct (moves_run fs_order _ _ _ _ _ (publish_metadata_moves _ _) E3 Hi2) as (Hi3 & _ & Hf3 & _). split; [done|].
      exists body. split; [|done].
      assert (Hbody : fs_files (state_of s2) !! key = Some body).
      { rewrite publish_eq in E2. destruct (_ || _); [discriminate|]. injection E2 as <-. apply lookup_insert_eq. }
      split; [by eapply lookup_weaken|].
      eapply publish_metadata_reads; [by eapply fs_validate_digest_Ok|by eapply fs_normalize_Ok| |exact E3].
      split; [unfold len; lia|done].
    - apply M_bind_Ok in E3 as (existing & s4 & E4 & E3).
      destruct (moves_run fs_order _ _ _ _ _ (stat_path_moves key) E4 Hi2) as (Hi4 & _).
      destruct (stat_path_Ok key w s2 existing s4 Hi2 E4) as (body' & _ & Ho & Hsha & Hsize & _).
      destruct (bool_decide (oi_sha256 existing = bytes_digest body)) eqn:H1; [|done]. apply bool_decide_eq_true in H1.
      destruct (Z.eqb_spec (oi_size_bytes existing) (len body)) as [H2|]; [|done].
      destruct (bool_decide (oi_content_type existing = media)) eqn:H3; [|done]. apply bool_decide_eq_true in H3 as <-.
      injection E3 as _ <-. split; [done|]. exists body'. split; [done|]. split; congruence. }
  destruct H3 as (Hi3 & body' & Ho & Hb & Hl). destruct (fs_ref_for_run key w s3 Hi3) as (ref' & s4 & E4 & Hk & Hf).
  rewrite E4 in E. injection E as <- <-. exists key, body', media. split; [done|]. split; [|done].
  eapply fs_object_kept; [|exact Ho]. by rewrite Hf.
Qed.

(** ** The laws *)

#[export] Instance filesystem_laws : StoreLaws filesystem.
Proof.
  unshelve econstructor; [exact fs_inv|exact fs_kept|exact fs_stored|..].
  - intros w s n t (Hu & Ht & Hk) Hn. split; [done|]. split; [|done]. intros token key (m & Hm & E)%Ht. exists m. split; [simpl; lia|done].
  - intros. apply fs_order_store, fs_put_moves.
  - intros. apply fs_order_store, fs_open_moves.
  - intros. apply fs_order_store, fs_stat_moves.
  - intros. apply fs_order_store, fs_ref_for_key_moves.
  - intros w s ref info s' Hi E. simpl in E. unfold fs_stat in E. apply M_bind_Ok in E as (key & s1 & E1 & E).
    rewrite _key_for_ref_eq in E1. destruct (fs_keys_by_token (state_of s) !! ref) as [k|] eqn:Ek; [|done]. injection E1 as <- <-.
    destruct (moves_run fs_order _ _ _ _ _ (stat_path_moves k) E Hi) as (_ & _ & _ & Hkeys).
    destruct (stat_path_Ok k w s info s' Hi E) as (body & _ & Ho & H1 & H2 & H3). exists body.
    split; [exists k; split; [by eapply lookup_weaken|done]|]. split; [done|]. split; [done|]. split; [|by left].
    destruct Hi as (_ & Ht & _). apply Ht in Ek as (n & _ & ->). apply token_not_empty.
  - intros w s ref body s' Hi E. simpl in E. unfold fs_open in E. apply M_bind_Ok in E as (key & s1 & E1 & E).
    rewrite _key_for_ref_eq in E1. destruct (fs_keys_by_token (state_of s) !! ref) as [k|] eqn:Ek; [|done]. injection E1 as <- <-.
    apply M_bind_Ok in E as (info & s1 & E1 & E). destruct (moves_run fs_order _ _ _ _ _ (stat_path_moves k) E1 Hi) as (_ & _ & _ & Hkeys).
    destruct (stat_path_Ok k w s info s1 Hi E1) as (body' & _ & Ho & _). apply M_bind_Ok in E as (o & ? & [= <- <-] & E).
    pose proof Ho as (Hb & _). rewrite Hb in E. destruct (_ || _); [done|]. injection E as -> <-.
    eexists. exists k. split; [by eapply lookup_weaken|exact Ho].
  - intros o ref body kind body' kind' (key & Hk & Hb & _ & Hr) (key' & Hk' & Hb' & _ & Hr'). simplify_eq. by rewrite Hr in Hr'; simplify_eq.
  - intros w s key body sha256 size kind ref s' Hi Hlen E.
    destruct (fs_put_object _ _ _ _ _ _ _ _ _ Hi Hlen E) as (k & body' & kind' & Hk & Ho & _ & Hb & Hl & _).
    exists body', kind'. split; [by exists k|done].
  - intros w s key body kind Hi (k & Hk & Ho). simpl. unfold fs_ref_for_key, mbind, M_bind, lift. rewrite Hk.
    destruct (fs_ref_for_run k w s Hi) as (ref & s' & E & Ht & Hf). exists ref, s'. split; [done|]. exists k. split; [done|].
    eapply fs_object_kept; [|exact Ho]. by rewrite Hf.
Defined.

#[export] Instance filesystem_answers : StoreAnswers filesystem.
Proof.
  split.
  - intros w s ref body kind Hi (key & Hk & Ho). simpl. unfold fs_stat, mbind, M_bind. rewrite _key_for_ref_eq, Hk.
    destruct (stat_path_object key body kind w s Hi Ho) as (ref' & s' & E & _). by eexists _, _.
  - intros w s ref body kind Hi (key & Hk & Ho). simpl. unfold fs_open, mbind, M_bind, get. rewrite _key_for_ref_eq, Hk.
    destruct (stat_path_object key body kind w s Hi Ho) as (ref' & s' & E & _ & Hf). rewrite E, Hf. destruct Ho as (Hb & _).
    rewrite Hb. simpl. rewrite Z.eqb_refl, bool_decide_eq_true_2 by done. simpl. by eexists.
Qed.
End laws.

(** * The S3 store keeps what it accepts

    Under the behaviour of the provider, the adapter replaces no object: an unconditional write
    follows only a reply that the key is free. *)
#[local] Open Scope list_scope.

Section laws.
Context {C : Type} {client : S3Client C} {behaviour : S3Behaviour C} {digest_of : BytesDigest}.

Definition s3_kept (c : C) (ref body kind : string) : Prop :=
  s3_validate_key ref = Ok ref /\ exists head,
    s3_object c ref = Some (body, head) /\ read_head head = Ok (bytes_digest body, len body, kind).

(** Objects are only added. *)
Definition s3_grows (c c' : C) : Prop := forall k o, s3_object c k = Some o -> s3_object c' k = Some o.
Definition s3_order (w : world) (s s' : sys C) : Prop := s3_grows (state_of s) (state_of s') /\ (drawn s <= drawn s')%nat.

#[export] Instance s3_order_order : StateOrder s3_order.
Proof.
  split; [intros w s; by split; [intros k o|]|]. intros w s1 s2 s3 [G1 D1] [G2 D2]. split; [|lia]. intros k o Ho. by apply G2, G1.
Qed.

Lemma s3_kept_grows c c' ref body kind : s3_grows c c' -> s3_kept c ref body kind -> s3_kept c' ref body kind.
Proof. intros G (Hk & head & Ho & Hr). split; [done|]. exists head. split; [by apply G|done]. Qed.

Definition s3_inv (w : world) (s : sys C) : Prop := True.
Lemma s3_order_store {A} (m : M C A) : moves s3_order m -> moves (store_order s3_inv s3_kept s3_kept) m.
Proof.
  intros Hm w s _. destruct (Hm w s) as [G D]. split; [done|]. split; [done|].
  split; intros ref body kind; by apply s3_kept_grows.
Qed.

Lemma s3_validate_key_Ok key key' : s3_validate_key key = Ok key' -> key' = key /\ key <> "".
Proof.
  unfold s3_validate_key. destruct (bool_decide (key = "")) eqn:E; [done|]. apply bool_decide_eq_false in E.
  destruct (_ || _); [done|]. by intros [= <-].
Qed.

(** ** Moves *)

Lemma get_head_run key w s r s' : get_head key w s = (Ok r, s') ->
  client_head key (state_of s) = (r, state_of s') /\ drawn s' = drawn s.
Proof. unfold get_head, pure_step. destruct (client_head key (state_of s)) as [x c]. by intros [= <- <-]. Qed.

Lemma get_head_moves key : moves s3_order (get_head key).
Proof.
  intros w s. unfold get_head, pure_step. destruct (client_head key (state_of s)) as [r c'] eqn:E.
  destruct (head_reads _ _ _ _ E) as [Hsame _]. split; [|done]. intros k o Ho. simpl. by rewrite Hsame.
Qed.

Lemma get_body_moves key : moves s3_order (get_body key).
Proof.
  unfold get_body. moves_step; [|case_match; moves_step].
  intros w s. unfold pure_step. destruct (client_get key (state_of s)) as [r c'] eqn:E.
  destruct (get_reads _ _ _ _ E) as [Hsame _]. split; [|done]. intros k o Ho. simpl. by rewrite Hsame.
Qed.

Lemma conditional_put_moves key body kind digest size : moves s3_order (put_object true key body kind digest size).
Proof.
  intros w s. unfold put_object, pure_step. destruct (client_put _ _ _ _ _ (state_of s)) as [r c'] eqn:E.
  destruct (put_writes _ _ _ _ _ _ _ _ E) as [Hothers Hkey]. split; [|done]. intros k o Ho. simpl.
  destruct (decide (k = key)) as [->|Hne]; [rewrite Hkey; [done|done|by eexists]|by rewrite Hothers].
Qed.

(** The unconditional write after a reply that nothing is there *)
Lemma guarded_put_moves key body kind digest size {A} (k : unit + client_error -> M C A) (h : M C A) :
  (forall r, moves s3_order (k r)) -> moves s3_order h ->
  moves s3_order (there ← _remote_exists key; if (there : bool) then h else reply ← put_object false key body kind digest size; k reply).
Proof.
  intros Hk Hh w s. unfold _remote_exists, mbind, M_bind.
  destruct (get_head key w s) as [[reply|e] s1] eqn:E1.
  2:{ unfold get_head, pure_step in E1. by destruct (client_head _ _). }
  pose proof (moves_run _ _ _ _ _ _ (get_head_moves key) E1) as Ho1.
  apply get_head_run in E1 as [E1 _]. destruct (head_reads _ _ _ _ E1) as [Hsame Hrep].
  destruct reply as [head|e]; [eapply order_trans; [exact Ho1|apply Hh]|].
  destruct (_is_missing e) eqn:Em; [|exact Ho1]. specialize (Hrep eq_refl). cbn -[put_object].
  unfold put_object, pure_step. destruct (client_put _ _ _ _ _ (state_of s1)) as [r c'] eqn:E2.
  destruct (put_writes _ _ _ _ _ _ _ _ E2) as [Hothers _].
  eapply order_trans; [exact Ho1|]. eapply order_trans; [|apply Hk]. split; [|done].
  intros x o Ho. simpl. destruct (decide (x = key)) as [->|Hne]; [|by rewrite Hothers].
  rewrite Hsame, Hrep in Ho. done.
Qed.

Lemma stat_key_moves key : moves s3_order (_stat_key key).
Proof.
  unfold _stat_key, s3_ref_for_key. repeat (first [moves_step | apply get_head_moves | apply get_body_moves | case_match]).
Qed.

Lemma s3_put_moves key body sha256 size kind : moves s3_order (s3_put_if_absent key body sha256 size kind).
Proof.
  unfold s3_put_if_absent, s3_ref_for_key.
  repeat (first [apply conditional_put_moves | apply stat_key_moves
                | apply guarded_put_moves; [intros ?|] | moves_step | case_match]).
Qed.
Lemma s3_open_moves ref : moves s3_order (s3_open ref).
Proof.
  unfold s3_open, s3_key_for_ref. repeat (first [moves_step | apply stat_key_moves | apply get_body_moves | case_match]).
Qed.
Lemma s3_stat_moves ref : moves s3_order (s3_stat ref).
Proof. unfold s3_stat, s3_key_for_ref. repeat (first [moves_step | apply stat_key_moves | case_match]). Qed.

(** ** What a verified key shows *)

Lemma get_body_Ok key w s body s' : get_body key w s = (Ok body, s') ->
  (exists head, s3_object (state_of s) key = Some (body, head)) /\ forall k, s3_object (state_of s') k = s3_object (state_of s) k.
Proof.
  unfold get_body, pure_step, mbind, M_bind. destruct (client_get key (state_of s)) as [r c'] eqn:E.
  destruct (get_reads _ _ _ _ E) as [Hsame Hr]. destruct r as [b|e]; [|done]. intros [= <- <-]. by split.
Qed.

Lemma stat_key_Ok key w s info s' : s3_validate_key key = Ok key -> _stat_key key w s = (Ok info, s') ->
  exists body, s3_kept (state_of s') key body (oi_content_type info) /\ oi_sha256 info = bytes_digest body
    /\ oi_size_bytes info = len body /\ oi_provider_version info = Some key.
Proof.
  intros Hkey E. unfold _stat_key in E. apply M_bind_Ok in E as (reply & s1 & E1 & E).
  apply get_head_run in E1 as [E1 _]. destruct (head_reads _ _ _ _ E1) as [Hsame1 Hrep].
  destruct reply as [head|e]; [|by destruct (_is_missing e)]. destruct Hrep as (body & Hobj).
  destruct (read_head head) as [[[digest size] kind]|e] eqn:Hr; [|done].
  apply M_bind_Ok in E as (body' & s2 & E2 & E). destruct (get_body_Ok _ _ _ _ _ E2) as [(head' & Hobj') Hsame2].
  rewrite Hsame1 in Hobj'. rewrite Hobj in Hobj'. injection Hobj' as <- <-.
  apply M_bind_Ok in E as (? & ? & [Hbody ->]%lift_Ok & E). unfold _ensure_body in Hbody.
  destruct (Z.eqb_spec (len body) size) as [<-|]; [|done]. destruct (bool_decide (bytes_digest body = digest)) eqn:Hd; [|done].
  apply bool_decide_eq_true in Hd as <-. unfold s3_ref_for_key in E. rewrite Hkey in E.
  apply M_bind_Ok in E as (ref & ? & [[= <-] ->]%lift_Ok & E). apply lift_Ok in E as [E ->].
  assert (Hfits : fits_digest (bytes_digest body) /\ fits_type kind).
  { unfold read_head in Hr. inv_bind. injection Hr as -> _ ->. split; [by eapply fs_validate_digest_Ok|by eapply fs_normalize_Ok]. }
  rewrite ObjectInfo_init_fits in E by (try apply Hfits; unfold len; lia). injection E as <-. exists body. simpl.
  split; [|done]. split; [done|]. exists head. split; [|done]. by rewrite Hsame2, Hsame1.
Qed.

Lemma s3_put_kept storage_key body sha256 size kind w s ref s' :
  s3_put_if_absent storage_key body sha256 size kind w s = (Ok ref, s') ->
  exists body' kind', s3_kept (state_of s') storage_key body' kind' /\ bytes_digest body' = bytes_digest body
    /\ len body' = len body.
Proof.
  intros E. unfold s3_put_if_absent in E.
  apply M_bind_Ok in E as (key & ? & [Hkey ->]%lift_Ok & E).
  apply M_bind_Ok in E as (digest & ? & [Hdig ->]%lift_Ok & E).
  apply M_bind_Ok in E as (media & ? & [Hmedia ->]%lift_Ok & E).
  destruct (size <? 0); [done|]. destruct (Z.eqb_spec (len body) size) as [<-|]; [|done].
  destruct (bool_decide (bytes_digest body = digest)) eqn:Hd; [|done]. apply bool_decide_eq_true in Hd as <-. cbn [negb orb] in E.
  apply M_bind_Ok in E as (reply & s1 & _ & E). apply M_bind_Ok in E as (? & s2 & _ & E).
  apply M_bind_Ok in E as (info & s3 & E3 & E). apply M_bind_Ok in E as (? & ? & [Hmatch ->]%lift_Ok & E).
  unfold s3_ref_for_key in E. apply lift_Ok in E as [_ ->]. destruct (s3_validate_key_Ok _ _ Hkey) as [-> _].
  destruct (stat_key_Ok _ _ _ _ _ Hkey E3) as (body' & Hkept & Hsha & Hsize & _).
  exists body', (oi_content_type info). split; [done|]. unfold s3_ensure_match in Hmatch.
  destruct (bool_decide (oi_sha256 info = bytes_digest body)) eqn:H1; [|done]. apply bool_decide_eq_true in H1.
  destruct (Z.eqb_spec (oi_size_bytes info) (len body)); [|done]. split; congruence.
Qed.

#[export] Instance s3_laws : StoreLaws C.
Proof.
  unshelve econstructor; [exact s3_inv|exact s3_kept|exact s3_kept|..].
  - done.
  - intros. apply s3_order_store, s3_put_moves.
  - intros. apply s3_order_store, s3_open_moves.
  - intros. apply s3_order_store, s3_stat_moves.
  - intros. apply s3_order_store. simpl. unfold s3_ref_for_key. moves_step.
  - intros w s ref info s' _ E. simpl in E. unfold s3_stat, s3_key_for_ref in E.
    destruct (s3_validate_key ref) as [key|e] eqn:Hkey; [|done]. apply M_bind_Ok in E as (? & ? & [= <- <-] & E).
    destruct (s3_validate_key_Ok _ _ Hkey) as [-> Hne].
    destruct (stat_key_Ok _ _ _ _ _ Hkey E) as (body & Hk & H1 & H2 & H3). exists body. split; [done|]. auto.
  - intros w s ref body s' _ E. simpl in E. unfold s3_open, s3_key_for_ref in E.
    destruct (s3_validate_key ref) as [key|e] eqn:Hkey; [|done]. apply M_bind_Ok in E as (? & ? & [= <- <-] & E).
    destruct (s3_validate_key_Ok _ _ Hkey) as [-> Hne]. apply M_bind_Ok in E as (info & s1 & E1 & E).
    destruct (stat_key_Ok _ _ _ _ _ Hkey E1) as (body' & (_ & head & Ho & Hr) & _).
    apply M_bind_Ok in E as (body'' & s2 & E2 & E). apply M_bind_Ok in E as (? & ? & [_ ->]%lift_Ok & E). injection E as -> <-.
    destruct (get_body_Ok _ _ _ _ _ E2) as [(head' & Ho') Hsame]. rewrite Ho in Ho'. injection Ho' as <- <-.
    exists (oi_content_type info). split; [done|]. exists head. by rewrite Hsame.
  - intros c ref body kind body' kind' (_ & head & Ho & Hr) (_ & head' & Ho' & Hr'). simplify_eq. by rewrite Hr in Hr'; simplify_eq.
  - intros w s key body sha256 size kind ref s' _ _ E. by apply s3_put_kept in E.
  - intros w s key body kind _ (Hk & Ho). exists key, s. simpl. unfold s3_ref_for_key, lift. rewrite Hk. by split.
Defined.
End laws.
