(* ===== verification/ObjectTheorems.v ===== *)
(** * Theorems of the object store

    The service over any repository and store with their laws, and the behaviours of the two
    adapters when something has gone wrong, each at a concrete run. *)

From S2P Require Export ObjectLaws ObjectTheory ObjectStoreLaws.
#[local] Open Scope list_scope.

Module ObjectExamples.
(** A digest with 64 hexadecimal digits *)
#[export] Instance sample_sha : BytesDigest := fun s =>
  of_chars (take 64 (flat_map (fun c => [hex_digit (code c / 16); hex_digit (code c mod 16)]) (chars s)
                     ++ replicate 64 "0"%char)).
Definition w0 : world := World (fun n => 1000 + Z.of_nat n) (fun n => 50 + Z.of_nat n).
Lemma w0_unique : unique_uuids w0.
Proof. split; simpl; lia. Qed.

Definition start : sys (objects versions filesystem) := Sys (MkObjects [] empty_filesystem []) 0 0.
Lemma start_inv : objects_inv w0 start.
Proof.
  split; [|split].
  - split; [exact w0_unique|]. split; intros x y E; destruct (lookup_empty_Some x y E).
  - split; [constructor|done].
  - done.
Qed.

Abbreviation put_page key text :=
  (objects_put "release-1" "local" key text None None "text/html" "listing_page" None).
Definition first_key : version_key := (1, 2).
Definition second_key : version_key := (1, 3).
Definition one : sys (objects versions filesystem) := Eval vm_compute in (put_page first_key "<html>" w0 start).2.
Definition first_ref : ObjectVersionRef := Eval vm_compute in
  MkObjectVersionRef 1 2 (sample_sha "<html>") 6 "text/html".
Definition two : sys (objects versions filesystem) := Eval vm_compute in (put_page second_key "<body>" w0 one).2.
Example put_one : put_page first_key "<html>" w0 start = (Ok first_ref, one).
Proof. vm_compute. reflexivity. Qed.
Example put_two : (put_page second_key "<body>" w0 one).2 = two.
Proof. vm_compute. reflexivity. Qed.
Lemma one_two : objects_history "release-1" "local" w0 one two.
Proof. rewrite <- put_two. apply rtc_once. apply happens_put. Qed.
Lemma start_one : objects_history "release-1" "local" w0 start one.
Proof.
  assert (E : (put_page first_key "<html>" w0 start).2 = one) by (by rewrite put_one).
  rewrite <- E. apply rtc_once, happens_put.
Qed.
End ObjectExamples.
Import ObjectExamples.

(** ** The service *)

Section claims.
Context {R O : Type} {repository : ObjectMetadataRepository R} {store : ObjectStore O} {digest_of : BytesDigest}
  {repository_laws : RepositoryLaws R} {store_laws : StoreLaws O} {answers : StoreAnswers O}.
Variables release_id environment : string.


(** C22: A version is settled once: whatever happens, the state of the service stays valid, its
    versions stay, with their content, and one that is available or failed never changes. *)
Theorem version_settled_once w (s s' : sys (objects R O)) :
  objects_inv w s -> objects_history release_id environment w s s' ->
  objects_inv w s' /\
  forall key m, version_of key (state_of s) = Some m ->
    exists m', version_of key (state_of s') = Some m' /\ same_version m m' /\ (ov_state m <> "pending" -> m' = m).
Proof.
  intros Hi Hh. destruct (history_order _ _ _ _ _ Hh Hi) as (Hi' & _ & Hv). split; [done|].
  intros key m Hm. destruct (Hv key m Hm) as (m' & Hm' & Hstep). exists m'. split; [done|].
  destruct Hstep as [-> | (Hp & Hsame & _)]; [by split|]. split; [done|]. by intros [].
Qed.

(** C23: A reconciliation with an age limit that returns leaves no version pending that was
    created before the limit, and its counters are the numbers of those that became available
    and that failed. *)
Theorem reconciliation_settles w (s s' : sys (objects R O)) max_age result :
  objects_inv w s -> reconcile_pending (Some max_age) w s = (Ok result, s') ->
  let limit := time_at w (ticks s) - max_age in
  let keys := repo_pending (Some limit) (os_repository (state_of s)) in
  (forall key m, version_of key (state_of s) = Some m -> ov_state m = "pending" -> ov_created_at m < limit ->
     key ∈ keys /\ exists m', version_of key (state_of s') = Some m' /\ same_version m m'
       /\ (ov_state m' = "available" \/ ov_state m' = "failed")) /\
  rc_completed result = ended_in (Some limit) s s' "available" keys /\
  rc_failed result = ended_in (Some limit) s s' "failed" keys.
Proof.
  intros Hi E limit keys.
  pose proof (wp_run _ _ _ _ _ _ (wp_reconcile_pending (Some max_age) w s Hi) E) as Hp. cbv zeta in Hp.
  destruct Hp as (_ & _ & R1 & R2 & _ & Rall). split; [|split; [exact R1|exact R2]].
  intros key m Hm Hpend Hage.
  destruct (repo_pending_all (os_repository (state_of s)) (Some limit) key m) as [Hin Hn]; [apply Hi|done|done|simpl; lia|].
  split; [done|]. destruct (Rall key m Hin Hn) as (outcome & m' & Hlim & Hm' & Hset). exists m'. split; [done|].
  destruct outcome; simpl in Hset; [destruct Hset; auto..|].
  specialize (Hlim eq_refl). simpl in Hlim. unfold limit in Hage. lia.
Qed.
End claims.


Lemma version_settled_once_witness : objects_inv w0 two /\
  forall key m, version_of key (state_of one) = Some m ->
    exists m', version_of key (state_of two) = Some m' /\ same_version m m' /\ (ov_state m <> "pending" -> m' = m).
Proof.
  refine (version_settled_once "release-1" "local" w0 one two _ one_two).
  exact (proj1 (history_order _ _ _ _ _ start_one start_inv)).
Defined.

(** ** A reconciliation over the tables *)

Module CrashExamples.
(** A process recorded two versions, wrote the bytes of the first, and stopped. *)
Abbreviation recorded key text := (on_repository (repo_create_pending key "listing_page" (objects_storage_key key)
  (bytes_digest text) (len text) "text/html" 60 9)).
Definition empty_tables : object_tables := MkObjectTables [] [].
Definition crash_start : sys (objects object_tables filesystem) := Sys (MkObjects empty_tables empty_filesystem []) 0 0.
Abbreviation written := (on_store (put_if_absent (objects_storage_key first_key) "<html>" (bytes_digest "<html>") 6 "text/html")).
Definition crashed_1 : sys (objects object_tables filesystem) := Eval vm_compute in (recorded first_key "<html>" w0 crash_start).2.
Definition crashed_2 := Eval vm_compute in (written w0 crashed_1).2.
Definition crashed_3 := Eval vm_compute in (recorded second_key "<body>" w0 crashed_2).2.
(** A later process *)
Definition crashed := Sys (state_of crashed_3) 10 100.
Definition reconciled := Eval vm_compute in (reconcile_pending (Some 20) w0 crashed).2.
Example reconciled_eq : reconcile_pending (Some 20) w0 crashed = (Ok (MkReconciliationResult 1 1 0), reconciled).
Proof. vm_compute. reflexivity. Qed.

Lemma recorded_inv key text (s : sys (objects object_tables filesystem)) :
  objects_inv w0 s -> lower (bytes_digest text) = bytes_digest text -> objects_inv w0 (recorded key text w0 s).2.
Proof.
  intros Hi Hd. pose proof (wp_create_pending key "listing_page" (objects_storage_key key) (bytes_digest text) (len text)
    "text/html" 60 9 w0 s (fun _ s' => objects_inv w0 s') Hi Hd eq_refl) as Hw.
  unfold wp in Hw. destruct (recorded key text w0 s) as [r s']. apply Hw; [by intros|]. intros e s2 Ho. by apply Ho.
Qed.

Lemma crashed_inv : objects_inv w0 crashed.
Proof.
  assert (H0 : objects_inv w0 crash_start).
  { split; [|split; [|done]].
    - split; [exact w0_unique|]. split; intros x y E; destruct (lookup_empty_Some x y E).
    - split; [constructor|]. intros v Hv. by apply not_elem_of_nil in Hv. }
  assert (E1 : (recorded first_key "<html>" w0 crash_start).2 = crashed_1) by (vm_compute; reflexivity).
  assert (E2 : (written w0 crashed_1).2 = crashed_2) by (vm_compute; reflexivity).
  assert (E3 : (recorded second_key "<body>" w0 crashed_2).2 = crashed_3) by (vm_compute; reflexivity).
  assert (H1 : objects_inv w0 crashed_1) by (rewrite <- E1; apply recorded_inv; [exact H0|vm_compute; reflexivity]).
  assert (H2 : objects_inv w0 crashed_2) by (rewrite <- E2; apply (on_store_moves _ (put_moves _ _ _ _ _) w0 crashed_1 H1)).
  assert (H3 : objects_inv w0 crashed_3) by (rewrite <- E3; apply recorded_inv; [exact H2|vm_compute; reflexivity]).
  refine (proj1 (later_order w0 crashed_3 10 100 H3 _)). simpl. lia.
Qed.
End CrashExamples.
Import CrashExamples.

Lemma reconciliation_settles_witness :
  let keys := repo_pending (Some 130) (os_repository (state_of crashed)) in
  (forall key m, version_of key (state_of crashed) = Some m -> ov_state m = "pending" -> ov_created_at m < 130 ->
     key ∈ keys /\ exists m', version_of key (state_of reconciled) = Some m' /\ same_version m m'
       /\ (ov_state m' = "available" \/ ov_state m' = "failed")) /\
  1 = ended_in (Some 130) crashed reconciled "available" keys /\
  1 = ended_in (Some 130) crashed reconciled "failed" keys.
Proof. exact (reconciliation_settles w0 crashed reconciled 20 _ crashed_inv reconciled_eq). Defined.

(** ** Bytes without metadata *)

Section orphan.
Context `{BytesDigest}.

Lemma stat_path_orphan key body w s : fs_files (state_of s) !! key = Some body ->
  fs_files (state_of s) !! _metadata_path key = None -> _stat_path key w s = (Raise ObjectIntegrityError, s).
Proof.
  intros Hb Hm. unfold _stat_path, mbind, M_bind, get. rewrite Hb, bool_decide_eq_false_2; [done|].
  rewrite Hm. by intros [? ?].
Qed.

(** A process that stops between the two files of an object makes its key unusable: once the
    bytes are linked and the metadata is not, every write to the key is refused, whatever it
    holds, and leaves it so. *)
Theorem orphan_bytes_refused key body w s s1 : fs_files (state_of s) !! _metadata_path key = None ->
  _publish_exclusive key body w s = (Ok true, s1) ->
  forall later, fs_files (state_of later) = fs_files (state_of s1) ->
  forall storage_key body' sha256 size kind, fs_validate_key storage_key = Ok key ->
    let '(r, s') := fs_put_if_absent storage_key body' sha256 size kind w later in
    (exists e, r = Raise e) /\ fs_files (state_of s') = fs_files (state_of s1).
Proof.
  intros Hm E later Hl storage_key body' sha256 size kind Hk. rewrite publish_eq in E.
  destruct (_ || _); [discriminate|]. injection E as <-. simpl in Hl.
  assert (Hb : fs_files (state_of later) !! key = Some body) by (rewrite Hl; apply lookup_insert_eq).
  assert (Hmeta : fs_files (state_of later) !! _metadata_path key = None).
  { rewrite Hl, lookup_insert_ne; [done|]. intros Eq. apply (f_equal len) in Eq. unfold _metadata_path in Eq.
    rewrite !len_chars, chars_app, length_app in Eq. simpl in Eq. lia. }
  unfold fs_put_if_absent, mbind, M_bind, lift. rewrite Hk.
  destruct (fs_validate_digest sha256) as [digest|e]; [|by split; [eexists|]].
  destruct (fs_normalize_content_type kind) as [media|e]; [|by split; [eexists|]].
  destruct (size <? 0); [by split; [eexists|]|]. rewrite make_parents_eq.
  destruct (existsb _ _); [by split; [eexists|]|]. destruct (_ || _); [by split; [eexists|]|].
  rewrite publish_eq. simpl. rewrite bool_decide_eq_true_2 by (rewrite Hb; by eexists). cbn [orb].
  rewrite (stat_path_orphan key body) by done. split; [by eexists|exact Hl].
Qed.
End orphan.

Lemma orphan_bytes_refused_witness :
  let s := Sys empty_filesystem 0 0 in let s1 := (_publish_exclusive "objects/raw/a" "<html>" w0 s).2 in
  let '(r, s') := fs_put_if_absent "objects/raw/a" "<html>" (bytes_digest "<html>") 6 "text/html" w0 s1 in
  (exists e, r = Raise e) /\ fs_files (state_of s') = fs_files (state_of s1).
Proof.
  intros s s1. apply (orphan_bytes_refused "objects/raw/a" "<html>" w0 s s1); [reflexivity|reflexivity|reflexivity|].
  vm_compute. reflexivity.
Defined.

(** ** A new process over the same files *)

(** The adapter of a new process knows no reference: what a repository remembers of an available
    version does not lead to its bytes. *)
Lemma restart_forgets_references `{BytesDigest} ref w s : fs_keys_by_token (state_of s) = ∅ ->
  fs_stat ref w s = (Raise ObjectNotFound, s).
Proof. intros Hk. unfold fs_stat, mbind, M_bind. by rewrite _key_for_ref_eq, Hk. Qed.

(** ** A provider out of reach *)

Section outage.
Context {R C : Type} {repository : ObjectMetadataRepository R} {repository_laws : RepositoryLaws R}
  {client : S3Client C} {digest_of : BytesDigest}.
Variables release_id environment : string.

Lemma stat_out_of_reach key e w (s : sys C) : s3_validate_key key = Ok key -> _is_missing e = false ->
  (client_head key (state_of s)).1 = inr e -> exists s', s3_stat key w s = (Raise ObjectIntegrityError, s').
Proof.
  intros Hk He Hc. unfold s3_stat, s3_key_for_ref. rewrite Hk. unfold _stat_key, mbind, M_bind, get_head, pure_step, mret, M_ret.
  destruct (client_head key (state_of s)) as [r c']. simpl in Hc. subst r. rewrite He. by eexists.
Qed.

End outage.

(** A provider that answers every request with an error of its own *)
#[export] Instance unreachable_client : S3Client unit := {|
  client_put _ _ _ _ _ c := (inr (MkClientError "SlowDown" false), c);
  client_head _ c := (inr (MkClientError "SlowDown" false), c);
  client_get _ c := (inr (MkClientError "SlowDown" false), c)
|}.
Definition unsettled : sys (objects versions unit) :=
  Sys (MkObjects [(first_key, pending_version first_key "listing_page" (objects_storage_key first_key)
                                (bytes_digest "<html>") 6 "text/html" 60 9)] tt []) 0 0.

