(* ===== verification/SilverSchema.v ===== *)
(** * The Silver schema ([application/silver/silver_schema.py])

    The schema document, the normalisation of a Bronze snapshot under it, and the
    comparison of two versions of a listing. *)

From S2P Require Export IngestionContracts PyParse.
#[local] Open Scope list_scope.

Record RangeSpec := MkRangeSpec {
  rg_gt : option float; rg_ge : option float; rg_max : option float;
  rg_max_items : option Z; rg_item_max_length : option Z; rg_max_length : option Z
}.

Record SilverSchemaSpec := MkSilverSchemaSpec {
  ss_contract_version : string; ss_normalizer_version : string;
  ss_enums : odict string (list string); ss_ranges : odict string RangeSpec;
  ss_errors : odict string string; ss_precision_rules : odict string string;
  ss_change_fields : odict string (list string)
}.

(** ** The document *)

Definition _optional_float (v : pyval) : result (option float) :=
  match v with
  | VNone => Ok None
  | VInt _ | VFloat _ => f ← to_float v; Ok (Some f)
  | _ => Raise ValueError
  end.
Definition _optional_int (v : pyval) : result (option Z) :=
  match v with
  | VNone => Ok None
  | VInt z => Ok (Some z)
  | _ => Raise ValueError
  end.

Definition parse_range (raw : pyval) : result RangeSpec :=
  match raw with
  | VDict d =>
      gt ← _optional_float (dget "gt" d);
      ge ← _optional_float (dget "ge" d);
      mx ← _optional_float (dget "max" d);
      items ← _optional_int (dget "max_items" d);
      item_length ← _optional_int (dget "item_max_length" d);
      length ← _optional_int (dget "max_length" d);
      Ok (MkRangeSpec gt ge mx items item_length length)
  | _ => Raise ValueError
  end.

Fixpoint parse_ranges (raw : odict string pyval) : result (odict string RangeSpec) :=
  match raw with
  | [] => Ok []
  | (name, r) :: raw' => spec ← parse_range r; rest ← parse_ranges raw'; Ok ((name, spec) :: rest)
  end.

(** The items of a mapping whose values are lists, as lists of texts *)
Definition text_lists (raw : odict string pyval) : odict string (list string) :=
  omap (fun kv => match kv.2 with VList l => Some (kv.1, map py_str l) | _ => None end) raw.
Definition texts (raw : odict string pyval) : odict string string :=
  map (fun kv => (kv.1, py_str kv.2)) raw.
Definition mapping_or_empty (v : pyval) : odict string pyval :=
  match v with VDict d => d | _ => [] end.

Definition parse_silver_schema (data : odict string pyval) : result SilverSchemaSpec :=
  match dget "contract_version" data with
  | VStr "1" =>
      match dget "normalizer_version" data with
      | VStr version =>
          if bool_decide (version = "") then Raise ValueError
          else
            match dget "enums" data with
            | VDict enums =>
                ranges ← parse_ranges (mapping_or_empty (dget "ranges" data));
                Ok (MkSilverSchemaSpec "1" version (text_lists enums) ranges
                      (texts (mapping_or_empty (dget "errors" data)))
                      (texts (mapping_or_empty (dget "precision_rules" data)))
                      (text_lists (mapping_or_empty (dget "change_fields" data))))
            | _ => Raise ValueError
            end
      | _ => Raise ValueError
      end
  | _ => Raise ValueError
  end.

(** ** Coercions of the payload *)

Definition _as_currency (v : pyval) : option CurrencyType :=
  match v with
  | VStr s => if bool_decide (s = "ARS") then Some ARS
              else if bool_decide (s = "USD") then Some USD else None
  | _ => None
  end.

Definition property_literals : list (string * PropertyType) :=
  [("apartment", Apartment); ("house", House); ("room", Room); ("studio", Studio);
   ("commercial", Commercial); ("other", OtherProperty)].

(** The schema lists literals of the type: another string it might list is not modelled, and
    reads as the default. *)
Definition _as_property_type (v : pyval) (spec : SilverSchemaSpec) : PropertyType :=
  match v with
  | VStr s => if bool_decide (s ∈ default [] (oget "property_type" (ss_enums spec)))
              then default OtherProperty (oget s property_literals) else OtherProperty
  | _ => OtherProperty
  end.

(** There is one operation. *)
Definition _as_operation (v : pyval) (spec : SilverSchemaSpec) : OperationType := Rental.

Definition _as_number (v : pyval) : result (option float) :=
  match v with
  | VInt _ | VFloat _ => f ← to_float v; Ok (Some f)
  | VStr s =>
      if bool_decide (strip s = "") then Ok None
      else match float_of_str (strip s) with Ok f => Ok (Some f) | Raise _ => Ok None end
  | _ => Ok None
  end.

Definition _as_int (v : pyval) : option Z :=
  match v with
  | VInt z => Some z
  | VFloat f =>
      if fis_integer f then match int_of_float f with Ok z => Some z | Raise _ => None end else None
  | VStr s =>
      if bool_decide (strip s = "") then None
      else match int_of_str (strip s) with Ok z => Some z | Raise _ => None end
  | _ => None
  end.

(** [bool] is an [int]: [True] becomes ["True"]. *)
Definition _as_string (v : pyval) : option string :=
  match v with VStr s => Some s | VInt _ | VFloat _ | VBool _ => Some (py_str v) | _ => None end.

Definition _in_range (value : float) (range : option RangeSpec) : bool :=
  match range with
  | None => true
  | Some r =>
      match rg_gt r with Some g => fltb g value | None => true end
      && match rg_ge r with Some g => fleb g value | None => true end
      && match rg_max r with Some m => fleb value m | None => true end
  end.

(** [float(value)] may overflow. *)
Definition _in_int_range (value : Z) (range : option RangeSpec) : result bool :=
  f ← float_of_int value; Ok (_in_range f range).

(** ** Normalisation *)

(** A value outside its range is dropped with an error code. *)
Definition keep_float (v : option float) (range : option RangeSpec) (error : string)
  : checked (option float) :=
  match v with
  | Some x => if _in_range x range then mret (Some x) else (_ ← emit error; mret None)
  | None => mret None
  end.
Definition keep_int (v : option Z) (range : option RangeSpec) (error : string) : checked (option Z) :=
  match v with
  | Some z => ok ← pure (_in_int_range z range);
              if (ok : bool) then mret (Some z) else (_ ← emit error; mret None)
  | None => mret None
  end.

Definition amenity_too_long (range : option RangeSpec) (item : string) : bool :=
  match range with
  | Some r => match rg_max_length r with Some n => n <? len item | None => false end
  | None => false
  end.
Fixpoint clean_amenities (range : option RangeSpec) (items : list pyval) : checked (list string) :=
  match items with
  | [] => mret []
  | VStr item :: items' =>
      if amenity_too_long range item
      then _ ← emit "silver.amenities_too_long"; clean_amenities range items'
      else rest ← clean_amenities range items'; mret (item :: rest)
  | _ :: items' => clean_amenities range items'
  end.

Definition _assign_location (payload : odict string pyval)
  : result (option (float * float) * GeoPrecision * option string) :=
  lat ← _as_number (dget "latitude" payload);
  lng ← _as_number (dget "longitude" payload);
  let has_address := match dget "address_text" payload with
                     | VStr s => negb (bool_decide (strip s = "")) | _ => false end in
  let has_neighborhood := match dget "neighborhood" payload with
                          | VStr s => negb (bool_decide (s = "")) | _ => false end in
  Ok match lat, lng with
     | Some a, Some b => (Some (a, b), if has_address then Exact else Block, None)
     | _, _ => (None, if has_neighborhood then Neighborhood else UnknownPrecision, None)
     end.

Definition clean_description (v : pyval) (range : option RangeSpec) : checked (option string) :=
  match v with
  | VStr s =>
      if bool_decide (strip s = "") then mret None
      else if amenity_too_long range s then _ ← emit "silver.description_too_long"; mret None
      else mret (Some (strip s))
  | _ => mret None
  end.

Definition clean_url (v : pyval) : checked (option string) :=
  match v with
  | VStr s =>
      if bool_decide (strip s = "") then mret None
      else if is_http_url (strip s) then mret (Some (strip s))
      else _ ← emit "silver.url_invalid"; mret None
  | _ => mret None
  end.

(** The codes emitted so far *)
Definition written : checked (list string) := fun errors => Ok (errors, errors).

Definition normalize_payload (payload : odict string pyval) (spec : SilverSchemaSpec)
  : checked NormalizedFields :=
  let range := fun name => oget name (ss_ranges spec) in
  price ← pure (_as_number (dget "price" payload));
  _ ← emit_if (bool_decide (_as_currency (dget "currency" payload) = None)) "silver.currency_unsupported";
  let price_currency := default ARS (_as_currency (dget "currency" payload)) in
  price ← keep_float price (range "price_value") "silver.price_range";
  let price_value := default (FFin 0) price in
  expenses ← pure (_as_number (dget "expenses" payload));
  expenses ← keep_float expenses (range "expenses_value") "silver.expenses_range";
  let expenses_currency := default price_currency (_as_currency (dget "expenses_currency" payload)) in
  let mismatch := match expenses with
                  | Some _ => negb (bool_decide (expenses_currency = price_currency)) | None => false end in
  let assumptions := if mismatch then [("expenses_currency_mismatch", VBool true)] else [] in
  let expenses := if mismatch then None else expenses in
  let total_cost := match expenses with Some e => fadd price_value e | None => price_value end in
  surface ← pure (_as_number (dget "surface_m2" payload));
  surface ← keep_float surface (range "surface_m2") "silver.surface_range";
  rooms ← keep_int (_as_int (dget "rooms" payload)) (range "rooms") "silver.rooms_range";
  bedrooms ← keep_int (_as_int (dget "bedrooms" payload)) (range "bedrooms") "silver.bedrooms_range";
  floor ← keep_int (_as_int (dget "floor" payload)) (range "floor") "silver.floor_range";
  amenities ← match dget "amenities" payload with
              | VList items => clean_amenities (range "amenities") items
              | _ => mret []
              end;
  description ← clean_description (dget "description" payload) (range "description");
  let location_text := default "" (_as_string (dget "address_text" payload)) in
  let neighborhood := strip <$> _as_string (dget "neighborhood" payload) in
  url ← clean_url (dget "url" payload);
  location ← pure (_assign_location payload);
  let '(geometry, precision, geo_source) := location in
  errors ← written;
  mret (MkNormalizedFields (_as_operation (dget "operation" payload) spec)
          (_as_property_type (dget "property_type" payload) spec) price_value price_currency
          expenses (Some expenses_currency) total_cost assumptions surface rooms bedrooms floor
          (take 100 amenities) description location_text neighborhood precision geometry geo_source
          url errors).

Definition normalize_snapshot (snapshot : RawListingSnapshot) (spec : SilverSchemaSpec)
  : result NormalizedFields :=
  '(fields, _) ← normalize_payload (rls_payload snapshot) spec []; Ok fields.

(** ** Comparison of two versions *)

Definition opt_val {A} (f : A -> pyval) (x : option A) : pyval :=
  match x with Some y => f y | None => VNone end.
Definition currency_str (c : CurrencyType) : string := match c with ARS => "ARS" | USD => "USD" end.
Definition property_str (p : PropertyType) : string :=
  match p with
  | Apartment => "apartment" | House => "house" | Room => "room" | Studio => "studio"
  | Commercial => "commercial" | OtherProperty => "other"
  end.

(** [getattr(listing, field)] for the fields that hold a text, a number, a list or a
    mapping, as the JSON value it is stored as; the identifiers, instants and the source are
    not compared by any published schema. *)
Definition listing_field (field : string) (l : NormalizedListing) : option pyval :=
  oget field [
    ("external_id", VStr (external_id l)); ("url", opt_val VStr (nl_url l));
    ("normalizer_version", VStr (normalizer_version l)); ("operation", VStr "rental");
    ("property_type", VStr (property_str (property_type l))); ("price_value", VFloat (price_value l));
    ("price_currency", VStr (currency_str (price_currency l)));
    ("expenses_value", opt_val VFloat (expenses_value l));
    ("expenses_currency", opt_val (fun c => VStr (currency_str c)) (expenses_currency l));
    ("total_cost", opt_val VFloat (total_cost l)); ("price_assumptions", VDict (price_assumptions l));
    ("surface_m2", opt_val VFloat (surface_m2 l)); ("rooms", opt_val VInt (rooms l));
    ("bedrooms", opt_val VInt (bedrooms l)); ("floor", opt_val VInt (floor_number l));
    ("amenities", VList (map VStr (amenities l))); ("description_text", opt_val VStr (description_text l));
    ("location_text", VStr (location_text l)); ("neighborhood", opt_val VStr (neighborhood l));
    ("geo_precision", VStr (geo_str (geo_precision l)));
    ("geometry", opt_val (fun p => VList [VFloat p.1; VFloat p.2]) (geometry l));
    ("geo_source", opt_val VStr (geo_source l));
    ("normalization_errors", VList (map VStr (normalization_errors l)))].

Definition field_change := (string * pyval * pyval)%type.

Fixpoint compare_fields (change_type : string) (fields : list string) (previous current : NormalizedListing)
    (changes : odict string field_change) : result (odict string field_change) :=
  match fields with
  | [] => Ok changes
  | field :: fields' =>
      match listing_field field previous, listing_field field current with
      | Some before, Some after =>
          compare_fields change_type fields' previous current
            (if py_eqb before after then changes else oset field (change_type, before, after) changes)
      | _, _ => Raise AttributeError
      end
  end.

Fixpoint compare_types (types : odict string (list string)) (previous current : NormalizedListing)
    (changes : odict string field_change) : result (odict string field_change) :=
  match types with
  | [] => Ok changes
  | (change_type, fields) :: types' =>
      changes ← compare_fields change_type fields previous current changes;
      compare_types types' previous current changes
  end.

Definition compare_listings (previous current : NormalizedListing) (spec : SilverSchemaSpec)
  : result (odict string field_change) := compare_types (ss_change_fields spec) previous current [].

(** ** The published schema ([contracts/silver/v1/silver-schema.json]) *)

Definition bounds (gt ge mx : option float) : RangeSpec := MkRangeSpec gt ge mx None None None.
Definition at_most (n : Z) : RangeSpec := MkRangeSpec None None None None None (Some n).
Definition published_schema : SilverSchemaSpec := {|
  ss_contract_version := "1"; ss_normalizer_version := "silver-schema-v1";
  ss_enums := [("operation_type", ["rental"]);
    ("property_type", ["apartment"; "house"; "room"; "studio"; "commercial"; "other"]);
    ("currency_type", ["ARS"; "USD"]);
    ("geo_precision", ["exact"; "block"; "neighborhood"; "approximate"; "unknown"])];
  ss_ranges := [("price_value", bounds (Some (FFin 0)) None None);
    ("expenses_value", bounds None (Some (FFin 0)) None);
    ("surface_m2", bounds (Some (FFin 0)) None (Some (flit 1000000 1)));
    ("rooms", bounds None (Some (FFin 0)) (Some (flit 200 1)));
    ("bedrooms", bounds None (Some (FFin 0)) (Some (flit 100 1)));
    ("floor", bounds None (Some (flit (-10) 1)) (Some (flit 1000 1)));
    ("amenities", MkRangeSpec None None None (Some 100) (Some 100) None);
    ("description", at_most 20000); ("location_text", at_most 500);
    ("neighborhood", at_most 200); ("url", at_most 2000)];
  ss_errors := [("silver.surface_range", "surface outside (0, 1_000_000]");
    ("silver.rooms_range", "rooms outside [0, 200]"); ("silver.bedrooms_range", "bedrooms outside [0, 100]");
    ("silver.floor_range", "floor outside [-10, 1000]");
    ("silver.amenities_too_long", "amenity exceeds 100 chars");
    ("silver.description_too_long", "description exceeds 20_000 chars");
    ("silver.url_invalid", "url is not a valid http(s) URL");
    ("silver.currency_unsupported", "currency outside ARS/USD")];
  ss_precision_rules := [("address_and_coordinates", "exact"); ("coordinates_only", "block");
    ("neighborhood_only", "neighborhood"); ("approximate", "approximate"); ("none", "unknown")];
  ss_change_fields := [("price", ["price_value"; "price_currency"; "expenses_value"; "expenses_currency"; "total_cost"]);
    ("text", ["location_text"; "neighborhood"; "description_text"; "amenities"]);
    ("attribute", ["property_type"; "surface_m2"; "rooms"; "bedrooms"; "floor"; "operation"]);
    ("status", [])]
|}.

Example normalize_ex :
  match normalize_payload [("price", VStr "120000"); ("currency", VStr "USD"); ("expenses", VInt 30000);
      ("expenses_currency", VStr "ARS"); ("rooms", VFloat (FFin 3)); ("floor", VInt 2000);
      ("neighborhood", VStr " Palermo "); ("url", VStr "not a url")] published_schema [] with
  | Ok (f, errors) => (nf_rooms f, nf_floor f, nf_neighborhood f, nf_geo_precision f, errors)
  | Raise _ => (None, None, None, Exact, [])
  end = (Some 3, None, Some "Palermo"%string, Neighborhood, ["silver.floor_range"; "silver.url_invalid"]%string).
Proof. vm_compute. reflexivity. Qed.
