(* ===== verification/DedupePolicy.v ===== *)
(** * The dedupe policy ([application/silver/dedupe_policy.py])

    The policy document, the strong fingerprint, the proposal score, and the evaluation of a
    pair of listings. *)

From S2P Require Export SilverSchema.
From Stdlib Require Import QArith.
#[global] Open Scope Z_scope.
#[local] Open Scope list_scope.

Record DimensionSpec := MkDimensionSpec { dim_name : string; dim_weight : float }.
Record DedupePolicySpec := MkDedupePolicySpec {
  dp_policy_version : string; dp_dedupe_policy_version : string; dp_strong_fields : list string;
  dp_threshold : float; dp_dimensions : list DimensionSpec; dp_states : list string;
  dp_evidence_required : list string
}.
Record PairEvaluation := MkPairEvaluation {
  pe_method : option DedupeMethod; pe_state : option DedupeLinkState; pe_fingerprint : option string;
  pe_score : option float; pe_evidence : odict string pyval
}.
Definition no_evaluation (evidence : odict string pyval) : PairEvaluation :=
  MkPairEvaluation None None None None evidence.

(** ** The document *)

Definition parse_dimension (raw : pyval) : result DimensionSpec :=
  match raw with
  | VDict d =>
      match dget "name" d with
      | VStr name =>
          if bool_decide (name = "") then Raise ValueError
          else match dget "weight" d with
               | VInt _ | VFloat _ => w ← to_float (dget "weight" d); Ok (MkDimensionSpec name w)
               | _ => Raise ValueError
               end
      | _ => Raise ValueError
      end
  | _ => Raise ValueError
  end.
Fixpoint parse_dimensions (raw : list pyval) : result (list DimensionSpec) :=
  match raw with
  | [] => Ok []
  | d :: raw' => spec ← parse_dimension d; rest ← parse_dimensions raw'; Ok (spec :: rest)
  end.

Definition texts_or_empty (v : pyval) : list string :=
  match v with VList l => map py_str l | _ => [] end.

(** The threshold is converted last. *)
Definition parse_dedupe_policy (data : odict string pyval) : result DedupePolicySpec :=
  match dget "policy_version" data, dget "dedupe_policy_version" data, dget "strong_fields" data,
        dget "proposal" data with
  | VStr "1", VStr (String _ _ as version), VList (_ :: _ as strong), VDict proposal =>
      match dget "threshold" proposal, dget "dimensions" proposal with
      | (VInt _ | VFloat _) as threshold, VList (_ :: _ as raw) =>
          dimensions ← parse_dimensions raw;
          t ← to_float threshold;
          Ok (MkDedupePolicySpec "1" version (map py_str strong) t dimensions
                (texts_or_empty (dget "states" data)) (texts_or_empty (dget "evidence_required" data)))
      | _, _ => Raise ValueError
      end
  | _, _, _, _ => Raise ValueError
  end.

(** ** The strong fingerprint *)

(** [format(x, "f")]: six decimals *)
Definition format_6f (f : float) : string :=
  match f with
  | FNan => "nan"
  | FInf b => if b then "-inf" else "inf"
  | FFin q =>
      let n := rhe (q * inject_Z 1000000) in
      let a := Z.abs n in
      let ds := str_of_Z (a mod 1000000) in
      ((if Qle_bool 0 q then "" else "-") ++ str_of_Z (a / 1000000) ++ "."
      ++ zeros (6 - len ds) ++ ds)%string
  end.

Definition _canonical_number (value : float) : string :=
  if fis_integer value then match int_of_float value with Ok z => str_of_Z z | Raise _ => "" end
  else format_6f value.

Definition _strong_value (l : NormalizedListing) (field : string) : option string :=
  if bool_decide (field = "operation") then Some "rental"
  else if bool_decide (field = "property_type") then Some (property_str (property_type l))
  else if bool_decide (field = "price_value") then Some (_canonical_number (price_value l))
  else if bool_decide (field = "price_currency") then Some (currency_str (price_currency l))
  else if bool_decide (field = "surface_m2") then _canonical_number <$> surface_m2 l
  else if bool_decide (field = "rooms") then str_of_Z <$> rooms l
  else if bool_decide (field = "bedrooms") then str_of_Z <$> bedrooms l
  else if bool_decide (field = "neighborhood") then (fun s => join " " (PyStr.split (casefold s))) <$> neighborhood l
  else None.

Definition strong_values (l : NormalizedListing) (spec : DedupePolicySpec) : list (option string) :=
  map (_strong_value l) (dp_strong_fields spec).

(** [None] when a field is missing *)
Definition strong_fingerprint `{HexDigest} (l : NormalizedListing) (spec : DedupePolicySpec)
  : option string :=
  values ← mapM id (strong_values l spec); Some (hex_digest (join "|" values)).

(** ** The proposal score *)

Definition _WORD_RE (s : string) : list string :=
  split_by (fun c => negb (is_alnum_az09 c)) [] (chars s).

Definition _jaccard (a b : string) : option float :=
  let ta := remove_dups (_WORD_RE (lower a)) in
  let tb := remove_dups (_WORD_RE (lower b)) in
  let union := remove_dups (ta ++ tb) in
  let common := List.filter (fun t => bool_decide (t ∈ tb)) ta in
  match union with
  | [] => None
  | _ => Some (rnd (Z.of_nat (length common) # Pos.of_nat (length union)))
  end.

(** [1 - min(x, y) / max(x, y)] for positive [x] and [y] *)
Definition ratio_score (x y : float) : result (option float) :=
  if fleb x (FFin 0) || fleb y (FFin 0) then Ok None
  else r ← fdiv (fmin x y) (fmax x y); Ok (Some (fsub (FFin 1) r)).

Definition rooms_score (x y : Z) : float :=
  let diff := Z.abs (x - y) in
  if diff =? 0 then FFin 1 else if diff =? 1 then flit 1 2 else FFin 0.

Definition _dimension_score (name : string) (a b : NormalizedListing) : result (option float) :=
  if bool_decide (name = "address_tokens") then Ok (_jaccard (location_text a) (location_text b))
  else if bool_decide (name = "price") then
    if negb (bool_decide (price_currency a = price_currency b)) then Ok None
    else ratio_score (price_value a) (price_value b)
  else if bool_decide (name = "surface") then
    match surface_m2 a, surface_m2 b with
    | Some x, Some y => ratio_score x y
    | _, _ => Ok None
    end
  else if bool_decide (name = "rooms") then
    Ok match rooms a, rooms b with Some x, Some y => Some (rooms_score x y) | _, _ => None end
  else Ok None.

(** The scores, rounded, and the weights of the dimensions that apply *)
Fixpoint dimension_scores (dimensions : list DimensionSpec) (a b : NormalizedListing)
    (acc : odict string (float * float)) : result (odict string (float * float)) :=
  match dimensions with
  | [] => Ok acc
  | d :: dimensions' =>
      value ← _dimension_score (dim_name d) a b;
      dimension_scores dimensions' a b
        match value with
        | Some v => oset (dim_name d) (fround v 4, dim_weight d) acc
        | None => acc
        end
  end.

Definition _proposal_score (a b : NormalizedListing) (spec : DedupePolicySpec)
  : result (odict string float * float) :=
  scores ← dimension_scores (dp_dimensions spec) a b [];
  match scores with
  | [] => Ok ([], FFin 0)
  | _ =>
      score ← fdiv (fsum (map (fun kv => fmul kv.2.1 kv.2.2) scores)) (fsum (map (fun kv => kv.2.2) scores));
      Ok (map (fun kv => (kv.1, kv.2.1)) scores, score)
  end.

(** ** The evaluation of a pair *)

Definition _same_chain (a b : NormalizedListing) : bool :=
  bool_decide (source_id (nl_source a) = source_id (nl_source b))
  && bool_decide (external_id a = external_id b).

Definition evidence_fields (a : NormalizedListing) : odict string pyval := [
  ("operation", VStr "rental"); ("property_type", VStr (property_str (property_type a)));
  ("price_value", VFloat (price_value a)); ("price_currency", VStr (currency_str (price_currency a)));
  ("surface_m2", opt_val VFloat (surface_m2 a)); ("rooms", opt_val VInt (rooms a));
  ("bedrooms", opt_val VInt (bedrooms a)); ("neighborhood", opt_val VStr (neighborhood a))].

Definition _deterministic_evidence (a b : NormalizedListing) (fingerprint : string) : odict string pyval := [
  ("version", VStr "dedupe-policy-v1"); ("method", VStr "deterministic"); ("fingerprint", VStr fingerprint);
  ("fields", VDict (evidence_fields a));
  ("source_rows", VList [VStr (uuid_str (nl_snapshot_id a)); VStr (uuid_str (nl_snapshot_id b))])].

Definition evaluate_pair `{HexDigest} (a b : NormalizedListing) (spec : DedupePolicySpec)
  : result PairEvaluation :=
  if _same_chain a b then Ok (no_evaluation [])
  else
    match strong_fingerprint a spec, strong_fingerprint b spec with
    | Some f, Some f' =>
        if bool_decide (f = f') then
          Ok (MkPairEvaluation (Some Deterministic) (Some LinkConfirmed) (Some f) None
                (_deterministic_evidence a b f))
        else
          '(dimensions, score) ← _proposal_score a b spec;
          let shown := VDict (map (fun kv => (kv.1, VFloat kv.2)) dimensions) in
          if bool_decide (dimensions = []) then Ok (no_evaluation [])
          else if fltb score (dp_threshold spec)
          then Ok (no_evaluation [("dimensions", shown); ("score", VFloat score)])
          else Ok (MkPairEvaluation (Some Proposal) (Some LinkPending) None (Some (fround score 4))
                     [("dimensions", shown); ("score", VFloat (fround score 4))])
    | _, _ => Ok (no_evaluation [("degraded", VBool true)])
    end.

(** ** The published policy ([contracts/dedupe/v1/dedupe-policy.json]) *)

Definition published_dedupe_policy : DedupePolicySpec := {|
  dp_policy_version := "1"; dp_dedupe_policy_version := "dedupe-policy-v1";
  dp_strong_fields := ["operation"; "property_type"; "price_value"; "price_currency"; "surface_m2";
    "rooms"; "bedrooms"; "neighborhood"];
  dp_threshold := flit 6 10;
  dp_dimensions := [MkDimensionSpec "address_tokens" (flit 5 10); MkDimensionSpec "price" (flit 2 10);
    MkDimensionSpec "surface" (flit 2 10); MkDimensionSpec "rooms" (flit 1 10)];
  dp_states := ["pending"; "confirmed"; "rejected"];
  dp_evidence_required := ["version"; "method"; "fields"]
|}.

Example canonical_number_ex : map _canonical_number [FFin 120000; flit 455 10; flit (-1) 3; FNan]
  = ["120000"; "45.500000"; "-0.333333"; "nan"]%string.
Proof. vm_compute. reflexivity. Qed.
Example jaccard_ex : _jaccard "Av. Santa Fe 1234" "santa fe 1234, CABA" = Some (flit 3 5).
Proof. vm_compute. reflexivity. Qed.
