(* ===== verification/ListingStore.v ===== *)
(** * The tables of ingestion and normalisation
    ([infrastructure/db/repositories/imports.py], [silver.py],
     [infrastructure/db/models/imports.py], [silver.py])

    Import runs, raw snapshots and quarantine records (Bronze); canonical properties,
    listings, dedupe links and changes (Silver).  A repository method is one transaction.
    The unique and check constraints are enforced, and the NUMERIC columns give back what
    [numeric] makes of a float; foreign keys, column lengths and JSON encoding are not
    modelled.  Rows with equal sort keys keep their insertion order. *)

From S2P Require Export Tables IngestionContracts.
#[local] Open Scope list_scope.

Record lake := MkLake {
  l_runs : list ImportRun; l_snapshots : list RawListingSnapshot; l_quarantine : list QuarantineRecord;
  l_canonicals : list CanonicalProperty; l_listings : list NormalizedListing;
  l_links : list DedupeLink; l_changes : list ListingChange
}.
Definition empty_lake : lake := MkLake [] [] [] [] [] [] [].

Definition set_import_runs (x : list ImportRun) (d : lake) : lake :=
  MkLake x (l_snapshots d) (l_quarantine d) (l_canonicals d) (l_listings d) (l_links d) (l_changes d).
Definition set_snapshots (x : list RawListingSnapshot) (d : lake) : lake :=
  MkLake (l_runs d) x (l_quarantine d) (l_canonicals d) (l_listings d) (l_links d) (l_changes d).
Definition set_quarantine (x : list QuarantineRecord) (d : lake) : lake :=
  MkLake (l_runs d) (l_snapshots d) x (l_canonicals d) (l_listings d) (l_links d) (l_changes d).
Definition set_canonicals (x : list CanonicalProperty) (d : lake) : lake :=
  MkLake (l_runs d) (l_snapshots d) (l_quarantine d) x (l_listings d) (l_links d) (l_changes d).
Definition set_listings (x : list NormalizedListing) (d : lake) : lake :=
  MkLake (l_runs d) (l_snapshots d) (l_quarantine d) (l_canonicals d) x (l_links d) (l_changes d).
Definition set_links (x : list DedupeLink) (d : lake) : lake :=
  MkLake (l_runs d) (l_snapshots d) (l_quarantine d) (l_canonicals d) (l_listings d) x (l_changes d).
Definition set_changes (x : list ListingChange) (d : lake) : lake :=
  MkLake (l_runs d) (l_snapshots d) (l_quarantine d) (l_canonicals d) (l_listings d) (l_links d) x.

(** ** Bronze *)

Definition same_source (a b : SourceIdentity) : bool := bool_decide (source_id a = source_id b).
Definition import_run_clash (a b : ImportRun) : bool :=
  (ir_run_id a =? ir_run_id b)
  || (same_source (ir_source a) (ir_source b) && bool_decide (ir_batch_key a = ir_batch_key b)).
Definition finished_state (s : ImportRunState) : bool :=
  match s with ImportSucceeded | ImportFailed => true | _ => false end.
Definition counts_check (c : RunCounts) : bool :=
  (0 <=? total_records c) && (0 <=? accepted c) && (0 <=? quarantined c) && (0 <=? duplicates c)
  && (0 <=? missing_fields c).
Definition import_run_check (r : ImportRun) : bool :=
  Bool.eqb (finished_state (ir_state r)) (negb (bool_decide (ir_finished_at r = None)))
  && counts_check (ir_counts r) && (0 <=? ir_file_size_bytes r).

Definition snapshot_clash (a b : RawListingSnapshot) : bool :=
  (rls_snapshot_id a =? rls_snapshot_id b)
  || (same_source (rls_source a) (rls_source b) && bool_decide (rls_external_id a = rls_external_id b)
      && bool_decide (rls_content_sha256 a = rls_content_sha256 b)).
Definition snapshot_check (x : RawListingSnapshot) : bool := 0 <=? rls_size_bytes x.
Definition quarantine_clash (a b : QuarantineRecord) : bool := qr_record_id a =? qr_record_id b.
Definition quarantine_check (x : QuarantineRecord) : bool := len (qr_detail x) <=? 500.

Definition no_counts : RunCounts := MkRunCounts 0 0 0 0 0.
Definition import_run_create (run_id : Z) (source : SourceIdentity) (batch_key : string)
    (file_format : ImportFormat) (file_name file_sha256 : string) (file_size_bytes : Z)
    (raw_storage_key : string) (job_execution_id : option Z) (now : Z) : M lake ImportRun :=
  let run := MkImportRun run_id source batch_key file_format file_name file_sha256 file_size_bytes
               raw_storage_key job_execution_id ImportPending now now None no_counts None None 1 in
  _ ← add_to l_runs set_import_runs import_run_clash import_run_check run;
  mret run.

Definition import_run_get (run_id : Z) (d : lake) : option ImportRun := get_by ir_run_id run_id (l_runs d).
Definition import_run_by_identity (source batch_key : string) (d : lake) : option ImportRun :=
  find_first (fun r => bool_decide (source_id (ir_source r) = source)
                       && bool_decide (ir_batch_key r = batch_key)) (l_runs d).
Definition find_by_job_execution (execution_id : Z) (d : lake) : option ImportRun :=
  find_first (fun r => bool_decide (ir_job_execution_id r = Some execution_id)) (l_runs d).

(** What [save] writes of a run over its row *)
Definition import_run_row (run row : ImportRun) : ImportRun :=
  MkImportRun (ir_run_id row) (ir_source row) (ir_batch_key row) (ir_file_format row) (ir_file_name row)
    (ir_file_sha256 row) (ir_file_size_bytes row) (ir_raw_storage_key row) (ir_job_execution_id run)
    (ir_state run) (ir_created_at row) (ir_updated_at run) (ir_finished_at run) (ir_counts run)
    (ir_error_code run) (ir_error_detail run) (ir_version row + 1).
Definition import_run_save (run : ImportRun) : M lake unit :=
  d ← get;
  match import_run_get (ir_run_id run) d with
  | None => raise KeyError
  | Some row =>
      if import_run_check (import_run_row run row)
      then put (set_import_runs (update_by ir_run_id (ir_run_id run) (import_run_row run) (l_runs d)) d)
      else raise IntegrityError
  end.

Definition snapshot_exists (source external content : string) (d : lake) : bool :=
  existsb (fun x => bool_decide (source_id (rls_source x) = source) && bool_decide (rls_external_id x = external)
                    && bool_decide (rls_content_sha256 x = content)) (l_snapshots d).
Definition snapshot_insert : RawListingSnapshot -> M lake unit :=
  add_to l_snapshots set_snapshots snapshot_clash snapshot_check.
Definition snapshots_for_run (run_id : Z) (d : lake) : list RawListingSnapshot :=
  sort_by (fun a b => rls_captured_at a <? rls_captured_at b)
    (List.filter (fun x => rls_run_id x =? run_id) (l_snapshots d)).
Definition snapshot_get (id : Z) (d : lake) : option RawListingSnapshot := get_by rls_snapshot_id id (l_snapshots d).

Definition quarantine_insert : QuarantineRecord -> M lake unit :=
  add_to l_quarantine set_quarantine quarantine_clash quarantine_check.
Definition quarantine_for_run (run_id : Z) (d : lake) : list QuarantineRecord :=
  sort_by (fun a b => qr_created_at a <? qr_created_at b)
    (List.filter (fun x => qr_run_id x =? run_id) (l_quarantine d)).
Definition quarantine_get (id : Z) (d : lake) : option QuarantineRecord := get_by qr_record_id id (l_quarantine d).

(** ** Silver *)

Section silver.
Context `{NumericColumns}.

Definition canonical_clash (a b : CanonicalProperty) : bool := cp_id a =? cp_id b.
Definition canonical_create (id first_seen_at : Z) : M lake CanonicalProperty :=
  let row := MkCanonicalProperty id first_seen_at None 1 in
  _ ← add_to l_canonicals set_canonicals canonical_clash (fun _ => true) row;
  mret row.
Definition canonical_get (id : Z) (d : lake) : option CanonicalProperty := get_by cp_id id (l_canonicals d).

Definition silver_clash (a b : NormalizedListing) : bool :=
  (listing_id a =? listing_id b)
  || (bool_decide (normalizer_version a = normalizer_version b)
      && ((nl_snapshot_id a =? nl_snapshot_id b)
          || (same_source (nl_source a) (nl_source b) && bool_decide (external_id a = external_id b)
              && (last_observed_at a =? last_observed_at b)))).
Definition opt_range (lo hi : Z) (x : option Z) : bool :=
  match x with Some z => (lo <=? z) && (z <=? hi) | None => true end.
Definition silver_check (x : NormalizedListing) : bool :=
  fltb (FFin 0) (price_value x)
  && match total_cost x with Some t => fltb (FFin 0) t | None => false end
  && match expenses_value x with Some e => fleb (FFin 0) e | None => true end
  && match surface_m2 x with Some s => fltb (FFin 0) s && fleb s (flit 1000000 1) | None => true end
  && opt_range 0 200 (rooms x) && opt_range 0 100 (bedrooms x) && opt_range (-10) 1000 (floor_number x).

(** The row a listing is read back as *)
Definition silver_row (x : NormalizedListing) : NormalizedListing :=
  MkNormalizedListing (listing_id x) (canonical_property_id x) (nl_run_id x) (nl_snapshot_id x)
    (nl_source x) (external_id x) (nl_url x) (published_at x) (last_observed_at x)
    (normalizer_version x) (operation x) (property_type x) (numeric 2 (price_value x))
    (price_currency x) (numeric 2 <$> expenses_value x) (expenses_currency x)
    (numeric 2 <$> total_cost x) (price_assumptions x) (numeric 2 <$> surface_m2 x) (rooms x)
    (bedrooms x) (floor_number x) (amenities x) (description_text x) (location_text x)
    (neighborhood x) (geo_precision x) (geometry x) (geo_source x) (normalization_errors x).

Definition listing_insert (x : NormalizedListing) : M lake unit :=
  add_to l_listings set_listings silver_clash silver_check (silver_row x).
Definition listing_get (id : Z) (d : lake) : option NormalizedListing := get_by listing_id id (l_listings d).
Definition listing_exists (snapshot_id : Z) (version : string) (d : lake) : bool :=
  existsb (fun x => (nl_snapshot_id x =? snapshot_id) && bool_decide (normalizer_version x = version))
    (l_listings d).
Definition by_captured (l : list NormalizedListing) : list NormalizedListing :=
  sort_by (fun a b => last_observed_at a <? last_observed_at b) l.
Definition in_chain (source external : string) (x : NormalizedListing) : bool :=
  bool_decide (source_id (nl_source x) = source) && bool_decide (external_id x = external).
Definition list_chain (source external : string) (d : lake) : list NormalizedListing :=
  by_captured (List.filter (in_chain source external) (l_listings d)).
Definition list_canonical (id : Z) (d : lake) : list NormalizedListing :=
  by_captured (List.filter (fun x => canonical_property_id x =? id) (l_listings d)).
Definition find_dedupe_candidates (op : OperationType) (hood : option string) (source external : string)
    (d : lake) : list NormalizedListing :=
  match hood with
  | None => []
  | Some h =>
      by_captured (List.filter (fun x =>
        bool_decide (operation x = op)
        && match neighborhood x with Some n => bool_decide (lower n = casefold h) | None => false end
        && negb (in_chain source external x)) (l_listings d))
  end.
Definition latest_for_source (source external : string) (d : lake) : option NormalizedListing :=
  last (list_chain source external d).

Definition link_clash (a b : DedupeLink) : bool :=
  (link_id a =? link_id b)
  || ((link_listing_a_id a =? link_listing_a_id b) && (link_listing_b_id a =? link_listing_b_id b)).
Definition link_check (x : DedupeLink) : bool :=
  (link_listing_a_id x <? link_listing_b_id x)
  && match link_method x with
     | Deterministic => bool_decide (link_state x = LinkConfirmed)
     | Proposal => true
     end
  && match link_score x with Some s => fleb (FFin 0) s && fleb s (FFin 1) | None => true end.
Definition link_row (x : DedupeLink) : DedupeLink :=
  MkDedupeLink (link_id x) (link_listing_a_id x) (link_listing_b_id x) (link_method x) (link_state x)
    (link_fingerprint x) (numeric 4 <$> link_score x) (link_evidence x) (link_created_at x) 1 None None.
Definition link_insert (x : DedupeLink) : M lake unit :=
  add_to l_links set_links link_clash link_check (link_row x).
Definition link_get (id : Z) (d : lake) : option DedupeLink := get_by link_id id (l_links d).
Definition find_pair (a b : Z) (d : lake) : option DedupeLink :=
  find_first (fun x => (link_listing_a_id x =? a) && (link_listing_b_id x =? b)) (l_links d).
Definition links_by_state (state : DedupeLinkState) (d : lake) : list DedupeLink :=
  sort_by (fun a b => link_created_at a <? link_created_at b)
    (List.filter (fun x => bool_decide (link_state x = state)) (l_links d)).

Definition DedupeLinkConflict : exn := OtherError "DedupeLinkConflict".
(** [link.decided_at or now]: the instant is given by every caller. *)
Definition link_update (link : DedupeLink) (decided : Z) (row : DedupeLink) : DedupeLink :=
  MkDedupeLink (link_id row) (link_listing_a_id row) (link_listing_b_id row) (link_method row)
    (link_state link) (link_fingerprint row) (link_score row) (link_evidence row)
    (link_created_at row) (link_version row + 1) (link_decided_by link) (Some decided).
Definition link_save (link : DedupeLink) : M lake unit :=
  decided ← match link_decided_at link with Some t => mret t | None => clock end;
  d ← get;
  match link_get (link_id link) d with
  | None => raise KeyError
  | Some row =>
      if negb (link_version row =? link_version link) then raise DedupeLinkConflict
      else if link_check (link_update link decided row)
      then put (set_links (update_by link_id (link_id link) (link_update link decided) (l_links d)) d)
      else raise IntegrityError
  end.

Definition change_clash (a b : ListingChange) : bool :=
  (change_id a =? change_id b)
  || ((change_listing_id a =? change_listing_id b) && bool_decide (change_field a = change_field b)).
Definition change_insert : ListingChange -> M lake unit :=
  add_to l_changes set_changes change_clash (fun _ => true).
Definition changes_for_listing (id : Z) (d : lake) : list ListingChange :=
  List.filter (fun c => change_listing_id c =? id) (l_changes d).
Definition changes_for_chain (source external : string) (d : lake) : list ListingChange :=
  let ids := map listing_id (List.filter (in_chain source external) (l_listings d)) in
  List.filter (fun c => existsb (Z.eqb (change_listing_id c)) ids) (l_changes d).
End silver.
