(* ===== verification/SilverService.v ===== *)
(** * The normalisation service ([application/silver/service.py])

    [NormalizeRunService] over the tables of [ListingStore]: the normalisation of the
    snapshots of an import run into listings, changes and dedupe links, the reads, and the
    decision of a proposed link.  The geocoder is a parameter. *)

From S2P Require Export ListingStore DedupePolicy.
#[local] Open Scope list_scope.

Definition DataError : exn := OtherError "DataError".

Record LineageInfo := MkLineageInfo {
  lin_listing : NormalizedListing; lin_snapshot : option RawListingSnapshot; lin_run : option ImportRun
}.

Definition _PRECISION_ORDER (p : GeoPrecision) : Z :=
  match p with UnknownPrecision => 0 | Approximate => 1 | Neighborhood => 2 | Block => 3 | Exact => 4 end.

(** [Geocoder.geocode(location_text, neighborhood, max_precision)] *)
Definition Geocoder := string -> option string -> GeoPrecision -> result GeoResult.

Record normalize_config := MkNormalizeConfig {
  nc_schema : SilverSchemaSpec; nc_dedupe : DedupePolicySpec; nc_geocoder : option Geocoder
}.
Definition nc_version (cfg : normalize_config) : string := ss_normalizer_version (nc_schema cfg).

(** ** Geocoding *)

Definition with_geo (precision : GeoPrecision) (g : option (float * float)) (source : option string)
    (f : NormalizedFields) : NormalizedFields :=
  MkNormalizedFields (nf_operation f) (nf_property_type f) (nf_price_value f) (nf_price_currency f)
    (nf_expenses_value f) (nf_expenses_currency f) (nf_total_cost f) (nf_price_assumptions f)
    (nf_surface_m2 f) (nf_rooms f) (nf_bedrooms f) (nf_floor f) (nf_amenities f)
    (nf_description_text f) (nf_location_text f) (nf_neighborhood f) precision g source (nf_url f)
    (nf_normalization_errors f).

Definition _maybe_geocode (geocoder : option Geocoder) (f : NormalizedFields) : result NormalizedFields :=
  match nf_geometry f, geocoder with
  | None, Some geocode =>
      if negb (bool_decide (nf_geo_precision f = Neighborhood \/ nf_geo_precision f = UnknownPrecision))
      then Ok f
      else
        let no_text := bool_decide (nf_location_text f = "") in
        let no_hood := bool_decide (nf_neighborhood f = None) in
        let max_precision := if negb no_hood && no_text then Neighborhood else Block in
        if no_text && no_hood then Ok f
        else
          r ← geocode (nf_location_text f) (nf_neighborhood f) max_precision;
          match gr_geometry r with
          | None => Ok f
          | Some g =>
              let precision := if _PRECISION_ORDER max_precision <? _PRECISION_ORDER (gr_precision r)
                               then max_precision else gr_precision r in
              Ok (with_geo precision (Some g) (gr_source r) f)
          end
  | _, _ => Ok f
  end.

(** ** Listings, pairs and changes *)

(** [_build_listing] and [_listing_from_fields]: the fields of a listing with its identifiers
    and instants *)
Definition listing_of (id canonical run snapshot : Z) (source : SourceIdentity) (external version : string)
    (published : option Z) (observed : Z) (f : NormalizedFields) : NormalizedListing :=
  MkNormalizedListing id canonical run snapshot source external (nf_url f) published observed version
    (nf_operation f) (nf_property_type f) (nf_price_value f) (nf_price_currency f) (nf_expenses_value f)
    (nf_expenses_currency f) (Some (nf_total_cost f)) (nf_price_assumptions f) (nf_surface_m2 f)
    (nf_rooms f) (nf_bedrooms f) (nf_floor f) (nf_amenities f) (nf_description_text f)
    (nf_location_text f) (nf_neighborhood f) (nf_geo_precision f) (nf_geometry f) (nf_geo_source f)
    (nf_normalization_errors f).

Definition _build_listing (snapshot_id run_id canonical : Z) (snapshot : RawListingSnapshot)
    (f : NormalizedFields) (version : string) (id : Z) : NormalizedListing :=
  listing_of id canonical run_id snapshot_id (rls_source snapshot) (rls_external_id snapshot) version
    (rls_published_at snapshot) (rls_captured_at snapshot) f.

Definition _listing_from_fields {S} (f : NormalizedFields) (source : SourceIdentity) (external : string)
    (canonical run_id snapshot_id : Z) (version : string) (published : option Z) (observed : Z)
  : M S NormalizedListing :=
  id ← uuid4;
  mret (listing_of id canonical run_id snapshot_id source external version published observed f).

Definition _ordered_pair (a b : NormalizedListing) : NormalizedListing * NormalizedListing :=
  if listing_id a <? listing_id b then (a, b) else (b, a).

(** The enumeration of the column [change_type] *)
Definition change_type_of (s : string) : option ChangeType :=
  oget s [("price", ChangePrice); ("text", ChangeText); ("attribute", ChangeAttribute);
          ("status", ChangeStatus)]%string.

(** A listing's fields hold JSON values already: there is nothing to convert. *)
Definition _json_safe (v : pyval) : pyval := v.

Section service.
Context `{HexDigest, NumericColumns}.
Variable cfg : normalize_config.

Fixpoint _first_deterministic (candidates : list NormalizedListing) (f : NormalizedFields)
    (source : SourceIdentity) (external : string) : M lake (option NormalizedListing) :=
  match candidates with
  | [] => mret None
  | c :: candidates' =>
      l ← _listing_from_fields f source external (canonical_property_id c) (nl_run_id c)
            (nl_snapshot_id c) (nc_version cfg) (published_at c) (last_observed_at c);
      e ← lift (evaluate_pair l c (nc_dedupe cfg));
      if bool_decide (pe_method e = Some Deterministic) then mret (Some c)
      else _first_deterministic candidates' f source external
  end.

Definition change_origin_of (listing previous : NormalizedListing) (run_id : Z) : odict string pyval := [
  ("previous_snapshot_id", VStr (uuid_str (nl_snapshot_id previous)));
  ("new_snapshot_id", VStr (uuid_str (nl_snapshot_id listing))); ("run_id", VStr (uuid_str run_id));
  ("normalizer_version", VStr (nc_version cfg))]%string.

Fixpoint insert_changes (listing previous : NormalizedListing) (run_id : Z)
    (diffs : odict string field_change) : M lake unit :=
  match diffs with
  | [] => mret tt
  | (field, (change_type, before, after)) :: diffs' =>
      id ← uuid4;
      _ ← match change_type_of change_type with
          | Some t => change_insert (MkListingChange id (listing_id listing) (Some (listing_id previous)) t
                        field (_json_safe before) (_json_safe after) (change_origin_of listing previous run_id))
          | None => raise DataError
          end;
      insert_changes listing previous run_id diffs'
  end.

Definition _emit_changes (listing : NormalizedListing) (previous : option NormalizedListing) (run_id : Z)
  : M lake Z :=
  match previous with
  | None => mret 0
  | Some p =>
      diffs ← lift (compare_listings p listing (nc_schema cfg));
      _ ← insert_changes listing p run_id diffs;
      mret (Z.of_nat (length diffs))
  end.

(** ** The links of a new listing *)

(** One link: whether one was inserted, and by which method *)
Definition link_candidate (listing candidate : NormalizedListing) : M lake (option DedupeMethod) :=
  let '(a, b) := _ordered_pair listing candidate in
  found ← gets (find_pair (listing_id a) (listing_id b));
  match found with
  | Some _ => mret None
  | None =>
      e ← lift (evaluate_pair a b (nc_dedupe cfg));
      match pe_method e, pe_state e with
      | Some method, Some state =>
          id ← uuid4;
          t ← clock;
          _ ← link_insert (MkDedupeLink id (listing_id a) (listing_id b) method state (pe_fingerprint e)
                (pe_score e) (pe_evidence e) t 1 None None);
          mret (Some method)
      | _, _ => mret None
      end
  end.

(** The numbers of deterministic links and proposals inserted *)
Fixpoint link_candidates (listing : NormalizedListing) (candidates : list NormalizedListing) : M lake (Z * Z) :=
  match candidates with
  | [] => mret (0, 0)
  | c :: candidates' =>
      m ← link_candidate listing c;
      '(links, proposals) ← link_candidates listing candidates';
      mret match m with
           | Some Deterministic => (links + 1, proposals)
           | Some Proposal => (links, proposals + 1)
           | None => (links, proposals)
           end
  end.

(** ** [process] *)

(** The canonical property of a snapshot: that of its chain, of a listing with the same
    fingerprint, or a new one *)
Definition resolve_canonical (run_id : Z) (previous matched : option NormalizedListing) : M lake Z :=
  match previous, matched with
  | Some p, _ => mret (canonical_property_id p)
  | None, Some m => mret (canonical_property_id m)
  | None, None =>
      id ← uuid4;
      t ← clock;
      created ← canonical_create id t;
      mret (cp_id created)
  end.

Definition summary_add (a b : NormalizeSummary) : NormalizeSummary :=
  MkNormalizeSummary (ns_run_id a) (ns_total_snapshots a + ns_total_snapshots b)
    (ns_listings_inserted a + ns_listings_inserted b) (ns_skipped a + ns_skipped b)
    (ns_changes_emitted a + ns_changes_emitted b) (ns_links_created a + ns_links_created b)
    (ns_proposals_created a + ns_proposals_created b).

Definition snapshot_fields (snapshot : RawListingSnapshot) : result NormalizedFields :=
  fields ← normalize_snapshot snapshot (nc_schema cfg);
  match nc_geocoder cfg with Some _ => _maybe_geocode (nc_geocoder cfg) fields | None => Ok fields end.

(** One turn of the loop: the counters it adds *)
Definition process_snapshot (run_id : Z) (snapshot : RawListingSnapshot) : M lake NormalizeSummary :=
  let source := source_id (rls_source snapshot) in
  let external := rls_external_id snapshot in
  known ← gets (listing_exists (rls_snapshot_id snapshot) (nc_version cfg));
  if known : bool then mret (MkNormalizeSummary run_id 1 0 1 0 0 0)
  else
    fields ← lift (snapshot_fields snapshot);
    existing_chain ← gets (list_chain source external);
    let previous := last existing_chain in
    candidates ← gets (find_dedupe_candidates (nf_operation fields) (nf_neighborhood fields) source external);
    matched ← _first_deterministic candidates fields (rls_source snapshot) external;
    canonical ← resolve_canonical run_id previous matched;
    id ← uuid4;
    let listing := _build_listing (rls_snapshot_id snapshot) run_id canonical snapshot fields (nc_version cfg) id in
    _ ← listing_insert listing;
    changes ← _emit_changes listing previous run_id;
    '(links, proposals) ← link_candidates listing candidates;
    mret (MkNormalizeSummary run_id 1 1 0 changes links proposals).

Fixpoint process_snapshots (run_id : Z) (snapshots : list RawListingSnapshot) (acc : NormalizeSummary)
  : M lake NormalizeSummary :=
  match snapshots with
  | [] => mret acc
  | s :: snapshots' =>
      one ← process_snapshot run_id s;
      process_snapshots run_id snapshots' (summary_add acc one)
  end.

Definition no_summary (run_id : Z) : NormalizeSummary := MkNormalizeSummary run_id 0 0 0 0 0 0.

Definition process (run_id : Z) : M lake NormalizeSummary :=
  run ← gets (import_run_get run_id);
  match run with
  | None => raise (SilverTransientError "silver.run_not_ready")
  | Some r =>
      if negb (bool_decide (ir_state r = ImportSucceeded))
      then raise (SilverPermanentError "silver.run_not_succeeded")
      else
        snapshots ← gets (snapshots_for_run run_id);
        process_snapshots run_id snapshots (no_summary run_id)
  end.

(** ** Reads and decisions *)

Definition get_listing (id : Z) : M lake NormalizedListing :=
  l ← gets (listing_get id);
  match l with Some x => mret x | None => raise (SilverListingNotFound id) end.

Definition lineage (id : Z) : M lake LineageInfo :=
  listing ← get_listing id;
  snapshot ← gets (snapshot_get (nl_snapshot_id listing));
  run ← gets (import_run_get (nl_run_id listing));
  mret (MkLineageInfo listing snapshot run).

Definition decided_link (state : DedupeLinkState) (actor : string) (t : Z) (link : DedupeLink) : DedupeLink :=
  MkDedupeLink (link_id link) (link_listing_a_id link) (link_listing_b_id link) (link_method link) state
    (link_fingerprint link) (link_score link) (link_evidence link) (link_created_at link)
    (link_version link) (Some actor) (Some t).

Definition _decide_link (id : Z) (state : DedupeLinkState) (actor : string) : M lake DedupeLink :=
  found ← gets (link_get id);
  match found with
  | None => raise (DedupeLinkNotFound id)
  | Some link =>
      if negb (bool_decide (link_method link = Proposal)) then raise (DedupeLinkStateError id)
      else if negb (bool_decide (link_state link = LinkPending)) then raise (DedupeLinkStateError id)
      else
        t ← clock;
        _ ← link_save (decided_link state actor t link);
        mret (decided_link state actor t link)
  end.

Definition confirm_link (id : Z) (actor : string) : M lake DedupeLink := _decide_link id LinkConfirmed actor.
Definition reject_link (id : Z) (actor : string) : M lake DedupeLink := _decide_link id LinkRejected actor.
End service.
