(* ===== verification/LakeInvariant.v ===== *)
(** * The invariant of the ingestion and normalisation tables

    Every table satisfies its constraints; a listing comes from a snapshot of its listing
    identity, the versions of a listing belong to one property, links join listings of
    different identities, and changes join versions of one.  The normalisation service
    keeps this whether it returns or raises, and only ever adds rows to the Silver tables. *)

From S2P Require Export SilverService Hoare.
#[local] Open Scope list_scope.

(** A listing is a normalisation of the snapshot. *)
Record captures (s : RawListingSnapshot) (x : NormalizedListing) : Prop := {
  cap_id : nl_snapshot_id x = rls_snapshot_id s;
  cap_source : nl_source x = rls_source s;
  cap_external : external_id x = rls_external_id s;
  cap_time : last_observed_at x = rls_captured_at s
}.

Abbreviation same_listing := _same_chain (only parsing).

Record lake_inv (d : lake) : Prop := {
  li_runs : table_ok import_run_clash import_run_check (l_runs d);
  li_snapshots : table_ok snapshot_clash snapshot_check (l_snapshots d);
  li_quarantine : table_ok quarantine_clash quarantine_check (l_quarantine d);
  li_canonicals : table_ok canonical_clash (fun _ => true) (l_canonicals d);
  li_listings : table_ok silver_clash silver_check (l_listings d);
  li_links : table_ok link_clash link_check (l_links d);
  li_changes : table_ok change_clash (fun _ => true) (l_changes d);
  li_source : forall x, x ∈ l_listings d -> exists s, s ∈ l_snapshots d /\ captures s x;
  li_property : forall x, x ∈ l_listings d ->
    exists c, c ∈ l_canonicals d /\ cp_id c = canonical_property_id x;
  li_chain : forall x y, x ∈ l_listings d -> y ∈ l_listings d -> same_listing x y = true ->
    canonical_property_id x = canonical_property_id y;
  li_link : forall k, k ∈ l_links d -> exists x y, x ∈ l_listings d /\ y ∈ l_listings d
    /\ listing_id x = link_listing_a_id k /\ listing_id y = link_listing_b_id k /\ same_listing x y = false;
  li_change : forall c, c ∈ l_changes d -> exists x y, x ∈ l_listings d /\ y ∈ l_listings d
    /\ listing_id x = change_listing_id c /\ Some (listing_id y) = change_previous_listing_id c
    /\ same_listing x y = true
}.

Lemma lake_inv_empty : lake_inv empty_lake.
Proof. split; try apply table_ok_nil; simpl; intros; set_solver. Qed.

(** The Bronze tables are kept, and rows are added to the Silver ones: so many listings,
    links and changes. *)
Record grown (l k c : Z) (d d' : lake) : Prop := {
  gr_runs : l_runs d' = l_runs d;
  gr_snapshots : l_snapshots d' = l_snapshots d;
  gr_quarantine : l_quarantine d' = l_quarantine d;
  gr_canonicals : l_canonicals d `prefix_of` l_canonicals d';
  gr_listings : exists rows, l_listings d' = l_listings d ++ rows /\ Z.of_nat (length rows) = l;
  gr_links : exists rows, l_links d' = l_links d ++ rows /\ Z.of_nat (length rows) = k;
  gr_changes : exists rows, l_changes d' = l_changes d ++ rows /\ Z.of_nat (length rows) = c
}.
Definition extends (d d' : lake) : Prop := exists l k c, grown l k c d d'.

Lemma no_rows {A} (t : list A) : exists rows, t = t ++ rows /\ Z.of_nat (length rows) = 0.
Proof. exists []. by rewrite app_nil_r. Qed.

Lemma one_row {A} (t : list A) x : exists rows, t ++ [x] = t ++ rows /\ Z.of_nat (length rows) = 1.
Proof. by exists [x]. Qed.

Lemma more_rows {A} (t t1 t2 : list A) n n' :
  (exists rows, t1 = t ++ rows /\ Z.of_nat (length rows) = n) ->
  (exists rows, t2 = t1 ++ rows /\ Z.of_nat (length rows) = n') ->
  exists rows, t2 = t ++ rows /\ Z.of_nat (length rows) = n + n'.
Proof.
  intros (r & -> & <-) (r' & -> & <-). exists (r ++ r'). rewrite app_assoc, length_app. split; [done|lia].
Qed.

Lemma grown_refl d : grown 0 0 0 d d.
Proof. split; try done; apply no_rows. Qed.

Lemma grown_trans d d1 d2 l k c l' k' c' :
  grown l k c d d1 -> grown l' k' c' d1 d2 -> grown (l + l') (k + k') (c + c') d d2.
Proof.
  intros [] []. split; try congruence; [by etrans| | |]; by eapply more_rows.
Qed.

Lemma grown_count d d' l k c l' k' c' :
  grown l k c d d' -> l = l' -> k = k' -> c = c' -> grown l' k' c' d d'.
Proof. by intros ? <- <- <-. Qed.

Lemma grown_extends l k c d d' : grown l k c d d' -> extends d d'.
Proof. by exists l, k, c. Qed.

#[export] Instance extends_preorder : PreOrder extends.
Proof.
  split; [intros d; eapply grown_extends, grown_refl|].
  intros d d1 d2 (? & ? & ? & H1) (? & ? & ? & H2). eapply grown_extends, grown_trans; eauto.
Qed.

Lemma extends_listing d d' x : extends d d' -> x ∈ l_listings d -> x ∈ l_listings d'.
Proof. intros (? & ? & ? & []) Hx. destruct gr_listings0 as (r & -> & _). set_solver. Qed.

Lemma extends_snapshots d d' : extends d d' -> l_snapshots d' = l_snapshots d.
Proof. by intros (? & ? & ? & []). Qed.

Lemma extends_exists d d' id v : extends d d' -> listing_exists id v d = true -> listing_exists id v d' = true.
Proof.
  intros (? & ? & ? & []). destruct gr_listings0 as (r & E & _). unfold listing_exists.
  rewrite E, existsb_app. by intros ->.
Qed.

(** ** Chains *)

Lemma elem_by_captured x l : x ∈ by_captured l <-> x ∈ l.
Proof. apply elem_sort_by. Qed.

Lemma elem_chain x source external d :
  x ∈ list_chain source external d <-> x ∈ l_listings d /\ in_chain source external x = true.
Proof.
  unfold list_chain. rewrite elem_by_captured, !list_elem_of_In, filter_In. done.
Qed.

Lemma in_chain_spec source external x :
  in_chain source external x = true <-> source_id (nl_source x) = source /\ external_id x = external.
Proof. unfold in_chain. by rewrite andb_true_iff, !bool_decide_eq_true. Qed.

Lemma same_chain_spec x y :
  same_listing x y = true <->
  source_id (nl_source x) = source_id (nl_source y) /\ external_id x = external_id y.
Proof. unfold _same_chain. by rewrite andb_true_iff, !bool_decide_eq_true. Qed.

Lemma same_chain_sym x y : same_listing x y = same_listing y x.
Proof. apply eq_true_iff_eq. rewrite !same_chain_spec. naive_solver. Qed.

Lemma last_elem {A} (l : list A) x : last l = Some x -> x ∈ l.
Proof. intros (l' & ->)%last_Some. set_solver. Qed.

(** The latest version of a listing, and its absence *)
Lemma chain_latest source external d p :
  last (list_chain source external d) = Some p ->
  p ∈ l_listings d /\ in_chain source external p = true.
Proof. by intros Hp%last_elem%elem_chain. Qed.

Lemma chain_none source external d x :
  last (list_chain source external d) = None -> x ∈ l_listings d -> in_chain source external x = false.
Proof.
  intros Hl%last_None Hx. destruct (in_chain source external x) eqn:E; [|done].
  assert (Hin : x ∈ list_chain source external d) by by apply elem_chain.
  rewrite Hl in Hin. set_solver.
Qed.

Lemma elem_candidates x op hood source external d :
  x ∈ find_dedupe_candidates op hood source external d ->
  x ∈ l_listings d /\ in_chain source external x = false.
Proof.
  unfold find_dedupe_candidates. destruct hood as [h|]; [|set_solver].
  rewrite elem_by_captured, list_elem_of_In, filter_In, <- list_elem_of_In.
  intros [Hx Hf]. split; [done|]. apply andb_true_iff in Hf as [_ Hf]. by apply negb_true_iff.
Qed.

(** ** Insertions *)

(** An invariant and a growth that a computation brings about, the growth only if it returns *)
Definition adds {A} (d : lake) (count : A -> Z * Z * Z) (r : result A) (s' : sys lake) : Prop :=
  lake_inv (state_of s') /\ extends d (state_of s')
  /\ match r with
     | Ok a => let '(l, k, c) := count a in grown l k c d (state_of s')
     | Raise _ => True
     end.

Lemma adds_raise {A} d count e s : lake_inv (state_of s) -> extends d (state_of s) -> @adds A d count (Raise e) s.
Proof. by split. Qed.

Lemma adds_ok {A} d count (a : A) s l k c :
  lake_inv (state_of s) -> count a = (l, k, c) -> grown l k c d (state_of s) -> adds d count (Ok a) s.
Proof. intros Hi Hc Hg. split; [done|]. split; [by eapply grown_extends|]. by rewrite Hc. Qed.

Section inserts.
Context `{HexDigest, NumericColumns}.

Lemma canonical_inserted d row t' :
  lake_inv d -> insert_row canonical_clash (fun _ => true) row (l_canonicals d) = Some t' ->
  lake_inv (set_canonicals t' d) /\ grown 0 0 0 d (set_canonicals t' d).
Proof.
  intros [] Hins. pose proof (insert_row_ok _ _ _ _ _ li_canonicals0 Hins) as Hok.
  apply insert_row_Some in Hins as (-> & _). split.
  - split; try done. simpl. intros x (c & ? & ?)%li_property0. exists c. set_solver.
  - split; try done; simpl; [by apply prefix_app_r|apply no_rows..].
Qed.

(** A new version of a listing, of the property its earlier versions have *)
Lemma listing_inserted d s c row t' :
  lake_inv d -> insert_row silver_clash silver_check row (l_listings d) = Some t' ->
  s ∈ l_snapshots d -> captures s row -> c ∈ l_canonicals d -> cp_id c = canonical_property_id row ->
  (forall y, y ∈ l_listings d -> same_listing row y = true ->
     canonical_property_id row = canonical_property_id y) ->
  lake_inv (set_listings t' d) /\ grown 1 0 0 d (set_listings t' d).
Proof.
  intros [] Hins Hs Hcap Hc Hid Hchain.
  pose proof (insert_row_ok _ _ _ _ _ li_listings0 Hins) as Hok.
  apply insert_row_Some in Hins as (-> & _). split.
  - split; try done; simpl.
    + intros x [Hx | ->%list_elem_of_singleton]%elem_of_app; [by apply li_source0|by exists s].
    + intros x [Hx | ->%list_elem_of_singleton]%elem_of_app; [by apply li_property0|by exists c].
    + intros x y [Hx | ->%list_elem_of_singleton]%elem_of_app
        [Hy | ->%list_elem_of_singleton]%elem_of_app Hxy; [auto| |auto|done].
      symmetry. apply Hchain; [done|]. by rewrite same_chain_sym.
    + intros k (x & y & Hx & Hy & ?)%li_link0. exists x, y. set_solver.
    + intros k (x & y & Hx & Hy & ?)%li_change0. exists x, y. set_solver.
  - split; try done; simpl; [apply one_row|apply no_rows..].
Qed.

Lemma link_inserted d row t' x y :
  lake_inv d -> insert_row link_clash link_check row (l_links d) = Some t' ->
  x ∈ l_listings d -> y ∈ l_listings d -> listing_id x = link_listing_a_id row ->
  listing_id y = link_listing_b_id row -> same_listing x y = false ->
  lake_inv (set_links t' d) /\ grown 0 1 0 d (set_links t' d).
Proof.
  intros [] Hins Hx Hy Hix Hiy Hxy.
  pose proof (insert_row_ok _ _ _ _ _ li_links0 Hins) as Hok.
  apply insert_row_Some in Hins as (-> & _). split.
  - split; try done; simpl.
    intros k [Hk | ->%list_elem_of_singleton]%elem_of_app; [by apply li_link0|]. by exists x, y.
  - split; try done; simpl; [apply no_rows|apply one_row|apply no_rows].
Qed.

Lemma change_inserted d row t' x y :
  lake_inv d -> insert_row change_clash (fun _ => true) row (l_changes d) = Some t' ->
  x ∈ l_listings d -> y ∈ l_listings d -> listing_id x = change_listing_id row ->
  Some (listing_id y) = change_previous_listing_id row -> same_listing x y = true ->
  lake_inv (set_changes t' d) /\ grown 0 0 1 d (set_changes t' d).
Proof.
  intros [] Hins Hx Hy Hix Hiy Hxy.
  pose proof (insert_row_ok _ _ _ _ _ li_changes0 Hins) as Hok.
  apply insert_row_Some in Hins as (-> & _). split.
  - split; try done; simpl.
    intros k [Hk | ->%list_elem_of_singleton]%elem_of_app; [by apply li_change0|]. by exists x, y.
  - split; try done; simpl; [apply no_rows..|apply one_row].
Qed.

(** ** The steps of the service *)

Variable cfg : normalize_config.

(** The search for a listing with the same fingerprint reads a list and draws identifiers. *)
Lemma wp_first_deterministic candidates f source external w s (Q : result _ -> sys lake -> Prop) :
  (forall r s', state_of s' = state_of s -> (forall c, r = Ok (Some c) -> c ∈ candidates) -> Q r s') ->
  wp (_first_deterministic cfg candidates f source external) w s Q.
Proof.
  revert s. induction candidates as [|c candidates IH]; intros s HQ; simpl.
  - wp_step. by apply HQ.
  - wp_step. unfold _listing_from_fields. do 2 wp_step. wp_step; [|by apply HQ].
    case_bool_decide.
    + wp_step. apply HQ; [done|]. intros ? [= ->]. set_solver.
    + apply IH. intros r s' Hs Hr. apply HQ; [done|]. intros c' Hc'. apply list_elem_of_further. by apply Hr.
Qed.

Lemma wp_insert_changes x p run_id diffs d w s (Q : result unit -> sys lake -> Prop) :
  lake_inv (state_of s) -> d = state_of s ->
  (exists x', x' ∈ l_listings d /\ listing_id x' = listing_id x /\ same_listing x' p = true) ->
  p ∈ l_listings d ->
  (forall r s', adds d (fun _ => (0, 0, Z.of_nat (length diffs))) r s' -> Q r s') ->
  wp (insert_changes cfg x p run_id diffs) w s Q.
Proof.
  revert d s Q. induction diffs as [|[field [[ct before] after]] diffs IH];
    intros d s Q Hinv -> (x' & Hx' & Hid & Hchain) Hp HQ; cbn [insert_changes].
  - wp_step. apply HQ. eapply adds_ok; [done|done|apply grown_refl].
  - wp_step. destruct (change_type_of ct) as [t|]; cbv iota.
    + wp_step. apply wp_add_to.
      * intros t' Hins. simpl in Hins.
        destruct (change_inserted _ _ _ x' p Hinv Hins Hx' Hp Hid eq_refl Hchain) as [Hinv' Hg].
        eapply IH; [exact Hinv'|reflexivity|by exists x'|done|].
        intros r s' (Hi & He & Hr). apply HQ. split; [done|]. split.
        { etrans; [by eapply grown_extends|exact He]. }
        destruct r as [u|e]; [|done]. rewrite length_cons, Nat2Z.inj_succ, <- Z.add_1_l.
        exact (grown_trans _ _ _ _ _ _ _ _ _ Hg Hr).
      * apply HQ. by apply adds_raise.
    + wp_step. wp_step. apply HQ. by apply adds_raise.
Qed.

Lemma wp_link_candidate x c w s (Q : result (option DedupeMethod) -> sys lake -> Prop) :
  lake_inv (state_of s) ->
  (exists x', x' ∈ l_listings (state_of s) /\ listing_id x' = listing_id x /\ same_listing x' c = false) ->
  c ∈ l_listings (state_of s) ->
  (forall r s', adds (state_of s) (fun m => (0, if m is Some _ then 1 else 0, 0)) r s' -> Q r s') ->
  wp (link_candidate cfg x c) w s Q.
Proof.
  intros Hinv (x' & Hx' & Hid & Hchain) Hc HQ. unfold link_candidate.
  assert (Hpair : let '(a, b) := _ordered_pair x c in exists a' b', a' ∈ l_listings (state_of s)
    /\ b' ∈ l_listings (state_of s) /\ listing_id a' = listing_id a /\ listing_id b' = listing_id b
    /\ same_listing a' b' = false).
  { unfold _ordered_pair. destruct (listing_id x <? listing_id c); [by exists x', c|].
    exists c, x'. by rewrite same_chain_sym. }
  destruct (_ordered_pair x c) as [a b]. destruct Hpair as (a' & b' & Ha & Hb & Hia & Hib & Hab).
  assert (Hnone : adds (state_of s) (fun m : option DedupeMethod => (0, if m is Some _ then 1 else 0, 0)) (Ok None) s)
    by (eapply adds_ok; [done|done|apply grown_refl]).
  wp_step. destruct (find_pair _ _ _); [by wp_step; apply HQ|].
  wp_step; [|by apply HQ, adds_raise].
  destruct (pe_method a0) as [m|], (pe_state a0) as [st|]; try by (wp_step; apply HQ).
  do 3 wp_step. apply wp_add_to.
  - intros t' Hins. simpl in Hins.
    destruct (link_inserted _ _ _ a' b' Hinv Hins Ha Hb Hia Hib Hab) as [Hinv' Hg].
    wp_step. apply HQ. by eapply adds_ok.
  - apply HQ. by apply adds_raise.
Qed.

Lemma wp_link_candidates x candidates w s (Q : result (Z * Z) -> sys lake -> Prop) :
  lake_inv (state_of s) ->
  (forall c, c ∈ candidates -> c ∈ l_listings (state_of s)
     /\ exists x', x' ∈ l_listings (state_of s) /\ listing_id x' = listing_id x /\ same_listing x' c = false) ->
  (forall r s', adds (state_of s) (fun n => (0, n.1 + n.2, 0)) r s' -> Q r s') ->
  wp (link_candidates cfg x candidates) w s Q.
Proof.
  revert s Q. induction candidates as [|c candidates IH]; intros s Q Hinv Hin HQ; cbn [link_candidates].
  - wp_step. apply HQ. eapply adds_ok; [done|done|apply grown_refl].
  - destruct (Hin c ltac:(set_solver)) as [Hc Hx].
    wp_step. apply wp_link_candidate; [done..|].
    intros [m|e] s1 (Hinv1 & He1 & Hg1); [|by apply HQ, adds_raise].
    wp_step. apply IH; [done| |].
    { intros c' Hc'. destruct (Hin c' ltac:(set_solver)) as [? (x' & ? & ?)].
      split; [by eapply extends_listing|]. exists x'. split; [by eapply extends_listing|done]. }
    intros [[l p]|e] s2 (Hinv2 & He2 & Hg2); [|apply HQ, adds_raise; [done|by etrans]].
    wp_step. apply HQ. eapply adds_ok; [done|done|].
    eapply grown_count; [exact (grown_trans _ _ _ _ _ _ _ _ _ Hg1 Hg2)|done| |done].
    destruct m as [[]|]; simpl; lia.
Qed.

Lemma wp_emit_changes x previous run_id w s (Q : result Z -> sys lake -> Prop) :
  lake_inv (state_of s) ->
  (forall p, previous = Some p -> p ∈ l_listings (state_of s)
     /\ exists x', x' ∈ l_listings (state_of s) /\ listing_id x' = listing_id x /\ same_listing x' p = true) ->
  (forall r s', adds (state_of s) (fun n => (0, 0, n)) r s' -> Q r s') ->
  wp (_emit_changes cfg x previous run_id) w s Q.
Proof.
  intros Hinv Hp HQ. unfold _emit_changes. destruct previous as [p|].
  - destruct (Hp p eq_refl) as [Hin Hx]. wp_step; [|by apply HQ, adds_raise].
    wp_step. eapply wp_insert_changes; [done..|]. intros [u|e] s' Ha; [|by apply HQ].
    wp_step. apply HQ. exact Ha.
  - wp_step. apply HQ. eapply adds_ok; [done|done|apply grown_refl].
Qed.

(** The property of a new version: that of the earlier versions, if there are any *)
Lemma wp_resolve_canonical run_id source external matched w s (Q : result Z -> sys lake -> Prop) :
  let previous := last (list_chain source external (state_of s)) in
  lake_inv (state_of s) ->
  (forall m, matched = Some m -> m ∈ l_listings (state_of s)) ->
  (forall r s', adds (state_of s) (fun _ => (0, 0, 0)) r s' ->
     (forall id, r = Ok id -> (exists c, c ∈ l_canonicals (state_of s') /\ cp_id c = id)
        /\ forall y, y ∈ l_listings (state_of s) -> in_chain source external y = true ->
           id = canonical_property_id y) ->
     l_listings (state_of s') = l_listings (state_of s) -> Q r s') ->
  wp (resolve_canonical run_id previous matched) w s Q.
Proof.
  intros previous Hinv Hm HQ. unfold resolve_canonical.
  destruct previous as [p|] eqn:Hp; subst previous.
  - wp_step. apply chain_latest in Hp as [Hin Hc]. apply HQ; [by eapply adds_ok; [| |apply grown_refl]| |done].
    intros id [= <-]. split; [by apply li_property|]. intros y Hy Hyc. apply (li_chain _ Hinv); [done..|].
    apply in_chain_spec in Hc as [? ?], Hyc as [? ?]. apply same_chain_spec. split; congruence.
  - assert (Hfresh : forall id y, y ∈ l_listings (state_of s) -> in_chain source external y = true ->
      id = canonical_property_id y).
    { intros id y Hy Hc. by rewrite (chain_none _ _ _ _ Hp Hy) in Hc. }
    destruct matched as [m|].
    + wp_step. apply HQ; [by eapply adds_ok; [| |apply grown_refl]| |done].
      intros id [= <-]. split; [by apply li_property, Hm|by apply Hfresh].
    + do 3 wp_step. unfold canonical_create. wp_step. apply wp_add_to.
      * intros t' Hins. simpl in Hins. destruct (canonical_inserted _ _ _ Hinv Hins) as [Hinv' Hg].
        do 2 wp_step. apply HQ; [by eapply adds_ok| |done].
        intros id [= <-]. split; [|by apply Hfresh].
        apply insert_row_Some in Hins as [-> _]. simpl. exists (MkCanonicalProperty (uuid_at w (drawn s)) (time_at w (ticks s)) None 1).
        split; [set_solver|done].
      * apply HQ; [by apply adds_raise|done|done].
Qed.

(** One snapshot is skipped or becomes one listing. *)
Definition one_snapshot (snapshot : RawListingSnapshot) (r : result NormalizeSummary) (s' : sys lake) : Prop :=
  forall a, r = Ok a -> ns_total_snapshots a = 1 /\ ns_listings_inserted a + ns_skipped a = 1
    /\ listing_exists (rls_snapshot_id snapshot) (nc_version cfg) (state_of s') = true.

Definition summary_counts (a : NormalizeSummary) : Z * Z * Z :=
  (ns_listings_inserted a, ns_links_created a + ns_proposals_created a, ns_changes_emitted a).

Lemma in_chain_row id canonical run_id snapshot f v :
  in_chain (source_id (rls_source snapshot)) (rls_external_id snapshot)
    (silver_row (_build_listing (rls_snapshot_id snapshot) run_id canonical snapshot f v id)) = true.
Proof. by apply in_chain_spec. Qed.

Lemma wp_process_snapshot run_id snapshot w s (Q : result NormalizeSummary -> sys lake -> Prop) :
  lake_inv (state_of s) -> snapshot ∈ l_snapshots (state_of s) ->
  (forall r s', adds (state_of s) summary_counts r s' -> one_snapshot snapshot r s' -> Q r s') ->
  wp (process_snapshot cfg run_id snapshot) w s Q.
Proof.
  intros Hinv Hsnap HQ. unfold process_snapshot. wp_step.
  destruct (listing_exists _ _ _) eqn:Hknown.
  { wp_step. apply HQ; [by eapply adds_ok; [| |apply grown_refl]|]. by intros a [= <-]. }
  wp_step; [|apply HQ; [by apply adds_raise|done]]. rename a into f.
  set (source := source_id (rls_source snapshot)). set (external := rls_external_id snapshot).
  do 2 wp_step. wp_step. apply wp_first_deterministic. intros [matched|e] s1 Hs1 Hmatch;
    [|apply HQ; [apply adds_raise; by rewrite Hs1|done]].
  set (candidates := find_dedupe_candidates _ _ _ _ (state_of s)) in *.
  assert (Hcand : forall c, c ∈ candidates -> c ∈ l_listings (state_of s) /\ in_chain source external c = false)
    by (intros c; apply elem_candidates).
  clearbody candidates. rewrite <- Hs1 in *. clear Hs1 s.
  wp_step. apply wp_resolve_canonical; [done| |].
  { intros m ->. by apply Hcand, Hmatch. }
  intros [canonical|e] s2 (Hinv2 & He2 & Hg2) Hcan Hl2; [|apply HQ; [by apply adds_raise|done]].
  destruct (Hcan canonical eq_refl) as [(c & Hc & Hcid) Hcanon]. clear Hcan.
  wp_step. set (s3 := Sys (state_of s2) _ _). set (x := _build_listing _ _ _ _ _ _ _).
  wp_step. apply wp_add_to; [|apply HQ; [by apply adds_raise|done]].
  intros t' Hins.
  destruct (listing_inserted (state_of s2) snapshot c (silver_row x) t' Hinv2 Hins) as [Hinv4 Hg4];
    [by rewrite (extends_snapshots _ _ He2)|by split|done|done| |].
  { intros y Hy Hxy. apply Hcanon; [by rewrite <- Hl2|]. apply same_chain_spec in Hxy as [? ?].
    by apply in_chain_spec. }
  assert (Hx : silver_row x ∈ t') by (apply insert_row_Some in Hins as [-> _]; set_solver).
  assert (He4 : extends (state_of s1) (set_listings t' (state_of s2)))
    by (etrans; [exact He2|by eapply grown_extends]).
  wp_step. apply wp_emit_changes; [done| |].
  { intros p [Hp Hpc]%chain_latest. split; [by eapply extends_listing|].
    exists (silver_row x). split; [done|]. split; [done|]. apply in_chain_spec in Hpc as [? ?].
    by apply same_chain_spec. }
  intros [n|e] s5 (Hinv5 & He5 & Hg5);
    [|apply HQ; [apply adds_raise; [done|by etrans]|done]].
  wp_step. apply wp_link_candidates; [done| |].
  { intros y Hy. destruct (Hcand y Hy) as [Hin Hout].
    split; [eapply extends_listing; [exact He5|]; by eapply extends_listing|].
    exists (silver_row x). split; [by eapply extends_listing|]. split; [done|].
    rewrite <- not_true_iff_false, same_chain_spec. intros [E1 E2].
    rewrite <- not_true_iff_false in Hout. apply Hout. by apply in_chain_spec. }
  intros [[l p]|e] s6 (Hinv6 & He6 & Hg6);
    [|apply HQ; [apply adds_raise; [done|by etrans; [|etrans]]|done]].
  wp_step. apply HQ.
  - eapply adds_ok; [done|done|]. eapply grown_count;
      [exact (grown_trans _ _ _ _ _ _ _ _ _ Hg2 (grown_trans _ _ _ _ _ _ _ _ _ Hg4
        (grown_trans _ _ _ _ _ _ _ _ _ Hg5 Hg6)))|simpl; lia..].
  - intros a [= <-]. split; [done|]. split; [done|].
    apply (extends_exists (set_listings t' (state_of s2))); [by etrans|]. unfold listing_exists. simpl. apply existsb_exists.
    exists (silver_row x). rewrite <- list_elem_of_In. split; [done|]. simpl.
    by rewrite Z.eqb_refl, bool_decide_eq_true_2.
Qed.
End inserts.

(** ** The operations of the service *)

Section operations.
Context `{HexDigest, NumericColumns}.
Variable cfg : normalize_config.

Definition listed (d : lake) (x : RawListingSnapshot) : Prop :=
  listing_exists (rls_snapshot_id x) (nc_version cfg) d = true.

(** What a returned summary says of a batch of snapshots *)
Record batch_done (snapshots : list RawListingSnapshot) (d : lake) (b : NormalizeSummary) (d' : lake) : Prop := {
  bd_total : ns_total_snapshots b = Z.of_nat (length snapshots);
  bd_split : ns_listings_inserted b + ns_skipped b = Z.of_nat (length snapshots);
  bd_rows : grown (ns_listings_inserted b) (ns_links_created b + ns_proposals_created b)
              (ns_changes_emitted b) d d';
  bd_listed : Forall (listed d') snapshots
}.

Lemma wp_process_snapshots run_id snapshots acc w s (Q : result NormalizeSummary -> sys lake -> Prop) :
  lake_inv (state_of s) -> Forall (fun x => x ∈ l_snapshots (state_of s)) snapshots ->
  (forall r s', lake_inv (state_of s') -> extends (state_of s) (state_of s') ->
     (forall a, r = Ok a -> exists b, a = summary_add acc b /\ batch_done snapshots (state_of s) b (state_of s')) ->
     Q r s') ->
  wp (process_snapshots cfg run_id snapshots acc) w s Q.
Proof.
  revert acc s Q. induction snapshots as [|x snapshots IH]; intros acc s Q Hinv Hin HQ; cbn [process_snapshots].
  - wp_step. apply HQ; [done|done|]. intros a [= <-]. exists (no_summary run_id). split.
    + destruct acc. unfold summary_add. simpl. by rewrite !Z.add_0_r.
    + split; [done|done|apply grown_refl|constructor].
  - apply Forall_cons in Hin as [Hx Hin]. wp_step. apply wp_process_snapshot; [done..|].
    intros [a|e] s1 (Hinv1 & He1 & Hg1) Hone; [|by apply HQ].
    destruct (Hone a eq_refl) as (Ht & Hs & Hl). apply IH; [done| |].
    { eapply Forall_impl; [exact Hin|]. intros y. by rewrite (extends_snapshots _ _ He1). }
    intros r s2 Hinv2 He2 Hr. apply HQ; [done|by etrans|]. intros a' Ha'.
    destruct (Hr a' Ha') as (b & -> & []). exists (summary_add a b). split.
    { unfold summary_add. simpl. f_equal; lia. }
    split; simpl; [lia|lia| |constructor; [by eapply extends_exists|done]].
    eapply grown_count; [exact (grown_trans _ _ _ _ _ _ _ _ _ Hg1 bd_rows0)|lia..].
Qed.

Lemma elem_snapshots_for_run run_id d x :
  x ∈ snapshots_for_run run_id d <-> x ∈ l_snapshots d /\ rls_run_id x = run_id.
Proof.
  unfold snapshots_for_run. rewrite elem_sort_by, !list_elem_of_In, filter_In, Z.eqb_eq. done.
Qed.

Lemma wp_process run_id w s (Q : result NormalizeSummary -> sys lake -> Prop) :
  lake_inv (state_of s) ->
  (forall r s', lake_inv (state_of s') -> extends (state_of s) (state_of s') ->
     (forall a, r = Ok a -> ns_run_id a = run_id
        /\ (exists run, import_run_get run_id (state_of s) = Some run /\ ir_state run = ImportSucceeded)
        /\ batch_done (snapshots_for_run run_id (state_of s)) (state_of s) a (state_of s')) ->
     Q r s') ->
  wp (process cfg run_id) w s Q.
Proof.
  intros Hinv HQ. unfold process. wp_step. destruct (import_run_get run_id (state_of s)) as [run|] eqn:Hrun.
  2:{ wp_step. by apply HQ. }
  destruct (bool_decide_reflect (ir_state run = ImportSucceeded)) as [Hs|Hs]; simpl.
  2:{ wp_step. by apply HQ. }
  wp_step. apply wp_process_snapshots; [done| |].
  { apply Forall_forall. by intros x [? _]%elem_snapshots_for_run. }
  intros r s' Hi He Hr. apply HQ; [done|done|]. intros a Ha. destruct (Hr a Ha) as (b & -> & []).
  split; [done|]. split; [by exists run|]. by split.
Qed.

(** ** The decision of a link *)

Lemma link_saved d link decided row :
  lake_inv d -> link_get (link_id link) d = Some row -> link_check (link_update link decided row) = true ->
  lake_inv (set_links (update_by link_id (link_id link) (link_update link decided) (l_links d)) d).
Proof.
  intros [] [Hin Hid]%get_by_Some Hcheck. split; try done; simpl.
  - unfold update_by. apply map_ok; [| |done].
    + intros a b _ _. unfold link_clash. by destruct (link_id a =? _), (link_id b =? _).
    + intros a Ha Hca. destruct (Z.eqb_spec (link_id a) (link_id link)) as [E|]; [|done].
      replace a with row; [done|]. apply (table_unique _ _ _ _ _ li_links0 Hin Ha);
        unfold link_clash; by rewrite Hid, E, Z.eqb_refl.
  - intros k Hk. apply list_elem_of_fmap in Hk as (k0 & -> & Hk0).
    destruct (li_link0 k0 Hk0) as (x & y & ?). exists x, y. by destruct (link_id k0 =? _).
Qed.

Lemma wp_decide_link id state actor w s (Q : result DedupeLink -> sys lake -> Prop) :
  lake_inv (state_of s) ->
  (forall r s', lake_inv (state_of s') ->
     (forall e, r = Raise e -> state_of s' = state_of s) -> Q r s') ->
  wp (_decide_link id state actor) w s Q.
Proof.
  intros Hinv HQ. unfold _decide_link. wp_step. destruct (link_get id (state_of s)) as [link|] eqn:Hl.
  2:{ wp_step. by apply HQ. }
  destruct (negb _); [wp_step; by apply HQ|]. destruct (negb _); [wp_step; by apply HQ|].
  do 2 wp_step. unfold link_save. wp_step. simpl link_decided_at. cbv iota. wp_step. wp_step.
  destruct (get_by_Some _ _ _ _ Hl) as [_ Hid]. simpl link_id. simpl state_of. rewrite Hid, Hl.
  destruct (negb _); [wp_step; by apply HQ|]. destruct (link_check _) eqn:Hc; [|wp_step; by apply HQ].
  wp_step. wp_step. apply HQ; [|done]. rewrite <- Hid at 1.
  apply (link_saved (state_of s) (decided_link state actor (time_at w (ticks s)) link) _ link);
    [done|simpl; by rewrite Hid|done].
Qed.
End operations.
