(* ===== verification/SilverTheorems.v ===== *)
(** * Theorems of the normalisation service *)

From S2P Require Export LakeInvariant.
From Stdlib Require Import QArith Lqa.
#[global] Open Scope Z_scope.
#[local] Open Scope list_scope.

(** ** Sample data *)

Module SilverExamples.
#[export] Instance sample_digest : HexDigest := fun s => s.
#[export] Instance sample_numeric : NumericColumns := fun n f => fround f n.

Abbreviation source_a := (MkSourceIdentity "source-a" "v1" "1").
Abbreviation source_b := (MkSourceIdentity "source-b" "v1" "1").
Definition w1 : world := World (fun n => 1000 + Z.of_nat n) (fun n => 50 + Z.of_nat n).
Abbreviation cfg := (MkNormalizeConfig published_schema published_dedupe_policy None).

Definition payload (price : Z) (address : string) : odict string pyval := [
  ("price", VInt price); ("currency", VStr "ARS"); ("surface_m2", VInt 50); ("rooms", VInt 2);
  ("bedrooms", VInt 1); ("neighborhood", VStr "Palermo"); ("address_text", VStr address);
  ("property_type", VStr "apartment"); ("operation", VStr "rental")]%string.
Abbreviation snap id source external price address sha :=
  (MkRawListingSnapshot id 7 source external (payload price address) sha "application/json" 10 None 40).
Abbreviation run7 :=
  (MkImportRun 7 source_a "batch" FormatJson "f.json" "aa" 10 "k" (Some 3) ImportSucceeded 1 2 (Some 2)
     (MkRunCounts 3 3 0 0 0) None None 1).

(** Two portals publish the same flat, a third listing is near it. *)
Definition three : lake := MkLake [run7]
  [snap 1 source_a "x1" 100000 "Santa Fe 1" "h1"; snap 2 source_b "y1" 100000 "Santa Fe 1" "h2";
   snap 3 source_a "x2" 880000 "Santa Fe 1" "h3"] [] [] [] [] [].
(** One listing is published twice in a batch. *)
Definition twice : lake := MkLake [run7]
  [snap 1 source_a "x1" 100000 "Santa Fe 1" "h1"; snap 2 source_a "x1" 90000 "Santa Fe 1" "h2"] [] [] [] [] [].

Lemma bronze_inv (d : lake) :
  Forall (fun r => import_run_check r = true) (l_runs d) -> length (l_runs d) = 1%nat ->
  table_ok snapshot_clash snapshot_check (l_snapshots d) -> l_quarantine d = [] -> l_canonicals d = [] ->
  l_listings d = [] -> l_links d = [] -> l_changes d = [] -> lake_inv d.
Proof.
  intros Hc Hl Hs Hq Hcan Hli Hlk Hch. split; rewrite ?Hq, ?Hcan, ?Hli, ?Hlk, ?Hch; try apply table_ok_nil;
    try set_solver.
  destruct (l_runs d) as [|r [|]]; try done. split; [|done]. by repeat constructor.
Qed.

Lemma three_inv : lake_inv three.
Proof. apply bronze_inv; try done; [by repeat constructor..]. Qed.
Lemma twice_inv : lake_inv twice.
Proof. apply bronze_inv; try done; [by repeat constructor..]. Qed.

Example three_run : exists s', process cfg 7 w1 (Sys three 0 0) = (Ok (MkNormalizeSummary 7 3 3 0 0 1 2), s')
  /\ map (fun k => (link_listing_a_id k, link_listing_b_id k, link_method k)) (l_links (state_of s'))
     = [(1001, 1003, Deterministic); (1001, 1008, Proposal); (1003, 1008, Proposal)]
  /\ map canonical_property_id (l_listings (state_of s')) = [1000; 1000; 1007].
Proof. eexists. split; [vm_compute; reflexivity|]. split; vm_compute; reflexivity. Qed.
End SilverExamples.

(** ** Processing a run *)

Section process.
Context `{HexDigest, NumericColumns}.
Variable cfg : normalize_config.

(** Snapshots that are all listed already are all skipped. *)
Lemma process_listed run_id snapshots acc w s :
  Forall (listed cfg (state_of s)) snapshots ->
  process_snapshots cfg run_id snapshots acc w s
  = (Ok (MkNormalizeSummary (ns_run_id acc) (ns_total_snapshots acc + Z.of_nat (length snapshots))
           (ns_listings_inserted acc) (ns_skipped acc + Z.of_nat (length snapshots))
           (ns_changes_emitted acc) (ns_links_created acc) (ns_proposals_created acc)), s).
Proof.
  revert acc. induction snapshots as [|x snapshots IH]; intros acc Hl; cbn [process_snapshots].
  - destruct acc. simpl. by rewrite !Z.add_0_r.
  - apply Forall_cons in Hl as [Hx Hl]. erewrite M_bind_run.
    2:{ unfold process_snapshot. erewrite M_bind_run by reflexivity. unfold listed in Hx. by rewrite Hx. }
    rewrite IH by done. unfold summary_add. simpl. do 3 f_equal; lia.
Qed.

Lemma listed_twice d x y :
  lake_inv d -> x ∈ l_snapshots d -> y ∈ l_snapshots d -> rls_snapshot_id x <> rls_snapshot_id y ->
  same_source (rls_source x) (rls_source y) = true -> rls_external_id x = rls_external_id y ->
  rls_captured_at x = rls_captured_at y -> listed cfg d x -> listed cfg d y -> False.
Proof.
  intros Hinv Hx Hy Hne Hs He Ht (lx & Hlx%list_elem_of_In & Hvx)%existsb_exists
    (ly & Hly%list_elem_of_In & Hvy)%existsb_exists.
  apply andb_true_iff in Hvx as [Hix%Z.eqb_eq Hvx%bool_decide_eq_true],
    Hvy as [Hiy%Z.eqb_eq Hvy%bool_decide_eq_true].
  destruct (li_source _ Hinv _ Hlx) as (sx & Hsx & [Cx1 Cx2 Cx3 Cx4]),
    (li_source _ Hinv _ Hly) as (sy & Hsy & [Cy1 Cy2 Cy3 Cy4]).
  assert (Huniq : forall a b, a ∈ l_snapshots d -> b ∈ l_snapshots d ->
    rls_snapshot_id a = rls_snapshot_id b -> a = b).
  { intros a b Ha Hb E. apply (table_unique _ _ _ _ _ (li_snapshots _ Hinv) Ha Hb);
      unfold snapshot_clash; by rewrite E, Z.eqb_refl. }
  assert (sx = x) as -> by (apply Huniq; [done..|congruence]).
  assert (sy = y) as -> by (apply Huniq; [done..|congruence]).
  assert (lx = ly) as ->; [|congruence].
  assert (Hc : forall a b : NormalizedListing, normalizer_version a = normalizer_version b ->
    same_source (nl_source a) (nl_source b) = true -> external_id a = external_id b ->
    last_observed_at a = last_observed_at b -> silver_clash a b = true).
  { intros a b E1 E2 E3 E4. unfold silver_clash. rewrite E2, E4, Z.eqb_refl, !bool_decide_eq_true_2 by done.
    by rewrite !orb_true_r. }
  unfold same_source in *. apply bool_decide_eq_true in Hs.
  apply (table_unique _ _ _ _ _ (li_listings _ Hinv) Hlx Hly); apply Hc; try congruence;
    apply bool_decide_eq_true; congruence.
Qed.

Lemma process_post run_id w s r s' :
  lake_inv (state_of s) -> process cfg run_id w s = (r, s') ->
  lake_inv (state_of s') /\ extends (state_of s) (state_of s')
  /\ forall a, r = Ok a -> ns_run_id a = run_id
     /\ (exists run, import_run_get run_id (state_of s) = Some run /\ ir_state run = ImportSucceeded)
     /\ batch_done cfg (snapshots_for_run run_id (state_of s)) (state_of s) a (state_of s').
Proof.
  intros Hinv Hrun. pattern r, s'. eapply wp_run; [|exact Hrun]. apply wp_process; [done|]. auto.
Qed.

(** C17: The summary of a processed run accounts for every snapshot of the run, which is either
    skipped or becomes one listing, and counts exactly the listings, dedupe links and changes
    that were added; whatever the outcome, Bronze is untouched and no Silver row is lost or
    altered. *)
Theorem normalization_accounts run_id w s r s' :
  lake_inv (state_of s) -> process cfg run_id w s = (r, s') ->
  extends (state_of s) (state_of s')
  /\ match r with
     | Ok a => ns_run_id a = run_id
         /\ batch_done cfg (snapshots_for_run run_id (state_of s)) (state_of s) a (state_of s')
     | Raise _ => True
     end.
Proof.
  intros Hinv (_ & He & Hr)%process_post; [|done]. split; [done|]. destruct r as [a|e]; [|done].
  by destruct (Hr a eq_refl) as (? & _ & ?).
Qed.

(** C19: Processing a run again, at any later time and after anything else that only added rows,
    skips every snapshot and changes nothing. *)
Theorem normalization_idempotent run_id w s a s' w2 s2 :
  lake_inv (state_of s) -> process cfg run_id w s = (Ok a, s') -> extends (state_of s') (state_of s2) ->
  process cfg run_id w2 s2
  = (Ok (MkNormalizeSummary run_id (ns_total_snapshots a) 0 (ns_total_snapshots a) 0 0 0), s2).
Proof.
  intros Hinv (_ & He & Hr)%process_post Hext; [|done].
  destruct (Hr a eq_refl) as (_ & (run & Hget & Hstate) & [Ht _ _ Hl]).
  assert (He2 : extends (state_of s) (state_of s2)) by by etrans.
  destruct He2 as (? & ? & ? & [Hruns Hsnaps _ _ _ _ _]).
  unfold process. erewrite M_bind_run by reflexivity.
  unfold import_run_get in *. rewrite Hruns, Hget, Hstate. simpl.
  erewrite M_bind_run by reflexivity. unfold snapshots_for_run in *. rewrite Hsnaps.
  rewrite process_listed.
  - simpl. by rewrite Ht.
  - eapply Forall_impl; [exact Hl|]. intros q Hq. eapply extends_exists; [exact Hext|exact Hq].
Qed.

(** A run that captured two versions of one listing in the same batch can never be normalised:
    the second version violates a unique constraint, on this attempt and on every later one. *)
Theorem repeated_listing_blocks run_id w s x y :
  lake_inv (state_of s) -> x ∈ snapshots_for_run run_id (state_of s) ->
  y ∈ snapshots_for_run run_id (state_of s) -> rls_snapshot_id x <> rls_snapshot_id y ->
  same_source (rls_source x) (rls_source y) = true -> rls_external_id x = rls_external_id y ->
  rls_captured_at x = rls_captured_at y -> is_ok (process cfg run_id w s).1 = false.
Proof.
  intros Hinv Hx Hy Hne Hs He Ht. destruct (process cfg run_id w s) as [[a|e] s'] eqn:Hrun; [exfalso|done].
  apply process_post in Hrun as (Hinv' & Hext & Hr); [|done].
  destruct (Hr a eq_refl) as (_ & _ & [_ _ _ Hl]). rewrite Forall_forall in Hl.
  pose proof (Hl x Hx) as Hlx. pose proof (Hl y Hy) as Hly.
  apply elem_snapshots_for_run in Hx as [Hx _], Hy as [Hy _].
  rewrite <- (extends_snapshots _ _ Hext) in Hx, Hy.
  by apply (listed_twice (state_of s') x y).
Qed.

(** A decided link stays decided: confirming or rejecting it moves a pending proposal to the
    chosen state and touches nothing else, not even the listings, which keep their properties;
    every later decision is refused and changes nothing. *)
Theorem decided_link_final id state actor w s link s' w2 s2 state2 actor2 :
  lake_inv (state_of s) -> state <> LinkPending -> _decide_link id state actor w s = (Ok link, s') ->
  extends (state_of s') (state_of s2) ->
  (exists row, link_get id (state_of s) = Some row /\ link_method row = Proposal /\ link_state row = LinkPending
     /\ state_of s' = set_links (update_by link_id id (link_update link (time_at w (ticks s))) (l_links (state_of s)))
                        (state_of s))
  /\ link_state link = state
  /\ _decide_link id state2 actor2 w2 s2 = (Raise (DedupeLinkStateError id), s2).
Proof.
  intros Hinv Hstate Hrun Hext. unfold _decide_link in Hrun. erewrite M_bind_run in Hrun by reflexivity.
  destruct (link_get id (state_of s)) as [row|] eqn:Hrow; [|done].
  destruct (bool_decide_reflect (link_method row = Proposal)) as [Hm|]; [|done].
  destruct (bool_decide_reflect (link_state row = LinkPending)) as [Hp|]; [|done]. simpl in Hrun.
  erewrite M_bind_run in Hrun by reflexivity. apply M_bind_Ok in Hrun as ([] & s1 & Hsave & [= <- <-]).
  unfold link_save in Hsave. simpl in Hsave. do 2 erewrite M_bind_run in Hsave by reflexivity.
  destruct (get_by_Some _ _ _ _ Hrow) as [Hin Hid]. simpl in Hsave. rewrite Hid, Hrow in Hsave.
  rewrite Z.eqb_refl in Hsave. simpl in Hsave. destruct (link_check _); [|done].
  injection Hsave as <-. simpl. split; [by exists row|]. split; [done|].
  set (new := link_update (decided_link state actor (time_at w (ticks s)) row) (time_at w (ticks s))) in *.
  assert (Hget : link_get id (state_of s2) = Some (new row)).
  { destruct Hext as (? & ? & ? & [_ _ _ _ _ (rows & Hl & _) _]). unfold link_get. rewrite Hl, get_by_app. simpl.
    rewrite (get_by_update link_id id id new) by done. unfold link_get in Hrow. rewrite Hrow. simpl.
    by rewrite Z.eqb_refl. }
  unfold _decide_link. erewrite M_bind_run by reflexivity. rewrite Hget. simpl. rewrite Hm. simpl.
  by rewrite bool_decide_eq_false_2 by done.
Qed.
End process.

(** ** The evaluation of a pair *)

Lemma ratio_sym x y : nan x = false -> nan y = false ->
  fdiv (fmin x y) (fmax x y) = fdiv (fmin y x) (fmax y x).
Proof.
  intros Hx Hy. unfold fmin, fmax. destruct (fltb x y) eqn:E1, (fltb y x) eqn:E2; try done.
  - by rewrite (fltb_asym _ _ E1) in E2.
  - destruct x as [|[]|p], y as [|[]|q]; try done. apply fltb_fin_false in E1, E2.
    assert (E : (p == q)%Q) by (by apply Qle_antisym).
    simpl. assert (Hz : Qeq_bool p 0 = Qeq_bool q 0).
    { apply eq_true_iff_eq. rewrite !Qeq_bool_iff. by rewrite E. }
    rewrite Hz. destruct (Qeq_bool q 0); [done|]. f_equal. apply rnd_proper. by rewrite E.
Qed.

Lemma ratio_score_sym x y : nan x = false -> nan y = false -> ratio_score x y = ratio_score y x.
Proof. intros Hx Hy. unfold ratio_score. rewrite orb_comm. by rewrite ratio_sym. Qed.

Lemma length_same_elements {A} (l l' : list A) : NoDup l -> NoDup l' -> (forall x, x ∈ l <-> x ∈ l') ->
  length l = length l'.
Proof. intros Hl Hl' Hx. apply Permutation_length. by apply list.NoDup_Permutation. Qed.

Lemma jaccard_sym a b : _jaccard a b = _jaccard b a.
Proof.
  unfold _jaccard. set (ta := remove_dups (_WORD_RE (lower a))). set (tb := remove_dups (_WORD_RE (lower b))).
  assert (Ha : NoDup ta) by apply NoDup_remove_dups. assert (Hb : NoDup tb) by apply NoDup_remove_dups.
  assert (Hu : length (remove_dups (ta ++ tb)) = length (remove_dups (tb ++ ta))).
  { apply length_same_elements; [apply NoDup_remove_dups..|]. intros x. rewrite !elem_of_remove_dups. set_solver. }
  assert (Hc : length (List.filter (fun t => bool_decide (t ∈ tb)) ta)
             = length (List.filter (fun t => bool_decide (t ∈ ta)) tb)).
  { apply length_same_elements; [apply NoDup_ListNoDup, List.NoDup_filter; by apply NoDup_ListNoDup..|].
    intros x. rewrite !list_elem_of_In, !filter_In, <- !list_elem_of_In, !bool_decide_eq_true. tauto. }
  rewrite Hc, Hu. destruct (remove_dups (ta ++ tb)), (remove_dups (tb ++ ta)); done.
Qed.

Definition numbers_given (l : NormalizedListing) : Prop :=
  nan (price_value l) = false /\ match surface_m2 l with Some x => nan x = false | None => True end.

Lemma dimension_score_sym name a b : numbers_given a -> numbers_given b ->
  _dimension_score name a b = _dimension_score name b a.
Proof.
  intros [Hpa Hsa] [Hpb Hsb]. unfold _dimension_score. case_bool_decide; [by rewrite jaccard_sym|].
  case_bool_decide; [|case_bool_decide; [|case_bool_decide; [|done]]].
  - rewrite ratio_score_sym by done. by rewrite (bool_decide_ext _ _ (eq_comm (price_currency a) (price_currency b))).
  - destruct (surface_m2 a), (surface_m2 b); try done. by apply ratio_score_sym.
  - destruct (rooms a) as [x|], (rooms b) as [y|]; try done. unfold rooms_score.
    by rewrite <- (Z.abs_opp (x - y)), Z.opp_sub_distr, (Z.add_comm (- x)).
Qed.

Lemma proposal_score_sym a b spec : numbers_given a -> numbers_given b ->
  _proposal_score a b spec = _proposal_score b a spec.
Proof.
  intros Ha Hb. unfold _proposal_score.
  assert (Hd : forall acc, dimension_scores (dp_dimensions spec) a b acc
                         = dimension_scores (dp_dimensions spec) b a acc); [|by rewrite Hd].
  induction (dp_dimensions spec) as [|d ds IH]; intros acc; [done|].
  cbn [dimension_scores]. rewrite (dimension_score_sym _ a b) by done.
  destruct (_dimension_score _ b a) as [v|e]; [|done]. apply IH.
Qed.

Section pairs.
Context `{HexDigest}.

(** What a dedupe link records of an evaluation, but for the fields of the first listing *)
Definition verdict (r : result PairEvaluation) :=
  e ← r; Ok (pe_method e, pe_state e, pe_fingerprint e, pe_score e,
             if bool_decide (pe_method e = Some Deterministic) then [] else pe_evidence e).


Definition fin_pos (x : float) : Prop := exists q, x = FFin q /\ (0 < q)%Q.

Lemma ratio_finite x y : (0 < x)%Q -> (x <= y)%Q -> exists z, rnd (x / y) = FFin z.
Proof.
  intros Hx Hxy. destruct (rnd_between 0 1 (x / y)) as (z & -> & _); [done|done| |by exists z].
  split; [apply Qle_shift_div_l; change (inject_Z 0) with 0%Q; lra|apply Qle_shift_div_r; change (inject_Z 1) with 1%Q; lra].
Qed.

Lemma ratio_score_fin p q : (0 < p)%Q -> (p <= q)%Q ->
  ratio_score (FFin p) (FFin q) = Ok (Some (fsub (FFin 1) (rnd (p / q)))).
Proof.
  intros Hp Hpq. unfold ratio_score.
  assert (Hf : forall x, (0 < x)%Q -> fleb (FFin x) (FFin 0) = false).
  { intros x Hx. apply not_true_iff_false. rewrite fleb_fin. lra. }
  rewrite !Hf by lra. simpl. unfold fmin, fmax.
  assert (E2 : fltb (FFin q) (FFin p) = false) by (by apply fltb_fin_false). rewrite E2.
  assert (Hz : Qeq_bool q 0 = false) by (apply not_true_iff_false; rewrite Qeq_bool_iff; lra).
  destruct (fltb (FFin p) (FFin q)) eqn:E1; cbn [fdiv]; [by rewrite Hz|].
  apply fltb_fin_false in E1. assert (Hz' : Qeq_bool p 0 = false) by (apply not_true_iff_false; rewrite Qeq_bool_iff; lra).
  rewrite Hz'. assert (E : (p == q)%Q) by lra. by rewrite (rnd_proper (p / p) (p / q)) by (by rewrite E).
Qed.

(** The price dimension scores the difference of the prices, not their likeness: equal prices
    score zero, and a dearer second listing never scores less (the surface dimension uses the same
    formula). *)
Theorem price_score_is_a_distance a b c p q r :
  price_currency a = price_currency b -> price_currency a = price_currency c ->
  price_value a = FFin p -> price_value b = FFin q -> price_value c = FFin r ->
  (0 < p)%Q -> (p <= q)%Q -> (q <= r)%Q ->
  exists s t, _dimension_score "price" a b = Ok (Some s) /\ _dimension_score "price" a c = Ok (Some t)
    /\ fleb s t = true /\ ((p == q)%Q -> feqb s (FFin 0) = true).
Proof.
  intros E1 E2 Ea Eb Ec Hp Hpq Hqr. unfold _dimension_score.
  rewrite (bool_decide_eq_false_2 ("price"%string = "address_tokens"%string)) by done.
  rewrite (bool_decide_eq_true_2 ("price"%string = "price"%string)) by done.
  rewrite !bool_decide_eq_true_2 by done. cbn [negb]. rewrite Ea, Eb, Ec, !ratio_score_fin by lra.
  eexists _, _. split; [done|]. split; [done|]. split.
  - pose proof (rnd_mono (p / r) (p / q)) as Hm.
    assert (Hd : (p / r <= p / q)%Q).
    { apply Qle_shift_div_l; [lra|]. assert (E : (p / r * q == p * (q / r))%Q) by (field; lra). rewrite E.
      assert (Hq : (q / r <= 1)%Q) by (apply Qle_shift_div_r; lra). nra. }
    specialize (Hm Hd). destruct (ratio_finite p q) as [x Ex]; [lra..|].
    destruct (ratio_finite p r) as [y Ey]; [lra..|]. rewrite Ex, Ey in *. by apply fsub_antimono.
  - intros E. assert (E1' : (p / q == 1)%Q) by (rewrite E; field; lra).
    rewrite (rnd_proper _ 1 E1'). by vm_compute.
Qed.
End pairs.

(** ** Witnesses *)

Module SilverWitnesses.
Import SilverExamples.

Lemma normalization_accounts_witness : exists s',
  process cfg 7 w1 (Sys three 0 0) = (Ok (MkNormalizeSummary 7 3 3 0 0 1 2), s') /\ extends three (state_of s').
Proof.
  destruct three_run as (s' & Hrun & _). exists s'. split; [exact Hrun|].
  exact (proj1 (normalization_accounts cfg 7 w1 (Sys three 0 0) _ s' three_inv Hrun)).
Defined.

Lemma normalization_idempotent_witness : exists s',
  process cfg 7 w1 (Sys three 0 0) = (Ok (MkNormalizeSummary 7 3 3 0 0 1 2), s')
  /\ process cfg 7 w1 s' = (Ok (MkNormalizeSummary 7 3 0 3 0 0 0), s').
Proof.
  destruct three_run as (s' & Hrun & _). exists s'. split; [exact Hrun|].
  exact (normalization_idempotent cfg 7 w1 (Sys three 0 0) _ s' w1 s' three_inv Hrun
           (PreOrder_Reflexive (state_of s'))).
Defined.

Lemma repeated_listing_blocks_witness : is_ok (process cfg 7 w1 (Sys twice 0 0)).1 = false.
Proof.
  refine (repeated_listing_blocks cfg 7 w1 (Sys twice 0 0)
    (snap 1 source_a "x1" 100000 "Santa Fe 1" "h1") (snap 2 source_a "x1" 90000 "Santa Fe 1" "h2")
    twice_inv _ _ _ eq_refl eq_refl eq_refl).
  - apply elem_snapshots_for_run. split; [|reflexivity]. by left.
  - apply elem_snapshots_for_run. split; [|reflexivity]. right. by left.
  - discriminate.
Defined.

(** The proposals of the run above are decided. *)
Definition normalized : sys lake := (process cfg 7 w1 (Sys three 0 0)).2.
Lemma normalized_inv : lake_inv (state_of normalized).
Proof.
  destruct three_run as (s' & Hrun & _). unfold normalized. rewrite Hrun.
  exact (proj1 (process_post cfg 7 w1 (Sys three 0 0) _ s' three_inv Hrun)).
Qed.
Lemma confirm_run : exists link s', confirm_link 1009 "ops" w1 normalized = (Ok link, s').
Proof. eexists _, _. vm_compute. reflexivity. Qed.

Lemma decided_link_final_witness : exists link s',
  confirm_link 1009 "ops" w1 normalized = (Ok link, s') /\ link_state link = LinkConfirmed
  /\ reject_link 1009 "ops" w1 s' = (Raise (DedupeLinkStateError 1009), s').
Proof.
  destruct confirm_run as (link & s' & Hrun). exists link, s'. split; [exact Hrun|].
  refine (proj2 (decided_link_final 1009 LinkConfirmed "ops" w1 normalized link s' w1 s' LinkRejected "ops"
            normalized_inv _ Hrun (PreOrder_Reflexive (state_of s')))).
  discriminate.
Defined.

Definition flat (id : Z) (source : SourceIdentity) (price : float) : NormalizedListing :=
  MkNormalizedListing id 0 7 id source "x" None None 40 "silver-schema-v1" Rental Apartment price ARS None
    None (Some price) [] (Some (FFin 50)) (Some 2) (Some 1) None [] None "Santa Fe 1" (Some "Palermo"%string)
    UnknownPrecision None None [].


Lemma price_score_is_a_distance_witness : exists s t,
  _dimension_score "price" (flat 1 source_a (FFin 100)) (flat 2 source_b (FFin 100)) = Ok (Some s)
  /\ _dimension_score "price" (flat 1 source_a (FFin 100)) (flat 3 source_b (FFin 400)) = Ok (Some t)
  /\ fleb s t = true /\ ((100 == 100)%Q -> feqb s (FFin 0) = true).
Proof.
  refine (price_score_is_a_distance (flat 1 source_a (FFin 100)) (flat 2 source_b (FFin 100))
            (flat 3 source_b (FFin 400)) 100 100 400 eq_refl eq_refl eq_refl eq_refl eq_refl _ _ _); lra.
Defined.
End SilverWitnesses.
