(* ===== verification/IngestionService.v ===== *)
(** * Controlled ingestion ([application/ingestion/service.py], [quality.py])

    [ImportRunService] over the tables of [ListingStore], an object store and a job queue:
    the submission of a batch, its capture by the worker, and the reads.  The object store,
    the job queue and the source that parses a file are ports. *)

From S2P Require Export ListingStore ObjectContracts JobRuntime.
#[local] Open Scope list_scope.

Definition IMPORT_JOB_TYPE : string := "ingestion.import_batch".

(** ** Ports *)

(** [ImportSource.read_batch(raw, file_format, file_name)] *)
Class ImportSource := read_batch : string -> ImportFormat -> string -> result ParsedBatch.

(** [str(error)] *)
Class ErrorText := error_text : exn -> string.

Record bronze (O J : Type) := MkBronze { b_lake : lake; b_objects : O; b_jobs : J }.
Arguments MkBronze {O J} _ _ _.
Arguments b_lake {O J} _.
Arguments b_objects {O J} _.
Arguments b_jobs {O J} _.

(** ** Texts *)

Definition _bounded (s : string) : string := take_str 500 s.
Definition raw_storage_key (file_sha256 : string) : string := ("objects/raw/" ++ file_sha256)%string.

Definition _external_id (payload : odict string pyval) (index : Z) : string :=
  match dget "external_id" payload with
  | VStr s => if bool_decide (strip s = "") then ("record:" ++ str_of_Z index)%string else strip s
  | _ => ("record:" ++ str_of_Z index)%string
  end.

Definition _parse_published_at `{IsoDates} (payload : odict string pyval) : option Z :=
  match dget "published_at" payload with
  | VStr s => if bool_decide (strip s = "") then None else fromisoformat (replace (strip s) "Z" "+00:00")
  | _ => None
  end.

Definition _job_target (request : ImportBatchRequest) : string :=
  take_str 280 (source_id (ibr_source request) ++ ":" ++ ibr_batch_key request)%string.

Definition is_code_text (s : string) : bool :=
  negb (bool_decide (s = "")) && forallb (fun c => is_alnum_az09 c || bool_decide (c ∈ chars "._-")) (chars s).
Definition _normalized_code (value : string) : string :=
  let candidate := replace (lower (strip value)) " " "_" in
  if is_code_text candidate then take_str 100 candidate else "ingestion.processing_failed".

(** ** Quality ([quality.py]) *)

Definition _NUMERIC_FIELDS : list string := ["price"; "surface_m2"; "rooms"]%string.

(** [_as_float] of [quality.py]: a text that reads as a float counts too. *)
Definition quality_float (v : pyval) : result (option float) :=
  match v with
  | VInt _ | VFloat _ => f ← to_float v; Ok (Some f)
  | VStr s => if bool_decide (strip s = "") then Ok None
              else match float_of_str (strip s) with Ok f => Ok (Some f) | Raise _ => Ok None end
  | _ => Ok None
  end.

(** [statistics.median] of sorted data *)
Definition median_sorted (l : list float) : result float :=
  let n := length l in
  let at_ i := default FNan (l !! i) in
  if Nat.eqb n 0 then Raise (OtherError "StatisticsError")
  else if Nat.odd n then Ok (at_ (Nat.div2 n))
  else fdiv (fadd (at_ (Nat.div2 n - 1)%nat) (at_ (Nat.div2 n))) (FFin 2).

Definition _iqr_bounds (values : list float) : result (float * float) :=
  let ordered := sort_by fltb values in
  let midpoint := Nat.div2 (length ordered) in
  let upper_half := if Nat.even (length ordered) then drop midpoint ordered else drop (S midpoint) ordered in
  q1 ← median_sorted (take midpoint ordered);
  q3 ← median_sorted upper_half;
  let iqr := fsub q3 q1 in
  Ok (fsub q1 (fmul (flit 15 10) iqr), fadd q3 (fmul (flit 15 10) iqr)).

Definition field_values (field : string) (payloads : list (odict string pyval)) : result (list float) :=
  fold_result (fun acc p => v ← quality_float (dget field p);
                            Ok (match v with Some f => acc ++ [f] | None => acc end)) [] payloads.

Fixpoint detect_fields (fields : list string) (payloads : list (odict string pyval))
  : result (list AbnormalDistribution) :=
  match fields with
  | [] => Ok []
  | field :: fields' =>
      values ← field_values field payloads;
      signal ← (if Nat.ltb (length values) 5 then Ok []
                else
                  '(lower, upper) ← _iqr_bounds values;
                  let outliers := List.filter (fun v => fltb v lower || fltb upper v) values in
                  Ok (if bool_decide (outliers = []) then []
                      else [MkAbnormalDistribution field "outlier"
                              (str_of_Z (Z.of_nat (length outliers)) ++ " values outside the IQR bounds")]));
      rest ← detect_fields fields' payloads;
      Ok (signal ++ rest)
  end.
Definition _detect_abnormal := detect_fields _NUMERIC_FIELDS.

Definition build_quality_report (run_id : Z) (counts : RunCounts) (payloads : list (odict string pyval))
    (contract : ContractSpec) : result QualityReport :=
  abnormal ← _detect_abnormal payloads;
  Ok (MkQualityReport run_id counts (count_missing_by_name payloads contract) abnormal).

(** ** Runs *)

Definition with_state (state : ImportRunState) (now : Z) (r : ImportRun) : ImportRun :=
  MkImportRun (ir_run_id r) (ir_source r) (ir_batch_key r) (ir_file_format r) (ir_file_name r)
    (ir_file_sha256 r) (ir_file_size_bytes r) (ir_raw_storage_key r) (ir_job_execution_id r) state
    (ir_created_at r) now (ir_finished_at r) (ir_counts r) (ir_error_code r) (ir_error_detail r) (ir_version r).
Definition with_result (counts : RunCounts) (captured_at : Z) (r : ImportRun) : ImportRun :=
  MkImportRun (ir_run_id r) (ir_source r) (ir_batch_key r) (ir_file_format r) (ir_file_name r)
    (ir_file_sha256 r) (ir_file_size_bytes r) (ir_raw_storage_key r) (ir_job_execution_id r) ImportSucceeded
    (ir_created_at r) captured_at (Some captured_at) counts None None (ir_version r).
Definition with_failure (code detail : string) (now : Z) (r : ImportRun) : ImportRun :=
  MkImportRun (ir_run_id r) (ir_source r) (ir_batch_key r) (ir_file_format r) (ir_file_name r)
    (ir_file_sha256 r) (ir_file_size_bytes r) (ir_raw_storage_key r) (ir_job_execution_id r) ImportFailed
    (ir_created_at r) now (Some now) (ir_counts r) (Some code) (Some detail) (ir_version r).

Section service.
Context {O J : Type} `{ObjectStore O} `{JobPort J} `{ImportSource} `{IsoDates} `{BytesDigest} `{ErrorText}.
Variable contract : ContractSpec.
Variable jobs_enabled : bool.

Definition on_lake {A} (m : M lake A) : M (bronze O J) A :=
  zoom b_lake (fun d s => MkBronze d (b_objects s) (b_jobs s)) m.
Definition on_objects {A} (m : M O A) : M (bronze O J) A :=
  zoom b_objects (fun o s => MkBronze (b_lake s) o (b_jobs s)) m.
Definition on_queue {A} (m : M J A) : M (bronze O J) A :=
  zoom b_jobs (fun j s => MkBronze (b_lake s) (b_objects s) j) m.

(** ** Submission *)

Definition too_many_records (parsed : ParsedBatch) : bool :=
  max_records (cs_file contract) <? ParsedBatch_total parsed.

Definition format_str (f : ImportFormat) : string :=
  match f with FormatCsv => "csv" | FormatJson => "json" end.

Definition submit_batch (request : ImportBatchRequest) : M (bronze O J) ImportRunSnapshot :=
  existing ← on_lake (gets (import_run_by_identity (source_id (ibr_source request)) (ibr_batch_key request)));
  match existing with
  | Some run => mret (run_snapshot run)
  | None =>
      let check := check_file contract (ibr_raw request) (format_str (ibr_file_format request))
                     (source_contract_version (ibr_source request)) in
      if negb (fc_valid check) then raise (BatchRejected (default "file.invalid"%string (fc_code check)))
      else
        parsed ← lift (read_batch (ibr_raw request) (ibr_file_format request) (ibr_file_name request));
        if too_many_records parsed then raise (BatchRejected "file.records_exceeded")
        else
          let file_sha256 := bytes_digest (ibr_raw request) in
          let storage_key := raw_storage_key file_sha256 in
          _ ← on_objects (put_if_absent storage_key (ibr_raw request) file_sha256 (len (ibr_raw request))
                            (raw_content_type (ibr_file_format request)));
          job ← (if jobs_enabled then
                   command ← lift (SubmitJob_create 0 IMPORT_JOB_TYPE (_job_target request) (ibr_batch_key request)
                                     (Some (ibr_correlation_id request)) (Some (ibr_actor request)) 5);
                   snapshot ← on_queue (submit_job command);
                   mret (Some (snap_execution_id snapshot))
                 else mret None);
          run_id ← uuid4;
          now ← clock;
          run ← on_lake (import_run_create run_id (ibr_source request) (ibr_batch_key request)
                           (ibr_file_format request) (ibr_file_name request) file_sha256
                           (len (ibr_raw request)) storage_key job now);
          mret (run_snapshot run)
  end.

(** ** Reads *)

Definition _require_run (run_id : Z) : M (bronze O J) ImportRun :=
  run ← on_lake (gets (import_run_get run_id));
  match run with Some r => mret r | None => raise (ImportRunNotFound run_id) end.

Definition get_run (run_id : Z) : M (bronze O J) ImportRunSnapshot :=
  run ← _require_run run_id; mret (run_snapshot run).

Definition quality (run_id : Z) : M (bronze O J) QualityReport :=
  run ← _require_run run_id;
  if negb (bool_decide (ir_state run = ImportSucceeded)) then raise (RunNotTerminalError run_id)
  else
    snapshots ← on_lake (gets (snapshots_for_run run_id));
    lift (build_quality_report run_id (ir_counts run) (map rls_payload snapshots) contract).

Definition quarantine_records (run_id : Z) : M (bronze O J) (list QuarantineRecord) :=
  _ ← _require_run run_id; on_lake (gets (quarantine_for_run run_id)).

(** ** Capture *)

(** The raw bytes of the batch, whose object must be the one submitted *)
Definition raw_batch (run : ImportRun) : M (bronze O J) string :=
  ref ← on_objects (ref_for_key (ir_raw_storage_key run));
  try_except
    (info ← on_objects (object_stat ref);
     if negb (bool_decide (oi_sha256 info = ir_file_sha256 run))
        || negb (oi_size_bytes info =? ir_file_size_bytes run)
     then raise (IngestionPermanentError "object.integrity_error")
     else on_objects (object_open ref))
    (fun e => match e with
              | ObjectNotFound | ObjectStateError => raise (IngestionTransientError "ingestion.raw_unavailable")
              | ObjectIntegrityError => raise (IngestionPermanentError "object.integrity_error")
              | e => raise e
              end).

(** What the loop has counted, and the records captured so far *)
Record tally := MkTally {
  ta_seen : list (string * string); ta_accepted : Z; ta_quarantined : Z; ta_duplicates : Z; ta_missing : Z
}.
Definition no_tally : tally := MkTally [] 0 0 0 0.
Definition add_duplicate (t : tally) : tally :=
  MkTally (ta_seen t) (ta_accepted t) (ta_quarantined t) (ta_duplicates t + 1) (ta_missing t).
Definition add_quarantined (t : tally) : tally :=
  MkTally (ta_seen t) (ta_accepted t) (ta_quarantined t + 1) (ta_duplicates t) (ta_missing t).
Definition add_accepted (key : string * string) (missing : Z) (t : tally) : tally :=
  MkTally (key :: ta_seen t) (ta_accepted t + 1) (ta_quarantined t) (ta_duplicates t) (ta_missing t + missing).

Definition first_of (issues : list ValidationIssue) : ValidationIssue :=
  match issues with i :: _ => i | [] => MkValidationIssue "" "" "" end.

Definition quarantined_record (id : Z) (run : ImportRun) (external_id : string) (result : ValidationResult)
    (payload : odict string pyval) (captured_at : Z) : QuarantineRecord :=
  MkQuarantineRecord id (ir_run_id run) (ir_source run) (Some external_id)
    (vi_code (first_of (vr_issues result))) (vi_rule (first_of (vr_issues result)))
    (_bounded (join "; " (map vi_detail (vr_issues result)))) (Some payload) captured_at.
Definition captured_snapshot (id : Z) (run : ImportRun) (external_id content : string) (record : ParsedRecord)
    (captured_at : Z) : RawListingSnapshot :=
  MkRawListingSnapshot id (ir_run_id run) (ir_source run) external_id (pr_payload record) content
    "application/json" (len (pr_raw_bytes record)) (_parse_published_at (pr_payload record)) captured_at.

(** One turn of the loop over the records *)
Definition capture_record (run : ImportRun) (captured_at : Z) (index : Z) (record : ParsedRecord) (t : tally)
  : M lake tally :=
  let external_id := _external_id (pr_payload record) index in
  let content := canonical_hash (pr_payload record) in
  if bool_decide ((external_id, content) ∈ ta_seen t) then mret (add_duplicate t)
  else
    known ← gets (snapshot_exists (source_id (ir_source run)) external_id content);
    if known : bool then mret (add_duplicate t)
    else
      let result := validate_record (pr_payload record) contract in
      if negb (vr_valid result) then
        id ← uuid4;
        _ ← quarantine_insert (quarantined_record id run external_id result (pr_payload record) captured_at);
        mret (add_quarantined t)
      else
        id ← uuid4;
        _ ← snapshot_insert (captured_snapshot id run external_id content record captured_at);
        mret (add_accepted (external_id, content) (vr_missing_optional result) t).

Fixpoint capture_records (run : ImportRun) (captured_at : Z) (index : Z) (records : list ParsedRecord) (t : tally)
  : M lake tally :=
  match records with
  | [] => mret t
  | record :: records' =>
      t ← capture_record run captured_at index record t;
      capture_records run captured_at (index + 1) records' t
  end.

Fixpoint capture_errors (run : ImportRun) (captured_at : Z) (errors : list ParsedError) (t : tally)
  : M lake tally :=
  match errors with
  | [] => mret t
  | e :: errors' =>
      id ← uuid4;
      _ ← quarantine_insert (MkQuarantineRecord id (ir_run_id run) (ir_source run) None (pe_code e) "source.parse"
            (_bounded (pe_detail e)) None captured_at);
      capture_errors run captured_at errors' (add_quarantined t)
  end.

Definition run_counts (parsed : ParsedBatch) (t : tally) : RunCounts :=
  MkRunCounts (ParsedBatch_total parsed) (ta_accepted t) (ta_quarantined t) (ta_duplicates t) (ta_missing t).

(** The part of [_capture] that works on the tables *)
Definition capture_batch (run : ImportRun) (parsed : ParsedBatch) : M lake ImportRunSnapshot :=
  captured_at ← clock;
  t ← capture_records run captured_at 0 (pb_records parsed) no_tally;
  t ← capture_errors run captured_at (pb_errors parsed) t;
  let run := with_result (run_counts parsed t) captured_at run in
  _ ← import_run_save run;
  mret (run_snapshot run).

Definition _capture (run : ImportRun) : M (bronze O J) ImportRunSnapshot :=
  raw ← raw_batch run;
  parsed ← lift (read_batch raw (ir_file_format run) (ir_file_name run));
  if too_many_records parsed then raise (IngestionPermanentError "file.records_exceeded")
  else on_lake (capture_batch run parsed).

Definition _fail (run : ImportRun) (code detail : string) : M (bronze O J) unit :=
  now ← clock;
  on_lake (import_run_save (with_failure (_normalized_code code) (_bounded detail) now run)).

Definition process_import (execution_id : Z) : M (bronze O J) ImportRunSnapshot :=
  found ← on_lake (gets (find_by_job_execution execution_id));
  match found with
  | None => raise (IngestionTransientError "ingestion.run_not_ready")
  | Some run =>
      if finished_state (ir_state run) then mret (run_snapshot run)
      else
        now ← clock;
        let run := with_state ImportRunning now run in
        _ ← on_lake (import_run_save run);
        try_except (_capture run)
          (fun e => match e with
                    | IngestionTransientError _ => raise e
                    | _ =>
                        let code := default "ingestion.processing_failed"%string (exn_code e) in
                        _ ← _fail run code (_bounded (error_text e));
                        raise (IngestionPermanentError code)
                    end)
  end.
End service.
