(* ===== verification/FileSource.v ===== *)
(** * Import files ([infrastructure/sources/file_source.py], [fake_source.py])

    The parser of the files of a batch: a JSON document with a list of records, or a CSV file
    with a header.  [csv.reader] is the state machine of the standard library for its default
    dialect.  A file whose text is not Latin-1 is outside the model and raises
    [beyond_latin1]. *)

From S2P Require Export IngestionService JsonTheorems.
#[local] Open Scope list_scope.

(** ** [csv.reader(io.StringIO(text))] *)

Inductive csv_state := StartRecord | StartField | InField | InQuotedField | QuoteInQuotedField | EatCrnl.
#[export] Instance csv_state_eq_dec : EqDecision csv_state.
Proof. solve_decision. Defined.

(** The fields of the record so far and the characters of the current one, both reversed *)
Record csv_reader := MkCsvReader { cr_state : csv_state; cr_field : list ascii; cr_fields : list string }.
Definition csv_error : exn := OtherError "csv.Error".
Definition csv_field_limit : Z := 131072.

Definition csv_to (state : csv_state) (r : csv_reader) : csv_reader := MkCsvReader state (cr_field r) (cr_fields r).
Definition csv_add (c : ascii) (state : csv_state) (r : csv_reader) : result csv_reader :=
  if csv_field_limit <=? Z.of_nat (length (cr_field r)) then Raise csv_error
  else Ok (MkCsvReader state (c :: cr_field r) (cr_fields r)).
Definition csv_save (state : csv_state) (r : csv_reader) : csv_reader :=
  MkCsvReader state [] (of_chars (rev (cr_field r)) :: cr_fields r).

Definition is_newline (c : ascii) : bool := bool_decide (code c ∈ [10; 13]).
Definition is_quote (c : ascii) : bool := code c =? 34.

(** The first character of a field *)
Definition csv_start_field (c : ascii) (r : csv_reader) : result csv_reader :=
  if is_newline c then Ok (csv_save EatCrnl r)
  else if is_quote c then Ok (csv_to InQuotedField r)
  else if is_char ","%char c then Ok (csv_save StartField r)
  else csv_add c InField r.

Definition csv_char (c : ascii) (r : csv_reader) : result csv_reader :=
  match cr_state r with
  | StartRecord => if is_newline c then Ok (csv_to EatCrnl r) else csv_start_field c r
  | StartField => csv_start_field c r
  | InField =>
      if is_newline c then Ok (csv_save EatCrnl r)
      else if is_char ","%char c then Ok (csv_save StartField r) else csv_add c InField r
  | InQuotedField => if is_quote c then Ok (csv_to QuoteInQuotedField r) else csv_add c InQuotedField r
  | QuoteInQuotedField =>
      if is_quote c then csv_add c InQuotedField r
      else if is_char ","%char c then Ok (csv_save StartField r)
      else if is_newline c then Ok (csv_save EatCrnl r)
      else csv_add c InField r
  | EatCrnl => if is_newline c then Ok r else Raise csv_error
  end.

(** The end of a line *)
Definition csv_end_line (r : csv_reader) : csv_reader :=
  match cr_state r with
  | StartRecord | InQuotedField => r
  | StartField | InField | QuoteInQuotedField => csv_save StartRecord r
  | EatCrnl => csv_to StartRecord r
  end.

Fixpoint csv_line (l : list ascii) (r : csv_reader) : result csv_reader :=
  match l with
  | [] => Ok (csv_end_line r)
  | c :: l' => r ← csv_char c r; csv_line l' r
  end.

(** The lines of a text, with their ends *)
Fixpoint text_lines (cur l : list ascii) : list (list ascii) :=
  match l with
  | [] => match cur with [] => [] | _ => [rev cur] end
  | c :: l' => if code c =? 10 then rev (c :: cur) :: text_lines [] l' else text_lines (c :: cur) l'
  end.

Definition csv_reset : csv_reader := MkCsvReader StartRecord [] [].
Definition csv_row (r : csv_reader) : list string := rev (cr_fields r).

Fixpoint csv_lines (lines : list (list ascii)) (r : csv_reader) : result (list (list string)) :=
  match lines with
  | [] => Ok (if bool_decide (cr_state r = InQuotedField) || negb (bool_decide (cr_field r = []))
              then [csv_row (csv_save StartRecord r)] else [])
  | line :: lines' =>
      r ← csv_line line r;
      if bool_decide (cr_state r = StartRecord) then rows ← csv_lines lines' csv_reset; Ok (csv_row r :: rows)
      else csv_lines lines' r
  end.
Definition csv_rows (text : string) : result (list (list string)) := csv_lines (text_lines [] (chars text)) csv_reset.

Example csv_ex :
  let q := of_chars [chr 34] in let nl := of_chars [chr 10] in let cr := of_chars [chr 13] in
  map csv_rows ["a, b ,c" +:+ cr +:+ nl +:+ q +:+ "x,1" +:+ q +:+ q +:+ "y" +:+ q +:+ "z,," +:+ nl +:+ nl;
                "a" +:+ nl +:+ q +:+ "b" +:+ nl +:+ "c"; "a" +:+ cr +:+ "b"; ""]
  = [Ok [["a"; " b "; "c"]; ["x,1" +:+ q +:+ "yz"; ""; ""]; []]; Ok [["a"]; ["b" +:+ nl +:+ "c"]]; Raise csv_error; Ok []].
Proof. vm_compute. reflexivity. Qed.

(** ** Batches *)

Definition beyond_latin1 : exn := OtherError "beyond Latin-1".

Definition _decode_utf8 (raw : string) : result string :=
  match utf8_decode raw with
  | None => Raise (BatchRejected "file.encoding_invalid")
  | Some points => match latin1 (lstrip_bom points) with Some text => Ok text | None => Raise beyond_latin1 end
  end.

Definition parsed_record (payload : odict string pyval) : ParsedRecord :=
  MkParsedRecord payload (canonical_bytes payload) None.

Fixpoint json_records (index : Z) (items : list pyval) : ParsedBatch :=
  match items with
  | [] => MkParsedBatch [] []
  | item :: items' =>
      let rest := json_records (index + 1) items' in
      match item with
      | VDict payload => MkParsedBatch (parsed_record payload :: pb_records rest) (pb_errors rest)
      | _ => MkParsedBatch (pb_records rest)
               (MkParsedError index "source.parse_error" ("record " +:+ str_of_Z index +:+ " is not an object") :: pb_errors rest)
      end
  end.

Definition _parse_json (text : string) : result ParsedBatch :=
  match json_loads text with
  | Ok (VDict data) =>
      match dget "records" data with
      | VList items => Ok (json_records 0 items)
      | _ => Raise (BatchRejected "file.parse_error")
      end
  | Ok _ => Raise (BatchRejected "file.parse_error")
  | Raise e => Raise (if bool_decide (e = JSONDecodeError) then BatchRejected "file.parse_error" else e)
  end.

Definition csv_payload (header row : list string) : odict string pyval :=
  oupdate [] (zip header (map VStr row)).

Fixpoint csv_records (header : list string) (index : Z) (rows : list (list string)) : ParsedBatch :=
  match rows with
  | [] => MkParsedBatch [] []
  | row :: rows' =>
      let rest := csv_records header (index + 1) rows' in
      if negb (Nat.eqb (length row) (length header))
      then MkParsedBatch (pb_records rest)
             (MkParsedError index "source.parse_error"
                ("record " +:+ str_of_Z index +:+ " has " +:+ str_of_Z (Z.of_nat (length row)) +:+ " columns, expected "
                 +:+ str_of_Z (Z.of_nat (length header))) :: pb_errors rest)
      else MkParsedBatch (parsed_record (csv_payload header row) :: pb_records rest) (pb_errors rest)
  end.

Definition _parse_csv (text : string) : result ParsedBatch :=
  rows ← csv_rows text;
  if forallb (fun row => bool_decide (row = [])) rows then Raise (BatchRejected "file.parse_error")
  else
    let header := map strip (hd [] rows) in
    if bool_decide (header = []) || existsb (fun cell => bool_decide (cell = "")) header
    then Raise (BatchRejected "file.parse_error")
    else if Nat.ltb (length rows) 2 then Raise (BatchRejected "file.parse_error")
    else Ok (csv_records header 1 (tl rows)).

(** [FileImportSource.read_batch] *)
#[export] Instance file_import_source : ImportSource := fun raw file_format _ =>
  text ← _decode_utf8 raw;
  match file_format with FormatJson => _parse_json text | FormatCsv => _parse_csv text end.

(** [FakeImportSource.read_batch], over its registered batches *)
Definition fake_import_source (batches : odict string ParsedBatch) : ImportSource := fun _ _ file_name =>
  match oget file_name batches with
  | Some parsed => Ok parsed
  | None => Raise (BatchRejected "file.parse_error")
  end.
