(* ===== verification/IngestionTheorems.v ===== *)
(** * Theorems of controlled ingestion

    What a capture does to the tables, record by record, and the outcomes of the worker's
    [process]; then the composition with the normalisation of the run. *)

From S2P Require Export IngestionService SilverTheorems.
#[local] Open Scope list_scope.

Section capture.
Context `{IsoDates} `{BytesDigest}.
Variable contract : ContractSpec.

(** ** The rows of a capture *)

Record accepted_row (run : ImportRun) (at_ : Z) (x : RawListingSnapshot) : Prop := {
  ac_run : rls_run_id x = ir_run_id run;
  ac_source : rls_source x = ir_source run;
  ac_time : rls_captured_at x = at_;
  ac_valid : vr_valid (validate_record (rls_payload x) contract) = true;
  ac_content : rls_content_sha256 x = canonical_hash (rls_payload x)
}.

(** So many snapshots and quarantine records of the run are added, and nothing else changes. *)
Record bronze_grown (run : ImportRun) (at_ a q : Z) (d d' : lake) : Prop := {
  bg_runs : l_runs d' = l_runs d;
  bg_canonicals : l_canonicals d' = l_canonicals d;
  bg_listings : l_listings d' = l_listings d;
  bg_links : l_links d' = l_links d;
  bg_changes : l_changes d' = l_changes d;
  bg_snapshots : exists rows, l_snapshots d' = l_snapshots d ++ rows /\ Z.of_nat (length rows) = a
    /\ Forall (accepted_row run at_) rows;
  bg_quarantine : exists rows, l_quarantine d' = l_quarantine d ++ rows /\ Z.of_nat (length rows) = q
    /\ Forall (fun x => qr_run_id x = ir_run_id run) rows
}.

Lemma no_rows_such {A} (P : A -> Prop) (t : list A) :
  exists rows, t = t ++ rows /\ Z.of_nat (length rows) = 0 /\ Forall P rows.
Proof. exists []. rewrite app_nil_r. by repeat constructor. Qed.

Lemma one_row_such {A} (P : A -> Prop) (t : list A) x : P x ->
  exists rows, t ++ [x] = t ++ rows /\ Z.of_nat (length rows) = 1 /\ Forall P rows.
Proof. intros Hx. exists [x]. by repeat constructor. Qed.

Lemma more_rows_such {A} (P : A -> Prop) (t t1 t2 : list A) n n' :
  (exists rows, t1 = t ++ rows /\ Z.of_nat (length rows) = n /\ Forall P rows) ->
  (exists rows, t2 = t1 ++ rows /\ Z.of_nat (length rows) = n' /\ Forall P rows) ->
  exists rows, t2 = t ++ rows /\ Z.of_nat (length rows) = n + n' /\ Forall P rows.
Proof.
  intros (r & -> & <- & Hr) (r' & -> & <- & Hr'). exists (r ++ r'). rewrite app_assoc, length_app.
  split; [done|]. split; [lia|]. by apply Forall_app.
Qed.

Lemma bronze_grown_refl run at_ d : bronze_grown run at_ 0 0 d d.
Proof. split; try done; apply no_rows_such. Qed.

Lemma bronze_grown_trans run at_ a q a' q' d d1 d2 :
  bronze_grown run at_ a q d d1 -> bronze_grown run at_ a' q' d1 d2 -> bronze_grown run at_ (a + a') (q + q') d d2.
Proof. intros [] []. split; try congruence; by eapply more_rows_such. Qed.

Lemma bronze_grown_count run at_ d d' a q a' q' :
  bronze_grown run at_ a q d d' -> a = a' -> q = q' -> bronze_grown run at_ a' q' d d'.
Proof. by intros ? <- <-. Qed.

Lemma snapshot_inserted run at_ d x t' :
  lake_inv d -> insert_row snapshot_clash snapshot_check x (l_snapshots d) = Some t' -> accepted_row run at_ x ->
  lake_inv (set_snapshots t' d) /\ bronze_grown run at_ 1 0 d (set_snapshots t' d).
Proof.
  intros Hinv Hins Hx. pose proof (insert_row_ok _ _ _ _ _ (li_snapshots _ Hinv) Hins) as Hok.
  apply insert_row_Some in Hins as (-> & _). split.
  - destruct Hinv. split; try done. simpl. intros y Hy. destruct (li_source y Hy) as (s & ? & ?).
    exists s. set_solver.
  - split; try done; simpl; [by apply one_row_such|apply no_rows_such].
Qed.

Lemma quarantine_inserted run at_ d x t' :
  lake_inv d -> insert_row quarantine_clash quarantine_check x (l_quarantine d) = Some t' ->
  qr_run_id x = ir_run_id run ->
  lake_inv (set_quarantine t' d) /\ bronze_grown run at_ 0 1 d (set_quarantine t' d).
Proof.
  intros Hinv Hins Hx. pose proof (insert_row_ok _ _ _ _ _ (li_quarantine _ Hinv) Hins) as Hok.
  apply insert_row_Some in Hins as (-> & _). split; [by destruct Hinv|].
  split; try done; simpl; [apply no_rows_such|by apply one_row_such].
Qed.

(** ** The loop over the records *)

Definition known (run : ImportRun) (d : lake) (k : string * string) : Prop :=
  snapshot_exists (source_id (ir_source run)) k.1 k.2 d = true.

Lemma known_mono run at_ a q d d' k : bronze_grown run at_ a q d d' -> known run d k -> known run d' k.
Proof.
  intros [_ _ _ _ _ (rows & E & _) _]. unfold known, snapshot_exists. rewrite E, existsb_app. by intros ->.
Qed.

(** What the loop has done between two tallies *)
Record tallied (run : ImportRun) (at_ n : Z) (t t' : tally) (d d' : lake) : Prop := {
  ty_inv : lake_inv d';
  ty_rows : bronze_grown run at_ (ta_accepted t' - ta_accepted t) (ta_quarantined t' - ta_quarantined t) d d';
  ty_sum : ta_accepted t' + ta_quarantined t' + ta_duplicates t'
           = ta_accepted t + ta_quarantined t + ta_duplicates t + n;
  ty_dup : ta_duplicates t <= ta_duplicates t';
  ty_seen : Forall (known run d') (ta_seen t')
}.

Lemma tallied_trans run at_ n n' t t1 t2 d d1 d2 :
  tallied run at_ n t t1 d d1 -> tallied run at_ n' t1 t2 d1 d2 -> tallied run at_ (n + n') t t2 d d2.
Proof.
  intros [] []. split; [done| |lia|lia|done].
  eapply bronze_grown_count; [by eapply bronze_grown_trans|lia..].
Qed.

(** A record is captured when it is invalid or its content is in the table. *)
Definition record_done (run : ImportRun) (index : Z) (record : ParsedRecord) (d : lake) : Prop :=
  vr_valid (validate_record (pr_payload record) contract) = true ->
  known run d (_external_id (pr_payload record) index, canonical_hash (pr_payload record)).

Lemma wp_capture_record run at_ index record t w s (Q : result tally -> sys lake -> Prop) :
  lake_inv (state_of s) -> Forall (known run (state_of s)) (ta_seen t) ->
  (forall r s', lake_inv (state_of s') ->
     (forall e, r = Raise e -> state_of s' = state_of s) ->
     (forall t', r = Ok t' -> tallied run at_ 1 t t' (state_of s) (state_of s')
        /\ record_done run index record (state_of s')) -> Q r s') ->
  wp (capture_record contract run at_ index record t) w s Q.
Proof.
  intros Hinv Hseen HQ. unfold capture_record.
  set (key := (_external_id (pr_payload record) index, canonical_hash (pr_payload record))).
  assert (Hdup : known run (state_of s) key -> Q (Ok (add_duplicate t)) s).
  { intros Hk. apply HQ; [done|done|]. intros t' [= <-]. split; [|by intros _].
    split; simpl; [done| |lia|lia|done]. eapply bronze_grown_count; [apply bronze_grown_refl|lia..]. }
  case_bool_decide as Hin.
  { wp_step. apply Hdup. rewrite Forall_forall in Hseen. by apply Hseen. }
  wp_step. destruct (snapshot_exists _ _ _ _) eqn:Hknown; [by wp_step; apply Hdup|].
  destruct (vr_valid (validate_record (pr_payload record) contract)) eqn:Hvalid; simpl negb; cbv iota.
  - do 2 wp_step. apply wp_add_to; [|by apply HQ].
    intros rows Hins. simpl in Hins.
    destruct (snapshot_inserted run at_ (state_of s) _ _ Hinv Hins) as [Hinv' Hg]; [by split|].
    assert (Hnew : known run (set_snapshots rows (state_of s)) key).
    { apply insert_row_Some in Hins as (-> & _). unfold known, snapshot_exists. simpl.
      rewrite existsb_app. apply orb_true_iff. right. simpl. by rewrite !bool_decide_eq_true_2. }
    wp_step. apply HQ; [done|done|]. intros t' [= <-]. split; [|by intros _].
    split; simpl; [done| |lia|lia|].
    + eapply bronze_grown_count; [exact Hg|lia..].
    + constructor; [exact Hnew|]. eapply Forall_impl; [exact Hseen|]. intros k. by apply (known_mono run at_ 1 0).
  - do 2 wp_step. apply wp_add_to; [|by apply HQ].
    intros rows Hins. simpl in Hins.
    destruct (quarantine_inserted run at_ (state_of s) _ _ Hinv Hins eq_refl) as [Hinv' Hg].
    wp_step. apply HQ; [done|done|]. intros t' [= <-]. split; [|unfold record_done; congruence].
    split; simpl; [done| |lia|lia|].
    + eapply bronze_grown_count; [exact Hg|lia..].
    + eapply Forall_impl; [exact Hseen|]. intros k. by apply (known_mono run at_ 0 1).
Qed.

(** A raise leaves what was inserted before it. *)
Definition partly (run : ImportRun) (at_ : Z) (d d' : lake) : Prop := exists a q, bronze_grown run at_ a q d d'.

Lemma partly_refl run at_ d : partly run at_ d d.
Proof. exists 0, 0. apply bronze_grown_refl. Qed.

Lemma partly_trans run at_ a q d d1 d2 : bronze_grown run at_ a q d d1 -> partly run at_ d1 d2 -> partly run at_ d d2.
Proof. intros Hg (a' & q' & Hg'). eexists _, _. by eapply bronze_grown_trans. Qed.

Lemma wp_capture_records run at_ index records t w s (Q : result tally -> sys lake -> Prop) :
  lake_inv (state_of s) -> Forall (known run (state_of s)) (ta_seen t) ->
  (forall r s', lake_inv (state_of s') -> partly run at_ (state_of s) (state_of s') ->
     (forall t', r = Ok t' -> tallied run at_ (Z.of_nat (length records)) t t' (state_of s) (state_of s')
        /\ forall i record, records !! i = Some record -> record_done run (index + Z.of_nat i) record (state_of s')) ->
     Q r s') ->
  wp (capture_records contract run at_ index records t) w s Q.
Proof.
  revert index t s Q. induction records as [|record records IH]; intros index t s Q Hinv Hseen HQ;
    cbn [capture_records].
  - wp_step. apply HQ; [done|apply partly_refl|]. intros t' [= <-]. split; [|done].
    split; simpl; [done| |lia|lia|done]. eapply bronze_grown_count; [apply bronze_grown_refl|lia..].
  - wp_step. apply (wp_capture_record run at_); [done..|]. intros [t1|e] s1 Hinv1 Hr1 Ht1.
    2:{ apply HQ; [done| |done]. rewrite (Hr1 e eq_refl). apply partly_refl. }
    destruct (Ht1 t1 eq_refl) as [Hty Hdone]. destruct Hty as [? Hg ? ? Hseen1] eqn:E. clear E Hr1 Ht1.
    apply IH; [done..|]. intros r s2 Hinv2 Hp Hr. apply HQ; [done|by eapply partly_trans|].
    intros t' Ht'. destruct (Hr t' Ht') as [Hty2 Hrest]. split.
    + rewrite length_cons, Nat2Z.inj_succ, <- Z.add_1_l. by eapply tallied_trans.
    + intros [|i] record' Hi; simpl in Hi.
      * injection Hi as <-. rewrite Z.add_0_r. intros Hv. destruct Hty2 as [_ Hg2 _ _ _].
        eapply known_mono; [exact Hg2|]. by apply Hdone.
      * intros Hv. replace (index + Z.of_nat (S i)) with (index + 1 + Z.of_nat i) by lia. by apply (Hrest i).
Qed.

Lemma wp_capture_errors run at_ errors t w s (Q : result tally -> sys lake -> Prop) :
  lake_inv (state_of s) -> Forall (known run (state_of s)) (ta_seen t) ->
  (forall r s', lake_inv (state_of s') -> partly run at_ (state_of s) (state_of s') ->
     (forall t', r = Ok t' -> tallied run at_ (Z.of_nat (length errors)) t t' (state_of s) (state_of s')) ->
     Q r s') ->
  wp (capture_errors run at_ errors t) w s Q.
Proof.
  revert t s Q. induction errors as [|e errors IH]; intros t s Q Hinv Hseen HQ; cbn [capture_errors].
  - wp_step. apply HQ; [done|apply partly_refl|]. intros t' [= <-].
    split; simpl; [done| |lia|lia|done]. eapply bronze_grown_count; [apply bronze_grown_refl|lia..].
  - do 2 wp_step. apply wp_add_to; [|apply HQ; [done|apply partly_refl|done]].
    intros rows Hins. simpl in Hins.
    destruct (quarantine_inserted run at_ (state_of s) _ _ Hinv Hins eq_refl) as [Hinv' Hg].
    assert (Hseen' : Forall (known run (set_quarantine rows (state_of s))) (ta_seen t)).
    { eapply Forall_impl; [exact Hseen|]. intros k. by apply (known_mono run at_ 0 1). }
    apply IH; [done..|]. intros r s' Hi Hp Hr. apply HQ; [done|by eapply partly_trans|].
    intros t' Ht'. rewrite length_cons, Nat2Z.inj_succ, <- Z.add_1_l.
    eapply tallied_trans; [|by apply Hr]. split; simpl; [done| |lia|lia|done].
    eapply bronze_grown_count; [exact Hg|lia..].
Qed.
End capture.

(** ** Stored runs *)

Lemma run_saved d run row :
  lake_inv d -> import_run_get (ir_run_id run) d = Some row -> import_run_check (import_run_row run row) = true ->
  lake_inv (set_import_runs (update_by ir_run_id (ir_run_id run) (import_run_row run) (l_runs d)) d).
Proof.
  intros Hinv [Hin Hid]%get_by_Some Hcheck. pose proof (li_runs _ Hinv) as Ht. destruct Hinv.
  split; try done. simpl. unfold update_by. apply map_ok; [| |done].
  - intros a b _ _. unfold import_run_clash.
    by destruct (ir_run_id a =? _), (ir_run_id b =? _).
  - intros a Ha Hca. destruct (Z.eqb_spec (ir_run_id a) (ir_run_id run)) as [E|]; [|done].
    replace a with row; [done|]. apply (table_unique _ _ _ _ _ Ht Hin Ha);
      unfold import_run_clash; by rewrite Hid, E, Z.eqb_refl.
Qed.

Definition stored (run : ImportRun) (d : lake) : Prop :=
  exists row, import_run_get (ir_run_id run) d = Some (import_run_row run row).

Lemma import_run_row_id run row : ir_run_id (import_run_row run row) = ir_run_id row.
Proof. done. Qed.

Lemma wp_import_run_save run row w s (Q : result unit -> sys lake -> Prop) :
  lake_inv (state_of s) -> import_run_get (ir_run_id run) (state_of s) = Some row ->
  (import_run_check (import_run_row run row) = true ->
     let d' := set_import_runs (update_by ir_run_id (ir_run_id run) (import_run_row run) (l_runs (state_of s)))
                 (state_of s) in
     lake_inv d' -> import_run_get (ir_run_id run) d' = Some (import_run_row run row) ->
     Q (Ok tt) (Sys d' (drawn s) (ticks s))) ->
  (import_run_check (import_run_row run row) = false -> Q (Raise IntegrityError) s) ->
  wp (import_run_save run) w s Q.
Proof.
  intros Hinv Hget HO HR. unfold import_run_save. wp_step. rewrite Hget.
  destruct (import_run_check _) eqn:Hc; wp_step; [|by apply HR].
  apply HO; [done|by eapply run_saved|].
  unfold import_run_get in *. simpl. rewrite get_by_update by done. rewrite Hget. simpl.
  by rewrite Z.eqb_refl.
Qed.

Lemma stored_check d run : lake_inv d -> run ∈ l_runs d -> import_run_check run = true.
Proof. intros Hinv Hin. destruct (li_runs _ Hinv) as [_ Hc]. rewrite Forall_forall in Hc. by apply Hc. Qed.

Lemma find_by_job_Some e d run : lake_inv d -> find_by_job_execution e d = Some run ->
  run ∈ l_runs d /\ import_run_get (ir_run_id run) d = Some run.
Proof.
  intros Hinv [Hin _]%find_first_Some. split; [done|]. unfold import_run_get, get_by.
  destruct (find_first _ _) as [r|] eqn:Hf.
  - apply find_first_Some in Hf as [Hr E%Z.eqb_eq]. f_equal.
    apply (table_unique _ _ _ _ _ (li_runs _ Hinv) Hr Hin); unfold import_run_clash; by rewrite E, Z.eqb_refl.
  - apply find_first_None in Hf. rewrite Forall_forall in Hf. specialize (Hf run Hin). simpl in Hf.
    by rewrite Z.eqb_refl in Hf.
Qed.

Lemma get_run_grown contract `{IsoDates} `{BytesDigest} run at_ d d' id :
  partly contract run at_ d d' -> import_run_get id d' = import_run_get id d.
Proof. intros (a & q & [E _ _ _ _ _ _]). unfold import_run_get. by rewrite E. Qed.

(** ** The worker *)

Section worker.
Context {O J : Type} `{ObjectStore O} `{JobPort J} `{ImportSource} `{IsoDates} `{BytesDigest} `{ErrorText}.
Variable contract : ContractSpec.

Lemma wp_raw_batch (run : ImportRun) w (s : sys (bronze O J)) (Q : result string -> sys (bronze O J) -> Prop) :
  (forall r o n t, Q r (Sys (MkBronze (b_lake (state_of s)) o (b_jobs (state_of s))) n t)) ->
  wp (raw_batch run) w s Q.
Proof.
  intros HQ. unfold raw_batch. wp_step. apply wp_zoom_any. intros [ref|e] o n t; [|apply HQ].
  apply wp_try. wp_step. apply wp_zoom_any. intros [info|e] o2 n2 t2; simpl.
  - destruct (negb _ || negb _); [wp_step; wp_step; apply HQ|].
    apply wp_zoom_any. intros [raw|e] o3 n3 t3; simpl; [apply HQ|].
    destruct e; wp_step; apply HQ.
  - destruct e; wp_step; apply HQ.
Qed.

(** A run whose capture succeeded: its row, and the counts of the batch *)
Record captured_run (run : ImportRun) (parsed : ParsedBatch) (t : tally) (at_ : Z) (d d' : lake) : Prop := {
  cr_rows : exists d1, bronze_grown contract run at_ (ta_accepted t) (ta_quarantined t) d d1
    /\ d' = set_import_runs (l_runs d') d1;
  cr_sum : ta_accepted t + ta_quarantined t + ta_duplicates t = ParsedBatch_total parsed;
  cr_dup : 0 <= ta_duplicates t;
  cr_stored : stored (with_result (run_counts parsed t) at_ run) d';
  cr_records : forall i record, pb_records parsed !! i = Some record -> record_done contract run (Z.of_nat i) record d'
}.

Lemma wp_capture_batch run parsed w s (Q : result ImportRunSnapshot -> sys lake -> Prop) row :
  lake_inv (state_of s) -> import_run_get (ir_run_id run) (state_of s) = Some row ->
  (forall r s', lake_inv (state_of s') ->
     (forall e, r = Raise e -> partly contract run (time_at w (ticks s)) (state_of s) (state_of s')) ->
     (forall snap, r = Ok snap -> exists t,
        snap = run_snapshot (with_result (run_counts parsed t) (time_at w (ticks s)) run)
        /\ captured_run run parsed t (time_at w (ticks s)) (state_of s) (state_of s')) -> Q r s') ->
  wp (capture_batch contract run parsed) w s Q.
Proof.
  intros Hinv Hget HQ. unfold capture_batch. do 2 wp_step.
  apply (wp_capture_records contract run (time_at w (ticks s))); [done|constructor|].
  intros [t1|e] s1 Hinv1 Hp1 Hr1; [|by apply HQ]. destruct (Hr1 t1 eq_refl) as [[_ Hg1 Hs1 Hd1 Hseen1] Hrec1].
  wp_step. apply (wp_capture_errors contract run (time_at w (ticks s))); [done..|].
  intros [t2|e] s2 Hinv2 Hp2 Hr2.
  2:{ apply HQ; [done|intros ? _|done]. by eapply partly_trans. }
  destruct (Hr2 t2 eq_refl) as [_ Hg2 Hs2 Hd2 _]. wp_step.
  pose proof (bronze_grown_trans _ _ _ _ _ _ _ _ _ _ Hg1 Hg2) as Hg.
  assert (Hget2 : import_run_get (ir_run_id run) (state_of s2) = Some row).
  { rewrite <- Hget. eapply get_run_grown. by eexists _, _. }
  apply (wp_import_run_save _ row); [done|exact Hget2| |].
  - intros Hc d' Hinv' Hrow. wp_step. apply HQ; [done|done|]. intros snap [= <-]. exists t2. split; [done|].
    split; [ | |simpl in *; lia|by exists row|].
    + exists (state_of s2). split; [|done]. eapply bronze_grown_count; [exact Hg|simpl; lia..].
    + unfold ParsedBatch_total. simpl in *. lia.
    + intros i record Hi Hv. apply (known_mono contract run (time_at w (ticks s)) _ _ _ _ _ Hg2).
      rewrite <- (Z.add_0_l (Z.of_nat i)). by apply (Hrec1 i record Hi Hv).
  - intros _. apply HQ; [done|intros e _|done]. by eexists _, _.
Qed.
(** ** The outcomes of [process_import] *)

Inductive import_outcome (execution_id : Z) (d d' : lake) : result ImportRunSnapshot -> Prop :=
  | oc_unknown :
      find_by_job_execution execution_id d = None -> d' = d ->
      import_outcome execution_id d d' (Raise (IngestionTransientError "ingestion.run_not_ready"))
  | oc_finished run :
      find_by_job_execution execution_id d = Some run -> finished_state (ir_state run) = true -> d' = d ->
      import_outcome execution_id d d' (Ok (run_snapshot run))
  | oc_captured run now d1 parsed t at_ :
      find_by_job_execution execution_id d = Some run -> finished_state (ir_state run) = false ->
      d1 = set_import_runs (l_runs d1) d -> captured_run (with_state ImportRunning now run) parsed t at_ d1 d' ->
      import_outcome execution_id d d'
        (Ok (run_snapshot (with_result (run_counts parsed t) at_ (with_state ImportRunning now run))))
  | oc_retry run now code :
      find_by_job_execution execution_id d = Some run -> finished_state (ir_state run) = false ->
      stored (with_state ImportRunning now run) d' ->
      import_outcome execution_id d d' (Raise (IngestionTransientError code))
  | oc_failed run now later code detail :
      find_by_job_execution execution_id d = Some run -> finished_state (ir_state run) = false ->
      stored (with_failure (_normalized_code code) detail later (with_state ImportRunning now run)) d' ->
      import_outcome execution_id d d' (Raise (IngestionPermanentError code)).

Lemma running_check run now row : import_run_check run = true -> finished_state (ir_state run) = false ->
  ir_file_size_bytes row = ir_file_size_bytes run ->
  import_run_check (import_run_row (with_state ImportRunning now run) row) = true.
Proof.
  unfold import_run_check. simpl. intros Hc Hf Hs. rewrite Hf in Hc. rewrite Hs. exact Hc.
Qed.

Lemma failed_check run row code detail now : import_run_check run = true ->
  ir_file_size_bytes row = ir_file_size_bytes run ->
  import_run_check (import_run_row (with_failure code detail now run) row) = true.
Proof.
  unfold import_run_check. simpl. intros Hc Hs. rewrite Hs.
  apply andb_true_iff in Hc as [[_ Hcounts]%andb_true_iff Hsize]. by rewrite Hcounts, Hsize.
Qed.

(** C18: The worker's [process] of an import has five outcomes and no other: an unknown execution is a
    transient error; a finished run is answered and nothing changes; a capture adds exactly the
    accepted snapshots and quarantine records it counts, whose sum with the duplicates is the size
    of the batch, and stores the run as succeeded; a transient error leaves the run running; any
    other error stores the run as failed and is reported as permanent.  The invariant of the
    tables holds in every case. *)
Theorem import_outcomes execution_id w (s : sys (bronze O J)) r s' :
  lake_inv (b_lake (state_of s)) -> process_import contract execution_id w s = (r, s') ->
  lake_inv (b_lake (state_of s')) /\ import_outcome execution_id (b_lake (state_of s)) (b_lake (state_of s')) r.
Proof.
  intros Hinv Hrun. pattern r, s'. eapply wp_run; [|exact Hrun]. clear r s' Hrun.
  unfold process_import. wp_step. apply wp_zoom. unfold gets, wp at 1. simpl.
  destruct (find_by_job_execution execution_id (b_lake (state_of s))) as [run|] eqn:Hfind.
  2:{ wp_step. split; [done|]. by apply oc_unknown. }
  destruct (finished_state (ir_state run)) eqn:Hfin.
  { wp_step. split; [done|]. by eapply oc_finished. }
  destruct (find_by_job_Some _ _ _ Hinv Hfind) as [Hin Hget].
  pose proof (stored_check _ _ Hinv Hin) as Hcheck. wp_step.
  set (now := time_at w _). set (running := with_state ImportRunning now run).
  assert (Hrcheck : import_run_check (import_run_row running run) = true) by by apply running_check.
  wp_step. apply wp_zoom. apply (wp_import_run_save running run); [exact Hinv|exact Hget| |congruence].
  intros _ d1 Hinv1 Hrow1. simpl.
  set (d0 := b_lake (state_of s)) in *.
  assert (Hd1 : d1 = set_import_runs (l_runs d1) d0) by done. clearbody d1.
  apply wp_try. unfold _capture.
  (* every error of the capture is handled, whatever was captured before it *)
  assert (Hhandle : forall e (s1 : sys (bronze O J)), lake_inv (b_lake (state_of s1)) ->
    import_run_get (ir_run_id run) (b_lake (state_of s1)) = Some (import_run_row running run) ->
    wp (match e with
        | IngestionTransientError _ => raise e
        | _ => let code := default "ingestion.processing_failed"%string (exn_code e) in
               _ ← _fail running code (_bounded (error_text e)); raise (IngestionPermanentError code)
        end) w s1 (fun r s' => lake_inv (b_lake (state_of s')) /\ import_outcome execution_id d0 (b_lake (state_of s')) r)).
  { intros e s1 Hinv1' Hrow1'.
    assert (Hfail : forall code detail, wp (_ ← _fail running code detail; raise (IngestionPermanentError code)) w s1
      (fun r s' => lake_inv (b_lake (state_of s')) /\ import_outcome execution_id d0 (b_lake (state_of s')) r)).
    { intros code detail. wp_step. unfold _fail. wp_step. apply wp_zoom.
      apply (wp_import_run_save _ (import_run_row running run)); [exact Hinv1'|exact Hrow1'| |].
      - intros _ d2 Hinv2 Hrow2. wp_step. split; [exact Hinv2|].
        eapply (oc_failed _ _ _ run now); [done|done|]. by eexists.
      - rewrite failed_check; [done| |done]. unfold running. by rewrite <- Hrcheck. }
    destruct e; try apply Hfail. wp_step. split; [done|]. eapply (oc_retry _ _ _ run now); [done|done|].
    by exists run. }
  wp_step. apply wp_raw_batch. intros [raw|e] o n t; [|by apply Hhandle].
  wp_step; [|by apply Hhandle]. destruct (too_many_records contract a).
  { wp_step. by apply (Hhandle (IngestionPermanentError "file.records_exceeded")). }
  apply wp_zoom. eapply (wp_capture_batch running); [exact Hinv1|exact Hrow1|].
  intros [snap|e] s2 Hinv2 Hraise Hok.
  - destruct (Hok snap eq_refl) as (t' & -> & Hcap). split; [done|]. by eapply oc_captured.
  - apply Hhandle; [exact Hinv2|]. simpl. rewrite <- Hrow1. eapply get_run_grown. exact (Hraise e eq_refl).
Qed.
End worker.

(** ** From the import to the normalisation *)

Section repeats.
Context `{IsoDates} `{BytesDigest} `{HexDigest} `{NumericColumns}.
Variable contract : ContractSpec.

(** Which snapshots a capture leaves, in terms of its raw run *)
Lemma capture_batch_post run parsed row w s snap s' :
  lake_inv (state_of s) -> import_run_get (ir_run_id run) (state_of s) = Some row ->
  capture_batch contract run parsed w s = (Ok snap, s') ->
  lake_inv (state_of s') /\ exists t, captured_run contract run parsed t (time_at w (ticks s)) (state_of s) (state_of s').
Proof.
  intros Hinv Hget Hrun.
  assert (Hp : forall r s', capture_batch contract run parsed w s = (r, s') -> forall a, r = Ok a ->
    lake_inv (state_of s') /\ exists t, captured_run contract run parsed t (time_at w (ticks s)) (state_of s) (state_of s')).
  { intros r s1 Hr. pattern r, s1. eapply wp_run; [|exact Hr]. eapply wp_capture_batch; [done|exact Hget|].
    intros r' s2 Hi _ Hok a ->. split; [done|]. by destruct (Hok a eq_refl) as (t & _ & ?); exists t. }
  by apply (Hp _ _ Hrun snap).
Qed.

(** A valid record that was not in the table is a snapshot of the run now. *)
Lemma captured_new run parsed t at_ d d' i x :
  captured_run contract run parsed t at_ d d' -> pb_records parsed !! i = Some x ->
  vr_valid (validate_record (pr_payload x) contract) = true ->
  ~ known run d (_external_id (pr_payload x) (Z.of_nat i), canonical_hash (pr_payload x)) ->
  exists r, r ∈ snapshots_for_run (ir_run_id run) d' /\ rls_captured_at r = at_
    /\ source_id (rls_source r) = source_id (ir_source run)
    /\ rls_external_id r = _external_id (pr_payload x) (Z.of_nat i)
    /\ rls_content_sha256 r = canonical_hash (pr_payload x).
Proof.
  intros [(d1 & [_ _ _ _ _ (rows & Hrows & _ & Hacc) _] & Hd') _ _ _ Hrec] Hi Hv Hnew.
  assert (Hs : l_snapshots d' = l_snapshots d ++ rows) by (by rewrite Hd').
  pose proof (Hrec i x Hi Hv) as Hk. unfold known, snapshot_exists in Hk.
  rewrite Hs, existsb_app in Hk. apply orb_true_iff in Hk as [Hk|Hk]; [done|].
  apply existsb_exists in Hk as (r & Hr%list_elem_of_In & Hb). apply andb_true_iff in Hb as [[B1 B2]%andb_true_iff B3].
  apply bool_decide_eq_true in B1, B2, B3. simpl in *. rewrite Forall_forall in Hacc.
  destruct (Hacc r Hr) as [E1 _ E3 _ _]. exists r. split; [|done].
  apply elem_snapshots_for_run. split; [|done]. rewrite Hs. set_solver.
Qed.

(** A batch that lists one listing twice, with different data, is imported without complaint and
    can then never be normalised: both records are accepted as snapshots of the run with the same
    capture time, and every attempt to normalise the run fails. *)
Theorem import_repeats_wedge run parsed row w s snap s' i j x y cfg w2 n t :
  lake_inv (state_of s) -> import_run_get (ir_run_id run) (state_of s) = Some row ->
  capture_batch contract run parsed w s = (Ok snap, s') ->
  pb_records parsed !! i = Some x -> pb_records parsed !! j = Some y ->
  vr_valid (validate_record (pr_payload x) contract) = true ->
  vr_valid (validate_record (pr_payload y) contract) = true ->
  _external_id (pr_payload x) (Z.of_nat i) = _external_id (pr_payload y) (Z.of_nat j) ->
  canonical_hash (pr_payload x) <> canonical_hash (pr_payload y) ->
  ~ known run (state_of s) (_external_id (pr_payload x) (Z.of_nat i), canonical_hash (pr_payload x)) ->
  ~ known run (state_of s) (_external_id (pr_payload y) (Z.of_nat j), canonical_hash (pr_payload y)) ->
  is_ok (process cfg (ir_run_id run) w2 (Sys (state_of s') n t)).1 = false.
Proof.
  intros Hinv Hget Hrun Hi Hj Hvx Hvy He Hne Hnx Hny.
  destruct (capture_batch_post _ _ _ _ _ _ _ Hinv Hget Hrun) as [Hinv' (t' & Hcap)].
  destruct (captured_new _ _ _ _ _ _ _ _ Hcap Hi Hvx Hnx) as (rx & Hrx & Htx & Hsx & Hex & Hcx).
  destruct (captured_new _ _ _ _ _ _ _ _ Hcap Hj Hvy Hny) as (ry & Hry & Hty & Hsy & Hey & Hcy).
  apply (repeated_listing_blocks cfg (ir_run_id run) w2 (Sys (state_of s') n t) rx ry); try done; try congruence.
  - intros Hid. apply Hne. rewrite <- Hcx, <- Hcy. f_equal.
    apply elem_snapshots_for_run in Hrx as [Hrx _], Hry as [Hry _].
    apply (table_unique _ _ _ _ _ (li_snapshots _ Hinv') Hrx Hry); unfold snapshot_clash; by rewrite Hid, Z.eqb_refl.
  - unfold same_source. apply bool_decide_eq_true. congruence.
Qed.
End repeats.
