(* ===== verification/LakeSystem.v ===== *)
(** * The ingestion system

    Batches are submitted and imported, runs are normalised, links are decided: in every
    state these operations can reach, whatever they return or raise, the tables satisfy
    [lake_inv].  Then the canonical text of a payload does not depend on the order of its
    members. *)

From S2P Require Export IngestionTheorems.
From stdpp Require Import sorting.
#[local] Open Scope list_scope.

Section system.
Context {O J : Type} `{ObjectStore O} `{JobPort J} `{ImportSource} `{IsoDates} `{BytesDigest} `{ErrorText}.
Context `{HexDigest} `{NumericColumns}.
Variable contract : ContractSpec.
Variable jobs_enabled : bool.

Lemma run_inserted d run t' :
  lake_inv d -> insert_row import_run_clash import_run_check run (l_runs d) = Some t' ->
  lake_inv (set_import_runs t' d).
Proof.
  intros Hinv Hins. pose proof (insert_row_ok _ _ _ _ _ (li_runs _ Hinv) Hins). by destruct Hinv.
Qed.

(** The invariant of the tables, after a computation on the whole state *)
Definition lake_kept {A} (m : M (bronze O J) A) : Prop := forall w s,
  lake_inv (b_lake (state_of s)) -> wp m w s (fun _ s' => lake_inv (b_lake (state_of s'))).

Lemma kept_bind {A B} (m : M (bronze O J) A) (f : A -> M (bronze O J) B) :
  lake_kept m -> (forall a, lake_kept (f a)) -> lake_kept (mbind f m).
Proof.
  intros Hm Hf w s Hinv. wp_step. eapply wp_mono; [by apply Hm|]. intros [a|e] s' Hs'; [by apply Hf|done].
Qed.

Lemma kept_ret {A} (a : A) : lake_kept (mret a).
Proof. by intros w s Hinv. Qed.
Lemma kept_raise {A} e : lake_kept (raise e : M (bronze O J) A).
Proof. by intros w s Hinv. Qed.
Lemma kept_lift {A} (r : result A) : lake_kept (lift r : M (bronze O J) A).
Proof. by intros w s Hinv. Qed.
Lemma kept_uuid4 : lake_kept (uuid4 : M (bronze O J) Z).
Proof. by intros w s Hinv. Qed.
Lemma kept_clock : lake_kept (clock : M (bronze O J) Z).
Proof. by intros w s Hinv. Qed.
Lemma kept_objects {A} (m : M O A) : lake_kept (on_objects m : M (bronze O J) A).
Proof. intros w s Hinv. by apply wp_zoom_any. Qed.
Lemma kept_queue {A} (m : M J A) : lake_kept (on_queue m : M (bronze O J) A).
Proof. intros w s Hinv. by apply wp_zoom_any. Qed.
Lemma kept_lake {A} (m : M lake A) :
  (forall w s, lake_inv (state_of s) -> wp m w s (fun _ s' => lake_inv (state_of s'))) ->
  lake_kept (on_lake m : M (bronze O J) A).
Proof. intros Hm w s Hinv. apply wp_zoom. eapply wp_mono; [by apply Hm|done]. Qed.
Lemma kept_gets {A} (f : lake -> A) : lake_kept (on_lake (gets f) : M (bronze O J) A).
Proof. by apply kept_lake. Qed.

Lemma import_run_create_kept id source key format name sha size raw job now :
  lake_kept (on_lake (import_run_create id source key format name sha size raw job now) : M (bronze O J) _).
Proof.
  apply kept_lake. intros w s Hinv. unfold import_run_create. wp_step. apply wp_add_to; [|done].
  intros t' Hins. wp_step. by eapply run_inserted.
Qed.

Hint Resolve kept_bind kept_ret kept_raise kept_lift kept_uuid4 kept_clock kept_objects kept_queue kept_gets
  import_run_create_kept : kept.

Lemma submit_batch_kept request : lake_kept (submit_batch contract jobs_enabled request).
Proof.
  unfold submit_batch. apply kept_bind; [auto with kept|]. intros [run|]; [auto with kept|].
  destruct (negb _); [auto with kept|]. apply kept_bind; [auto with kept|]. intros parsed.
  destruct (too_many_records _ _); [auto with kept|]. apply kept_bind; [auto with kept|]. intros _.
  apply kept_bind; [destruct jobs_enabled; auto 6 with kept|]. auto 6 with kept.
Qed.

Lemma process_import_kept execution_id : lake_kept (process_import contract execution_id).
Proof.
  intros w s Hinv. unfold wp. destruct (process_import contract execution_id w s) as [r s'] eqn:Hrun.
  by apply (import_outcomes contract execution_id w s r s').
Qed.

Lemma normalize_kept cfg run_id : lake_kept (on_lake (process cfg run_id) : M (bronze O J) _).
Proof. apply kept_lake. intros w s Hinv. by apply wp_process. Qed.

Lemma decide_kept id state actor : lake_kept (on_lake (_decide_link id state actor) : M (bronze O J) _).
Proof. apply kept_lake. intros w s Hinv. by apply wp_decide_link. Qed.

(** One operation of the system, in any world of identifiers and instants *)
Inductive lake_step : sys (bronze O J) -> sys (bronze O J) -> Prop :=
  | step_submit request w s r s' :
      submit_batch contract jobs_enabled request w s = (r, s') -> lake_step s s'
  | step_import execution_id w s r s' : process_import contract execution_id w s = (r, s') -> lake_step s s'
  | step_normalize cfg run_id w s r s' : on_lake (process cfg run_id) w s = (r, s') -> lake_step s s'
  | step_confirm id actor w s r s' : on_lake (confirm_link id actor) w s = (r, s') -> lake_step s s'
  | step_reject id actor w s r s' : on_lake (reject_link id actor) w s = (r, s') -> lake_step s s'
  | step_outside o j n t s : lake_step s (Sys (MkBronze (b_lake (state_of s)) o j) n t).

Lemma kept_run {A} (m : M (bronze O J) A) w s r s' :
  lake_kept m -> lake_inv (b_lake (state_of s)) -> m w s = (r, s') -> lake_inv (b_lake (state_of s')).
Proof. intros Hm Hinv Hrun. exact (wp_run m w s (fun _ s' => lake_inv (b_lake (state_of s'))) r s' (Hm w s Hinv) Hrun). Qed.

Lemma lake_step_inv s s' : lake_step s s' -> lake_inv (b_lake (state_of s)) -> lake_inv (b_lake (state_of s')).
Proof.
  intros [request w s0 r s1 Hr|x w s0 r s1 Hr|cfg x w s0 r s1 Hr|id actor w s0 r s1 Hr|id actor w s0 r s1 Hr|]
    Hinv; [..|done]; (eapply kept_run; [|exact Hinv|exact Hr]).
  - apply submit_batch_kept.
  - apply process_import_kept.
  - apply normalize_kept.
  - apply decide_kept.
  - apply decide_kept.
Qed.

(** C16: In every state that submissions, imports, normalisations and link decisions can reach, in any
    order and whether they succeed or fail, and whatever happens in the object store and the job
    queue, the tables satisfy their constraints: every listing comes from a snapshot of its own
    listing, all versions of a listing belong to one property, a dedupe link joins two different
    listings once, and a change joins two versions of one listing. *)
Theorem lake_invariant o j n t s :
  rtc lake_step (Sys (MkBronze empty_lake o j) n t) s -> lake_inv (b_lake (state_of s)).
Proof.
  intros Hr. assert (H0' : lake_inv (b_lake (state_of (Sys (MkBronze empty_lake o j) n t)))) by apply lake_inv_empty.
  revert H0'. induction Hr as [s|s1 s2 s3 Hs _ IH]; [done|]. intros Hinv. by apply IH, (lake_step_inv s1).
Qed.
End system.

(** ** The canonical text *)

Lemma sort_keys_unique (l l' : list (string * string)) :
  NoDup l.*1 -> Permutation l l' ->
  sort_by (fun a b => str_ltb a.1 b.1) l = sort_by (fun a b => str_ltb a.1 b.1) l'.
Proof.
  intros Hnd Hp.
  assert (Hsort : forall k : list (string * string), StronglySorted (in_order (fun a b => str_ltb a.1 b.1))
    (sort_by (fun a b => str_ltb a.1 b.1) k)).
  { intros k. apply (sort_by_sorted _ (fun _ => True)).
    - intros x y ? ?. apply codes_ltb_asym.
    - intros x y z ? ? ?. apply codes_ltb_ntrans.
    - by apply Forall_forall. }
  apply (StronglySorted_unique_strong (in_order (fun a b => str_ltb a.1 b.1))); [|by apply Hsort..|].
  - intros x y Hx Hy H1 H2. rewrite sort_by_perm in Hx. rewrite sort_by_perm, <- Hp in Hy.
    assert (E : x.1 = y.1) by (apply chars_inj, codes_ltb_total; [exact H2|exact H1]).
    apply list_elem_of_lookup in Hx as [i Hi], Hy as [j Hj].
    assert (i = j) as ->; [|congruence]. apply (NoDup_lookup l.*1 i j x.1); [done| |];
      rewrite list_lookup_fmap; [by rewrite Hi|by rewrite Hj, E].
  - by rewrite !sort_by_perm.
Qed.

(** The digest of a payload does not depend on the order of its members. *)
Theorem canonical_hash_order `{BytesDigest} (p q : odict string pyval) :
  NoDup (okeys p) -> Permutation p q -> canonical_hash p = canonical_hash q.
Proof.
  intros Hnd Hp. unfold canonical_hash, canonical_bytes. do 2 f_equal. cbn [json_text].
  rewrite (sort_keys_unique _ (map (fun kv => (kv.1, json_text kv.2)) q)); [done| |by apply Permutation_map].
  rewrite <- list_fmap_compose. exact Hnd.
Qed.
