(* ===== verification/AcceptedRecords.v ===== *)
(** * Accepted records normalise

    A record that the published import contract accepts is normalised by the published
    Silver schema without an error code, into fields that satisfy the constraints of the
    listings table.  The contract reads numbers exactly and the schema as floats, so the two
    readings of a number are compared first. *)

From S2P Require Export ImportContract SilverService LakeSystem.
From Stdlib Require Import QArith Qround Lqa.
#[global] Open Scope Z_scope.
#[local] Open Scope list_scope.

(** ** Integers as text *)

Lemma span_all g l : forallb g l = true -> span (fun c => negb (g c)) l = (l, []).
Proof.
  induction l as [|c l IH]; [done|]. simpl. intros [Hc Hl]%andb_true_iff. by rewrite Hc, (IH Hl).
Qed.

Lemma digits_Some l n : digits l = Some n -> forallb is_digit l = true /\ l <> [] /\ n = digits_value l.
Proof.
  unfold digits. destruct (forallb is_digit l); [|done]. case_bool_decide; simpl; [done|]. by intros [= <-].
Qed.

Lemma decimal_digits l n : digits l = Some n -> exists q, decimal l = Some q /\ (q == inject_Z n)%Q.
Proof.
  intros (Hd & Hne & ->)%digits_Some. unfold decimal.
  rewrite (span_all is_digit l Hd).
  rewrite (bool_decide_eq_false_2 (l = [])) by done. simpl. eexists. split; [done|].
  rewrite app_nil_r. rewrite Qmult_comm. rewrite Qmult_1_l. reflexivity.
Qed.

(** A text whose digits are delimited by underscores starts with a digit. *)
Lemma drop_underscores_digit c l l' : drop_underscores false (c :: l) = Some l' -> forallb is_digit l' = true ->
  is_digit c = true.
Proof.
  simpl. destruct (is_char "_"%char c); [done|]. destruct (drop_underscores (is_digit c) l) as [r|]; [|done].
  intros [= <-]. simpl. by intros [? _]%andb_true_iff.
Qed.

Lemma lower_digit c : is_digit c = true -> lower_char c = c.
Proof. destruct c as [[] [] [] [] [] [] [] []]; vm_compute; congruence. Qed.

Lemma digit_no_name c l name : is_digit c = true -> match chars name with d :: _ => is_digit d | [] => true end = false ->
  lower (of_chars (c :: l)) <> name.
Proof.
  intros Hc Hn <-. revert Hn. unfold lower. rewrite !chars_of_chars. simpl. rewrite lower_digit by done. congruence.
Qed.

Lemma int_text_is_float s z : int_of_str s = Ok z -> float_of_str s = Ok (rnd (inject_Z z)).
Proof.
  unfold int_of_str, float_of_str. destruct (take_sign (chars (strip s))) as [negative l].
  destruct (drop_underscores false l) as [l'|] eqn:Hu; [|done]. cbn [mbind option_bind].
  destruct (digits l') as [n|] eqn:Hd; [|done]. cbn [mbind option_bind].
  destruct (4300 <? _); [done|]. intros [= <-].
  destruct (decimal_digits _ _ Hd) as (q & -> & Hq). apply digits_Some in Hd as (Hall & Hne & _).
  destruct l as [|c l]; [by injection Hu as <-|].
  pose proof (drop_underscores_digit _ _ _ Hu Hall) as Hc.
  rewrite (bool_decide_eq_false_2 (_ ∈ _)).
  2:{ rewrite !elem_of_cons. intros [E|[E|E]]; [..|by apply elem_of_nil in E]; revert E;
      by apply digit_no_name. }
  rewrite (bool_decide_eq_false_2 (_ = "nan"%string)) by (by apply digit_no_name).
  f_equal. apply rnd_proper. destruct negative; [|done]. rewrite inject_Z_opp. by rewrite Hq.
Qed.

(** ** Two readings of a number *)

(** The float the schema reads where the contract reads the number [n] *)
Definition read_as (v n : pyval) (f : float) : Prop :=
  n = VFloat f \/ exists z, n = VInt z /\ f = rnd (inject_Z z).

(** An integer that is no text may be too large for a float. *)
Definition fits (v : pyval) : Prop := match v with VInt z => is_ok (float_of_int z) = true | _ => True end.

Lemma float_of_int_Ok z : is_ok (float_of_int z) = true -> float_of_int z = Ok (rnd (inject_Z z)).
Proof. unfold float_of_int. pose proof (rnd_not_nan (inject_Z z)). by destruct (rnd _) as [|[]|]. Qed.

Lemma silver_reads v n : ImportContract._as_number v = Some n -> fits v ->
  exists f, SilverSchema._as_number v = Ok (Some f) /\ read_as v n f.
Proof.
  destruct v as [| |z|f|s| |]; try done; simpl; intros Hn Hfit.
  - injection Hn as <-. rewrite (float_of_int_Ok z Hfit). eexists. split; [done|]. right. by exists z.
  - injection Hn as <-. exists f. split; [done|by left].
  - unfold ImportContract._as_number in Hn. case_bool_decide as Hs; [done|].
    destruct (int_of_str (strip s)) as [z|e] eqn:Hi.
    + injection Hn as <-. rewrite (int_text_is_float _ _ Hi). eexists. split; [done|]. right. by exists z.
    + destruct (float_of_str (strip s)) as [f|e'] eqn:Hf; [|done]. injection Hn as <-.
      exists f. split; [done|by left].
Qed.

Lemma number_value_int z : number_value (VInt z) = FFin (inject_Z z).
Proof. done. Qed.

(** A bound that is an integer the doubles hold means the same to both readings. *)
Lemma rnd_Z k : exact_Z k -> exists q, rnd (inject_Z k) = FFin q /\ (q == inject_Z k)%Q.
Proof.
  intros Hk. destruct (rnd_between k k (inject_Z k)) as (q & -> & ?); [done|done|split; apply Qle_refl|].
  exists q. split; [done|]. lra.
Qed.

Lemma lower_bound_read v n f k : exact_Z k -> read_as v n f ->
  fleb (rnd (inject_Z k)) (number_value n) = true -> fleb (rnd (inject_Z k)) f = true.
Proof.
  intros Hk [->|(z & -> & ->)] Hb; [done|]. destruct (rnd_Z k Hk) as (q & Eq & Hq). rewrite Eq in *.
  rewrite number_value_int, fleb_fin in Hb. rewrite <- Eq. apply rnd_mono. lra.
Qed.

Lemma upper_bound_read v n f k : exact_Z k -> read_as v n f ->
  fleb (number_value n) (rnd (inject_Z k)) = true -> fleb f (rnd (inject_Z k)) = true.
Proof.
  intros Hk [->|(z & -> & ->)] Hb; [done|]. destruct (rnd_Z k Hk) as (q & Eq & Hq). rewrite Eq in *.
  rewrite number_value_int, fleb_fin in Hb. rewrite <- Eq. apply rnd_mono. lra.
Qed.

Lemma positive_read v n f : read_as v n f -> fltb (FFin 0) (number_value n) = true -> fltb (FFin 0) f = true.
Proof.
  intros [->|(z & -> & ->)] Hb; [done|]. rewrite number_value_int in Hb. apply fltb_fin in Hb.
  assert (Hz : 1 <= z) by (assert (0 < z); [rewrite Zlt_Qlt; exact Hb|lia]).
  pose proof (rnd_mono 1 (inject_Z z)) as Hm.
  assert (H1 : (1 <= inject_Z z)%Q) by (change 1%Q with (inject_Z 1); by rewrite <- Zle_Qle).
  specialize (Hm H1). destruct (rnd_Z 1) as (q & Eq & Hq); [done|]. change (inject_Z 1) with 1%Q in *.
  rewrite Eq in Hm. pose proof (rnd_not_nan (inject_Z z)).
  destruct (rnd (inject_Z z)) as [|[]|r]; try done. apply fleb_fin in Hm. apply fltb_fin. lra.
Qed.

(** Integer bounds as doubles *)
Abbreviation rb := (fmap (fun k => rnd (inject_Z k))).

(** ** Fields of an accepted record *)

Section accepted.
Context `{IsoDates}.
Variable payload : odict string pyval.

Lemma field_accepted fields f :
  (validate_fields fields payload).1 = [] -> f ∈ fields ->
  (_field_missing f (dget (fs_name f) payload) = true /\ fs_required f = false)
  \/ (_field_missing f (dget (fs_name f) payload) = false /\ _validate_value f (dget (fs_name f) payload) = None).
Proof.
  induction fields as [|g fields IH]; [set_solver|]. cbn [validate_fields].
  destruct (validate_fields fields payload) as [issues missing]. simpl in IH.
  intros Hv Hf. apply elem_of_cons in Hf as [->|Hf].
  - destruct (_field_missing g _) eqn:Hm.
    + destruct (fs_required g); [done|by left].
    + destruct (_validate_value g _); [done|by right].
  - apply IH; [|done]. revert Hv. by repeat case_match.
Qed.

Lemma bound_kept test b x : bound_failed test b x = false -> match b with Some y => test y x = true | None => True end.
Proof. destruct b; [|done]. by intros ?%negb_false_iff. Qed.

(** What the contract checks of a number *)
Record checked_number (f : FieldSpec) (n : pyval) : Prop := {
  cn_integral : fs_value_type f = FInteger -> is_integral n = Ok true;
  cn_gt : match fs_gt f with Some b => fltb b (number_value n) = true | None => True end;
  cn_ge : match fs_ge f with Some b => fleb b (number_value n) = true | None => True end;
  cn_max : match fs_max f with Some b => fleb (number_value n) b = true | None => True end
}.

Lemma number_accepted f v :
  _validate_number f v = Ok None -> exists n, ImportContract._as_number v = Some n /\ checked_number f n.
Proof.
  unfold _validate_number. destruct (ImportContract._as_number v) as [n|]; [|done]. intros Hv. exists n.
  split; [done|]. apply result_bind_Ok in Hv as (integral & Hi & Hv). injection Hv as Hv.
  destruct integral; [|done]. simpl in Hv.
  destruct (bound_failed fltb _ _) eqn:E1; [done|]. destruct (bound_failed fleb _ _) eqn:E2; [done|].
  destruct (bound_failed (fun b y => fleb y b) _ _) eqn:E3; [done|].
  split; [|by apply bound_kept in E1|by apply bound_kept in E2|by apply (bound_kept (fun b y => fleb y b)) in E3].
  intros Ht. by rewrite bool_decide_eq_true_2 in Hi.
Qed.

Lemma validate_value_number f v : fs_value_type f = FNumber \/ fs_value_type f = FInteger ->
  _validate_value f v = None -> _validate_number f v = Ok None.
Proof.
  unfold _validate_value. intros [->| ->]; (destruct (_validate_number f v) as [[i|]|e]; done).
Qed.
(** ** Stages of the normalisation that emit no code *)

Definition passes {A} (m : checked A) (a : A) : Prop := forall errors, m errors = Ok (a, errors).

Lemma passes_ret {A} (a : A) : passes (mret a) a.
Proof. done. Qed.
Lemma passes_bind {A B} (m : checked A) (f : A -> checked B) a b : passes m a -> passes (f a) b -> passes (mbind f m) b.
Proof. intros Hm Hf errors. unfold mbind, checked_bind. by rewrite Hm. Qed.
Lemma passes_pure {A} (r : result A) a : r = Ok a -> passes (pure r) a.
Proof. by intros -> errors. Qed.
Lemma passes_emit_if b code : b = false -> passes (emit_if b code) tt.
Proof. by intros ->. Qed.

Lemma passes_keep_float x range code : match x with Some y => _in_range y range = true | None => True end ->
  passes (keep_float x range code) x.
Proof. destruct x as [y|]; [|done]. intros Hr. unfold keep_float. by rewrite Hr. Qed.

Lemma passes_keep_int x range code :
  match x with Some z => _in_int_range z range = Ok true | None => True end -> passes (keep_int x range code) x.
Proof.
  destruct x as [z|]; [|done]. intros Hr. unfold keep_int. eapply passes_bind; [by apply passes_pure|]. done.
Qed.

Lemma passes_amenities_ok r items : rg_max_length r = None -> exists l, passes (clean_amenities (Some r) items) l.
Proof.
  intros Hr. induction items as [|item items [l IH]]; [by exists []|].
  destruct item as [| | | |s| |]; try (by exists l). exists (s :: l). cbn [clean_amenities amenity_too_long].
  rewrite Hr. eapply passes_bind; [exact IH|done].
Qed.

Lemma amenities_stage v range r : range = Some r -> rg_max_length r = None ->
  exists l, passes (match v with VList items => clean_amenities range items | _ => mret [] end) l.
Proof. intros -> Hr. destruct v; try (by exists []). by apply passes_amenities_ok. Qed.

(** ** The number fields *)

Lemma rnd_0 : rnd (inject_Z 0) = FFin 0.
Proof. by vm_compute. Qed.

(** The reading of a float field, which is in the range of the schema *)
Definition float_read (range : RangeSpec) (v : pyval) (x : option float) : Prop :=
  SilverSchema._as_number v = Ok x /\ match x with Some y => _in_range y (Some range) = true | None => True end.

Lemma missing_number f v : fs_value_type f <> FArrayString -> fs_value_type f <> FArrayUrl ->
  _field_missing f v = true -> SilverSchema._as_number v = Ok None /\ _as_int v = None.
Proof.
  intros H1 H2. destruct v as [| | | |s| |]; try done. simpl. intros [Hs _]%andb_true_iff. by rewrite Hs.
Qed.

Definition in_bounds (gt ge mx : option Z) (n : float) : Prop :=
  match gt with Some k => k = 0 /\ fltb (FFin 0) n = true | None => True end
  /\ match ge with Some k => exact_Z k /\ fleb (rnd (inject_Z k)) n = true | None => True end
  /\ match mx with Some k => exact_Z k /\ fleb n (rnd (inject_Z k)) = true | None => True end.

Lemma in_bounds_read gt ge mx v n f : read_as v n f -> in_bounds gt ge mx (number_value n) ->
  _in_range f (Some (bounds ((fun k => rnd (inject_Z k)) <$> gt) ((fun k => rnd (inject_Z k)) <$> ge)
                       ((fun k => rnd (inject_Z k)) <$> mx))) = true.
Proof.
  intros Hr (Hgt & Hge & Hmx). unfold _in_range, bounds. simpl.
  destruct gt as [k|]; simpl.
  - destruct Hgt as [-> Hgt]. rewrite rnd_0, (positive_read _ _ _ Hr Hgt). simpl.
    destruct ge as [k'|]; simpl; [rewrite (lower_bound_read _ _ _ _ (proj1 Hge) Hr (proj2 Hge)); simpl|];
      (destruct mx as [k2|]; simpl; [by rewrite (upper_bound_read _ _ _ _ (proj1 Hmx) Hr (proj2 Hmx))|done]).
  - destruct ge as [k'|]; simpl; [rewrite (lower_bound_read _ _ _ _ (proj1 Hge) Hr (proj2 Hge)); simpl|];
      (destruct mx as [k2|]; simpl; [by rewrite (upper_bound_read _ _ _ _ (proj1 Hmx) Hr (proj2 Hmx))|done]).
Qed.
(** A number field whose bounds are integers *)
Record bounded_by (f : FieldSpec) (gt ge mx : option Z) : Prop := {
  by_gt : fs_gt f = rb gt /\ (gt = None \/ gt = Some 0);
  by_ge : fs_ge f = rb ge /\ match ge with Some k => exact_Z k | None => True end;
  by_mx : fs_max f = rb mx /\ match mx with Some k => exact_Z k | None => True end
}.

Lemma checked_in_bounds f n gt ge mx :
  bounded_by f gt ge mx -> checked_number f n -> in_bounds gt ge mx (number_value n).
Proof.
  intros [[Eg Hg] [Ee He] [Em Hm]] [_ Cg Ce Cm]. rewrite Eg in Cg. rewrite Ee in Ce. rewrite Em in Cm. split; [|split].
  - destruct Hg as [->| ->]; [done|]. split; [done|]. by rewrite <- rnd_0.
  - destruct ge; [by split|done].
  - destruct mx; [by split|done].
Qed.

Definition accepts (f : FieldSpec) (v : pyval) : Prop :=
  (_field_missing f v = true /\ fs_required f = false) \/ (_field_missing f v = false /\ _validate_value f v = None).

Lemma float_field f gt ge mx v : fs_value_type f = FNumber -> bounded_by f gt ge mx -> accepts f v -> fits v ->
  exists x, float_read (bounds (rb gt) (rb ge) (rb mx)) v x /\ (fs_required f = true -> is_Some x).
Proof.
  intros Ht Hb Ha Hfit. destruct Ha as [[Hm Hr]|[Hm Hv]].
  - exists None. destruct (missing_number f v) as [Hs _]; [by rewrite Ht..|done|]. by split; [|rewrite Hr].
  - apply validate_value_number in Hv; [|by left]. apply number_accepted in Hv as (n & Hn & Hc).
    destruct (silver_reads v n Hn Hfit) as (x & Hx & Hread). exists (Some x). split; [|done]. split; [done|].
    apply (in_bounds_read gt ge mx v n); [done|]. by apply (checked_in_bounds f).
Qed.

Lemma int_bounds_fit lo hi z : exact_Z lo -> exact_Z hi -> lo <= z <= hi ->
  _in_int_range z (Some (bounds None (rb (Some lo)) (rb (Some hi)))) = Ok true.
Proof.
  intros Hlo Hhi [H1 H2]. rewrite Zle_Qle in H1, H2.
  destruct (rnd_between lo hi (inject_Z z) Hlo Hhi (conj H1 H2)) as (q & Eq & _).
  unfold _in_int_range, float_of_int. rewrite Eq. cbn [mbind result_bind]. f_equal. rewrite <- Eq.
  unfold _in_range. simpl. by rewrite !rnd_mono.
Qed.

(** The value of an integral number within bounds *)
Lemma integral_between lo hi z x : exact_Z lo -> exact_Z hi -> (x == inject_Z z)%Q ->
  fleb (rnd (inject_Z lo)) (FFin x) = true -> fleb (FFin x) (rnd (inject_Z hi)) = true -> lo <= z <= hi.
Proof.
  intros Hlo Hhi Hx Hl Hh. destruct (rnd_Z lo Hlo) as (p & Ep & Hp), (rnd_Z hi Hhi) as (q & Eq & Hq).
  rewrite Ep in Hl. rewrite Eq in Hh. apply fleb_fin in Hl, Hh. rewrite !Zle_Qle. lra.
Qed.

Lemma int_of_integral q : fis_integer (FFin q) = true -> exists z, int_of_float (FFin q) = Ok z /\ (q == inject_Z z)%Q.
Proof.
  unfold fis_integer, int_of_float. rewrite Qeq_bool_iff. intros E. eexists. split; [done|]. destruct (Qle_bool 0 q); [done|].
  assert (E' : (- q == inject_Z (- Qfloor q))%Q) by (rewrite inject_Z_opp; lra).
  rewrite (Qfloor_comp _ _ E'), Qfloor_Z. by rewrite Z.opp_involutive.
Qed.

Lemma int_field f lo hi v : fs_value_type f = FInteger -> bounded_by f None (Some lo) (Some hi) -> accepts f v ->
  match _as_int v with
  | Some z => lo <= z <= hi /\ _in_int_range z (Some (bounds None (rb (Some lo)) (rb (Some hi)))) = Ok true
  | None => True
  end.
Proof.
  intros Ht Hb Ha. pose proof Hb as [_ [_ Hlo] [_ Hhi]].
  assert (Hin : forall z, lo <= z <= hi -> lo <= z <= hi
    /\ _in_int_range z (Some (bounds None (rb (Some lo)) (rb (Some hi)))) = Ok true)
    by (intros z Hz; split; [done|by apply int_bounds_fit]).
  destruct Ha as [[Hm Hr]|[Hm Hv]].
  - destruct (missing_number f v) as [_ Hs]; [by rewrite Ht..|done|]. by rewrite Hs.
  - apply validate_value_number in Hv; [|by right]. apply number_accepted in Hv as (n & Hn & Hc).
    pose proof (checked_in_bounds _ _ _ _ _ Hb Hc) as (_ & [_ Hl] & [_ Hh]).
    pose proof (cn_integral _ _ Hc Ht) as Hint.
    destruct v as [| |z|x|s| |]; try done; simpl in Hn |- *.
    + injection Hn as <-. apply Hin. by apply (integral_between lo hi z (inject_Z z)).
    + injection Hn as <-. unfold is_integral in Hint. cbn in Hint. injection Hint as Hint.
      destruct x as [|[]|q]; try done. destruct (int_of_integral q Hint) as (z & Ez & Hz).
      rewrite Hint, Ez. apply Hin. by apply (integral_between lo hi z q).
    + unfold ImportContract._as_number in Hn. case_bool_decide; [done|].
      destruct (int_of_str (strip s)) as [z|e]; [|done]. injection Hn as <-.
      apply Hin. by apply (integral_between lo hi z (inject_Z z)).
Qed.
End accepted.

(** ** The published contract and schema *)

Lemma passes_run {A B} (m : checked A) (f : A -> checked B) a errors : passes m a -> mbind f m errors = f a errors.
Proof. intros Hm. unfold mbind, checked_bind. by rewrite Hm. Qed.

(** A payload whose values pass every stage is normalised without a code. *)
Lemma normalize_clean (spec : SilverSchemaSpec) payload p currency expenses surface amenities description url location :
  let range := fun name => oget name (ss_ranges spec) in
  let kept := fun (x : option float) r => match x with Some y => _in_range y r = true | None => True end in
  let kept_int := fun (x : option Z) r => match x with Some z => _in_int_range z r = Ok true | None => True end in
  SilverSchema._as_number (dget "price" payload) = Ok (Some p) -> _in_range p (range "price_value"%string) = true ->
  _as_currency (dget "currency" payload) = Some currency ->
  SilverSchema._as_number (dget "expenses" payload) = Ok expenses -> kept expenses (range "expenses_value"%string) ->
  SilverSchema._as_number (dget "surface_m2" payload) = Ok surface -> kept surface (range "surface_m2"%string) ->
  kept_int (_as_int (dget "rooms" payload)) (range "rooms"%string) ->
  kept_int (_as_int (dget "bedrooms" payload)) (range "bedrooms"%string) ->
  kept_int (_as_int (dget "floor" payload)) (range "floor"%string) ->
  passes (match dget "amenities" payload with
         | VList items => clean_amenities (range "amenities"%string) items | _ => mret [] end) amenities ->
  passes (clean_description (dget "description" payload) (range "description"%string)) description ->
  passes (clean_url (dget "url" payload)) url -> _assign_location payload = Ok location ->
  exists f, normalize_payload payload spec [] = Ok (f, []) /\ nf_price_value f = p
    /\ (nf_expenses_value f = expenses \/ nf_expenses_value f = None) /\ nf_surface_m2 f = surface
    /\ nf_rooms f = _as_int (dget "rooms" payload) /\ nf_bedrooms f = _as_int (dget "bedrooms" payload)
    /\ nf_floor f = _as_int (dget "floor" payload)
    /\ nf_total_cost f = match nf_expenses_value f with
                         | Some e => fadd (nf_price_value f) e | None => nf_price_value f end.
Proof.
  intros range kept kept_int Pr Pb Hcur Er Eb Sr Sb Hr Hbd Hfl Ham Hd Hu Hl. unfold normalize_payload. fold range.
  rewrite (passes_run _ _ _ _ (passes_pure _ _ Pr)), Hcur.
  rewrite (passes_run _ _ _ _ (passes_emit_if false _ eq_refl)).
  rewrite (passes_run _ _ _ _ (passes_keep_float (Some p) _ _ Pb)).
  rewrite (passes_run _ _ _ _ (passes_pure _ _ Er)), (passes_run _ _ _ _ (passes_keep_float expenses _ _ Eb)).
  rewrite (passes_run _ _ _ _ (passes_pure _ _ Sr)), (passes_run _ _ _ _ (passes_keep_float surface _ _ Sb)).
  rewrite (passes_run _ _ _ _ (passes_keep_int _ _ _ Hr)), (passes_run _ _ _ _ (passes_keep_int _ _ _ Hbd)).
  rewrite (passes_run _ _ _ _ (passes_keep_int _ _ _ Hfl)), (passes_run _ _ _ _ Ham).
  rewrite (passes_run _ _ _ _ Hd), (passes_run _ _ _ _ Hu), (passes_run _ _ _ _ (passes_pure _ _ Hl)).
  destruct location as [[geometry precision] source]. eexists. split; [reflexivity|].
  cbn [nf_price_value nf_expenses_value nf_surface_m2 nf_rooms nf_bedrooms nf_floor nf_total_cost default].
  split_and!; try reflexivity. destruct (match expenses with Some _ => _ | None => _ end); [by right|by left].
Qed.

Lemma passes_description_ok v : match v with VStr s => strip s = "" \/ len s <= 20000 | _ => True end ->
  exists d, passes (clean_description v (Some (at_most 20000))) d.
Proof.
  destruct v as [| | | |s| |]; try (by exists None). intros Hl. unfold clean_description.
  case_bool_decide; [by exists None|]. destruct Hl as [?|Hl]; [done|]. exists (Some (strip s)). simpl.
  by rewrite (proj2 (Z.ltb_ge 20000 (len s))) by done.
Qed.

Lemma passes_url_ok v : match v with VStr s => strip s = "" \/ is_http_url (strip s) = true | _ => True end ->
  exists u, passes (clean_url v) u.
Proof.
  destruct v as [| | | |s| |]; try (by exists None). intros Hu. unfold clean_url.
  case_bool_decide; [by exists None|]. destruct Hu as [?|Hu]; [done|]. rewrite Hu. by exists (Some (strip s)).
Qed.

Section published.
Context `{IsoDates}.

Definition numbers_fit (payload : odict string pyval) : Prop :=
  Forall (fun name => fits (dget name payload)) ["price"; "expenses"; "surface_m2"; "latitude"; "longitude"]%string.

(** [accepts] for the field at a place of the contract *)
Lemma accepted_at payload i f :
  vr_valid (validate_record payload published_contract) = true -> cs_fields published_contract !! i = Some f ->
  accepts f (dget (fs_name f) payload).
Proof.
  unfold validate_record. destruct (validate_fields _ _) as [issues missing] eqn:Hv. simpl.
  intros Hi%bool_decide_eq_true Hf. apply (field_accepted payload (cs_fields published_contract));
    [by rewrite Hv|by eapply list_elem_of_lookup_2].
Qed.

(** What the listings table asks of the fields, but for the total cost *)
Record storable_fields (f : NormalizedFields) : Prop := {
  sf_price : fltb (FFin 0) (nf_price_value f) = true;
  sf_expenses : match nf_expenses_value f with Some e => fleb (FFin 0) e = true | None => True end;
  sf_surface : match nf_surface_m2 f with
               | Some x => fltb (FFin 0) x = true /\ fleb x (flit 1000000 1) = true | None => True end;
  sf_rooms : opt_range 0 200 (nf_rooms f) = true;
  sf_bedrooms : opt_range 0 100 (nf_bedrooms f) = true;
  sf_floor : opt_range (-10) 1000 (nf_floor f) = true;
  sf_total : nf_total_cost f = match nf_expenses_value f with
                               | Some e => fadd (nf_price_value f) e | None => nf_price_value f end
}.

Lemma storable_check f id canonical run snapshot source external version published observed :
  storable_fields f ->
  silver_check (listing_of id canonical run snapshot source external version published observed f)
  = fltb (FFin 0) (nf_total_cost f).
Proof.
  intros []. cbv [silver_check listing_of price_value total_cost expenses_value surface_m2 rooms bedrooms floor_number].
  rewrite sf_price0, sf_rooms0, sf_bedrooms0, sf_floor0.
  destruct (nf_expenses_value f) as [e|]; [rewrite sf_expenses0|];
    (destruct (nf_surface_m2 f) as [x|]; [destruct sf_surface0 as [-> ->]|]); simpl;
    by rewrite !andb_true_r.
Qed.

Lemma int_opt_range lo hi v range : match _as_int v with
  | Some z => lo <= z <= hi /\ _in_int_range z range = Ok true | None => True end ->
  opt_range lo hi (_as_int v) = true /\ match _as_int v with Some z => _in_int_range z range = Ok true | None => True end.
Proof.
  destruct (_as_int v) as [z|]; [|done]. intros [Hz Hr]. split; [|done]. simpl.
  apply andb_true_iff. rewrite !Z.leb_le. lia.
Qed.

(** The fields of the contract that the schema checks, by their places *)
Ltac field_at payload Hv i name :=
  pose proof (accepted_at payload i _ Hv eq_refl) as name; cbn [fs_name text_field enum_field number_field array_field plain] in name.

Lemma currency_read payload : vr_valid (validate_record payload published_contract) = true ->
  is_Some (_as_currency (dget "currency" payload)).
Proof.
  intros Hv. field_at payload Hv 4%nat Hc. destruct Hc as [[_ ?]|[_ Hc]]; [done|]. revert Hc.
  unfold _validate_value, _validate_enum. cbn [fs_value_type enum_field fs_values].
  destruct (dget "currency" payload) as [| | | |s| |]; try done. case_bool_decide as Hin; [|done]. intros _.
  simpl. apply elem_of_cons in Hin as [->|Hin]; [done|]. by apply list_elem_of_singleton in Hin as ->.
Qed.

Lemma description_read payload : vr_valid (validate_record payload published_contract) = true ->
  match dget "description" payload with VStr s => strip s = "" \/ len s <= 20000 | _ => True end.
Proof.
  intros Hv. field_at payload Hv 15%nat Hd. destruct (dget "description" payload) as [| | | |s| |]; try done.
  destruct Hd as [[Hm _]|[_ Hd]].
  - left. simpl in Hm. apply andb_true_iff in Hm as [Hm _]. by apply bool_decide_eq_true in Hm.
  - right. revert Hd. unfold _validate_value, _validate_string. cbn [fs_value_type text_field fs_min_length fs_max_length].
    destruct (Z.ltb_spec 20000 (len s)); [done|lia].
Qed.

Lemma url_read payload : vr_valid (validate_record payload published_contract) = true ->
  match dget "url" payload with VStr s => strip s = "" \/ is_http_url (strip s) = true | _ => True end.
Proof.
  intros Hv. field_at payload Hv 17%nat Hd. destruct (dget "url" payload) as [| | | |s| |]; try done.
  destruct Hd as [[Hm _]|[_ Hd]].
  - left. simpl in Hm. apply andb_true_iff in Hm as [Hm _]. by apply bool_decide_eq_true in Hm.
  - right. revert Hd. unfold _validate_value, _validate_url. cbn [fs_value_type plain]. by destruct (is_http_url _).
Qed.

Lemma bounds_known gt ge mx : (gt = None \/ gt = Some 0) ->
  match ge with Some k => exact_Z k | None => True end -> match mx with Some k => exact_Z k | None => True end ->
  forall f, fs_gt f = rb gt -> fs_ge f = rb ge -> fs_max f = rb mx -> bounded_by f gt ge mx.
Proof. intros. by split. Qed.

Lemma number_at payload i f gt ge mx : vr_valid (validate_record payload published_contract) = true ->
  cs_fields published_contract !! i = Some f -> fs_value_type f = FNumber -> bounded_by f gt ge mx ->
  fits (dget (fs_name f) payload) ->
  exists x, float_read (bounds (rb gt) (rb ge) (rb mx)) (dget (fs_name f) payload) x /\ (fs_required f = true -> is_Some x).
Proof. intros Hv Hi Ht Hb Hf. apply (float_field f); [done|done|by eapply accepted_at|done]. Qed.

Lemma integer_at payload i f lo hi : vr_valid (validate_record payload published_contract) = true ->
  cs_fields published_contract !! i = Some f -> fs_value_type f = FInteger -> bounded_by f None (Some lo) (Some hi) ->
  opt_range lo hi (_as_int (dget (fs_name f) payload)) = true
  /\ match _as_int (dget (fs_name f) payload) with
     | Some z => _in_int_range z (Some (bounds None (rb (Some lo)) (rb (Some hi)))) = Ok true | None => True end.
Proof. intros Hv Hi Ht Hb. apply int_opt_range. apply (int_field f); [done|done|by eapply accepted_at]. Qed.

(** A coordinate of an accepted record reads as a number or is missing. *)
Lemma coordinate_read payload i f : vr_valid (validate_record payload published_contract) = true ->
  cs_fields published_contract !! i = Some f -> fs_value_type f = FNumber -> fits (dget (fs_name f) payload) ->
  exists x, SilverSchema._as_number (dget (fs_name f) payload) = Ok x.
Proof.
  intros Hv Hi Ht Hf. destruct (accepted_at payload i f Hv Hi) as [[Hm _]|[_ Hval]].
  - exists None. by destruct (missing_number f (dget (fs_name f) payload)) as [Hs _]; [rewrite Ht..|done|].
  - apply validate_value_number in Hval; [|by left]. apply number_accepted in Hval as (n & Hn & _).
    destruct (silver_reads _ n Hn Hf) as (x & Hx & _). by exists (Some x).
Qed.
Lemma bounded_price : bounded_by (number_field "price" true FNumber (Some (FFin 0)) None None) (Some 0) None None.
Proof. split; (split; [by vm_compute|]); [by right|done..]. Qed.
Lemma bounded_expenses : bounded_by (number_field "expenses" false FNumber None (Some (FFin 0)) None) None (Some 0) None.
Proof. split; (split; [by vm_compute|]); [by left|done..]. Qed.
Lemma bounded_surface : bounded_by (number_field "surface_m2" false FNumber (Some (FFin 0)) None (Some (flit 1000000 1)))
  (Some 0) None (Some 1000000).
Proof. split; (split; [by vm_compute|]); [by right|done..]. Qed.
Lemma bounded_rooms : bounded_by (number_field "rooms" false FInteger None (Some (FFin 0)) (Some (flit 200 1)))
  None (Some 0) (Some 200).
Proof. split; (split; [by vm_compute|]); [by left|done..]. Qed.
Lemma bounded_bedrooms : bounded_by (number_field "bedrooms" false FInteger None (Some (FFin 0)) (Some (flit 100 1)))
  None (Some 0) (Some 100).
Proof. split; (split; [by vm_compute|]); [by left|done..]. Qed.
Lemma bounded_floor : bounded_by (number_field "floor" false FInteger None (Some (flit (-10) 1)) (Some (flit 1000 1)))
  None (Some (-10)) (Some 1000).
Proof. split; (split; [by vm_compute|]); [by left|done..]. Qed.

(** The ranges of the schema in the same form *)
Lemma schema_ranges :
  oget "price_value"%string (ss_ranges published_schema) = Some (bounds (rb (Some 0)) (rb None) (rb None))
  /\ oget "expenses_value"%string (ss_ranges published_schema) = Some (bounds (rb None) (rb (Some 0)) (rb None))
  /\ oget "surface_m2"%string (ss_ranges published_schema) = Some (bounds (rb (Some 0)) (rb None) (rb (Some 1000000)))
  /\ oget "rooms"%string (ss_ranges published_schema) = Some (bounds None (rb (Some 0)) (rb (Some 200)))
  /\ oget "bedrooms"%string (ss_ranges published_schema) = Some (bounds None (rb (Some 0)) (rb (Some 100)))
  /\ oget "floor"%string (ss_ranges published_schema) = Some (bounds None (rb (Some (-10))) (rb (Some 1000)))
  /\ oget "description"%string (ss_ranges published_schema) = Some (at_most 20000).
Proof. repeat split; by vm_compute. Qed.

(** The ranges of the schema as comparisons *)
Lemma in_bounds_gt x : _in_range x (Some (bounds (rb (Some 0)) (rb None) (rb None))) = true -> fltb (FFin 0) x = true.
Proof. unfold _in_range, bounds. simpl. rewrite rnd_0. by rewrite ?andb_true_r. Qed.
Lemma in_bounds_ge x : _in_range x (Some (bounds (rb None) (rb (Some 0)) (rb None))) = true -> fleb (FFin 0) x = true.
Proof. unfold _in_range, bounds. simpl. rewrite rnd_0. by rewrite ?andb_true_r. Qed.
Lemma in_bounds_surface x : _in_range x (Some (bounds (rb (Some 0)) (rb None) (rb (Some 1000000)))) = true ->
  fltb (FFin 0) x = true /\ fleb x (flit 1000000 1) = true.
Proof.
  replace (flit 1000000 1) with (rnd (inject_Z 1000000)) by (by vm_compute).
  unfold _in_range, bounds. simpl. rewrite rnd_0. intros [[H1 _]%andb_true_iff H2]%andb_true_iff. by split.
Qed.

End published.

(** * An import, end to end

    The hypotheses of the ingestion theorems at concrete inputs: an object store that keeps
    bodies under their keys, the in-memory job runtime, and a source that reads two batches. *)
#[local] Open Scope list_scope.

Module ImportExamples.

(** Keys are their own references; a body is kept with its digest and type. *)
Definition shelf := odict string (string * ObjectInfo).
#[export] Instance sample_store : ObjectStore shelf := {|
  put_if_absent key body sha size type :=
    s ← gets (fun s => s);
    match oget key s with
    | Some _ => mret key
    | None => _ ← put (oset key (body, MkObjectInfo key sha size type None) s); mret key
    end;
  object_open ref :=
    s ← gets (oget ref); match s with Some (body, _) => mret body | None => raise ObjectNotFound end;
  object_stat ref :=
    s ← gets (oget ref); match s with Some (_, info) => mret info | None => raise ObjectNotFound end;
  ref_for_key key := mret key
|}.
#[export] Instance sample_queue : JobPort runtime := in_memory_port (Config "release-1" 60 None).
#[export] Instance sample_dates : IsoDates := fun _ => None.
#[export] Instance sample_bytes : BytesDigest := fun s => s.
#[export] Instance sample_hex : HexDigest := fun s => s.
#[export] Instance sample_columns : NumericColumns := fun n f => fround f n.
#[export] Instance sample_text : ErrorText := fun e => match e with OtherError n => n | _ => "error" end%string.

Definition flat (id : string) (price : Z) : ParsedRecord :=
  MkParsedRecord [("external_id", VStr id); ("operation", VStr "rental"); ("property_type", VStr "apartment");
    ("price", VInt price); ("currency", VStr "ARS"); ("address_text", VStr "Santa Fe 1");
    ("surface_m2", VStr "52.5"); ("rooms", VInt 2); ("expenses", VStr " 30000 ")]%string "{}" None.
Definition two_flats : ParsedBatch := MkParsedBatch [flat "x1" 100000; flat "x2" 90000] [].
Definition one_flat_twice : ParsedBatch := MkParsedBatch [flat "x1" 100000; flat "x1" 90000] [].
#[export] Instance sample_source : ImportSource := fun raw _ _ =>
  if bool_decide (raw = "two"%string) then Ok two_flats
  else if bool_decide (raw = "twice"%string) then Ok one_flat_twice
  else Raise (BatchRejected "file.json_invalid").

Definition w0 : world := World (fun n => 1000 + Z.of_nat n) (fun n => 50 + Z.of_nat n).
Definition portal := MkSourceIdentity "portal" "v1" "1".
Definition request (raw : string) : ImportBatchRequest :=
  MkImportBatchRequest portal "batch-1" FormatJson "b.json" raw (MkAuditActor Operator (Some "ops"%string)) 5.
Definition start : sys (bronze shelf runtime) := Sys (MkBronze empty_lake [] (new_runtime 0)) 0 0.

Definition submitted raw := (submit_batch published_contract true (request raw) w0 start).2.
(** The execution of the job the submission has queued *)
Definition job (raw : string) : Z :=
  match l_runs (b_lake (state_of (submitted raw))) with
  | r :: _ => default 0 (ir_job_execution_id r) | [] => 0 end.
Definition imported raw := (process_import published_contract (job raw) w0 (submitted raw)).2.

Example import_run :
  exists snap, process_import published_contract (job "two") w0 (submitted "two") = (Ok snap, imported "two")
    /\ irs_counts snap = MkRunCounts 2 2 0 0 20 /\ length (l_snapshots (b_lake (state_of (imported "two")))) = 2%nat.
Proof. eexists. split; [vm_compute; reflexivity|]. split; vm_compute; reflexivity. Qed.

(** ** Witnesses *)

Abbreviation tables s := (b_lake (state_of s)).

Lemma steps_inv raw : lake_inv (tables (submitted raw)) /\ lake_inv (tables (imported raw)).
Proof.
  assert (H0 : lake_inv (tables start)) by apply lake_inv_empty.
  assert (H1 : lake_inv (tables (submitted raw))).
  { eapply (kept_run (submit_batch published_contract true (request raw)) w0 start);
      [apply submit_batch_kept|exact H0|apply surjective_pairing]. }
  split; [exact H1|].
  eapply (kept_run (process_import published_contract (job raw)) w0 (submitted raw));
    [apply process_import_kept|exact H1|apply surjective_pairing].
Qed.

Lemma import_outcomes_witness : exists snap,
  process_import published_contract (job "two") w0 (submitted "two") = (Ok snap, imported "two")
  /\ irs_counts snap = MkRunCounts 2 2 0 0 20
  /\ import_outcome published_contract (job "two") (tables (submitted "two")) (tables (imported "two")) (Ok snap).
Proof.
  destruct import_run as (snap & Hrun & Hc & _). exists snap. split; [exact Hrun|]. split; [exact Hc|].
  exact (proj2 (import_outcomes published_contract (job "two") w0 (submitted "two") (Ok snap) (imported "two")
                  (proj1 (steps_inv "two")) Hrun)).
Defined.

(** The run of the repeated listing, as the worker captures it *)
Definition twice_run : ImportRun :=
  match l_runs (tables (submitted "twice")) with
  | r :: _ => r
  | [] => MkImportRun 0 portal "" FormatJson "" "" 0 "" None ImportPending 0 0 None no_counts None None 1
  end.
Definition twice_lake : sys lake := Sys (tables (submitted "twice")) 10 10.
Definition normalize_all := MkNormalizeConfig published_schema published_dedupe_policy None.
Example twice_capture : exists snap s',
  capture_batch published_contract twice_run one_flat_twice w0 twice_lake = (Ok snap, s')
  /\ irs_counts snap = MkRunCounts 2 2 0 0 20.
Proof. eexists _, _. split; vm_compute; reflexivity. Qed.

Lemma import_repeats_wedge_witness : exists snap s',
  capture_batch published_contract twice_run one_flat_twice w0 twice_lake = (Ok snap, s')
  /\ irs_counts snap = MkRunCounts 2 2 0 0 20
  /\ is_ok (process normalize_all (ir_run_id twice_run) w0 (Sys (state_of s') 30 30)).1 = false.
Proof.
  destruct twice_capture as (snap & s' & Hrun & Hc). exists snap, s'. split; [exact Hrun|]. split; [exact Hc|].
  refine (import_repeats_wedge published_contract twice_run one_flat_twice twice_run w0 twice_lake snap s'
    0 1 (flat "x1" 100000) (flat "x1" 90000) normalize_all w0 30 30
    (proj1 (steps_inv "twice")) _ Hrun eq_refl eq_refl _ _ eq_refl _ _ _);
    [vm_compute; reflexivity..|vm_compute; discriminate|vm_compute; discriminate|vm_compute; discriminate].
Defined.

Lemma lake_invariant_witness : exists snap,
  process_import published_contract (job "two") w0 (submitted "two") = (Ok snap, imported "two")
  /\ lake_inv (tables (imported "two")).
Proof.
  destruct import_run as (snap & Hrun & _). exists snap. split; [exact Hrun|].
  refine (lake_invariant published_contract true [] (new_runtime 0) 0 0 (imported "two") _).
  eapply rtc_l; [exact (step_submit published_contract true (request "two") w0 start _ _ (surjective_pairing _))|].
  apply rtc_once. exact (step_import published_contract true (job "two") w0 (submitted "two") _ _ Hrun).
Defined.

Lemma canonical_hash_order_witness :
  canonical_hash [("price", VInt 1); ("currency", VStr "ARS")]%string
  = canonical_hash [("currency", VStr "ARS"); ("price", VInt 1)]%string.
Proof.
  refine (canonical_hash_order [("price", VInt 1); ("currency", VStr "ARS")]%string _ _ (Permutation_swap _ _ _)).
  apply (bool_decide_unpack _). vm_compute. exact I.
Defined.

End ImportExamples.
