(* ===== verification/ImportFiles.v ===== *)
(** * Import files, from the submission to the worker

    What the parser gives back of a file that was written, and the bytes the worker reads of a
    batch that was submitted, over any store with its laws; a run of a whole import over the file
    system store, with the parser of the repository. *)

From S2P Require Export FileSource LakeSystem ObjectTheorems AcceptedRecords.
#[local] Open Scope list_scope.

(** ** The parser *)

Lemma json_records_dicts index payloads :
  json_records index (map VDict payloads) = MkParsedBatch (map parsed_record payloads) [].
Proof. revert index. induction payloads as [|p l IH]; intros index; [done|]. cbn [map json_records]. by rewrite IH. Qed.

Lemma decode_encoded text : _decode_utf8 (utf8_encode text) = Ok text.
Proof. unfold _decode_utf8. by rewrite utf8_decode_encode, lstrip_bom_codes, latin1_codes. Qed.



(** Every data row of a CSV file is a record or an error. *)
Lemma csv_records_total header index rows :
  ParsedBatch_total (csv_records header index rows) = Z.of_nat (length rows).
Proof.
  revert index. induction rows as [|row rows IH]; intros index; [done|]. cbn [csv_records]. specialize (IH (index + 1)).
  unfold ParsedBatch_total in *. destruct (negb _); simpl; lia.
Qed.
Lemma json_records_total index items : ParsedBatch_total (json_records index items) = Z.of_nat (length items).
Proof.
  revert index. induction items as [|item items IH]; intros index; [done|]. cbn [json_records]. specialize (IH (index + 1)).
  unfold ParsedBatch_total in *. destruct item; simpl; lia.
Qed.

(** A carriage return inside an unquoted field is an error of the reader, which no clause of the
    adapter or of the service catches. *)
Lemma csv_error_escapes : read_batch (of_chars ["a"%char; chr 13; "b"%char]) FormatCsv "b.csv" = Raise csv_error.
Proof. vm_compute. reflexivity. Qed.

(** ** The bytes of a batch *)

Section batch.
Context {O J : Type} {store : ObjectStore O} {queue : JobPort J} {source : ImportSource} {dates : IsoDates}
  {digest_of : BytesDigest} {texts : ErrorText} {laws : StoreLaws O} {answers : StoreAnswers O}.
Variable contract : ContractSpec.
Variable jobs_enabled : bool.
Implicit Types s : sys (bronze O J).

Definition batch_store s : sys O := Sys (b_objects (state_of s)) (drawn s) (ticks s).

Lemma on_objects_run {A} (m : M O A) w s : on_objects m w s =
  let '(r, o) := m w (batch_store s) in
  (r, Sys (MkBronze (b_lake (state_of s)) (state_of o) (b_jobs (state_of s))) (drawn o) (ticks o)).
Proof. unfold on_objects, zoom. fold (batch_store s). by destruct (m w (batch_store s)). Qed.

Lemma stored_batch_read run body kind w s : store_inv w (batch_store s) ->
  ObjectLaws.stored (b_objects (state_of s)) (ir_raw_storage_key run) body kind ->
  bytes_digest body = ir_file_sha256 run -> len body = ir_file_size_bytes run ->
  exists s', raw_batch run w s = (Ok body, s').
Proof.
  intros Hi Hst Hd Hl. unfold raw_batch.
  destruct (ref_stored w (batch_store s) _ body kind Hi Hst) as (ref & o1 & E1 & Hk1).
  pose proof (ref_moves (ir_raw_storage_key run) w (batch_store s) Hi) as Ho1. rewrite E1 in Ho1.
  destruct Ho1 as (Hi1 & _). erewrite M_bind_run; [|by rewrite on_objects_run, E1].
  set (s1 := Sys (MkBronze _ _ _) _ _). assert (Hs1 : batch_store s1 = o1) by (by destruct o1).
  destruct (stat_kept w o1 ref body kind Hi1 Hk1) as (info & o2 & E2 & I1 & I2 & I3).
  pose proof (stat_moves ref w o1 Hi1) as Ho2. rewrite E2 in Ho2. destruct Ho2 as (Hi2 & _ & Hk2 & _).
  destruct (open_kept w o2 ref body kind Hi2 (Hk2 _ _ _ Hk1)) as (o3 & E3).
  unfold try_except. erewrite M_bind_run; [|by rewrite on_objects_run, Hs1, E2].
  rewrite I1, I2, Hd, Hl, bool_decide_eq_true_2, Z.eqb_refl by done. cbn [negb orb].
  set (s2 := Sys (MkBronze _ _ _) _ _). assert (Hs2 : batch_store s2 = o2) by (by destruct o2).
  rewrite on_objects_run, Hs2, E3. by eexists.
Qed.

Lemma run_created w s id source_ key format name sha size raw job now run s' :
  on_lake (import_run_create id source_ key format name sha size raw job now) w s = (Ok run, s') ->
  import_run_get id (b_lake (state_of s')) = Some run /\ b_objects (state_of s') = b_objects (state_of s)
  /\ ir_run_id run = id /\ ir_file_sha256 run = sha /\ ir_file_size_bytes run = size /\ ir_raw_storage_key run = raw.
Proof.
  unfold on_lake, zoom, import_run_create, add_to, mbind, M_bind, get. simpl.
  set (row := MkImportRun _ _ _ _ _ _ _ _ _ _ _ _ _ _ _ _ _).
  destruct (insert_row _ _ row _) as [rows|] eqn:E; [|done]. intros [= <- <-]. apply insert_row_Some in E as (-> & _ & Hc).
  simpl. split; [|done]. unfold import_run_get. simpl. rewrite get_by_app.
  assert (get_by ir_run_id id (l_runs (b_lake (state_of s))) = None) as ->.
  { apply find_first_None. eapply Forall_impl; [exact Hc|]. intros r Hr. unfold import_run_clash in Hr.
    apply orb_false_iff in Hr as [Hr _]. simpl in Hr. lia. }
  unfold get_by. simpl. by rewrite Z.eqb_refl.
Qed.

(** C25: The worker reads what was submitted: once the submission of a new batch has returned,
    and as long as the store keeps what it holds, the capture of its run opens bytes with the
    digest and the size of the file, whatever else has happened. *)
Theorem submitted_batch_readable w s request snap s1 :
  store_inv w (batch_store s) -> len (ibr_raw request) < 2 ^ 63 ->
  import_run_by_identity (source_id (ibr_source request)) (ibr_batch_key request) (b_lake (state_of s)) = None ->
  submit_batch contract jobs_enabled request w s = (Ok snap, s1) ->
  exists run, import_run_get (irs_run_id snap) (b_lake (state_of s1)) = Some run /\ snap = run_snapshot run /\
    forall s2, store_inv w (batch_store s2) ->
      (forall key body kind, ObjectLaws.stored (b_objects (state_of s1)) key body kind -> ObjectLaws.stored (b_objects (state_of s2)) key body kind) ->
      exists body s3, raw_batch run w s2 = (Ok body, s3)
        /\ bytes_digest body = bytes_digest (ibr_raw request) /\ len body = len (ibr_raw request).
Proof.
  intros Hi Hlen Hnew E. unfold submit_batch in E.
  apply M_bind_Ok in E as (existing & s0 & E0 & E). injection E0 as <- <-. rewrite Hnew in E.
  destruct (negb _); [done|]. apply M_bind_Ok in E as (parsed & ? & [_ ->]%lift_Ok & E).
  destruct (too_many_records _ _); [done|]. apply M_bind_Ok in E as (ref & s2 & Eput & E).
  rewrite on_objects_run in Eput. change (batch_store _) with (batch_store s) in Eput.
  destruct (put_if_absent _ _ _ _ _ w (batch_store s)) as [r o] eqn:Ep. injection Eput as -> <-.
  destruct (put_stored _ _ _ _ _ _ _ _ _ Hi Hlen Ep) as (body & kind & Hst & Hd & Hl).
  apply M_bind_Ok in E as (job & s3 & Ejob & E). apply M_bind_Ok in E as (run_id & s4 & Eid & E).
  apply M_bind_Ok in E as (now & s5 & Enow & E). apply M_bind_Ok in E as (run & s6 & Erun & E).
  injection E as <- <-. destruct (run_created _ _ _ _ _ _ _ _ _ _ _ _ _ _ Erun) as (Hget & Hobj & Hid & Hsha & Hsize & Hraw).
  assert (Hobj3 : b_objects (state_of s3) = state_of o).
  { destruct jobs_enabled; [|by injection Ejob as _ <-].
    apply M_bind_Ok in Ejob as (command & ? & [_ ->]%lift_Ok & Ejob). apply M_bind_Ok in Ejob as (sn & s7 & Eq & Ejob).
    injection Ejob as _ <-. unfold on_queue, zoom in Eq. destruct (submit_job command w _) as [rq j]. by injection Eq as _ <-. }
  injection Eid as <- <-. injection Enow as <- <-. simpl in Hobj. rewrite Hobj3 in Hobj.
  exists run. split; [by rewrite <- Hid in Hget|]. split; [done|]. intros sx Hix Hkeep.
  destruct (stored_batch_read run body kind w sx Hix) as (sy & Ey).
  - apply Hkeep. by rewrite Hobj, Hraw.
  - congruence.
  - congruence.
  - by exists body, sy.
Qed.
End batch.

(** ** A file, from its bytes to its runs *)

Module FileExamples.
#[export] Existing Instance ImportExamples.sample_queue.
#[export] Existing Instance ImportExamples.sample_dates.
#[export] Existing Instance ImportExamples.sample_columns.
#[export] Existing Instance ImportExamples.sample_text.
#[export] Existing Instance ObjectExamples.sample_sha.

Definition w0 : world := ObjectExamples.w0.
Definition flats : list (odict string pyval) :=
  [pr_payload (ImportExamples.flat "x1" 100000); pr_payload (ImportExamples.flat "x2" 90000)].
Definition file : string := canonical_bytes [("records", VList (map VDict flats))].
Definition request : ImportBatchRequest :=
  MkImportBatchRequest ImportExamples.portal "batch-1" FormatJson "b.json" file
    (MkAuditActor Operator (Some "ops")) 5.
Definition start : sys (bronze filesystem runtime) := Sys (MkBronze empty_lake empty_filesystem (new_runtime 0)) 0 0.
Definition submitted := (submit_batch published_contract true request w0 start).2.
Definition job : Z :=
  match l_runs (b_lake (state_of submitted)) with r :: _ => default 0 (ir_job_execution_id r) | [] => 0 end.

Example file_submission : exists snap, submit_batch published_contract true request w0 start = (Ok snap, submitted).
Proof.
  assert (H : is_ok (submit_batch published_contract true request w0 start).1 = true) by (vm_compute; reflexivity).
  unfold submitted. destruct (submit_batch _ _ _ _ _) as [[snap|e] s]; [by exists snap|done].
Qed.

(** The import of the file captures both records. *)
Example file_import :
  match process_import published_contract job w0 submitted with
  | (Ok snap, s) =>
      (accepted (irs_counts snap) =? 2) && (quarantined (irs_counts snap) =? 0) && Nat.eqb (length (l_snapshots (b_lake (state_of s)))) 2
  | _ => false
  end = true.
Proof. vm_compute. reflexivity. Qed.

Lemma file_start_inv : store_inv w0 (batch_store start).
Proof. split; [exact ObjectExamples.w0_unique|]. split; intros x y E; destruct (lookup_empty_Some x y E). Qed.

Lemma submitted_batch_readable_witness :
  exists snap, submit_batch published_contract true request w0 start = (Ok snap, submitted) /\
  exists run, import_run_get (irs_run_id snap) (b_lake (state_of submitted)) = Some run /\ snap = run_snapshot run /\
    forall s2 : sys (bronze filesystem runtime), store_inv w0 (batch_store s2) ->
      (forall key body kind, ObjectLaws.stored (b_objects (state_of submitted)) key body kind ->
         ObjectLaws.stored (b_objects (state_of s2)) key body kind) ->
      exists body s3, raw_batch run w0 s2 = (Ok body, s3)
        /\ bytes_digest body = bytes_digest file /\ len body = len file.
Proof.
  destruct file_submission as [snap E]. exists snap. split; [exact E|].
  exact (submitted_batch_readable published_contract true w0 start request snap submitted file_start_inv
    eq_refl eq_refl E).
Defined.
End FileExamples.
