(* ===== verification/RadarContracts.v ===== *)
(** * Radar contracts ([application/radar/contracts.py])

    Search profiles, their versions, recommendation runs and their items. *)

From S2P Require Export IngestionContracts.

Inductive SearchProfileState := ProfileActive | ProfilePaused | ProfileArchived.
Inductive RecommendationRunState := RunPending | RunRunning | RunSucceeded | RunFailed.
Inductive RecommendationRunTrigger := TriggerCreated | TriggerEdited | TriggerResumed.

#[export] Instance SearchProfileState_eq_dec : EqDecision SearchProfileState.
Proof. solve_decision. Defined.
#[export] Instance RecommendationRunState_eq_dec : EqDecision RecommendationRunState.
Proof. solve_decision. Defined.
#[export] Instance RecommendationRunTrigger_eq_dec : EqDecision RecommendationRunTrigger.
Proof. solve_decision. Defined.

(** The literal each state stands for *)
Definition profile_state_str (s : SearchProfileState) : string :=
  match s with
  | ProfileActive => "active" | ProfilePaused => "paused" | ProfileArchived => "archived"
  end.
Definition run_state_str (s : RecommendationRunState) : string :=
  match s with
  | RunPending => "pending" | RunRunning => "running"
  | RunSucceeded => "succeeded" | RunFailed => "failed"
  end.

Record SearchProfile := MkSearchProfile {
  profile_id : Z; owner_id : Z; name : string; sp_operation : OperationType;
  zones : list string; budget_max : float; budget_min : option float; min_rooms : Z;
  surface_min : option float; surface_max : option float; status : SearchProfileState;
  unknown_strategy : odict string string; version : Z; created_at : Z; updated_at : Z;
  current_version_id : option Z; latest_run_id : option Z; sp_correlation_id : Z;
  sp_actor_kind : string; sp_actor_id : option string
}.

Record ProfileVersion := MkProfileVersion {
  pv_version_id : Z; pv_profile_id : Z; pv_profile_version : Z; pv_payload : odict string pyval;
  pv_created_at : Z; pv_correlation_id : Z; pv_actor_kind : string; pv_actor_id : option string
}.

Record RecommendationRun := MkRecommendationRun {
  run_id : Z; run_profile_id : Z; run_profile_version_id : Z; run_state : RecommendationRunState;
  run_trigger : RecommendationRunTrigger; run_score_policy_version : string;
  run_candidate_count : Z; run_published_item_count : Z; run_failure_code : option string;
  run_job_execution_id : option Z; run_created_at : Z; run_finished_at : option Z;
  run_correlation_id : Z; run_version : Z; run_actor_kind : string; run_actor_id : option string
}.

Record RecommendationItem := MkRecommendationItem {
  item_id : Z; item_run_id : Z; item_listing_id : Z; item_score : float; item_position : Z;
  item_contributions : odict string pyval
}.

Record ListingSummary := MkListingSummary {
  ls_listing_id : Z; ls_total_cost : option float; ls_neighborhood : option string;
  ls_surface_m2 : option float; ls_rooms : option Z; ls_source_id : string;
  ls_url : option string; ls_geo_precision : GeoPrecision
}.

Record MatchPoint := MkMatchPoint {
  mp_listing_id : Z; mp_latitude : float; mp_longitude : float; mp_geo_precision : GeoPrecision
}.

Record MatchPage := MkMatchPage {
  page_run : RecommendationRun; page_items : list RecommendationItem;
  page_next_after_position : option Z; page_points : list MatchPoint;
  page_summaries : list ListingSummary
}.
