(* ===== verification/CriteriaContracts.v ===== *)
(** * Criteria contracts ([application/criteria/contracts.py])

    Concepts, facts, compilations, observations and the scope of a recompute. *)

From S2P Require Export PyVal PyTime.

Inductive ObservationSource := SourceRule | SourceModel.
Inductive ObservationState := ObsActive | ObsInvalidated | ObsSuperseded | ObsFailed.
Inductive FactState := FactActive | FactSuperseded.
Inductive RecomputeScopeKind := ScopeConcept | ScopeExtraction | ScopeParser | ScopeFull.
Inductive RecomputeRunState := RecomputePending | RecomputeRunning | RecomputeSucceeded | RecomputeFailed.

#[export] Instance ObservationSource_eq_dec : EqDecision ObservationSource.
Proof. solve_decision. Defined.
#[export] Instance ObservationState_eq_dec : EqDecision ObservationState.
Proof. solve_decision. Defined.
#[export] Instance FactState_eq_dec : EqDecision FactState.
Proof. solve_decision. Defined.
#[export] Instance RecomputeScopeKind_eq_dec : EqDecision RecomputeScopeKind.
Proof. solve_decision. Defined.

(** A matcher type is its literal: documents may name an unsupported one. *)
Record Concept := MkConcept {
  concept_id : Z; concept_key : string; concept_name : string; concept_aliases : list string;
  concept_matcher_type : string; concept_params_schema : odict string pyval;
  concept_source : string; concept_defaults : odict string pyval;
  concept_compute_policy : odict string pyval; concept_version : Z;
  concept_current_version_id : option Z; concept_created_at : Z; concept_updated_at : Z;
  concept_correlation_id : Z; concept_actor_kind : string; concept_actor_id : option string
}.

(** [Concept.payload] *)
Definition concept_payload (c : Concept) : odict string pyval :=
  [("key", VStr (concept_key c)); ("name", VStr (concept_name c));
   ("aliases", VList (map VStr (concept_aliases c)));
   ("matcher_type", VStr (concept_matcher_type c));
   ("params_schema", VDict (concept_params_schema c)); ("source", VStr (concept_source c));
   ("defaults", VDict (concept_defaults c));
   ("compute_policy", VDict (concept_compute_policy c))].

Record ConceptVersion := MkConceptVersion {
  cv_version_id : Z; cv_concept_id : Z; cv_concept_version : Z; cv_payload : odict string pyval;
  cv_created_at : Z; cv_correlation_id : Z; cv_actor_kind : string; cv_actor_id : option string
}.

Record PreferenceFact := MkPreferenceFact {
  fact_id : Z; fact_profile_id : Z; fact_concept_key : string; fact_value : pyval;
  fact_weight : float; fact_polarity : string; fact_confidence : float; fact_source : string;
  fact_state : FactState; fact_superseded_by : option Z; fact_created_at : Z;
  fact_correlation_id : Z; fact_actor_kind : string; fact_actor_id : option string
}.

Record CompiledCriterion := MkCompiledCriterion {
  cc_concept_key : string; cc_matcher_type : string; cc_params : odict string pyval;
  cc_source_ref : string; cc_soft_to_hard : bool
}.

Record Compilation := MkCompilation {
  compilation_id : Z; comp_profile_id : Z; comp_profile_version_id : Z; comp_version : Z;
  comp_criteria : list CompiledCriterion; comp_warnings : list string;
  comp_confirmations : list string; comp_created_at : Z; comp_correlation_id : Z;
  comp_actor_kind : string; comp_actor_id : option string
}.

Record ListingObservation := MkListingObservation {
  observation_id : Z; obs_listing_id : Z; obs_concept_key : string; obs_matcher_type : string;
  obs_value : pyval; obs_score : float; obs_confidence : float;
  obs_evidence : odict string pyval; obs_source : ObservationSource;
  obs_extraction_version_id : option Z; obs_state : ObservationState;
  obs_failure_code : option string; obs_recomputation_run_id : option Z;
  obs_created_at : Z; obs_correlation_id : Z; obs_actor_kind : string;
  obs_actor_id : option string
}.

(** [RecomputeScope]: every scope but the full one has a key. *)
Record RecomputeScope := MkRecomputeScope {
  scope_kind : RecomputeScopeKind; scope_key : option string
}.

#[export] Instance RecomputeScope_eq_dec : EqDecision RecomputeScope.
Proof. solve_decision. Defined.

(** [ExtractionKind] is its literal. *)
Record ExtractionVersion := MkExtractionVersion {
  xv_version_id : Z; xv_kind : string; xv_key : string; xv_version : string;
  xv_payload : odict string pyval; xv_created_at : Z; xv_correlation_id : Z;
  xv_actor_kind : string; xv_actor_id : option string
}.

Record RecomputeRun := MkRecomputeRun {
  rr_run_id : Z; rr_scope : RecomputeScope; rr_cause : string; rr_state : RecomputeRunState;
  rr_counts : odict string pyval; rr_job_execution_id : option Z; rr_finished_at : option Z;
  rr_created_at : Z; rr_correlation_id : Z; rr_version : Z; rr_actor_kind : string;
  rr_actor_id : option string
}.

Record ExtractionResult := MkExtractionResult {
  xr_value : pyval; xr_evidence_fragment : option string; xr_confidence : float; xr_failed : bool;
  xr_failure_code : option string
}.

Definition scope_kind_str (k : RecomputeScopeKind) : string :=
  match k with
  | ScopeConcept => "concept" | ScopeExtraction => "extraction"
  | ScopeParser => "parser" | ScopeFull => "full"
  end.

Definition RecomputeScope_init (kind : RecomputeScopeKind) (key : option string)
  : result RecomputeScope :=
  if negb (bool_decide (kind = ScopeFull))
     && match key with None => true | Some k => bool_decide (k = "") end
  then Raise ValueError
  else Ok (MkRecomputeScope kind key).

(** [RecomputeScope.target]; a [None] key is printed as Python prints it. *)
Definition scope_target (s : RecomputeScope) : string :=
  match scope_kind s with
  | ScopeFull => "full"
  | k => scope_kind_str k ++ ":" ++ default "None" (scope_key s)
  end.

(** [s.partition(":")]: before, whether found, after *)
Fixpoint partition_list (sep : ascii) (l : list ascii) : list ascii * bool * list ascii :=
  match l with
  | [] => ([], false, [])
  | c :: l' =>
      if bool_decide (c = sep) then ([], true, l')
      else let '(a, found, b) := partition_list sep l' in (c :: a, found, b)
  end.
Definition partition (sep : ascii) (s : string) : string * bool * string :=
  let '(a, found, b) := partition_list sep (chars s) in (of_chars a, found, of_chars b).

Definition scope_parse (raw : string) : result RecomputeScope :=
  if bool_decide (raw = "full") then RecomputeScope_init ScopeFull None
  else
    let '(kind, found, key) := partition ":"%char raw in
    if negb found then Raise ValueError
    else if bool_decide (kind = "concept") then RecomputeScope_init ScopeConcept (Some key)
    else if bool_decide (kind = "extraction") then RecomputeScope_init ScopeExtraction (Some key)
    else if bool_decide (kind = "parser") then RecomputeScope_init ScopeParser (Some key)
    else Raise ValueError.

(** ** Facts *)

Lemma partition_list_app sep a b : sep ∉ a ->
  partition_list sep (a ++ sep :: b)%list = (a, true, b).
Proof.
  induction a as [|c a IH]; intros Hs; simpl.
  - by rewrite bool_decide_eq_true_2.
  - rewrite bool_decide_eq_false_2 by set_solver. rewrite IH by set_solver. done.
Qed.

Lemma partition_concat sep a b : sep ∉ chars a ->
  partition sep (a ++ of_chars [sep] ++ b) = (a, true, b).
Proof.
  intros Hs. unfold partition. rewrite !chars_app, chars_of_chars. simpl.
  rewrite partition_list_app by done. by rewrite !of_chars_chars.
Qed.

(** The textual target of a scope reads back as the scope. *)
Lemma scope_roundtrip s : RecomputeScope_init (scope_kind s) (scope_key s) = Ok s ->
  (scope_kind s = ScopeFull -> scope_key s = None) -> scope_parse (scope_target s) = Ok s.
Proof.
  destruct s as [k key]. simpl. intros Hi Hfull. unfold scope_target. simpl.
  destruct k; simpl.
  4: { by rewrite (Hfull eq_refl). }
  all: unfold RecomputeScope_init in Hi; simpl in Hi; destruct key as [key|]; [|done];
    case_bool_decide as Hk; [done|]; clear Hi Hfull; simpl; unfold scope_parse;
    match goal with |- context [partition _ (?a ++ ":" ++ key)] =>
      change (a ++ ":" ++ key) with (a ++ of_chars [":"%char] ++ key) end;
    rewrite bool_decide_eq_false_2 by done;
    rewrite partition_concat by (apply (bool_decide_unpack _); vm_compute; exact I);
    simpl; unfold RecomputeScope_init; simpl; by rewrite bool_decide_eq_false_2.
Qed.
