(* ===== verification/Criteria.v ===== *)
(** * The concept registry and the compiler of criteria

    [application/criteria/registry.py] (the published matcher types and concepts,
    alias resolution) and [application/criteria/compile.py] (edits and preference
    facts to an ordered list of executable criteria). *)

From S2P Require Export CriteriaContracts.

(** ** Registry *)

Definition _SUPPORTED_MATCHER_TYPES : list string :=
  ["numeric_range"; "categorical"; "geo_proximity"; "semantic_feature"].

(** The [ConceptLike] protocol: what the registry reads of a concept *)
Record ConceptLike := MkConceptLike {
  cl_key : string; cl_aliases : list string; cl_matcher_type : string;
  cl_params_schema : odict string pyval
}.

Record ConceptSeed := MkConceptSeed {
  seed_key : string; seed_name : string; seed_aliases : list string;
  seed_matcher_type : string; seed_params_schema : odict string pyval; seed_source : string;
  seed_defaults : odict string pyval; seed_compute_policy : odict string pyval
}.

Definition concept_like (c : Concept) : ConceptLike :=
  MkConceptLike (concept_key c) (concept_aliases c) (concept_matcher_type c)
    (concept_params_schema c).
Definition seed_like (c : ConceptSeed) : ConceptLike :=
  MkConceptLike (seed_key c) (seed_aliases c) (seed_matcher_type c) (seed_params_schema c).

Record MatcherTypeSpec := MkMatcherTypeSpec { mt_name : string; allowed_params : list string }.
Record MatcherTypesSpec := MkMatcherTypesSpec {
  mts_contract_version : string; registry_version : string;
  matcher_types : odict string MatcherTypeSpec
}.
Record ConceptsSeedSpec := MkConceptsSeedSpec {
  css_contract_version : string; seed_version : string; css_concepts : list ConceptSeed
}.

Definition check_contract_version (data : odict string pyval) : result unit :=
  if negb (py_eqb (dget "contract_version" data) (VStr "1")) then Raise ValueError else Ok tt.

(** A required non-empty string member *)
Definition required_str (k : string) (data : odict string pyval) : result string :=
  match dget k data with
  | VStr s => if bool_decide (s = "") then Raise ValueError else Ok s
  | _ => Raise ValueError
  end.

Definition parse_matcher_type (name : string) (raw : pyval) : result MatcherTypeSpec :=
  if negb (bool_decide (name ∈ _SUPPORTED_MATCHER_TYPES)) then Raise ValueError
  else
    match raw with
    | VDict d =>
        match dget "allowed_params" d with
        | VList l => if forallb is_str l then Ok (MkMatcherTypeSpec name (map py_str l))
                     else Raise ValueError
        | _ => Raise ValueError
        end
    | _ => Raise ValueError
    end.

Definition parse_matcher_types (data : odict string pyval) : result MatcherTypesSpec :=
  check_contract_version data ;;
  version ← required_str "registry_version" data;
  match dget "matcher_types" data with
  | VDict raw_types =>
      parsed ← fold_result (fun acc kv => spec ← parse_matcher_type kv.1 kv.2;
                                          Ok (oset kv.1 spec acc)) [] raw_types;
      c ← dsub "contract_version" data;
      Ok (MkMatcherTypesSpec (py_str c) version parsed)
  | _ => Raise ValueError
  end.

Definition _as_mapping (value : pyval) : result (odict string pyval) :=
  match value with VDict d => Ok (oupdate [] d) | _ => Raise ValueError end.

Definition dget_default (k : string) (v : pyval) (d : odict string pyval) : pyval :=
  default v (oget k d).

Definition parse_concept_seed (raw : pyval) : result ConceptSeed :=
  match raw with
  | VDict d =>
      key ← dsub "key" d;
      name ← dsub "name" d;
      aliases ← py_iter (dget_default "aliases" (VList []) d);
      matcher_type ← dsub "matcher_type" d;
      params_schema ← _as_mapping (dget_default "params_schema" (VDict []) d);
      defaults ← _as_mapping (dget_default "defaults" (VDict []) d);
      compute_policy ← _as_mapping (dget_default "compute_policy" (VDict []) d);
      Ok (MkConceptSeed (py_str key) (py_str name) (map py_str aliases) (py_str matcher_type)
            params_schema (py_str (dget_default "source" (VStr "seed") d)) defaults compute_policy)
  | _ => Raise ValueError
  end.

Definition parse_concepts_seed (data : odict string pyval) : result ConceptsSeedSpec :=
  check_contract_version data ;;
  version ← required_str "seed_version" data;
  match dget "concepts" data with
  | VList raw_concepts =>
      concepts ← map_result parse_concept_seed raw_concepts;
      c ← dsub "contract_version" data;
      Ok (MkConceptsSeedSpec (py_str c) version concepts)
  | _ => Raise ValueError
  end.

(** The error codes in the order the function appends them *)
Definition validate_concept_seed (seed : ConceptSeed) (mts : MatcherTypesSpec) : list string :=
  (if bool_decide (seed_key seed = "") || (100 <? len (seed_key seed))
   then ["criteria.concept_key_invalid"] else [])
  ++ (if 200 <? len (seed_name seed) then ["criteria.concept_name_too_long"] else [])
  ++ (if 20 <? Z.of_nat (length (seed_aliases seed)) then ["criteria.concept_aliases_too_many"] else [])
  ++ match oget (seed_matcher_type seed) (matcher_types mts) with
     | None => [("criteria.unsupported_matcher_type:" ++ seed_matcher_type seed)%string]
     | Some spec =>
         map (fun param => ("criteria.invalid_param:" ++ seed_matcher_type seed ++ ":" ++ param)%string)
           (filter (fun param => param ∉ allowed_params spec) (okeys (seed_params_schema seed)))
     end%list.

Definition has_alias (lowered : string) (c : ConceptLike) : bool :=
  bool_decide (lowered ∈ map lower (cl_aliases c)).

Definition resolve_alias (concepts : odict string ConceptLike) (alias : string) : option string :=
  let lowered := lower (strip alias) in
  if omem lowered concepts then Some lowered
  else option_map cl_key (find_first (has_alias lowered) (ovalues concepts)).

Definition add_owner (key : string) (owners : odict string (list string)) (alias : string)
  : odict string (list string) :=
  oset (lower alias) (default [] (oget (lower alias) owners) ++ [key])%list owners.

Definition detect_alias_collisions (concepts : odict string ConceptSeed) : list string :=
  let owners := foldl (fun acc c => foldl (add_owner (seed_key c)) acc (seed_aliases c))
                  [] (ovalues concepts) in
  map (fun kv => "alias_collision:" ++ kv.1 ++ ":" ++ join "," (sorted_str kv.2))
    (List.filter (fun kv => 1 <? Z.of_nat (length kv.2)) owners).

(** ** Compilation *)

Record CompilationDraft := MkCompilationDraft {
  draft_criteria : list CompiledCriterion; draft_warnings : list string;
  draft_confirmations : list string
}.

(** The [concepts] argument: a mapping, or the seed document itself *)
Inductive concepts_arg := ConceptsSeed (spec : ConceptsSeedSpec)
                        | ConceptsMapping (m : odict string ConceptLike).

Definition _concept_map (concepts : concepts_arg) : odict string ConceptLike :=
  match concepts with
  | ConceptsSeed spec => oupdate [] (map (fun c => (seed_key c, seed_like c)) (css_concepts spec))
  | ConceptsMapping m => m
  end.

Definition _lookup_concept (by_key : odict string ConceptLike) (concept_key : string)
  : option ConceptLike :=
  match oget concept_key by_key with
  | Some c => Some c
  | None => match resolve_alias by_key concept_key with
            | Some resolved => oget resolved by_key
            | None => None
            end
  end.

Definition _required (raw : odict string pyval) (key : string) : result string :=
  match dget key raw with
  | VStr s => if bool_decide (s = "") then Raise (CriteriaValidationError ["criteria.edit_invalid"])
              else Ok s
  | _ => Raise (CriteriaValidationError ["criteria.edit_invalid"])
  end.

Definition _validation {A} (parts : list string) : result A := Raise (CriteriaValidationError parts).

Section compile.
Variable by_key : odict string ConceptLike.
Variable mts : MatcherTypesSpec.
Variable confirmations : list string.

(** One edit: a criterion, or a warning that the edit was skipped *)
Definition compile_edit (edit : pyval) : result (CompiledCriterion + string) :=
  match edit with
  | VDict raw =>
      concept_key ← _required raw "concept_key";
      let source_ref := py_str (dget_default "source_ref" (VStr "") raw) in
      if startswith source_ref "edit:memory" then Ok (inr "semantic_memory_needs_explicit_edit")
      else
        match _lookup_concept by_key concept_key with
        | None => _validation ["criteria.concept_not_found"; concept_key]
        | Some concept =>
            let matcher_type := py_str (dget_default "matcher_type" (VStr "") raw) in
            if negb (bool_decide (matcher_type = cl_matcher_type concept))
            then _validation ["criteria.matcher_type_mismatch"; concept_key; matcher_type]
            else
              match dget "params" raw with
              | VDict params =>
                  let allowed := match oget matcher_type (matcher_types mts) with
                                 | Some spec => allowed_params spec
                                 | None => []
                                 end in
                  let invalid := filter (fun k => k ∉ allowed) (okeys params) in
                  if negb (bool_decide (invalid = []))
                  then _validation ["criteria.invalid_param"; concept_key;
                                    join "," (sorted_str invalid)]
                  else
                    let soft_to_hard := truthy (dget_default "soft_to_hard" (VBool false) raw) in
                    if soft_to_hard && negb (bool_decide (concept_key ∈ confirmations))
                    then Raise (SoftToHardRequiresConfirmation concept_key)
                    else Ok (inl (MkCompiledCriterion concept_key matcher_type (oupdate [] params)
                                    source_ref soft_to_hard))
              | _ => _validation ["criteria.params_invalid"; concept_key]
              end
        end
  | _ => Ok (inr "criteria.edit_invalid_shape")
  end.

Definition fact_ltb (a b : PreferenceFact) : bool :=
  let wa := fneg (fact_weight a) in
  let wb := fneg (fact_weight b) in
  if negb (feqb wa wb) then fltb wa wb
  else if negb (fact_created_at a =? fact_created_at b) then fact_created_at a <? fact_created_at b
  else str_ltb (uuid_str (fact_id a)) (uuid_str (fact_id b)).

Definition compile_fact (fact : PreferenceFact) : CompiledCriterion + string :=
  match _lookup_concept by_key (fact_concept_key fact) with
  | None => inr ("fact_concept_not_found:" ++ fact_concept_key fact)
  | Some concept =>
      inl (MkCompiledCriterion (fact_concept_key fact) (cl_matcher_type concept)
             (cl_params_schema concept) ("fact:" ++ uuid_str (fact_id fact)) false)
  end.
End compile.

(** The criteria and the warnings of a list of outcomes, each in order *)
Definition lefts {A B} (l : list (A + B)) : list A :=
  omap (fun x => match x with inl a => Some a | inr _ => None end) l.
Definition rights {A B} (l : list (A + B)) : list B :=
  omap (fun x => match x with inl _ => None | inr b => Some b end) l.

Definition _facts_to_criteria (by_key : odict string ConceptLike) (facts : list PreferenceFact)
  : list (CompiledCriterion + string) :=
  map (compile_fact by_key) (sort_by fact_ltb facts).

Definition compile_criteria (concepts : concepts_arg) (mts : MatcherTypesSpec)
    (facts : list PreferenceFact) (edits : list pyval) (confirmations : list string)
  : result CompilationDraft :=
  let by_key := _concept_map concepts in
  compiled ← map_result (compile_edit by_key mts confirmations) edits;
  let fact_criteria := _facts_to_criteria by_key facts in
  Ok (MkCompilationDraft (lefts compiled ++ lefts fact_criteria)
        (rights compiled ++ rights fact_criteria) confirmations)%list.
