(* ===== verification/CriteriaRules.v ===== *)
(** * Extraction rules and the extraction contract

    [application/criteria/rules.py] (the deterministic rules, with the fragment of text that is
    the evidence of what they find) and [application/criteria/extractor.py] (the permitted
    projection of a listing and the checks on the output of a model). *)

From S2P Require Export Regex PyParse CriteriaContracts SilverSchema.
#[local] Open Scope list_scope.

(** ** Patterns *)

Definition balcon_re : regex := seq_re [text_re "balc"; Chr (fun x => bool_decide (lower_char x ∈ ["o"%char; "243"%char])); text_re "n"].
Definition _BALCON_POSITIVE : regex := seq_re [Boundary; balcon_re; Boundary].
Definition _BALCON_NEGATIVE : regex :=
  Alt (seq_re [Boundary; text_re "sin"; spaces1; balcon_re; Boundary])
      (seq_re [Boundary; text_re "no"; spaces1; Rep 0 (Some 1%nat) (Alt (text_re "tiene") (text_re "tiene"));
               spaces; balcon_re; Boundary]).
Definition _AMBIENTES : regex :=
  seq_re [Group 1 (digits_re 1 2); spaces; text_re "ambiente"; Rep 0 (Some 1%nat) (ci "s"); Boundary].
Definition _PISO : regex :=
  Alt (seq_re [Boundary; text_re "piso"; spaces1; Group 1 (digits_re 1 3); Boundary])
      (seq_re [Boundary; Group 2 (digits_re 1 3); Chr (fun x => bool_decide (x ∈ ["186"%char; "176"%char])); spaces;
               Alt (text_re "piso") (text_re "planta"); Boundary]).
Definition _COCINA_SEPARADA : regex := seq_re [text_re "cocina"; spaces1; text_re "separada"].
Definition _COCINA_INTEGRADA : regex :=
  Alt (seq_re [text_re "cocina"; spaces1; text_re "integrada"]) (seq_re [Boundary; text_re "integrada"; Boundary]).
Definition _COCINA_NONE : regex :=
  Alt (seq_re [Boundary; text_re "sin"; spaces1; text_re "cocina"; Boundary])
 (Alt (seq_re [Boundary; text_re "no"; spaces1; text_re "tiene"; spaces1; text_re "cocina"; Boundary])
      (seq_re [Boundary; text_re "sin"; spaces1; text_re "espacio"; spaces1; text_re "para"; spaces1;
               text_re "cocina"; Boundary])).

(** ** Rules *)

Record RuleOutcome := MkRuleOutcome {
  ro_value : pyval; ro_fragment : option string; ro_span : option (Z * Z); ro_matched_on : list string
}.
Definition no_outcome : RuleOutcome := MkRuleOutcome VNone None None [].

Definition _fragment (text : string) (m : rematch) : string :=
  strip (slice (m_start m - 24) (Nat.min (length (chars text)) (m_end m + 24)) text).

(** The outcome of a match in the description *)
Definition described (text : string) (m : rematch) (value : pyval) : RuleOutcome :=
  MkRuleOutcome value (Some (_fragment text m)) (Some (Z.of_nat (m_start m), Z.of_nat (m_end m)))
    ["description_text"%string].

(** [str(projection.get("description_text") or "")] *)
Definition description_of (projection : odict string pyval) : string :=
  let v := dget "description_text" projection in if truthy v then py_str v else "".

(** The first of the patterns that occurs in the text decides. *)
Fixpoint first_match (text : string) (patterns : list (regex * pyval)) : option RuleOutcome :=
  match patterns with
  | [] => None
  | (r, value) :: patterns' =>
      match search r text with Some m => Some (described text m value) | None => first_match text patterns' end
  end.

Fixpoint first_amenity (amenities : list pyval) : RuleOutcome :=
  match amenities with
  | [] => no_outcome
  | a :: amenities' =>
      match search _BALCON_POSITIVE (py_str a) with
      | Some _ => MkRuleOutcome (VStr "true") (Some (py_str a)) None ["amenities"%string]
      | None => first_amenity amenities'
      end
  end.

Definition run_balcon (projection : odict string pyval) : RuleOutcome :=
  match first_match (description_of projection)
          [(_BALCON_NEGATIVE, VStr "false"); (_BALCON_POSITIVE, VStr "true")] with
  | Some outcome => outcome
  | None => match dget "amenities" projection with VList l => first_amenity l | _ => no_outcome end
  end.

(** A number the listing has in a field of its own *)
Definition field_outcome (v : pyval) : RuleOutcome :=
  if is_int v then MkRuleOutcome v None None [] else no_outcome.

Definition run_ambientes (projection : odict string pyval) : result RuleOutcome :=
  let text := description_of projection in
  match search _AMBIENTES text with
  | Some m => n ← int_of_str (default "" (group 1 m text)); Ok (described text m (VInt n))
  | None => Ok (field_outcome (dget "rooms" projection))
  end.

Definition run_piso (projection : odict string pyval) : result RuleOutcome :=
  let text := description_of projection in
  match search _PISO text with
  | Some m =>
      let value := match group 1 m text with
                   | Some s => if bool_decide (s = "") then default "" (group 2 m text) else s
                   | None => default "" (group 2 m text)
                   end in
      n ← int_of_str value; Ok (described text m (VInt n))
  | None => Ok (field_outcome (dget "floor" projection))
  end.

Definition run_tipo_cocina (projection : odict string pyval) : RuleOutcome :=
  default no_outcome (first_match (description_of projection)
    [(_COCINA_NONE, VStr "none"); (_COCINA_SEPARADA, VStr "separada"); (_COCINA_INTEGRADA, VStr "integrada")]).

Definition RULE_RUNNERS : odict string (odict string pyval -> result RuleOutcome) := [
  ("balcon", fun p => Ok (run_balcon p)); ("ambientes", run_ambientes); ("piso", run_piso);
  ("tipo_cocina", fun p => Ok (run_tipo_cocina p))]%string.

Definition run_rule (concept_key : string) (projection : odict string pyval) : result RuleOutcome :=
  match oget concept_key RULE_RUNNERS with Some runner => runner projection | None => Raise KeyError end.

Definition rule_version (concept_key : string) : string := (concept_key ++ ".rule-v1")%string.

Definition described_as (text : string) : odict string pyval := [("description_text", VStr text)]%string.
Example rules_ex :
  (ro_value (run_balcon (described_as "Amplio, SIN  Balcon al frente")),
   ro_value (run_balcon [("amenities", VList [VStr "pileta"; VStr "Balcon terraza"])]%string),
   ro_value (run_balcon (described_as "dos balcones")),
   ro_value <$> match run_ambientes (described_as "de 110 ambientes") with Ok o => Some o | _ => None end,
   ro_value <$> match run_piso (described_as "Piso 12, frente") with Ok o => Some o | _ => None end,
   ro_value (run_tipo_cocina (described_as "cochera integrada")))
  = (VStr "false", VStr "true", VNone, Some (VInt 10), Some (VInt 12), VStr "integrada").
Proof. vm_compute. reflexivity. Qed.
Example fragment_ex : ro_fragment (run_balcon (described_as "Departamento en Palermo, muy luminoso, con balcon al contrafrente y baulera"))
  = Some "ermo, muy luminoso, con balcon al contrafrente y baule"%string.
Proof. vm_compute. reflexivity. Qed.

(** ** The extraction contract *)

Record ExtractionContractSpec := MkExtractionContractSpec {
  ec_contract_version : string; ec_registry_version : string; allowed_input_fields : list string;
  forbidden_input_keys : list string; qualitative_attempts : Z;
  ec_concepts : odict string (odict string pyval)
}.

(** [_as_mapping] of [extractor.py]; the keys of a JSON object are strings already. *)
Definition extractor_mapping (value : pyval) : result (odict string pyval) :=
  match value with VDict d => Ok (oupdate [] d) | _ => Raise ValueError end.

Definition parse_extraction_contract (data : odict string pyval) : result ExtractionContractSpec :=
  if negb (py_eqb (dget "contract_version" data) (VStr "1")) then Raise ValueError
  else
    match dget "allowed_input_fields" data with
    | VList allowed =>
        if negb (forallb is_str allowed) then Raise ValueError
        else
          match dget "forbidden_input_keys" data, dget "concepts" data with
          | VList forbidden, VDict raw_concepts =>
              let attempts := match default (VInt 2) (oget "qualitative_max_attempts" data) with
                              | VInt z => z | VBool b => if b then 1 else 0 | _ => 2 end in
              concepts ← fold_result (fun acc kv => d ← extractor_mapping kv.2; Ok (oset kv.1 d acc)) [] raw_concepts;
              Ok (MkExtractionContractSpec (py_str (dget "contract_version" data))
                    (py_str (default (VStr "extraction-v1") (oget "registry_version" data)))
                    (map py_str allowed) (map py_str forbidden) attempts concepts)
          | _, _ => Raise ValueError
          end
    | _ => Raise ValueError
    end.

(** The fields of a listing that the contract lets a concept see *)
Definition input_fields (contract : ExtractionContractSpec) (concept_key : string) : list string :=
  match oget concept_key (ec_concepts contract) with
  | Some concept =>
      if py_eqb (dget "source" concept) (VStr "model") then allowed_input_fields contract
      else match dget "input_fields" concept with
           | VList raw => map py_str raw
           | _ => allowed_input_fields contract
           end
  | None => allowed_input_fields contract
  end.

(** One field of the projection; [getattr(listing, field, None)] of the fields that hold JSON values *)
Definition project_field (listing : NormalizedListing) (acc : odict string pyval) (field : string)
  : odict string pyval :=
  match listing_field field listing with
  | Some VNone | None => acc
  | Some v => oset field v acc
  end.

Definition build_permitted_input (listing : NormalizedListing) (contract : ExtractionContractSpec)
    (concept_key : string) : odict string pyval :=
  foldl (project_field listing) [] (input_fields contract concept_key).

(** ** The output of a model *)

Definition invalid (code : string) : result (option string) := Ok (Some code).

(** The first required key that is missing; a list or a dictionary cannot be a key. *)
Fixpoint missing_key (output : odict string pyval) (required : list pyval) : result (option string) :=
  match required with
  | [] => Ok None
  | VStr s :: required' => if omem s output then missing_key output required'
                           else invalid ("missing_key:" ++ s)%string
  | VList _ :: _ | VDict _ :: _ => Raise TypeError
  | v :: _ => invalid ("missing_key:" ++ py_str v)%string
  end.

(** [value < bound] where the bound is given *)
Definition beyond (bound : pyval) (lt : pyval -> option bool) : result bool :=
  match bound with
  | VNone => Ok false
  | _ => match lt bound with Some b => Ok b | None => Raise TypeError end
  end.

Definition check_output_value (key : string) (value : pyval) (spec : odict string pyval) : result (option string) :=
  let value_type := dget "type" spec in
  if py_eqb value_type (VStr "string") then
    if negb (is_str value) then invalid ("type_mismatch:" ++ key)%string
    else match dget "enum" spec with
         | VList enum => if py_in value enum then Ok None else invalid ("enum_mismatch:" ++ key)%string
         | _ => Ok None
         end
  else if py_eqb value_type (VStr "number") then
    if negb (is_number value) || is_bool value then invalid ("type_mismatch:" ++ key)%string
    else
      low ← beyond (dget "minimum" spec) (fun m => num_ltb value m);
      if low : bool then invalid ("out_of_range:" ++ key)%string
      else
        high ← beyond (dget "maximum" spec) (fun m => num_ltb m value);
        if high : bool then invalid ("out_of_range:" ++ key)%string else Ok None
  else Ok None.

Fixpoint check_output (props : odict string pyval) (items : odict string pyval) : result (option string) :=
  match items with
  | [] => Ok None
  | (key, value) :: items' =>
      match dget key props with
      | VDict spec =>
          code ← check_output_value key value spec;
          match code with Some c => Ok (Some c) | None => check_output props items' end
      | _ => invalid ("unknown_key:" ++ key)%string
      end
  end.

Definition evidence_fragment_text (output : odict string pyval) : option string :=
  match dget "evidence" output with
  | VStr s => if bool_decide (strip s = "") then None else Some s
  | _ => None
  end.

(** [None] for an output that is valid, its error code otherwise *)
Definition validate_model_output (output schema : odict string pyval) : result (option string) :=
  missing ← match dget "required" schema with VList required => missing_key output required | _ => Ok None end;
  match missing with
  | Some code => Ok (Some code)
  | None =>
      match dget "properties" schema with
      | VDict props =>
          code ← check_output props output;
          match code with
          | Some c => Ok (Some c)
          | None => Ok (match evidence_fragment_text output with Some _ => None | None => Some "missing_evidence"%string end)
          end
      | _ => invalid "schema_invalid"
      end
  end.

(** * The evidence of the extraction rules

    Every value a deterministic rule finds is cited: from the text it was read in, from an
    amenity, or from a field of the listing. *)
#[local] Open Scope list_scope.

Inductive evidence (projection : odict string pyval) : RuleOutcome -> Prop :=
  | cites_nothing : evidence projection no_outcome
  | cites_field field v : dget field projection = v -> is_int v = true ->
      evidence projection (MkRuleOutcome v None None [])
  | cites_text value fragment i j : value <> VNone ->
      (i <= j <= length (chars (description_of projection)))%nat ->
      within fragment (description_of projection) ->
      within (strip (slice i j (description_of projection))) fragment ->
      evidence projection (MkRuleOutcome value (Some fragment) (Some (Z.of_nat i, Z.of_nat j)) ["description_text"%string])
  | cites_amenity amenities a : dget "amenities" projection = VList amenities -> a ∈ amenities ->
      evidence projection (MkRuleOutcome (VStr "true") (Some (py_str a)) None ["amenities"%string]).

Lemma described_evidence projection r m value : search r (description_of projection) = Some m -> value <> VNone ->
  evidence projection (described (description_of projection) m value).
Proof.
  intros Hm Hv. apply search_bounds in Hm as Hb. unfold described. set (text := description_of projection) in *.
  apply cites_text; [done|exact Hb| |].
  - unfold _fragment. eapply within_trans; [apply strip_part|]. 
    pose proof (slice_within (m_start m - 24) (Nat.min (length (chars text)) (m_end m + 24)) 0 (length (chars text)) text
      ltac:(lia) ltac:(lia)) as Hw. by rewrite slice_whole in Hw.
  - apply strip_within, slice_within; lia.
Qed.

Lemma field_evidence projection field : evidence projection (field_outcome (dget field projection)).
Proof. unfold field_outcome. destruct (is_int _) eqn:E; [by eapply cites_field|constructor]. Qed.

Lemma first_match_evidence projection patterns o : Forall (fun p => p.2 <> VNone) patterns ->
  first_match (description_of projection) patterns = Some o -> evidence projection o.
Proof.
  induction 1 as [|[r v] patterns Hv _ IH]; [done|]. simpl. destruct (search r _) eqn:Hm; [|done].
  intros [= <-]. by eapply described_evidence.
Qed.

Lemma first_amenity_evidence projection amenities : dget "amenities" projection = VList amenities ->
  evidence projection (first_amenity amenities).
Proof.
  intros Hd. assert (Hin : forall a, a ∈ amenities -> a ∈ amenities) by done. revert Hin.
  generalize amenities at 1 3. intros l. induction l as [|a l IH]; intros Hin; [constructor|]. simpl.
  destruct (search _ _); [apply (cites_amenity _ amenities); set_solver|apply IH; set_solver].
Qed.

Lemma balcon_evidence projection : evidence projection (run_balcon projection).
Proof.
  unfold run_balcon. destruct (first_match _ _) as [o|] eqn:Hm.
  - eapply first_match_evidence; [|exact Hm]. by repeat constructor.
  - destruct (dget "amenities" projection) eqn:Ha; try constructor. by apply first_amenity_evidence.
Qed.

Lemma ambientes_evidence projection o : run_ambientes projection = Ok o -> evidence projection o.
Proof.
  unfold run_ambientes. destruct (search _ _) as [m|] eqn:Hm; [|intros [= <-]; apply field_evidence].
  destruct (int_of_str _) as [n|]; [|done]. intros [= <-]. by eapply described_evidence.
Qed.

Lemma piso_evidence projection o : run_piso projection = Ok o -> evidence projection o.
Proof.
  unfold run_piso. destruct (search _ _) as [m|] eqn:Hm; [|intros [= <-]; apply field_evidence].
  destruct (int_of_str _) as [n|]; [|done]. intros [= <-]. by eapply described_evidence.
Qed.

Lemma tipo_cocina_evidence projection : evidence projection (run_tipo_cocina projection).
Proof.
  unfold run_tipo_cocina. destruct (first_match _ _) as [o|] eqn:Hm; [|constructor].
  eapply first_match_evidence; [|exact Hm]. by repeat constructor.
Qed.


