(* ===== verification/CriteriaTheorems.v ===== *)
(** * What the criteria registry and compiler guarantee

    Soundness of compilation, the round trip of recompute scopes, and what the absence
    of alias collisions means. *)

From S2P Require Export Criteria.
#[local] Open Scope list_scope.

(** ** Compilation *)

Lemma length_lefts_rights {A B} (l : list (A + B)) :
  (length (lefts l) + length (rights l))%nat = length l.
Proof. induction l as [|[a|b] l IH]; simpl; lia. Qed.

Lemma elem_lefts {A B} (l : list (A + B)) a : a ∈ lefts l <-> inl a ∈ l.
Proof.
  unfold lefts. rewrite list_elem_of_omap. split.
  - intros ([x|x] & Hin & Hx); [by injection Hx as ->|done].
  - intros Hin. by exists (inl a).
Qed.

Lemma map_result_elem {A B} (f : A -> result B) l l' b :
  map_result f l = Ok l' -> b ∈ l' -> exists a, a ∈ l /\ f a = Ok b.
Proof.
  revert l'. induction l as [|a l IH]; intros l' Hm Hb; cbn [map_result] in Hm.
  - injection Hm as <-. by apply elem_of_nil in Hb.
  - inv_bind. injection Hm as <-. apply elem_of_cons in Hb as [->|Hb]; [exists a; set_solver|].
    destruct (IH _ H0 Hb) as (a' & Ha' & Hf). exists a'. set_solver.
Qed.

Lemma length_map_result {A B} (f : A -> result B) l l' : map_result f l = Ok l' -> length l' = length l.
Proof.
  revert l'. induction l as [|a l IH]; intros l' Hm; cbn [map_result] in Hm; [by injection Hm as <-|].
  inv_bind. injection Hm as <-. simpl. by rewrite (IH _ H0).
Qed.

(** A compiled criterion of a registered concept, with the concept's matcher type *)
Definition of_concept (by_key : odict string ConceptLike) (c : CompiledCriterion) : Prop :=
  exists concept, _lookup_concept by_key (cc_concept_key c) = Some concept
                  /\ cc_matcher_type c = cl_matcher_type concept.

(** One that comes from an edit: no memory reference, allowed parameters only, and a
    conversion from soft to hard only where it was confirmed *)
Definition from_edit (mts : MatcherTypesSpec) (confirmations : list string) (c : CompiledCriterion)
  : Prop :=
  startswith (cc_source_ref c) "edit:memory" = false
  /\ (forall k, k ∈ okeys (cc_params c) ->
      exists spec, oget (cc_matcher_type c) (matcher_types mts) = Some spec /\ k ∈ allowed_params spec)
  /\ (cc_soft_to_hard c = true -> cc_concept_key c ∈ confirmations).

Lemma compile_edit_sound by_key mts confirmations edit c :
  compile_edit by_key mts confirmations edit = Ok (inl c) ->
  of_concept by_key c /\ from_edit mts confirmations c.
Proof.
  unfold compile_edit. destruct edit as [| | | | | |raw]; try discriminate. intros Hc. inv_bind.
  destruct (startswith _ _) eqn:Hmem; [discriminate|].
  destruct (_lookup_concept by_key x) as [concept|] eqn:Hlook; [|discriminate].
  destruct (bool_decide (_ = cl_matcher_type concept)) eqn:Hmt; [|discriminate]. cbn [negb] in Hc.
  apply bool_decide_eq_true in Hmt.
  destruct (dget "params" raw) as [| | | | | |params]; try discriminate.
  destruct (bool_decide (filter _ _ = [])) eqn:Hinv; [|discriminate]. cbn [negb] in Hc.
  destruct (truthy _ && _) eqn:Hsoft; [discriminate|]. injection Hc as <-.
  split; [by exists concept|]. split; [exact Hmem|]. split; simpl.
  - intros k [Hk%elem_of_nil|Hk]%elem_okeys_oupdate; [done|]. apply bool_decide_eq_true in Hinv. rewrite Hmt in *.
    destruct (oget (cl_matcher_type concept) (matcher_types mts)) as [spec|].
    + exists spec. split; [done|]. destruct (decide (k ∈ allowed_params spec)) as [|Hn]; [done|].
      assert (k ∈ @nil string) as []%elem_of_nil. rewrite <- Hinv. by apply list_elem_of_filter.
    + assert (k ∈ @nil string) as []%elem_of_nil. rewrite <- Hinv. apply list_elem_of_filter. set_solver.
  - intros Ht. rewrite Ht in Hsoft. simpl in Hsoft. by apply negb_false_iff, bool_decide_eq_true in Hsoft.
Qed.


Definition sample_concepts : concepts_arg :=
  ConceptsMapping [("balcon", MkConceptLike "balcon" ["Terraza"] "categorical" []);
                   ("luz", MkConceptLike "luz" [] "semantic_feature" [("threshold", VInt 1)])].
Definition sample_types : MatcherTypesSpec :=
  MkMatcherTypesSpec "1" "v1" [("categorical", MkMatcherTypeSpec "categorical" ["allowed_values"])].
Definition sample_edits : list pyval :=
  [VDict [("concept_key", VStr "terraza"); ("matcher_type", VStr "categorical");
          ("params", VDict [("allowed_values", VList [])]); ("soft_to_hard", VBool true)];
   VDict [("concept_key", VStr "balcon"); ("source_ref", VStr "edit:memory:1")]].
Definition sample_facts : list PreferenceFact :=
  [MkPreferenceFact 4 1 "luz" (VBool true) (flit 1 2) "positive" (flit 1 1) "chat" FactActive None 0 9 "user" None].
Definition sample_draft : CompilationDraft :=
  ok_or (MkCompilationDraft [] [] [])
    (compile_criteria sample_concepts sample_types sample_facts sample_edits ["terraza"]).

Lemma sample_compiled :
  compile_criteria sample_concepts sample_types sample_facts sample_edits ["terraza"] = Ok sample_draft.
Proof. vm_compute. reflexivity. Qed.


(** ** Scopes *)

(** The target string of a recompute scope, under which its job is submitted, parses
    back to the scope. *)
Theorem scope_target_roundtrip kind key s :
  RecomputeScope_init kind key = Ok s -> (kind = ScopeFull -> key = None) ->
  scope_parse (scope_target s) = Ok s.
Proof.
  intros Hi Hfull. assert (s = MkRecomputeScope kind key) as ->.
  { unfold RecomputeScope_init in Hi. case_match; [done|]. by injection Hi as <-. }
  by apply scope_roundtrip.
Qed.

Lemma scope_target_roundtrip_witness :
  scope_target (MkRecomputeScope ScopeParser (Some "v1:beta")) = "parser:v1:beta"
  /\ scope_parse "parser:v1:beta" = Ok (MkRecomputeScope ScopeParser (Some "v1:beta")).
Proof.
  split; [reflexivity|].
  refine (scope_target_roundtrip ScopeParser (Some "v1:beta")
            (MkRecomputeScope ScopeParser (Some "v1:beta")) _ _); [reflexivity|discriminate].
Defined.

(** ** Aliases *)

Section aliases.
Implicit Types (pairs : list (string * string)).

(** The alias table, one lowered alias and its concept at a time *)
Definition alias_pairs (concepts : odict string ConceptSeed) : list (string * string) :=
  flat_map (fun c => map (fun a => (lower a, seed_key c)) (seed_aliases c)) (ovalues concepts).

Definition collect (owners : odict string (list string)) pairs : odict string (list string) :=
  foldl (fun acc p => oset p.1 (default [] (oget p.1 acc) ++ [p.2]) acc) owners pairs.

Lemma collect_aliases concepts :
  foldl (fun acc c => foldl (add_owner (seed_key c)) acc (seed_aliases c)) [] (ovalues concepts)
  = collect [] (alias_pairs concepts).
Proof.
  unfold alias_pairs, collect. generalize (@nil (string * list string)).
  induction (ovalues concepts) as [|c cs IH]; intros acc; [done|]. cbn [foldl flat_map].
  rewrite foldl_app, <- IH. f_equal. clear IH cs. revert acc.
  induction (seed_aliases c) as [|a l IH]; intros acc; [done|]. simpl. by rewrite <- IH.
Qed.

Definition occurrences (k : string) pairs : list string :=
  map snd (List.filter (fun p => bool_decide (p.1 = k)) pairs).

Lemma oget_collect k owners pairs :
  default [] (oget k (collect owners pairs)) = default [] (oget k owners) ++ occurrences k pairs.
Proof.
  unfold collect, occurrences. revert owners.
  induction pairs as [|[a v] pairs IH]; intros owners; simpl; [by rewrite app_nil_r|].
  rewrite IH, oget_oset. case_bool_decide as E; simpl.
  - subst. rewrite decide_True by done. simpl. by rewrite <- app_assoc.
  - by rewrite decide_False.
Qed.

Lemma NoDup_collect owners pairs : NoDup (okeys owners) -> NoDup (okeys (collect owners pairs)).
Proof.
  unfold collect. revert owners. induction pairs as [|p pairs IH]; intros owners Hnd; [done|].
  simpl. by apply IH, NoDup_oset.
Qed.

(** A list has no duplicates when every element occurs at most once. *)
Lemma NoDup_occurrences pairs :
  NoDup (map fst pairs) <-> forall k, (length (occurrences k pairs) <= 1)%nat.
Proof.
  unfold occurrences. induction pairs as [|[a v] pairs IH]; simpl.
  - split; [intros; simpl; lia|constructor].
  - assert (Hnone : (forall x, (a, x) ∉ pairs) <->
        length (map snd (List.filter (fun p => bool_decide (p.1 = a)) pairs)) = 0%nat).
    { clear. induction pairs as [|[b u] pairs IH]; simpl; [split; [done|set_solver]|].
      case_bool_decide as E; simpl.
      - subst. split; [|done]. intros Hx. exfalso. apply (Hx u). set_solver.
      - rewrite <- IH. split; intros Hx x Hin; [|set_solver]. apply (Hx x). set_solver. }
    rewrite NoDup_cons. split.
    + intros [Ha Hnd] k. specialize (proj1 IH Hnd k) as Hk. case_bool_decide as E; simpl; [|lia].
      subst. assert (Hz := proj1 Hnone). rewrite Hz; [lia|].
      intros x Hin. apply Ha. by apply (list_elem_of_fmap_2 fst _ (k, x)).
    + intros Hk. split.
      * intros ([b x] & Hb & Hin)%list_elem_of_fmap. simpl in Hb. subst b.
        specialize (Hk a). rewrite bool_decide_eq_true_2 in Hk by done. simpl in Hk.
        assert (Hz : length (map snd (List.filter (fun p => bool_decide (p.1 = a)) pairs)) = 0%nat) by lia.
        by apply (proj2 Hnone Hz x).
      * apply IH. intros k. specialize (Hk k). case_bool_decide; simpl in Hk; lia.
Qed.

(** No collision is reported exactly when, ignoring case, no alias occurs twice among
    the aliases of all concepts. *)
Theorem no_collision_iff_distinct concepts :
  detect_alias_collisions concepts = []
  <-> NoDup (flat_map (fun c => map lower (seed_aliases c)) (ovalues concepts)).
Proof.
  assert (Hkeys : flat_map (fun c => map lower (seed_aliases c)) (ovalues concepts)
                  = map fst (alias_pairs concepts)).
  { unfold alias_pairs. induction (ovalues concepts) as [|c cs IH]; [done|]. simpl.
    rewrite map_app, <- IH. f_equal. rewrite map_map. by apply map_ext. }
  rewrite Hkeys, NoDup_occurrences. unfold detect_alias_collisions. rewrite collect_aliases.
  set (owners := collect [] (alias_pairs concepts)).
  assert (Hnd : NoDup (okeys owners)) by (apply NoDup_collect; constructor).
  assert (Hget : forall k, default [] (oget k owners) = occurrences k (alias_pairs concepts))
    by (intros; unfold owners; by rewrite oget_collect).
  split.
  - intros Hd%map_eq_nil k. rewrite <- Hget. destruct (oget k owners) as [l|] eqn:E; [|simpl; lia].
    apply oget_Some_elem, list_elem_of_In in E. simpl.
    destruct (le_lt_dec (length l) 1) as [|Hgt]; [done|exfalso].
    assert (Hin : In (k, l) (List.filter (fun kv : string * list string => 1 <? Z.of_nat (length kv.2)) owners))
      by (apply filter_In; split; [done|simpl; lia]).
    by rewrite Hd in Hin.
  - intros Hk. destruct (List.filter _ owners) as [|[k l] rest] eqn:E; [done|exfalso].
    assert (Hin : In (k, l) (List.filter (fun kv : string * list string => 1 <? Z.of_nat (length kv.2)) owners))
      by (rewrite E; by left).
    apply filter_In in Hin as [Hin Hlt]. apply list_elem_of_In in Hin. simpl in Hlt.
    specialize (Hk k). rewrite <- Hget, (oget_elem_NoDup _ _ _ Hnd Hin) in Hk. simpl in Hk. lia.
Qed.
End aliases.
