(* ===== verification/ScoringPolicy.v ===== *)
(** * Scoring contracts and policy documents

    [application/scoring/contracts.py] (evaluations, explanations, comparisons) and
    [application/scoring/policy.py]: the policy document, parsed with every error
    code collected before it is refused. *)

From S2P Require Export Criteria RadarContracts.

(** ** Contracts *)

Inductive EvaluationState := Match | Mismatch | Unknown.
Inductive EvidenceLevel := Strong | Medium | Low.

#[export] Instance EvaluationState_eq_dec : EqDecision EvaluationState.
Proof. solve_decision. Defined.
#[export] Instance EvidenceLevel_eq_dec : EqDecision EvidenceLevel.
Proof. solve_decision. Defined.

Abbreviation refs := (list (odict string pyval)) (only parsing).

Record PolicyVersion := MkPolicyVersion {
  polv_version_id : Z; polv_policy_id : Z; polv_policy_version : Z;
  polv_contract_version : string; polv_payload : odict string pyval; polv_created_at : Z;
  polv_correlation_id : Z; polv_actor_kind : string; polv_actor_id : option string
}.

Record CriterionEvaluation := MkCriterionEvaluation {
  ce_evaluation_id : Z; ce_run_id : Z; ce_listing_id : Z; ce_criterion_key : string;
  ce_criterion_version : string; ce_matcher_type : string; ce_params : odict string pyval;
  ce_input_refs : refs; ce_score : float; ce_confidence : float; ce_state : EvaluationState;
  ce_contribution : float; ce_reason_code : string; ce_evidence_refs : refs;
  ce_created_at : Z; ce_correlation_id : Z
}.

Record ExplanationReason := MkExplanationReason {
  er_criterion_key : string; er_state : EvaluationState; er_score : float; er_confidence : float;
  er_contribution : float; er_evidence_level : EvidenceLevel; er_reason_code : string;
  er_evidence_refs : refs; er_text : string
}.

Record ExplanationRisk := MkExplanationRisk {
  risk_criterion_key : string; risk_state : EvaluationState; risk_reason_code : string;
  risk_text : string
}.

Record Explanation := MkExplanation {
  exp_search_profile_id : Z; exp_run_id : Z; exp_listing_id : Z; exp_score_version : string;
  exp_score : float; exp_confidence : float; exp_reasons : list ExplanationReason;
  exp_risks : list ExplanationRisk; exp_missing_data : list string;
  exp_satisfied_filters : list string; exp_profile_snapshot : odict string pyval;
  exp_feature_snapshot : odict string pyval
}.

Inductive DimensionKind := FixedDimension | CriterionDimension.

#[export] Instance DimensionKind_eq_dec : EqDecision DimensionKind.
Proof. solve_decision. Defined.

Record ComparisonDimension := MkComparisonDimension {
  dim_kind : DimensionKind; dim_key : string; dim_label : string; dim_concept : option string
}.

Record ComparisonCell := MkComparisonCell {
  cell_listing_id : Z; cell_dimension_key : string; cell_value : pyval;
  cell_state : EvaluationState; cell_missing : bool; cell_evidence_refs : refs
}.

(** [cmp_listings] holds the listing id and the position of each item. *)
Record Comparison := MkComparison {
  cmp_search_profile_id : Z; cmp_run_id : Z; cmp_score_version : string; cmp_limit : Z;
  cmp_listings : list (Z * Z); cmp_dimensions : list ComparisonDimension;
  cmp_cells : list ComparisonCell
}.

Definition ComparisonLimitExceeded (limit : Z) : exn :=
  ScoringValidationError ["comparison.limit_exceeded:" ++ str_of_Z limit].
Definition ComparisonDuplicateListing : exn :=
  ScoringValidationError ["comparison.duplicate_listing"].

(** ** Policy documents *)

Definition FIXED_CRITERIA_KEYS : list string := ["presupuesto"; "ambientes"; "superficie"; "ubicacion"].
Definition _SUPPORTED_GATES : list string :=
  ["cap_0.6_on_mismatch"; "cap_0.6_on_unknown"; "exclude_on_mismatch"].
Definition _SUPPORTED_TIE_KEYS : list string := ["score"; "total_cost_asc"; "listing_id_asc"].
Definition _WEIGHT_EPSILON : float := flit 1 1000000.

Definition is_fixed_criterion (key : string) : bool := bool_decide (key ∈ FIXED_CRITERIA_KEYS).

(** [gate] keeps the document's value; only a supported one survives parsing. *)
Record PolicyCriterion := MkPolicyCriterion {
  pc_key : string; pc_concept : string; pc_matcher_type : string; pc_weight : float;
  pc_params : odict string pyval; pc_gate : pyval
}.

Record PolicyBonusPenalty := MkPolicyBonusPenalty {
  bp_criterion : string; bp_state : EvaluationState; bp_delta : float
}.

Record ScoringPolicyDoc := MkScoringPolicyDoc {
  doc_contract_version : string; score_policy_version : string; normalization : string;
  score_round : Z; confidence : odict string float; criteria : list PolicyCriterion;
  bonuses : list PolicyBonusPenalty; penalties : list PolicyBonusPenalty;
  tie_break : list string
}.

Definition state_of_val (v : pyval) : option EvaluationState :=
  match v with
  | VStr s => if bool_decide (s = "match") then Some Match
              else if bool_decide (s = "mismatch") then Some Mismatch
              else if bool_decide (s = "unknown") then Some Unknown
              else None
  | _ => None
  end.

(** [lo <= x <= hi] *)
Definition in_frange (lo x hi : float) : bool := fleb lo x && fleb x hi.

(** [_parse_criterion]; [keys] is the caller's set, updated in place. *)
Definition _parse_criterion (raw : pyval) (mts : MatcherTypesSpec) (keys : list string)
  : checked (list string * option PolicyCriterion) :=
  match raw with
  | VDict raw =>
      match dget "key" raw with
      | VStr key =>
          if bool_decide (key = "") then emit "policy.criterion_key_required" ;; mret (keys, None)
          else if bool_decide (key ∈ keys)
          then emit ("policy.duplicate_criterion:" ++ key) ;; mret (keys, None)
          else
            let keys := key :: keys in
            match dget "concept" raw with
            | VStr concept =>
                if bool_decide (concept = "")
                then emit ("policy.criterion_concept_required:" ++ key) ;; mret (keys, None)
                else
                  match dget "matcher_type" raw with
                  | VStr matcher_type =>
                      match oget matcher_type (matcher_types mts) with
                      | None => emit "policy.unsupported_matcher_type" ;; mret (keys, None)
                      | Some spec =>
                          params ← match dget "params" raw with
                                   | VDict d => mret d
                                   | _ => emit ("policy.params_invalid:" ++ key) ;; mret []
                                   end;
                          emit_if (negb (forallb (fun k => bool_decide (k ∈ allowed_params spec))
                                           (okeys params))) "policy.invalid_param" ;;
                          weight ← pure (as_float (dget "weight" raw));
                          emit_if (match weight with
                                   | None => true
                                   | Some w => negb (in_frange (FFin 0) w (FFin 1))
                                   end) ("policy.invalid_weight:" ++ key) ;;
                          let gate := dget "gate" raw in
                          emit_if (negb (is_none gate) && negb (py_in gate (map VStr _SUPPORTED_GATES)))
                            "policy.unsupported_gate" ;;
                          mret (keys, Some (MkPolicyCriterion key concept matcher_type
                                              (default (FFin 0) weight) (oupdate [] params) gate))
                      end
                  | _ => emit ("policy.unsupported_matcher_type:" ++ key) ;; mret (keys, None)
                  end
            | _ => emit ("policy.criterion_concept_required:" ++ key) ;; mret (keys, None)
            end
      | _ => emit "policy.criterion_key_required" ;; mret (keys, None)
      end
  | _ => emit "policy.criterion_invalid_shape" ;; mret (keys, None)
  end.

(** The loop over the raw criteria *)
Definition parse_criteria (raw : list pyval) (mts : MatcherTypesSpec)
  : checked (list PolicyCriterion) :=
  acc ← fold_checked (fun (acc : list string * list PolicyCriterion) entry =>
          '(keys, parsed) ← _parse_criterion entry mts acc.1;
          mret (keys, match parsed with
                      | Some c => acc.2 ++ [c]
                      | None => acc.2
                      end)%list)
        ([], []) raw;
  mret acc.2.

Definition max_delta : float := flit 2 10.

Definition parse_delta (known : list string) (error_code : string) (entry : pyval)
  : checked (option PolicyBonusPenalty) :=
  match entry with
  | VDict d =>
      delta ← pure (as_float (dget "delta" d));
      is_known ← pure (in_str_set (dget "criterion" d) known);
      valid_state ← (if is_known then pure (in_str_set (dget "state" d) ["match"; "mismatch"; "unknown"])
                     else mret false);
      if negb (is_known && valid_state) then emit error_code ;; mret None
      else
        let criterion := py_str (dget "criterion" d) in
        match delta, state_of_val (dget "state" d) with
        | Some x, Some state =>
            if in_frange (fneg max_delta) x max_delta
            then mret (Some (MkPolicyBonusPenalty criterion state x))
            else emit ("policy.invalid_delta:" ++ criterion) ;; mret None
        | _, _ => emit ("policy.invalid_delta:" ++ criterion) ;; mret None
        end
  | _ => emit error_code ;; mret None
  end.

Definition _parse_deltas (raw : pyval) (cs : list PolicyCriterion) (error_code : string)
  : checked (list PolicyBonusPenalty) :=
  match raw with
  | VNone => mret []
  | VList l =>
      fold_checked (fun acc entry =>
          parsed ← parse_delta (map pc_key cs) error_code entry;
          mret (match parsed with Some b => acc ++ [b] | None => acc end)%list) [] l
  | _ => emit error_code ;; mret []
  end.

Definition _tie_break (raw : pyval) : checked (list string) :=
  match raw with
  | VList (x :: l) =>
      if negb (bool_decide (py_str x = "score")) then emit "policy.invalid_tie_break" ;; mret []
      else
        let rest := map py_str l in
        let unsupported := filter (fun k => k ∉ _SUPPORTED_TIE_KEYS) rest in
        emit_if (negb (bool_decide (unsupported = [])))
          ("policy.invalid_tie_break:" ++ join "," unsupported) ;;
        mret (py_str x :: rest)
  | _ => emit "policy.invalid_tie_break" ;; mret []
  end.

(** [_as_float(v, d) or d]: zero falls back to the default too. *)
Definition float_or (v : pyval) (d : float) : result float :=
  x ← as_float v;
  let x := default d x in
  Ok (if feqb x (FFin 0) then d else x).

Definition _confidence (raw : pyval) : result (odict string float) :=
  match raw with
  | VDict d =>
      u ← float_or (dget "unknown_penalty" d) (flit 2 10);
      s ← float_or (dget "strong_threshold" d) (flit 8 10);
      m ← float_or (dget "medium_threshold" d) (flit 5 10);
      Ok [("unknown_penalty", u); ("strong_threshold", s); ("medium_threshold", m)]
  | _ => Ok [("unknown_penalty", flit 2 10); ("strong_threshold", flit 8 10);
             ("medium_threshold", flit 5 10)]
  end.

(** Everything but the final refusal: the document it would build and the errors *)
Definition check_policy_document (data : odict string pyval) (mts : MatcherTypesSpec)
  : checked ScoringPolicyDoc :=
  emit_if (negb (py_eqb (dget "contract_version" data) (VStr "1")))
    "policy.unsupported_contract_version" ;;
  let spv := dget "score_policy_version" data in
  emit_if (match spv with VStr s => bool_decide (s = "") | _ => true end)
    "policy.score_policy_version_required" ;;
  let norm := py_str (dget_default "normalization" (VStr "weighted_sum") data) in
  emit_if (negb (bool_decide (norm = "weighted_sum"))) "policy.unsupported_normalization" ;;
  let round := as_int (dget "score_round" data) 4 in
  emit_if (negb ((2 <=? round) && (round <=? 6))) "policy.invalid_score_round" ;;
  conf ← pure (_confidence (dget "confidence" data));
  cs ← match dget "criteria" data with
       | VList (x :: l) =>
           cs ← parse_criteria (x :: l) mts;
           let total := fsum (map pc_weight cs) in
           emit_if (fltb _WEIGHT_EPSILON (fabs (fsub total (FFin 1)))) "policy.weights_not_normalizing" ;;
           mret cs
       | _ => emit "policy.criteria_required" ;; mret []
       end;
  bs ← _parse_deltas (dget "bonuses" data) cs "policy.unknown_criterion_reference";
  ps ← _parse_deltas (dget "penalties" data) cs "policy.unknown_criterion_reference";
  tb ← _tie_break (dget "tie_break" data);
  mret (MkScoringPolicyDoc (py_str (dget "contract_version" data)) (py_str spv) norm round conf
          cs bs ps tb).

Definition parse_policy_document (data : odict string pyval) (mts : MatcherTypesSpec)
  : result ScoringPolicyDoc :=
  '(doc, errors) ← check_policy_document data mts [];
  if negb (bool_decide (errors = [])) then Raise (ScoringValidationError errors) else Ok doc.

(** * Criterion evaluators ([application/scoring/evaluators.py])

    Each evaluator returns a score, a confidence, a state and a reason code; missing
    data is the state [Unknown], never a mismatch. *)
Record EvaluationResult := MkEvaluationResult {
  res_score : float; res_confidence : float; res_state : EvaluationState; res_reason_code : string
}.

Definition half : float := flit 1 2.
Definition f0 : float := FFin 0.
Definition f1 : float := FFin 1.

Definition unknown_result : EvaluationResult :=
  MkEvaluationResult f0 f0 Unknown "no_observation_data".

(** [_PRECISION_CONFIDENCE]; the fit table holds the same numbers. *)
Definition _PRECISION_CONFIDENCE (g : GeoPrecision) : float :=
  match g with
  | Exact => f1
  | Block => flit 95 100
  | Neighborhood => flit 9 10
  | Approximate => flit 7 10
  | UnknownPrecision => flit 5 10
  end.

Definition evaluate_numeric_range (value : pyval) (params : odict string pyval)
  : result EvaluationResult :=
  minimum ← as_float (dget "min" params);
  maximum ← as_float (dget "max" params);
  number ← as_float value;
  match number with
  | None => Ok unknown_result
  | Some number =>
      if match minimum with Some m => fltb number m | None => false end
      then Ok (MkEvaluationResult f0 f1 Mismatch "concept_missing")
      else if match maximum with Some m => fltb m number | None => false end
      then Ok (MkEvaluationResult (flit 7 10) f1 Match "concept_observed")
      else Ok (MkEvaluationResult f1 f1 Match "concept_observed")
  end.

Definition evaluate_categorical (value : pyval) (params : odict string pyval) : EvaluationResult :=
  if is_none value then unknown_result
  else
    let allowed_values := match dget "allowed_values" params with VList l => l | _ => [] end in
    if py_in value allowed_values then MkEvaluationResult f1 f1 Match "concept_observed"
    else MkEvaluationResult f0 f1 Mismatch "concept_missing".

Definition evaluate_semantic_feature (observation_score observation_confidence : pyval)
    (params : odict string pyval) : result EvaluationResult :=
  score ← as_float observation_score;
  match score with
  | None => Ok unknown_result
  | Some score =>
      threshold ← float_or (dget "threshold" params) half;
      confidence ← as_float observation_confidence;
      let confidence := default score confidence in
      let state := if fleb threshold score then Match else Mismatch in
      let reason := if bool_decide (state = Match) then "concept_observed" else "concept_missing" in
      Ok (MkEvaluationResult (fround score 4) (if feqb confidence f0 then f0 else confidence)
            state reason)
  end.

Definition evaluate_geo_proximity (in_zone : bool) (g : GeoPrecision) : EvaluationResult :=
  let confidence := _PRECISION_CONFIDENCE g in
  if in_zone then MkEvaluationResult f1 confidence Match "location_near_preferred"
  else MkEvaluationResult (flit 3 10) confidence Mismatch "location_outside_preferred".

(** The four branches of [evaluate_fixed_criterion] *)
Definition evaluate_budget (budget_max : float) (total_cost : option float)
  : result EvaluationResult :=
  match total_cost with
  | None => Ok unknown_result
  | Some total_cost =>
      if fleb budget_max f0 then Ok (MkEvaluationResult f1 f1 Match "budget_within_headroom")
      else if fltb budget_max total_cost then Ok (MkEvaluationResult f0 f1 Mismatch "budget_over_max")
      else
        ratio ← fdiv (fsub budget_max total_cost) budget_max;
        let fit := fmax f0 (fmin f1 ratio) in
        Ok (MkEvaluationResult (fround fit 4) f1 Match "budget_within_headroom")
  end.

Definition evaluate_rooms (min_rooms : Z) (rooms : option Z) : EvaluationResult :=
  if min_rooms =? 0 then MkEvaluationResult f1 f1 Match "rooms_match"
  else
    match rooms with
    | None => MkEvaluationResult half f0 Unknown "no_observation_data"
    | Some rooms =>
        if rooms =? min_rooms then MkEvaluationResult f1 f1 Match "rooms_match"
        else MkEvaluationResult (flit 85 100) f1 Match "rooms_above_min"
    end.

Definition surface_result (score : float) : EvaluationResult :=
  MkEvaluationResult score f1 Match "surface_within_bounds".

Definition evaluate_surface (surface_min surface_max surface_m2 : option float) : EvaluationResult :=
  match surface_min, surface_max with
  | None, None => surface_result f1
  | _, _ =>
      match surface_m2 with
      | None => MkEvaluationResult half f0 Unknown "no_observation_data"
      | Some m2 =>
          if match surface_min with Some m => fltb m2 m | None => false end
          then MkEvaluationResult half f1 Mismatch "concept_missing"
          else
            match surface_max with
            | None => surface_result f1
            | Some m =>
                if fleb m2 m then surface_result f1
                else if fleb m2 (fmul m (flit 15 10)) then surface_result (flit 8 10)
                else surface_result (flit 6 10)
            end
      end
  end.

Definition evaluate_location (zones : list string) (neighborhood : option string) (g : GeoPrecision)
  : EvaluationResult :=
  let in_zone := match neighborhood with
                 | None => false
                 | Some n => existsb (fun z => bool_decide (casefold z = casefold n)) zones
                 end in
  evaluate_geo_proximity in_zone g.

Definition evaluate_fixed_criterion (key : string) (budget_max : float) (total_cost : option float)
    (min_rooms : Z) (rooms : option Z) (surface_min surface_max surface_m2 : option float)
    (zones : list string) (neighborhood : option string) (g : GeoPrecision)
  : result EvaluationResult :=
  if bool_decide (key = "presupuesto") then evaluate_budget budget_max total_cost
  else if bool_decide (key = "ambientes") then Ok (evaluate_rooms min_rooms rooms)
  else if bool_decide (key = "superficie") then Ok (evaluate_surface surface_min surface_max surface_m2)
  else if bool_decide (key = "ubicacion") then Ok (evaluate_location zones neighborhood g)
  else Ok unknown_result.

Definition evaluate_observation_criterion (criterion : PolicyCriterion)
    (value score confidence : pyval) : result EvaluationResult :=
  if bool_decide (pc_matcher_type criterion = "numeric_range")
  then evaluate_numeric_range value (pc_params criterion)
  else if bool_decide (pc_matcher_type criterion = "categorical")
  then Ok (evaluate_categorical value (pc_params criterion))
  else if bool_decide (pc_matcher_type criterion = "semantic_feature")
  then evaluate_semantic_feature score confidence (pc_params criterion)
  else Ok (evaluate_geo_proximity false UnknownPrecision).
