(* ===== verification/ScoringEngine.v ===== *)
(** * The scoring engine ([application/scoring/engine.py])

    Scores the candidates of a run against a policy and sorts them.  The engine is
    a function of its inputs, but for the evaluation ids it draws. *)

From S2P Require Export ScoringPolicy.

Record ScoredCandidate := MkScoredCandidate {
  cand_listing_id : Z; cand_score : float; cand_confidence : float;
  cand_contributions : odict string pyval; cand_evaluations : list CriterionEvaluation
}.

Abbreviation observations_by_concept := (odict string ListingObservation) (only parsing).
Abbreviation observations_by_listing := (odict Z (odict string ListingObservation)) (only parsing).

Definition field_of_criterion (key : string) : string :=
  if bool_decide (key = "presupuesto") then "total_cost"
  else if bool_decide (key = "ambientes") then "rooms"
  else if bool_decide (key = "superficie") then "surface_m2"
  else if bool_decide (key = "ubicacion") then "neighborhood"
  else key.

Definition _evaluate_criterion (criterion : PolicyCriterion) (profile : SearchProfile)
    (listing : NormalizedListing) (observations : observations_by_concept)
  : result (EvaluationResult * refs) :=
  if is_fixed_criterion (pc_key criterion) then
    r ← evaluate_fixed_criterion (pc_key criterion) (budget_max profile) (total_cost listing)
          (min_rooms profile) (rooms listing) (surface_min profile) (surface_max profile)
          (surface_m2 listing) (zones profile) (neighborhood listing) (geo_precision listing);
    Ok (r, [[("kind", VStr "listing_field"); ("ref", VStr (field_of_criterion (pc_key criterion)));
             ("version", VStr "silver-v1")]])
  else
    match oget (pc_concept criterion) observations with
    | None => Ok (unknown_result, [])
    | Some o =>
        r ← evaluate_observation_criterion criterion (obs_value o) (VFloat (obs_score o))
              (VFloat (obs_confidence o));
        Ok (r, [[("kind", VStr "observation"); ("ref", VStr (uuid_str (observation_id o)));
                 ("version", VStr (match obs_extraction_version_id o with
                                   | Some v => uuid_str v
                                   | None => ""
                                   end))]])
    end.

Definition _evaluation (evaluation_id : Z) (criterion : PolicyCriterion) (run_id listing_id : Z)
    (version_key : string) (r : EvaluationResult) (input_refs : refs) (contribution : float)
    (now correlation_id : Z) : CriterionEvaluation :=
  MkCriterionEvaluation evaluation_id run_id listing_id (pc_key criterion) version_key
    (pc_matcher_type criterion) (pc_params criterion) input_refs (res_score r) (res_confidence r)
    (res_state r) contribution (res_reason_code r) input_refs now correlation_id.

Definition gate_is (criterion : PolicyCriterion) (gate : string) : bool :=
  py_eqb (pc_gate criterion) (VStr gate).

Definition _result_for (evaluations : list CriterionEvaluation) (key : string)
  : option CriterionEvaluation :=
  find_first (fun e => bool_decide (ce_criterion_key e = key)) evaluations.

Definition _contribution_score (evaluations : list CriterionEvaluation) (key : string) : float :=
  match _result_for evaluations key with Some e => ce_score e | None => f0 end.

Definition by_criterion_key (evaluations : list CriterionEvaluation)
  : odict string CriterionEvaluation :=
  oupdate [] (map (fun e => (ce_criterion_key e, e)) evaluations).

Definition _apply_deltas (base : float) (policy : ScoringPolicyDoc)
    (evaluations : list CriterionEvaluation) : float :=
  foldl (fun base adjustment =>
           match oget (bp_criterion adjustment) (by_criterion_key evaluations) with
           | Some e => if bool_decide (ce_state e = bp_state adjustment)
                       then fadd base (bp_delta adjustment) else base
           | None => base
           end) base (bonuses policy ++ penalties policy)%list.

(** The factor of a policy's confidence table, with its default *)
Definition confidence_get (k : string) (d : float) (policy : ScoringPolicyDoc) : float :=
  default d (oget k (confidence policy)).

Definition unknown_count (evaluations : list CriterionEvaluation) : Z :=
  Z.of_nat (length (List.filter (fun e => bool_decide (ce_state e = Unknown)) evaluations)).

Definition _run_confidence (evaluations : list CriterionEvaluation) (policy : ScoringPolicyDoc)
  : result float :=
  match evaluations with
  | [] => Ok f0
  | _ =>
      n ← float_of_int (Z.of_nat (length evaluations));
      base ← fdiv (fsum (map ce_confidence evaluations)) n;
      count ← float_of_int (unknown_count evaluations);
      let penalty := confidence_get "unknown_penalty" (flit 2 10) policy in
      Ok (fround (fmax f0 (fsub base (fmul penalty count))) 3)
  end.

(** [gate] is set on some criterion whose evaluation is in [state]. *)
Definition gate_hit (gate : string) (state : EvaluationState) (policy : ScoringPolicyDoc)
    (evaluations : list CriterionEvaluation) : bool :=
  existsb (fun c => gate_is c gate &&
                    match _result_for evaluations (pc_key c) with
                    | Some e => bool_decide (ce_state e = state)
                    | None => false
                    end) (criteria policy).

Definition gate_cap : float := flit 6 10.

(** From the sum of contributions to the score *)
Definition total_score (contribution_sum : float) (policy : ScoringPolicyDoc)
    (evaluations : list CriterionEvaluation) : float :=
  let total := _apply_deltas contribution_sum policy evaluations in
  let total := if gate_hit "cap_0.6_on_mismatch" Mismatch policy evaluations
               then fmin total gate_cap else total in
  let total := if gate_hit "cap_0.6_on_unknown" Unknown policy evaluations
               then fmin total gate_cap else total in
  fround (fmax f0 (fmin f1 total)) (score_round policy).

Definition contributions_of (policy : ScoringPolicyDoc) (evaluations : list CriterionEvaluation)
  : odict string pyval :=
  oset "score_policy_version" (VStr (score_policy_version policy))
    (oupdate [] (map (fun c => (pc_key c, VFloat (_contribution_score evaluations (pc_key c))))
                   (criteria policy))).

Section engine.
Context {S : Type}.

(** The loop over the criteria; [None] when an exclusion gate stopped it. *)
Fixpoint evaluate_loop (cs : list PolicyCriterion) (profile : SearchProfile)
    (listing : NormalizedListing) (observations : observations_by_concept) (version_key : string)
    (run_id correlation_id now : Z) (contribution_sum : float)
    (evaluations : list CriterionEvaluation)
  : M S (option (float * list CriterionEvaluation)) :=
  match cs with
  | [] => mret (Some (contribution_sum, evaluations))
  | criterion :: cs' =>
      '(r, input_refs) ← lift (_evaluate_criterion criterion profile listing observations);
      if gate_is criterion "exclude_on_mismatch" && bool_decide (res_state r = Mismatch)
      then mret None
      else
        let contribution := fround (fmul (pc_weight criterion) (res_score r)) 6 in
        id ← uuid4;
        let e := _evaluation id criterion run_id (listing_id listing) version_key r input_refs
                   contribution now correlation_id in
        evaluate_loop cs' profile listing observations version_key run_id correlation_id now
          (fadd contribution_sum contribution) (evaluations ++ [e])%list
  end.

Definition _score_candidate (profile : SearchProfile) (listing : NormalizedListing)
    (observations : observations_by_concept) (policy : ScoringPolicyDoc)
    (run_id correlation_id now : Z) : M S (option ScoredCandidate) :=
  let version_key := "policy:" ++ score_policy_version policy in
  out ← evaluate_loop (criteria policy) profile listing observations version_key run_id
          correlation_id now f0 [];
  match out with
  | None => mret None
  | Some (contribution_sum, evaluations) =>
      conf ← lift (_run_confidence evaluations policy);
      mret (Some (MkScoredCandidate (listing_id listing)
                    (total_score contribution_sum policy evaluations) conf
                    (contributions_of policy evaluations) evaluations))
  end.

Fixpoint score_all (profile : SearchProfile) (candidates : list NormalizedListing)
    (observations : observations_by_listing) (policy : ScoringPolicyDoc)
    (run_id correlation_id now : Z) : M S (list ScoredCandidate) :=
  match candidates with
  | [] => mret []
  | listing :: rest =>
      c ← _score_candidate profile listing (default [] (oget (listing_id listing) observations))
            policy run_id correlation_id now;
      cs ← score_all profile rest observations policy run_id correlation_id now;
      mret (match c with Some c => c :: cs | None => cs end)
  end.
End engine.

(** [listing.total_cost or 0.0] *)
Definition cost_or_zero (l : NormalizedListing) : float :=
  match total_cost l with Some c => if feqb c f0 then f0 else c | None => f0 end.

Definition _total_cost (id : Z) (candidates : list NormalizedListing) : float :=
  match find_first (fun l => listing_id l =? id) candidates with
  | Some l => cost_or_zero l
  | None => f0
  end.

(** The comparison of two sort keys, tuples compared component by component *)
Definition score_cost_ltb (cost : Z -> float) (a b : ScoredCandidate) : bool :=
  let sa := fneg (cand_score a) in
  let sb := fneg (cand_score b) in
  if negb (feqb sa sb) then fltb sa sb
  else if negb (feqb (cost (cand_listing_id a)) (cost (cand_listing_id b)))
  then fltb (cost (cand_listing_id a)) (cost (cand_listing_id b))
  else str_ltb (uuid_str (cand_listing_id a)) (uuid_str (cand_listing_id b)).

Definition score_ltb (a b : ScoredCandidate) : bool :=
  let sa := fneg (cand_score a) in
  let sb := fneg (cand_score b) in
  if negb (feqb sa sb) then fltb sa sb
  else str_ltb (uuid_str (cand_listing_id a)) (uuid_str (cand_listing_id b)).

Definition sort_candidates (policy : ScoringPolicyDoc) (candidates : list NormalizedListing)
    (scored : list ScoredCandidate) : list ScoredCandidate :=
  if bool_decide (tie_break policy = ["score"; "total_cost_asc"; "listing_id_asc"])
  then sort_by (score_cost_ltb (fun id => _total_cost id candidates)) scored
  else sort_by score_ltb scored.

(** [compilation] is an argument of the source that nothing reads. *)
Definition score_candidates {S} (profile : SearchProfile) (compilation : Compilation)
    (candidates : list NormalizedListing) (observations : observations_by_listing)
    (policy : ScoringPolicyDoc) (run_id correlation_id now : Z) : M S (list ScoredCandidate) :=
  scored ← score_all profile candidates observations policy run_id correlation_id now;
  mret (sort_candidates policy candidates scored).

(** * Explanations and comparisons

    [application/scoring/explanations.py] and [application/scoring/comparison.py]:
    both are built from the frozen evaluations of a run and nothing else. *)
(** ** Explanations *)

Definition evidence_level (c : float) (policy : ScoringPolicyDoc) : EvidenceLevel :=
  if fleb (confidence_get "strong_threshold" (flit 8 10) policy) c then Strong
  else if fleb (confidence_get "medium_threshold" half policy) c then Medium
  else Low.

Definition _template_text (reason_code : string) (templates : odict string string)
    (values : list (string * string)) : string :=
  foldl (fun text kv => replace text ("{" ++ kv.1 ++ "}") kv.2)
    (default reason_code (oget ("reason." ++ reason_code) templates)) values.

Definition evaluation_text (templates : odict string string) (e : CriterionEvaluation) : string :=
  _template_text (ce_reason_code e) templates
    [("criterion", ce_criterion_key e); ("concept", ce_criterion_key e);
     ("confidence", format_2f (ce_confidence e))].

Definition risk_of (templates : odict string string) (e : CriterionEvaluation) : ExplanationRisk :=
  MkExplanationRisk (ce_criterion_key e) (ce_state e) (ce_reason_code e) (evaluation_text templates e).

Definition reason_of (policy : ScoringPolicyDoc) (templates : odict string string)
    (e : CriterionEvaluation) : ExplanationReason :=
  MkExplanationReason (ce_criterion_key e) (ce_state e) (ce_score e) (ce_confidence e)
    (ce_contribution e) (evidence_level (ce_confidence e) policy) (ce_reason_code e)
    (ce_evidence_refs e) (evaluation_text templates e).

(** The three lists the loop fills: reasons, risks, missing data *)
Definition explain_one (policy : ScoringPolicyDoc) (templates : odict string string)
    (acc : list ExplanationReason * list ExplanationRisk * list string) (e : CriterionEvaluation)
  : list ExplanationReason * list ExplanationRisk * list string :=
  let '(reasons, risks, missing) := acc in
  if bool_decide (ce_state e = Unknown)
  then (reasons, risks ++ [risk_of templates e], missing ++ [ce_criterion_key e])%list
  else
    (reasons ++ [reason_of policy templates e],
     (if fltb (ce_confidence e) (confidence_get "medium_threshold" half policy)
      then risks ++ [risk_of templates e] else risks),
     missing)%list.

Fixpoint dedupe_risks_from (seen : list (string * EvaluationState)) (risks : list ExplanationRisk)
  : list ExplanationRisk :=
  match risks with
  | [] => []
  | r :: rs =>
      let identity := (risk_criterion_key r, risk_state r) in
      if bool_decide (identity ∈ seen) then dedupe_risks_from seen rs
      else r :: dedupe_risks_from (identity :: seen) rs
  end.
Definition _dedupe_risks (risks : list ExplanationRisk) : list ExplanationRisk :=
  dedupe_risks_from [] risks.

Definition build_explanation (search_profile_id run_id listing_id : Z) (score conf : float)
    (evaluations : list CriterionEvaluation) (policy : ScoringPolicyDoc)
    (templates : odict string string) (satisfied_filters : list string)
    (profile_version_id : Z) : Explanation :=
  let '(reasons, risks, missing) :=
    foldl (explain_one policy templates) ([], [], []) evaluations in
  MkExplanation search_profile_id run_id listing_id (score_policy_version policy) score conf
    reasons (_dedupe_risks risks) missing satisfied_filters
    [("profile_version_id", VStr (uuid_str profile_version_id));
     ("policy_version_id", VStr (score_policy_version policy))]
    [("evaluation_version_key",
      VStr ("run:" ++ uuid_str run_id ++ ":listing:" ++ uuid_str listing_id))].

(** ** Comparisons *)

Definition fixed_dimension (key label : string) : ComparisonDimension :=
  MkComparisonDimension FixedDimension key label None.

Definition _FIXED_DIMENSIONS : list ComparisonDimension :=
  [fixed_dimension "total_cost" "precio total"; fixed_dimension "expenses" "expensas";
   fixed_dimension "surface_m2" "superficie"; fixed_dimension "rooms" "ambientes";
   fixed_dimension "bedrooms" "dormitorios";
   fixed_dimension "location" "ubicacion / precision"; fixed_dimension "score" "score"].

Definition opt_float (f : option float) : pyval :=
  match f with Some f => VFloat f | None => VNone end.
Definition opt_int (z : option Z) : pyval :=
  match z with Some z => VInt z | None => VNone end.

Definition listing_field (key : string) (l : NormalizedListing) : pyval :=
  if bool_decide (key = "total_cost") then opt_float (total_cost l)
  else if bool_decide (key = "expenses") then opt_float (expenses_value l)
  else if bool_decide (key = "surface_m2") then opt_float (surface_m2 l)
  else if bool_decide (key = "rooms") then opt_int (rooms l)
  else if bool_decide (key = "bedrooms") then opt_int (bedrooms l)
  else VNone.

(** [x or d] on an optional string *)
Definition str_or (x : option string) (d : string) : string :=
  match x with Some s => if bool_decide (s = "") then d else s | None => d end.

Definition _cell (item : RecommendationItem) (listing : option NormalizedListing)
    (evaluation : option CriterionEvaluation) (dimension : ComparisonDimension)
    (item_score : float) : ComparisonCell :=
  let key := dim_key dimension in
  let id := item_listing_id item in
  if bool_decide (dim_kind dimension = CriterionDimension) then
    match evaluation with
    | None => MkComparisonCell id key VNone Unknown true []
    | Some e => MkComparisonCell id key (VFloat (ce_score e)) (ce_state e) false (ce_evidence_refs e)
    end
  else if bool_decide (key = "score") then MkComparisonCell id key (VFloat item_score) Match false []
  else
    match listing with
    | None => MkComparisonCell id key VNone Unknown true []
    | Some l =>
        if bool_decide (key = "location") then
          MkComparisonCell id key
            (VStr (str_or (neighborhood l) "desconocido" ++ " (" ++ geo_str (geo_precision l) ++ ")"))
            Match false []
        else
          let field_value := listing_field key l in
          let missing := is_none field_value in
          MkComparisonCell id key field_value (if missing then Unknown else Match) missing []
    end.

Definition comparison_dimensions (policy : ScoringPolicyDoc) : list ComparisonDimension :=
  (_FIXED_DIMENSIONS
   ++ map (fun c => MkComparisonDimension CriterionDimension (pc_key c) (pc_key c) (Some (pc_concept c)))
        (List.filter (fun c => negb (is_fixed_criterion (pc_key c))) (criteria policy)))%list.

Definition build_comparison (profile : SearchProfile) (run_id : Z) (score_version : string)
    (limit : Z) (items : list RecommendationItem) (listings_by_id : odict Z NormalizedListing)
    (evaluations : odict Z (odict string CriterionEvaluation)) (policy : ScoringPolicyDoc)
  : Comparison :=
  let dimensions := comparison_dimensions policy in
  MkComparison (profile_id profile) run_id score_version limit
    (map (fun item => (item_listing_id item, item_position item)) items)
    dimensions
    (flat_map (fun item =>
       map (fun d => _cell item (oget (item_listing_id item) listings_by_id)
                       (oget (dim_key d) (default [] (oget (item_listing_id item) evaluations)))
                       d (item_score item)) dimensions) items).
