(* ===== verification/Events.v ===== *)
(** * Product events ([application/events/registry.py], [contracts.py])

    The closed registry of event types: parsing of the published document and
    validation of an event's payload. *)

From S2P Require Export Criteria.

Record ProductEvent := MkProductEvent {
  ev_event_id : Z; ev_event_type : string; ev_event_version : Z; ev_actor_id : option Z;
  ev_occurred_at : Z; ev_correlation_id : Z; ev_payload : odict string pyval
}.

Record EventTypeSpec := MkEventTypeSpec {
  ets_name : string; ets_version : Z; emitted_by : string; required_keys : list string
}.
Record EventsRegistrySpec := MkEventsRegistrySpec {
  ers_contract_version : string; ers_registry_version : string;
  event_types : odict string EventTypeSpec; forbidden_keys : list string;
  common_fields : list string
}.

(** [tuple(str(item) for item in v) if isinstance(v, list) else ()] *)
Definition str_items (v : pyval) : list string :=
  match v with VList l => map py_str l | _ => [] end.

Definition parse_event_type (name : string) (raw : pyval) : result EventTypeSpec :=
  match raw with
  | VDict d =>
      Ok (MkEventTypeSpec name (as_int (dget "version" d) 1)
            (py_str (dget_default "emitted_by" (VStr "server") d))
            (str_items (dget "required_keys" d)))
  | _ => Raise ValueError
  end.

Definition parse_events_registry (data : odict string pyval) : result EventsRegistrySpec :=
  check_contract_version data ;;
  registry_version ← required_str "registry_version" data;
  match dget "event_types" data with
  | VDict raw_types =>
      types ← fold_result (fun acc kv => t ← parse_event_type kv.1 kv.2; Ok (oset kv.1 t acc))
                [] raw_types;
      c ← dsub "contract_version" data;
      Ok (MkEventsRegistrySpec (py_str c) registry_version types
            (str_items (dget "forbidden_keys" data)) (str_items (dget "common_fields" data)))
  | _ => Raise ValueError
  end.

Definition validate_event (spec : EventsRegistrySpec) (event_type : string) (payload : pyval)
  : option string :=
  match oget event_type (event_types spec) with
  | None => Some "events.unknown_type"
  | Some type_spec =>
      match payload with
      | VDict d =>
          if negb (forallb (fun k => omem k d) (required_keys type_spec)) then Some "events.missing_keys"
          else if existsb (fun k => bool_decide (k ∈ forbidden_keys spec)) (okeys d)
          then Some "events.forbidden_keys"
          else if existsb (fun k => bool_decide (k ∉ required_keys type_spec)) (okeys d)
          then Some "events.extra_keys"
          else None
      | _ => Some "events.extra_keys"
      end
  end.

Definition event_version (spec : EventsRegistrySpec) (event_type : string) : option Z :=
  option_map ets_version (oget event_type (event_types spec)).

(** [version or 1] *)
Definition version_or_1 (v : option Z) : Z :=
  match v with Some z => if z =? 0 then 1 else z | None => 1 end.
