(* ===== verification/RadarPolicy.v ===== *)
(** * Profile policy, hard filters and baseline scoring

    [application/radar/profile_policy.py], [hard_filters.py] and [scoring.py]: the
    pure rules of the structured search radar. *)

From S2P Require Export Events ScoringPolicy.

(** ** The search-profile contract *)

Record SearchProfilePolicySpec := MkSearchProfilePolicySpec {
  spp_contract_version : string; policy_version : string; spp_operation : list string;
  neighborhoods : list string; limits : odict string pyval; states : list string;
  transitions : odict string (list string); unknown_strategies : odict string string;
  error_codes : odict string string
}.

(** The members of a mapping value, if it is one *)
Definition dict_items (v : pyval) : odict string pyval :=
  match v with VDict d => d | _ => [] end.

Definition parse_search_profile_policy (data : odict string pyval)
  : result SearchProfilePolicySpec :=
  check_contract_version data ;;
  policy_version ← required_str "policy_version" data;
  let transitions :=
    omap (fun kv => match kv.2 with
                    | VList values => Some (kv.1, map py_str values)
                    | _ => None
                    end) (dict_items (dget "transitions" data)) in
  c ← dsub "contract_version" data;
  Ok (MkSearchProfilePolicySpec (py_str c) policy_version (str_items (dget "operation" data))
        (str_items (dget "caba_neighborhoods" data)) (dict_items (dget "limits" data))
        (str_items (dget "states" data)) transitions
        (map (fun kv => (kv.1, py_str kv.2)) (dict_items (dget "unknown_strategies" data)))
        (map (fun kv => (kv.1, py_str kv.2)) (dict_items (dget "error_codes" data)))).

Definition _limit_int (spec : SearchProfilePolicySpec) (name : string) (d : Z) : Z :=
  as_int (dget name (limits spec)) d.

(** [isinstance(v, (int, float)) and not isinstance(v, bool)] *)
Definition is_plain_number (v : pyval) : bool := is_number v && negb (is_bool v).

(** [x <= y] and [x >= y] where both sides are numbers *)
Definition num_leb (x y : pyval) : bool :=
  match num_of x, num_of y with Some p, Some q => fleb p q | _, _ => false end.

Definition unique (l : list string) : list string :=
  rev (foldl (fun acc x => if bool_decide (x ∈ acc) then acc else x :: acc) [] l).

Definition validate_name (payload : odict string pyval) (spec : SearchProfilePolicySpec)
  : list string :=
  match dget "name" payload with
  | VStr s => if bool_decide (strip s = "") || (_limit_int spec "name_max_length" 80 <? len (strip s))
              then ["radar.name_required"] else []
  | _ => ["radar.name_required"]
  end.

Definition validate_zones (payload : odict string pyval) (spec : SearchProfilePolicySpec)
  : list string :=
  match dget "zones" payload with
  | VList (z :: zs) =>
      let raw_zones := z :: zs in
      let n := Z.of_nat (length raw_zones) in
      ((if (n <? _limit_int spec "zones_min" 1) || (_limit_int spec "zones_max" 15 <? n)
        then ["radar.zones_required"] else [])
       ++ flat_map (fun zone => match zone with
                                | VStr s => if bool_decide (s ∈ neighborhoods spec) then []
                                            else ["radar.zone_unknown"]
                                | _ => ["radar.zone_unknown"]
                                end) raw_zones)%list
  | _ => ["radar.zones_required"]
  end.

(** [budget_min >= budget_max] is compared also when [budget_max] is a boolean. *)
Definition validate_budget (payload : odict string pyval) : list string :=
  let budget_max := dget "budget_max" payload in
  let budget_min := dget "budget_min" payload in
  ((if negb (is_plain_number budget_max) then ["radar.budget_required"]
    else if num_leb budget_max (VInt 0) then ["radar.budget_required"] else [])
   ++ (if negb (is_none budget_min) && negb (is_plain_number budget_min) then ["radar.budget_range"]
       else if negb (is_none budget_min) && is_number budget_max && num_leb budget_max budget_min
       then ["radar.budget_range"] else []))%list.

Definition validate_rooms (payload : odict string pyval) (spec : SearchProfilePolicySpec)
  : list string :=
  match dget "min_rooms" payload with
  | VInt n => if (n <? _limit_int spec "min_rooms_min" 0) || (_limit_int spec "min_rooms_max" 200 <? n)
              then ["radar.rooms_range"] else []
  | _ => ["radar.rooms_range"]
  end.

Definition validate_surface (payload : odict string pyval) : list string :=
  let surface_min := dget "surface_min" payload in
  let surface_max := dget "surface_max" payload in
  ((if negb (is_none surface_min) && negb (is_plain_number surface_min) then ["radar.surface_range"] else [])
   ++ (if negb (is_none surface_max) && negb (is_plain_number surface_max) then ["radar.surface_range"] else [])
   ++ (if is_plain_number surface_min && is_plain_number surface_max && num_leb surface_max surface_min
       then ["radar.surface_range"] else []))%list.

Definition validate_status (payload : odict string pyval) (spec : SearchProfilePolicySpec)
  : list string :=
  if py_in (dget_default "status" (VStr "active") payload) (map VStr (states spec)) then []
  else ["radar.state_unknown"].

Definition validate_profile (payload : odict string pyval) (spec : SearchProfilePolicySpec)
  : list string :=
  unique (validate_name payload spec ++ validate_zones payload spec ++ validate_budget payload
          ++ validate_rooms payload spec ++ validate_surface payload
          ++ validate_status payload spec)%list.

Definition default_unknown_strategy (spec : SearchProfilePolicySpec) : odict string string :=
  unknown_strategies spec.

Definition can_transition (spec : SearchProfilePolicySpec) (current target : string) : bool :=
  if negb (bool_decide (current ∈ states spec)) || negb (bool_decide (target ∈ states spec)) then false
  else bool_decide (target ∈ default [] (oget current (transitions spec))).

(** ** Hard filters *)

Definition _strategy (profile : SearchProfile) (filter_name : string) : string :=
  default "exclude" (oget filter_name (unknown_strategy profile)).

Definition _zones_casefold (profile : SearchProfile) : list string := map casefold (zones profile).

Definition apply_hard_filters (listing : NormalizedListing) (profile : SearchProfile) : bool :=
  if negb (bool_decide (operation listing = sp_operation profile)) then false
  else if bool_decide (_strategy profile "price" = "exclude")
          && match total_cost listing with
             | None => true
             | Some c => fleb c f0 || fltb (budget_max profile) c
             end then false
  else if bool_decide (_strategy profile "location" = "exclude")
          && match neighborhood listing with
             | None => true
             | Some n => negb (bool_decide (casefold n ∈ _zones_casefold profile))
             end then false
  else if 0 <? min_rooms profile then
    match rooms listing with
    | None => negb (bool_decide (_strategy profile "rooms" = "exclude"))
    | Some r => negb (r <? min_rooms profile)
    end
  else true.

(** ** Baseline scoring *)

Record ScoringBaselineSpec := MkScoringBaselineSpec {
  sbs_contract_version : string; sbs_score_policy_version : string; weights : odict string float;
  rooms_fit : odict string float; surface_fit : odict string float;
  location_precision_fit : odict string float; sbs_tie_break : list string; sbs_score_round : Z
}.

(** [float(v)] for a JSON value; numeric strings, which [float] also reads, raise here. *)
Definition _float_mapping (value : pyval) : result (odict string float) :=
  match value with
  | VDict d => map_result (fun kv => f ← to_float kv.2; Ok (kv.1, f)) d
  | _ => Raise ValueError
  end.

Definition parse_scoring_baseline (data : odict string pyval) : result ScoringBaselineSpec :=
  check_contract_version data ;;
  version ← required_str "score_policy_version" data;
  weights ← _float_mapping (dget "weights" data);
  c ← dsub "contract_version" data;
  rooms ← _float_mapping (dget "rooms_fit" data);
  surface ← _float_mapping (dget "surface_fit" data);
  location ← _float_mapping (dget "location_precision_fit" data);
  Ok (MkScoringBaselineSpec (py_str c) version weights rooms surface location
        (str_items (dget "tie_break" data)) (as_int (dget "score_round" data) 4)).

Definition fit_get (k : string) (d : float) (m : odict string float) : float := default d (oget k m).

Definition _budget_fit (budget_max : float) (total_cost : option float) : result float :=
  match total_cost with
  | None => Ok f0
  | Some c =>
      if fleb budget_max f0 then Ok f0
      else ratio ← fdiv (fsub budget_max c) budget_max; Ok (fmax f0 (fmin f1 ratio))
  end.

Definition _rooms_fit (min_rooms : Z) (rooms : option Z) (spec : ScoringBaselineSpec) : float :=
  if min_rooms =? 0 then fit_get "no_min" f1 (rooms_fit spec)
  else match rooms with
       | None => fit_get "unknown" half (rooms_fit spec)
       | Some r => if r =? min_rooms then fit_get "equal_min" f1 (rooms_fit spec)
                   else fit_get "above_min" (flit 85 100) (rooms_fit spec)
       end.

Definition _surface_fit (surface_min surface_max surface_m2 : option float)
    (spec : ScoringBaselineSpec) : float :=
  match surface_min, surface_max with
  | None, None => fit_get "no_bounds" f1 (surface_fit spec)
  | _, _ =>
      match surface_m2 with
      | None => fit_get "unknown" half (surface_fit spec)
      | Some m2 =>
          if match surface_min with Some m => fltb m2 m | None => false end then half
          else match surface_max with
               | None => fit_get "within" f1 (surface_fit spec)
               | Some m =>
                   if fleb m2 m then fit_get "within" f1 (surface_fit spec)
                   else if fleb m2 (fmul m (flit 15 10))
                   then fit_get "above_max_until_1_5x" (flit 8 10) (surface_fit spec)
                   else fit_get "above_1_5x" (flit 6 10) (surface_fit spec)
               end
      end
  end.

Definition _location_fit (g : GeoPrecision) (spec : ScoringBaselineSpec) : float :=
  fit_get (geo_str g) half (location_precision_fit spec).

Definition compute_score (profile : SearchProfile) (listing : NormalizedListing)
    (spec : ScoringBaselineSpec) : result (float * odict string float) :=
  budget_fit ← _budget_fit (budget_max profile) (total_cost listing);
  let contributions :=
    [("budget", budget_fit);
     ("rooms", _rooms_fit (min_rooms profile) (rooms listing) spec);
     ("surface", _surface_fit (surface_min profile) (surface_max profile) (surface_m2 listing) spec);
     ("location_precision", _location_fit (geo_precision listing) spec)] in
  let score := fsum (map (fun kv => fmul (fit_get kv.1 f0 (weights spec)) kv.2) contributions) in
  Ok (fround score (sbs_score_round spec), contributions).

Definition sort_key (spec : ScoringBaselineSpec) : list string := sbs_tie_break spec.
