(* ===== verification/Database.v ===== *)
(** * The database of the radar and scoring components

    The tables behind [infrastructure/db/repositories/radar.py] and [scoring.py], a
    list of domain records each, in insertion order (which is also the order of the
    queries that name none).  A repository method is one transaction: it commits its
    whole change or raises and leaves the database as it was.  The unique and check
    constraints of [infrastructure/db/models/] are enforced; foreign keys, column
    lengths and the audit columns the domain records lack are not modelled. *)

From S2P Require Export Tables Events ScoringEngine RadarPolicy.

Record PolicyRow := MkPolicyRow {
  pol_id : Z; pol_key : string; pol_current_version_id : option Z;
  pol_created_at : Z; pol_updated_at : Z
}.

Record ShortlistRow := MkShortlistRow {
  sl_id : Z; sl_profile_id : Z; sl_listing_id : Z; sl_position : Z
}.

Record db := MkDb {
  t_profiles : list SearchProfile; t_versions : list ProfileVersion;
  t_runs : list RecommendationRun; t_items : list RecommendationItem;
  t_events : list ProductEvent; t_evaluations : list CriterionEvaluation;
  t_policies : list PolicyRow; t_policy_versions : list PolicyVersion;
  t_shortlists : list ShortlistRow; t_listings : list NormalizedListing;
  t_changes : list ListingChange; t_observations : list ListingObservation;
  t_compilations : list Compilation
}.

Definition empty_db : db := MkDb [] [] [] [] [] [] [] [] [] [] [] [] [].

Definition set_profiles (x : list SearchProfile) (d : db) : db :=
  MkDb x (t_versions d) (t_runs d) (t_items d) (t_events d) (t_evaluations d) (t_policies d)
    (t_policy_versions d) (t_shortlists d) (t_listings d) (t_changes d) (t_observations d) (t_compilations d).
Definition set_versions (x : list ProfileVersion) (d : db) : db :=
  MkDb (t_profiles d) x (t_runs d) (t_items d) (t_events d) (t_evaluations d) (t_policies d)
    (t_policy_versions d) (t_shortlists d) (t_listings d) (t_changes d) (t_observations d) (t_compilations d).
Definition set_runs (x : list RecommendationRun) (d : db) : db :=
  MkDb (t_profiles d) (t_versions d) x (t_items d) (t_events d) (t_evaluations d) (t_policies d)
    (t_policy_versions d) (t_shortlists d) (t_listings d) (t_changes d) (t_observations d) (t_compilations d).
Definition set_items (x : list RecommendationItem) (d : db) : db :=
  MkDb (t_profiles d) (t_versions d) (t_runs d) x (t_events d) (t_evaluations d) (t_policies d)
    (t_policy_versions d) (t_shortlists d) (t_listings d) (t_changes d) (t_observations d) (t_compilations d).
Definition set_events (x : list ProductEvent) (d : db) : db :=
  MkDb (t_profiles d) (t_versions d) (t_runs d) (t_items d) x (t_evaluations d) (t_policies d)
    (t_policy_versions d) (t_shortlists d) (t_listings d) (t_changes d) (t_observations d) (t_compilations d).
Definition set_evaluations (x : list CriterionEvaluation) (d : db) : db :=
  MkDb (t_profiles d) (t_versions d) (t_runs d) (t_items d) (t_events d) x (t_policies d)
    (t_policy_versions d) (t_shortlists d) (t_listings d) (t_changes d) (t_observations d) (t_compilations d).
Definition set_policies (x : list PolicyRow) (d : db) : db :=
  MkDb (t_profiles d) (t_versions d) (t_runs d) (t_items d) (t_events d) (t_evaluations d) x
    (t_policy_versions d) (t_shortlists d) (t_listings d) (t_changes d) (t_observations d) (t_compilations d).
Definition set_policy_versions (x : list PolicyVersion) (d : db) : db :=
  MkDb (t_profiles d) (t_versions d) (t_runs d) (t_items d) (t_events d) (t_evaluations d) (t_policies d)
    x (t_shortlists d) (t_listings d) (t_changes d) (t_observations d) (t_compilations d).
Definition set_shortlists (x : list ShortlistRow) (d : db) : db :=
  MkDb (t_profiles d) (t_versions d) (t_runs d) (t_items d) (t_events d) (t_evaluations d) (t_policies d)
    (t_policy_versions d) x (t_listings d) (t_changes d) (t_observations d) (t_compilations d).

(** ** Constraints *)

Definition profile_clash (a b : SearchProfile) : bool :=
  (profile_id a =? profile_id b)
  || ((owner_id a =? owner_id b) && bool_decide (name a = name b)).
Definition profile_check (p : SearchProfile) : bool :=
  fltb f0 (budget_max p) && opt_check (fun m => fltb m (budget_max p)) (budget_min p)
  && opt_check (fun m => fleb f0 m && opt_check (fun x => fltb m x) (surface_max p)) (surface_min p)
  && (0 <=? min_rooms p) && (min_rooms p <=? 200).

Definition version_clash (a b : ProfileVersion) : bool :=
  (pv_version_id a =? pv_version_id b)
  || ((pv_profile_id a =? pv_profile_id b) && (pv_profile_version a =? pv_profile_version b)).
Definition version_check (v : ProfileVersion) : bool := 1 <=? pv_profile_version v.

Definition run_clash (a b : RecommendationRun) : bool :=
  (run_id a =? run_id b)
  || ((run_profile_id a =? run_profile_id b)
      && (run_profile_version_id a =? run_profile_version_id b)
      && bool_decide (run_trigger a = run_trigger b)).
Definition run_check (r : RecommendationRun) : bool :=
  match run_state r with
  | RunPending | RunRunning => true
  | _ => match run_finished_at r with Some _ => true | None => false end
  end.

Definition item_clash (a b : RecommendationItem) : bool :=
  (item_id a =? item_id b)
  || ((item_run_id a =? item_run_id b)
      && ((item_position a =? item_position b) || (item_listing_id a =? item_listing_id b))).
Definition item_check (i : RecommendationItem) : bool :=
  in_frange f0 (item_score i) f1 && (0 <=? item_position i).

Definition evaluation_clash (a b : CriterionEvaluation) : bool :=
  (ce_evaluation_id a =? ce_evaluation_id b)
  || ((ce_run_id a =? ce_run_id b) && (ce_listing_id a =? ce_listing_id b)
      && bool_decide (ce_criterion_key a = ce_criterion_key b)).
Definition evaluation_check (e : CriterionEvaluation) : bool :=
  in_frange f0 (ce_score e) f1 && in_frange f0 (ce_confidence e) f1.

(** [event_type ~ '^[a-z][a-z0-9_.]{0,99}$'] *)
Definition event_clash (a b : ProductEvent) : bool := ev_event_id a =? ev_event_id b.
Definition event_check (e : ProductEvent) : bool :=
  bounded_re is_lower_az
    (fun c => is_alnum_az09 c || bool_decide (c ∈ ["_"%char; "."%char])) 99 (ev_event_type e).

(** [policy_key ~ '^[a-z][a-z0-9_-]{1,99}$'] *)
Definition policy_clash (a b : PolicyRow) : bool :=
  (pol_id a =? pol_id b) || bool_decide (pol_key a = pol_key b).
Definition policy_check (p : PolicyRow) : bool :=
  bounded_re is_lower_az
    (fun c => is_alnum_az09 c || bool_decide (c ∈ ["_"%char; "-"%char])) 99 (pol_key p)
  && (2 <=? len (pol_key p)).

Definition policy_version_clash (a b : PolicyVersion) : bool :=
  (polv_version_id a =? polv_version_id b)
  || ((polv_policy_id a =? polv_policy_id b) && (polv_policy_version a =? polv_policy_version b)).
Definition policy_version_check (v : PolicyVersion) : bool := 1 <=? polv_policy_version v.

Definition shortlist_clash (a b : ShortlistRow) : bool :=
  (sl_id a =? sl_id b)
  || ((sl_profile_id a =? sl_profile_id b)
      && ((sl_listing_id a =? sl_listing_id b) || (sl_position a =? sl_position b))).
Definition shortlist_check (s : ShortlistRow) : bool := 0 <=? sl_position s.

(** * The radar repositories ([infrastructure/db/repositories/radar.py])

    Each function is one repository method on the tables of [Database]: queries are
    functions of the database, mutations return a [result] and the database after
    the transaction.  SQLAlchemy bumps a row's [version] on every UPDATE. *)
Section repo.
Context `{NumericColumns}.

(** ** Profiles *)

(** The row stored for a profile: NUMERIC columns, and the version column's default *)
Definition profile_row (p : SearchProfile) : SearchProfile :=
  MkSearchProfile (profile_id p) (owner_id p) (name p) (sp_operation p) (zones p)
    (numeric 2 (budget_max p)) (numeric 2 <$> budget_min p) (min_rooms p)
    (numeric 2 <$> surface_min p) (numeric 2 <$> surface_max p) (status p) (unknown_strategy p)
    1 (created_at p) (updated_at p) (current_version_id p) (latest_run_id p)
    (sp_correlation_id p) (sp_actor_kind p) (sp_actor_id p).

Definition profile_insert (p : SearchProfile) (d : db) : result unit * db :=
  match insert_row profile_clash profile_check (profile_row p) (t_profiles d) with
  | Some t => (Ok tt, set_profiles t d)
  | None => (Raise IntegrityError, d)
  end.

Definition profile_get (id : Z) (d : db) : option SearchProfile := get_by profile_id id (t_profiles d).

Definition list_by_owner (owner : Z) (st : option SearchProfileState) (d : db) : list SearchProfile :=
  sort_by (fun a b => created_at b <? created_at a)
    (List.filter (fun p => (owner_id p =? owner)
                           && opt_check (fun s => bool_decide (status p = s)) st) (t_profiles d)).

(** [save] writes these columns of [p] on the stored row [r]. *)
Definition profile_assign (p r : SearchProfile) : SearchProfile :=
  MkSearchProfile (profile_id r) (owner_id r) (name p) (sp_operation r) (zones p)
    (numeric 2 (budget_max p)) (numeric 2 <$> budget_min p) (min_rooms p)
    (numeric 2 <$> surface_min p) (numeric 2 <$> surface_max p) (status p) (unknown_strategy p)
    (version r + 1) (created_at r) (updated_at p) (current_version_id p) (latest_run_id p)
    (sp_correlation_id r) (sp_actor_kind r) (sp_actor_id r).

Definition opt_feqb (a b : option float) : bool :=
  match a, b with Some x, Some y => feqb x y | None, None => true | _, _ => false end.

(** No assigned attribute differs from the stored one: no UPDATE is emitted. *)
Definition profile_unchanged (p r : SearchProfile) : bool :=
  bool_decide (name p = name r) && bool_decide (zones p = zones r)
  && feqb (budget_max p) (budget_max r) && opt_feqb (budget_min p) (budget_min r)
  && (min_rooms p =? min_rooms r) && opt_feqb (surface_min p) (surface_min r)
  && opt_feqb (surface_max p) (surface_max r) && bool_decide (status p = status r)
  && py_eqb (VDict (map (fun kv => (kv.1, VStr kv.2)) (unknown_strategy p)))
       (VDict (map (fun kv => (kv.1, VStr kv.2)) (unknown_strategy r)))
  && bool_decide (current_version_id p = current_version_id r)
  && bool_decide (latest_run_id p = latest_run_id r) && (updated_at p =? updated_at r).

(** The other rows, with which an updated row may clash *)
Definition others {A} (id_of : A -> Z) (id : Z) (t : list A) : list A :=
  List.filter (fun r => negb (id_of r =? id)) t.

Definition profile_save (p : SearchProfile) (d : db) : result unit * db :=
  match profile_get (profile_id p) d with
  | None => (Raise KeyError, d)
  | Some r =>
      if negb (version r =? version p)
      then (Raise (ConcurrencyConflict (Some (version p)) (Some (version r))), d)
      else if profile_unchanged p r then (Ok tt, d)
      else
        let row := profile_assign p r in
        if existsb (profile_clash row) (others profile_id (profile_id p) (t_profiles d))
           || negb (profile_check row)
        then (Raise IntegrityError, d)
        else (Ok tt, set_profiles (update_by profile_id (profile_id p) (fun _ => row) (t_profiles d)) d)
  end.

(** ** Versions *)

Definition version_insert (v : ProfileVersion) (d : db) : result unit * db :=
  match insert_row version_clash version_check v (t_versions d) with
  | Some t => (Ok tt, set_versions t d)
  | None => (Raise IntegrityError, d)
  end.

Definition version_get (id : Z) (d : db) : option ProfileVersion := get_by pv_version_id id (t_versions d).

Definition version_lt (a b : ProfileVersion) : bool :=
  (pv_profile_version a <? pv_profile_version b)
  || ((pv_profile_version a =? pv_profile_version b) && (pv_created_at a <? pv_created_at b)).

Definition version_latest_for_profile (id : Z) (d : db) : option ProfileVersion :=
  max_by version_lt (List.filter (fun v => pv_profile_id v =? id) (t_versions d)).

(** ** Runs *)

Definition run_row (r : RecommendationRun) : RecommendationRun :=
  MkRecommendationRun (run_id r) (run_profile_id r) (run_profile_version_id r) (run_state r)
    (run_trigger r) (run_score_policy_version r) (run_candidate_count r)
    (run_published_item_count r) (run_failure_code r) (run_job_execution_id r)
    (run_created_at r) (run_finished_at r) (run_correlation_id r) 1 (run_actor_kind r)
    (run_actor_id r).

Definition run_insert (r : RecommendationRun) (d : db) : result unit * db :=
  match insert_row run_clash run_check (run_row r) (t_runs d) with
  | Some t => (Ok tt, set_runs t d)
  | None => (Raise IntegrityError, d)
  end.

Definition run_get (id : Z) (d : db) : option RecommendationRun := get_by run_id id (t_runs d).

Definition run_lt (a b : RecommendationRun) : bool := run_created_at a <? run_created_at b.

Definition run_latest_for_profile (id : Z) (d : db) : option RecommendationRun :=
  max_by run_lt (List.filter (fun r => run_profile_id r =? id) (t_runs d)).

Definition get_for_version (pid vid : Z) (d : db) : option RecommendationRun :=
  max_by run_lt (List.filter (fun r => (run_profile_id r =? pid)
                                       && (run_profile_version_id r =? vid)) (t_runs d)).

Definition latest_succeeded_for_profile (id : Z) (d : db) : option RecommendationRun :=
  max_by run_lt (List.filter (fun r => (run_profile_id r =? id)
                                       && bool_decide (run_state r = RunSucceeded)) (t_runs d)).

Definition run_exists (pid vid : Z) (trigger : RecommendationRunTrigger) (d : db) : bool :=
  existsb (fun r => (run_profile_id r =? pid) && (run_profile_version_id r =? vid)
                    && bool_decide (run_trigger r = trigger)) (t_runs d).

Definition item_row (rid : Z) (i : RecommendationItem) : RecommendationItem :=
  MkRecommendationItem (item_id i) rid (item_listing_id i) (numeric 4 (item_score i))
    (item_position i) (item_contributions i).

Definition evaluation_row (e : CriterionEvaluation) : CriterionEvaluation :=
  MkCriterionEvaluation (ce_evaluation_id e) (ce_run_id e) (ce_listing_id e) (ce_criterion_key e)
    (ce_criterion_version e) (ce_matcher_type e) (ce_params e) (ce_input_refs e)
    (numeric 4 (ce_score e)) (numeric 3 (ce_confidence e)) (ce_state e)
    (numeric 4 (ce_contribution e)) (ce_reason_code e) (ce_evidence_refs e) (ce_created_at e)
    (ce_correlation_id e).

(** The run's row after [publish]; [now] is what [datetime.now(timezone.utc)] returns. *)
Definition published_row (now : Z) (run : RecommendationRun) (n_items : Z) (r : RecommendationRun)
  : RecommendationRun :=
  MkRecommendationRun (run_id r) (run_profile_id r) (run_profile_version_id r) RunSucceeded
    (run_trigger r) (run_score_policy_version r) (run_candidate_count run) n_items
    (run_failure_code r) (run_job_execution_id r) (run_created_at r)
    (Some (default now (run_finished_at run))) (run_correlation_id r) (run_version r + 1)
    (run_actor_kind r) (run_actor_id r).

(** Success of the run, its items, its evaluations and the event: one transaction *)
Definition run_publish (now : Z) (run : RecommendationRun) (items : list RecommendationItem)
    (event : ProductEvent) (evaluations : list CriterionEvaluation) (d : db) : result unit * db :=
  match run_get (run_id run) d with
  | None => (Raise KeyError, d)
  | Some r =>
      if negb (run_version r =? run_version run)
      then (Raise (ConcurrencyConflict (Some (run_version run)) (Some (run_version r))), d)
      else
        let row := published_row now run (Z.of_nat (length items)) r in
        match insert_rows item_clash item_check (map (item_row (run_id run)) items) (t_items d),
              insert_rows evaluation_clash evaluation_check (map evaluation_row evaluations)
                (t_evaluations d),
              insert_row event_clash event_check event (t_events d) with
        | Some items', Some evaluations', Some events' =>
            (Ok tt,
             set_events events' (set_evaluations evaluations' (set_items items'
               (set_runs (update_by run_id (run_id run) (fun _ => row) (t_runs d)) d))))
        | _, _, _ => (Raise IntegrityError, d)
        end
  end.

Definition run_fail (now : Z) (run : RecommendationRun) (failure_code : string) (d : db)
  : result unit * db :=
  match run_get (run_id run) d with
  | None => (Raise KeyError, d)
  | Some r =>
      if negb (run_version r =? run_version run)
      then (Raise (ConcurrencyConflict (Some (run_version run)) (Some (run_version r))), d)
      else
        let row := MkRecommendationRun (run_id r) (run_profile_id r) (run_profile_version_id r)
                     RunFailed (run_trigger r) (run_score_policy_version r) (run_candidate_count r)
                     (run_published_item_count r) (Some failure_code) (run_job_execution_id r)
                     (run_created_at r) (Some now) (run_correlation_id r) (run_version r + 1)
                     (run_actor_kind r) (run_actor_id r) in
        (Ok tt, set_runs (update_by run_id (run_id run) (fun _ => row) (t_runs d)) d)
  end.

(** ** Items, events, listings *)

Definition item_lt (a b : RecommendationItem) : bool :=
  (item_position a <? item_position b)
  || ((item_position a =? item_position b) && (item_id a <? item_id b)).

(** PostgreSQL refuses a negative LIMIT. *)
Definition list_for_run (rid : Z) (after_position : option Z) (limit : Z) (d : db)
  : result (list RecommendationItem) :=
  if limit <? 0 then Raise (OtherError "DataError")
  else
    Ok (take (Z.to_nat limit)
          (sort_by item_lt
             (List.filter (fun i => (item_run_id i =? rid)
                                    && opt_check (fun a => a <? item_position i) after_position)
                (t_items d)))).

Definition listing_ids_for_run (rid : Z) (d : db) : list Z :=
  map item_listing_id (List.filter (fun i => item_run_id i =? rid) (t_items d)).

Definition listing_accessible (owner lid : Z) (d : db) : bool :=
  existsb (fun i =>
    (item_listing_id i =? lid)
    && existsb (fun r => (run_id r =? item_run_id i) && bool_decide (run_state r = RunSucceeded)
                         && existsb (fun p => (profile_id p =? run_profile_id r)
                                              && (owner_id p =? owner)) (t_profiles d))
         (t_runs d)) (t_items d).

Definition event_insert (e : ProductEvent) (d : db) : result unit * db :=
  match insert_row event_clash event_check e (t_events d) with
  | Some t => (Ok tt, set_events t d)
  | None => (Raise IntegrityError, d)
  end.

(** The SQL narrowing of the candidates; [lower] on the column, [casefold] on the zones *)
Definition candidate_match (p : SearchProfile) (l : NormalizedListing) : bool :=
  bool_decide (operation l = sp_operation p)
  && match total_cost l with Some c => fltb f0 c && fleb c (budget_max p) | None => false end
  && (negb (bool_decide (_strategy p "location" = "exclude"))
      || match neighborhood l with
         | Some n => bool_decide (lower n ∈ map casefold (zones p))
         | None => false
         end)
  && (negb (0 <? min_rooms p)
      || match rooms l with Some r => min_rooms p <=? r | None => true end).

Definition list_candidates (p : SearchProfile) (d : db) : list NormalizedListing :=
  sort_by (fun a b => listing_id a <? listing_id b)
    (List.filter (candidate_match p) (t_listings d)).

Definition listing_get (id : Z) (d : db) : option NormalizedListing := get_by listing_id id (t_listings d).

Definition changes_for_listing (id : Z) (d : db) : list ListingChange :=
  List.filter (fun c => change_listing_id c =? id) (t_changes d).
End repo.
