(* ===== verification/RadarService.v ===== *)
(** * The radar service ([application/radar/service.py])

    Profiles, versioned snapshots, run submission, run processing and publication,
    match pages and events, over the repositories of [Database] and a job runtime
    behind [JobPort].  The state is the database and the runtime's own state; a
    method that raises leaves what its earlier transactions committed. *)

From S2P Require Export Database JobRuntime.

(** The scoring v1 hook consumed by the run pipeline *)
Record PolicyRunEngine := MkPolicyRunEngine {
  compilation_for : Z -> db -> option Compilation;
  score_run : SearchProfile -> Compilation -> list NormalizedListing -> Z -> Z
              -> M db (list ScoredCandidate)
}.

(** Constructor arguments that never change; [job_enabled] is [job_runtime is not None]. *)
Record radar_config := RadarConfig {
  policy : SearchProfilePolicySpec; scoring : ScoringBaselineSpec;
  events_registry : EventsRegistrySpec; job_enabled : bool; run_job_type : string;
  cfg_score_policy_version : string; policy_engine : option PolicyRunEngine
}.

Definition RADAR_RUN_JOB_TYPE : string := "recommendation.run".

Definition _payload (name : string) (zones : list string) (budget_max : pyval) (budget_min : pyval)
    (min_rooms : pyval) (surface_min surface_max : pyval) (status : string) : odict string pyval :=
  [("name", VStr name); ("operation", VStr "rental"); ("zones", VList (map VStr zones));
   ("budget_max", budget_max); ("budget_min", budget_min); ("min_rooms", min_rooms);
   ("surface_min", surface_min); ("surface_max", surface_max); ("status", VStr status)].

Definition opt_val (x : option float) : pyval := match x with Some f => VFloat f | None => VNone end.

Definition _payload_from_profile (p : SearchProfile) : odict string pyval :=
  _payload (name p) (zones p) (VFloat (budget_max p)) (opt_val (budget_min p)) (VInt (min_rooms p))
    (opt_val (surface_min p)) (opt_val (surface_max p)) (profile_state_str (status p)).

Definition _job_target (profile_id version_id : Z) : string :=
  uuid_str profile_id ++ ":" ++ uuid_str version_id.

Definition run_key (profile_id version_id : Z) : string :=
  "recommendation:" ++ uuid_str profile_id ++ ":" ++ uuid_str version_id.

(** [_number] accepts booleans, [_optional_number] does not. *)
Definition _number (v : pyval) : result float :=
  if is_number v then to_float v else Ok f0.
Definition _optional_number (v : pyval) : result (option float) :=
  if is_plain_number v then f ← to_float v; Ok (Some f) else Ok None.
Definition _int (v : pyval) : result Z :=
  match v with
  | VInt z => Ok z
  | VFloat f => int_of_float f
  | _ => Ok 0
  end.

Definition _summary (r : RecommendationRun) : odict string pyval :=
  [("run_id", VStr (uuid_str (run_id r))); ("state", VStr (run_state_str (run_state r)));
   ("candidate_count", VInt (run_candidate_count r));
   ("published_item_count", VInt (run_published_item_count r));
   ("failure_code", match run_failure_code r with Some c => VStr c | None => VNone end);
   ("score_policy_version", VStr (run_score_policy_version r))].

(** Record updates of [dataclasses.replace] *)
Definition with_current_version (v : option Z) (p : SearchProfile) : SearchProfile :=
  MkSearchProfile (profile_id p) (owner_id p) (name p) (sp_operation p) (zones p) (budget_max p)
    (budget_min p) (min_rooms p) (surface_min p) (surface_max p) (status p) (unknown_strategy p)
    (version p) (created_at p) (updated_at p) v (latest_run_id p) (sp_correlation_id p)
    (sp_actor_kind p) (sp_actor_id p).
Definition with_job (job : option Z) (r : RecommendationRun) : RecommendationRun :=
  MkRecommendationRun (run_id r) (run_profile_id r) (run_profile_version_id r) (run_state r)
    (run_trigger r) (run_score_policy_version r) (run_candidate_count r)
    (run_published_item_count r) (run_failure_code r) job (run_created_at r) (run_finished_at r)
    (run_correlation_id r) (run_version r) (run_actor_kind r) (run_actor_id r).
Definition with_published (candidates items now : Z) (r : RecommendationRun) : RecommendationRun :=
  MkRecommendationRun (run_id r) (run_profile_id r) (run_profile_version_id r) RunSucceeded
    (run_trigger r) (run_score_policy_version r) candidates items (run_failure_code r)
    (run_job_execution_id r) (run_created_at r) (Some now) (run_correlation_id r) (run_version r)
    (run_actor_kind r) (run_actor_id r).

(** The items of a scored run: positions follow the order, ids are drawn in it. *)
Fixpoint number_items {S} (rid : Z) (pos : Z) (scored : list (Z * float * odict string pyval))
  : M S (list RecommendationItem) :=
  match scored with
  | [] => mret []
  | (lid, score, contributions) :: rest =>
      id ← uuid4;
      items ← number_items rid (pos + 1) rest;
      mret (MkRecommendationItem id rid lid score pos contributions :: items)
  end.

(** Candidates pass the price filter in SQL, so [total_cost] is never [None] here. *)
Definition cost_of (l : NormalizedListing) : float := default f0 (total_cost l).

Definition baseline_ltb (a b : float * NormalizedListing * odict string float) : bool :=
  let '(sa, la, _) := a in
  let '(sb, lb, _) := b in
  if negb (feqb (fneg sa) (fneg sb)) then fltb (fneg sa) (fneg sb)
  else if negb (feqb (cost_of la) (cost_of lb)) then fltb (cost_of la) (cost_of lb)
  else str_ltb (uuid_str (listing_id la)) (uuid_str (listing_id lb)).

Definition baseline_contributions (spec : ScoringBaselineSpec) (c : odict string float)
  : odict string pyval :=
  (map (fun kv => (kv.1, VFloat kv.2)) c
   ++ [("score_policy_version", VStr (sbs_score_policy_version spec))])%list.

Section service.
Context {J : Type} `{JobPort J} `{NumericColumns}.
Variable cfg : radar_config.

Definition on_db {A} (f : db -> result A * db) : M (db * J) A := fun _ s =>
  let '(r, d) := f (state_of s).1 in (r, Sys (d, (state_of s).2) (drawn s) (ticks s)).
Definition read {A} (f : db -> A) : M (db * J) A := fun _ s => (Ok (f (state_of s).1), s).
Definition on_jobs {A} (m : M J A) : M (db * J) A := fun w s =>
  let '(r, s') := m w (Sys (state_of s).2 (drawn s) (ticks s)) in
  (r, Sys ((state_of s).1, state_of s') (drawn s') (ticks s')).
Definition on_engine {A} (m : M db A) : M (db * J) A := fun w s =>
  let '(r, s') := m w (Sys (state_of s).1 (drawn s) (ticks s)) in
  (r, Sys (state_of s', (state_of s).2) (drawn s') (ticks s')).

(** ** Helpers *)

Definition _owned (owner pid : Z) : M (db * J) SearchProfile :=
  p ← read (profile_get pid);
  match p with
  | Some p => if owner_id p =? owner then mret p else raise (RadarNotAccessible pid)
  | None => raise (RadarNotAccessible pid)
  end.

Definition _check_version (p : SearchProfile) (expected : Z) : M (db * J) unit :=
  if negb (version p =? expected)
  then raise (ConcurrencyConflict (Some expected) (Some (version p))) else mret tt.

Definition _validate (payload : odict string pyval) : M (db * J) unit :=
  match validate_profile payload (policy cfg) with
  | [] => mret tt
  | errors => raise (RadarValidationError errors)
  end.

Definition _snapshot_version (p : SearchProfile) (payload : odict string pyval) (n : Z)
  : M (db * J) ProfileVersion :=
  id ← uuid4;
  now ← clock;
  let v := MkProfileVersion id (profile_id p) n payload now (sp_correlation_id p)
             (sp_actor_kind p) (sp_actor_id p) in
  on_db (version_insert v) ;;
  mret v.

Definition _submit_run (p : SearchProfile) (v : ProfileVersion) (trigger : RecommendationRunTrigger)
  : M (db * J) (option RecommendationRun) :=
  if negb (job_enabled cfg) then mret None
  else
    found ← read (run_exists (profile_id p) (pv_version_id v) trigger);
    if found : bool then read (get_for_version (profile_id p) (pv_version_id v))
    else
      id ← uuid4;
      now ← clock;
      let run := MkRecommendationRun id (profile_id p) (pv_version_id v) RunPending trigger
                   (cfg_score_policy_version cfg) 0 0 None None now None (sp_correlation_id p) 1
                   (sp_actor_kind p) (sp_actor_id p) in
      command ← lift (SubmitJob_create 0 (run_job_type cfg)
                        (_job_target (profile_id p) (pv_version_id v))
                        (run_key (profile_id p) (pv_version_id v))
                        (Some (sp_correlation_id p)) (Some AuditActor_system) 5);
      job ← on_jobs (submit_job command);
      let run := with_job (Some (snap_execution_id job)) run in
      on_db (run_insert run) ;;
      mret (Some run).

Definition _emit_server_event (event_type : string) (actor_id : option Z) (correlation_id : Z)
    (payload : odict string pyval) : M (db * J) unit :=
  id ← uuid4;
  now ← clock;
  on_db (event_insert (MkProductEvent id event_type
           (version_or_1 (event_version (events_registry cfg) event_type)) actor_id now
           correlation_id payload)).

(** ** Profile lifecycle *)

(** The numbers are JSON values: [float()] is applied to them after validation. *)
Definition create_profile (owner : Z) (name : string) (zones : list string)
    (budget_max budget_min min_rooms surface_min surface_max : pyval)
    (unknown_strategy : option (odict string string)) (correlation_id : Z)
    (actor_kind : string) (actor_id : option string)
  : M (db * J) (SearchProfile * option RecommendationRun) :=
  let payload := _payload name zones budget_max budget_min min_rooms surface_min surface_max "active" in
  _validate payload ;;
  let strategy := default (default_unknown_strategy (policy cfg)) unknown_strategy in
  now ← clock;
  pid ← uuid4;
  bmax ← lift (to_float budget_max);
  bmin ← lift (_optional_number budget_min);
  rooms ← lift (_int min_rooms);
  smin ← lift (_optional_number surface_min);
  smax ← lift (_optional_number surface_max);
  let p := MkSearchProfile pid owner name Rental zones bmax bmin rooms smin smax ProfileActive
             strategy 1 now now None None correlation_id actor_kind actor_id in
  on_db (profile_insert p) ;;
  v ← _snapshot_version p payload 1;
  let p := with_current_version (Some (pv_version_id v)) p in
  _emit_server_event "radar.created.v1" (Some owner) correlation_id
    [("search_profile_id", VStr (uuid_str (profile_id p)));
     ("profile_version", VInt (pv_profile_version v))] ;;
  run ← _submit_run p v TriggerCreated;
  mret (p, run).

Definition get_profile (owner pid : Z) : M (db * J) SearchProfile := _owned owner pid.

Definition profile_with_latest_run (owner pid : Z)
  : M (db * J) (SearchProfile * option RecommendationRun) :=
  p ← _owned owner pid;
  run ← read (run_latest_for_profile pid);
  mret (p, run).

Definition update_profile (owner pid expected : Z) (changes : odict string pyval)
    (correlation_id : Z) (actor_kind : string) (actor_id : option string)
  : M (db * J) (SearchProfile * option RecommendationRun) :=
  p ← _owned owner pid;
  _check_version p expected ;;
  if bool_decide (status p = ProfileArchived) then raise RadarStateError
  else
    let merged := oupdate (_payload_from_profile p) changes in
    _validate merged ;;
    now ← clock;
    raw_zones ← lift (dsub "zones" merged);
    raw_name ← lift (dsub "name" merged);
    bmax ← lift (v ← dsub "budget_max" merged; _number v);
    bmin ← lift (_optional_number (dget "budget_min" merged));
    rooms ← lift (v ← dsub "min_rooms" merged; _int v);
    smin ← lift (_optional_number (dget "surface_min" merged));
    smax ← lift (_optional_number (dget "surface_max" merged));
    let updated := MkSearchProfile (profile_id p) (owner_id p) (py_str raw_name) (sp_operation p)
        (str_items raw_zones) bmax bmin rooms smin smax (status p) (unknown_strategy p)
        (version p + 1) (created_at p) now (current_version_id p) (latest_run_id p)
        correlation_id actor_kind actor_id in
    latest ← read (version_latest_for_profile pid);
    let n := match latest with Some v => pv_profile_version v + 1 | None => 1 end in
    v ← _snapshot_version updated merged n;
    on_db (profile_save
      (MkSearchProfile (profile_id p) (owner_id p) (name updated) (sp_operation p) (zones updated)
         (budget_max updated) (budget_min updated) (min_rooms updated) (surface_min updated)
         (surface_max updated) (status p) (unknown_strategy p) (version p) (created_at p) now
         (Some (pv_version_id v)) (latest_run_id p) (sp_correlation_id p) (sp_actor_kind p)
         (sp_actor_id p))) ;;
    run ← (if bool_decide (status updated = ProfileActive)
           then _submit_run updated v TriggerEdited else mret None);
    mret (with_current_version (Some (pv_version_id v)) updated, run).

Definition set_status (owner pid expected : Z) (target : SearchProfileState) (correlation_id : Z)
    (actor_kind : string) (actor_id : option string)
  : M (db * J) (SearchProfile * option RecommendationRun) :=
  p ← _owned owner pid;
  _check_version p expected ;;
  if negb (can_transition (policy cfg) (profile_state_str (status p)) (profile_state_str target))
  then raise RadarStateError
  else
    now ← clock;
    let with_status v kind aid corr :=
      MkSearchProfile (profile_id p) (owner_id p) (name p) (sp_operation p) (zones p)
        (budget_max p) (budget_min p) (min_rooms p) (surface_min p) (surface_max p) target
        (unknown_strategy p) v (created_at p) now (current_version_id p) (latest_run_id p)
        corr kind aid in
    let updated := with_status (version p + 1) actor_kind actor_id correlation_id in
    on_db (profile_save (with_status (version p) (sp_actor_kind p) (sp_actor_id p)
                           (sp_correlation_id p))) ;;
    run ← (if bool_decide (target = ProfileActive) && bool_decide (status p = ProfilePaused) then
             latest ← read (version_latest_for_profile pid);
             match latest with
             | Some v => _submit_run updated v TriggerResumed
             | None => mret None
             end
           else mret None);
    mret (updated, run).

(** ** Matches and detail *)

Definition _listing_point (lid : Z) (d : db) : option MatchPoint :=
  match listing_get lid d with
  | None => None
  | Some l =>
      match geometry l with
      | None => None
      | Some (lat, lon) =>
          if bool_decide (geo_precision l = Exact) || bool_decide (geo_precision l = Block)
          then Some (MkMatchPoint lid lat lon (geo_precision l)) else None
      end
  end.

Definition _listing_summary (lid : Z) (d : db) : option ListingSummary :=
  match listing_get lid d with
  | None => None
  | Some l => Some (MkListingSummary lid (total_cost l) (neighborhood l) (surface_m2 l) (rooms l)
                      (source_id (nl_source l)) (nl_url l) (geo_precision l))
  end.

Definition get_matches (owner pid : Z) (rid : option Z) (after_position : option Z) (limit : Z)
  : M (db * J) MatchPage :=
  _owned owner pid ;;
  run ← read (match rid with
              | Some rid => run_get rid
              | None => latest_succeeded_for_profile pid
              end);
  match run with
  | None => raise (RunNotFound (default pid rid))
  | Some run =>
      if negb (run_profile_id run =? pid) then raise (RunNotFound (default pid rid))
      else if negb (bool_decide (run_state run = RunSucceeded))
      then mret (MkMatchPage run [] None [] [])
      else
        items ← (r ← read (list_for_run (run_id run) after_position limit); lift r);
        next_after ← (if Z.of_nat (length items) =? limit then
                        match last items with
                        | Some i => mret (Some (item_position i))
                        | None => raise IndexError
                        end
                      else mret None);
        points ← read (fun d => omap (fun i => _listing_point (item_listing_id i) d) items);
        summaries ← read (fun d => omap (fun i => _listing_summary (item_listing_id i) d) items);
        mret (MkMatchPage run items next_after points summaries)
  end.

(** The listing and its known changes, which the detail view shows *)
Definition get_listing_detail (owner lid : Z) : M (db * J) (NormalizedListing * list ListingChange) :=
  ok ← read (listing_accessible owner lid);
  if negb ok then raise (ListingNotAccessible lid)
  else
    l ← read (listing_get lid);
    match l with
    | None => raise (ListingNotAccessible lid)
    | Some l => changes ← read (changes_for_listing lid); mret (l, changes)
    end.

(** ** Run processing *)

Definition score_baseline (p : SearchProfile) (passed : list NormalizedListing)
  : result (list (float * NormalizedListing * odict string float)) :=
  map_result (fun l => '(s, c) ← compute_score p l (scoring cfg); Ok (s, l, c)) passed.

(** The items and evaluations of a run, by the v1 engine when the version is compiled *)
Definition score_items (p : SearchProfile) (vid rid corr : Z) (passed : list NormalizedListing)
  : M (db * J) (list RecommendationItem * list CriterionEvaluation) :=
  compiled ← read (fun d => match policy_engine cfg with
                            | Some engine => match compilation_for engine vid d with
                                             | Some c => Some (engine, c)
                                             | None => None
                                             end
                            | None => None
                            end);
  match compiled with
  | Some (engine, compilation) =>
      scored ← on_engine (score_run engine p compilation passed rid corr);
      items ← number_items rid 0 (map (fun c => (cand_listing_id c, cand_score c, cand_contributions c)) scored);
      mret (items, flat_map cand_evaluations scored)
  | None =>
      scored ← lift (score_baseline p passed);
      items ← number_items rid 0
                (map (fun '(s, l, c) => (listing_id l, s, baseline_contributions (scoring cfg) c))
                   (sort_by baseline_ltb scored));
      mret (items, [])
  end.

Definition run_event (id now pid rid corr n_candidates n_items : Z) : ProductEvent :=
  MkProductEvent id "recommendation.run_published.v1" 1 None now corr
    [("search_profile_id", VStr (uuid_str pid)); ("run_id", VStr (uuid_str rid));
     ("candidate_count", VInt n_candidates); ("published_item_count", VInt n_items);
     ("score_policy_version", VStr (sbs_score_policy_version (scoring cfg)))].

Definition process_run (pid vid : Z) (job_execution_id : option Z)
  : M (db * J) (odict string pyval) :=
  p ← read (profile_get pid);
  match p with
  | None => raise (RadarPermanentError "radar.profile_not_found")
  | Some p =>
      v ← read (version_get vid);
      match v with
      | None => raise (RadarPermanentError "radar.version_not_found")
      | Some _ =>
          run ← read (get_for_version pid vid);
          match run with
          | None => raise (RadarPermanentError "radar.run_not_found")
          | Some run =>
              if bool_decide (run_state run = RunSucceeded \/ run_state run = RunFailed)
              then mret (_summary run)
              else
                let run := match job_execution_id, run_job_execution_id run with
                           | Some j, None => with_job (Some j) run
                           | _, _ => run
                           end in
                candidates ← read (list_candidates p);
                let passed := List.filter (fun l => apply_hard_filters l p) candidates in
                '(items, evaluations) ← score_items p vid (run_id run) (run_correlation_id run) passed;
                now ← clock;
                eid ← uuid4;
                let n_candidates := Z.of_nat (length passed) in
                let n_items := Z.of_nat (length items) in
                let event := run_event eid now pid (run_id run) (run_correlation_id run)
                               n_candidates n_items in
                let published := with_published n_candidates n_items now run in
                try_except
                  (publish_now ← clock;
                   on_db (run_publish publish_now published items event evaluations))
                  (fun e => match e with
                            | ConcurrencyConflict _ _ => raise (RadarTransientError "radar.run_race")
                            | _ => raise e
                            end) ;;
                mret (_summary published)
          end
      end
  end.

(** ** Client events *)

Definition record_client_event (event_type : string) (payload : odict string pyval)
    (actor_id correlation_id : Z) : M (db * J) ProductEvent :=
  match validate_event (events_registry cfg) event_type (VDict payload) with
  | Some error => raise (RadarValidationError [error])
  | None =>
      id ← uuid4;
      now ← clock;
      let event := MkProductEvent id event_type
                     (version_or_1 (event_version (events_registry cfg) event_type))
                     (Some actor_id) now correlation_id payload in
      _emit_server_event event_type (Some actor_id) correlation_id payload ;;
      mret event
  end.
End service.
