(* ===== verification/CriteriaStore.v ===== *)
(** * The criteria repositories ([infrastructure/db/repositories/criteria.py])

    The tables of concepts, preference facts, extraction versions, observations, recomputes,
    embeddings and urban signals, next to the tables of the radar, whose profiles, listings,
    compilations and events they read and write.  Each repository method is one transaction
    under the unique and check constraints of [infrastructure/db/models/criteria.py]; a partial
    unique index is a clash between active rows. *)

From S2P Require Export Database CriteriaRules Criteria.
#[local] Open Scope list_scope.

(** [pg_column_size(payload::text)] *)
Class JsonbSize := jsonb_size : odict string pyval -> Z.

Record ListingEmbedding := MkListingEmbedding {
  emb_id : Z; emb_listing_id : Z; emb_extraction_version_id : Z; emb_vector : list float;
  emb_state : ObservationState; emb_run_id : option Z; emb_created_at : Z; emb_correlation_id : Z
}.
Record UrbanSignal := MkUrbanSignal {
  us_id : Z; us_listing_id : Z; us_signal_type : string; us_signal_source : string; us_observed_at : Z;
  us_geometry : option string; us_algorithm_version : string; us_payload : odict string pyval;
  us_created_at : Z; us_correlation_id : Z
}.

Record knowledge := MkKnowledge {
  kn_db : db; kn_concepts : list Concept; kn_concept_versions : list ConceptVersion;
  kn_facts : list PreferenceFact; kn_extractions : list ExtractionVersion;
  kn_recomputes : list RecomputeRun; kn_embeddings : list ListingEmbedding; kn_signals : list UrbanSignal
}.
Definition empty_knowledge (d : db) : knowledge := MkKnowledge d [] [] [] [] [] [] [].

Definition set_db (x : db) (k : knowledge) : knowledge :=
  MkKnowledge x (kn_concepts k) (kn_concept_versions k) (kn_facts k) (kn_extractions k) (kn_recomputes k)
    (kn_embeddings k) (kn_signals k).
Definition set_concepts (x : list Concept) (k : knowledge) : knowledge :=
  MkKnowledge (kn_db k) x (kn_concept_versions k) (kn_facts k) (kn_extractions k) (kn_recomputes k)
    (kn_embeddings k) (kn_signals k).
Definition set_concept_versions (x : list ConceptVersion) (k : knowledge) : knowledge :=
  MkKnowledge (kn_db k) (kn_concepts k) x (kn_facts k) (kn_extractions k) (kn_recomputes k)
    (kn_embeddings k) (kn_signals k).
Definition set_facts (x : list PreferenceFact) (k : knowledge) : knowledge :=
  MkKnowledge (kn_db k) (kn_concepts k) (kn_concept_versions k) x (kn_extractions k) (kn_recomputes k)
    (kn_embeddings k) (kn_signals k).
Definition set_extractions (x : list ExtractionVersion) (k : knowledge) : knowledge :=
  MkKnowledge (kn_db k) (kn_concepts k) (kn_concept_versions k) (kn_facts k) x (kn_recomputes k)
    (kn_embeddings k) (kn_signals k).
Definition set_recomputes (x : list RecomputeRun) (k : knowledge) : knowledge :=
  MkKnowledge (kn_db k) (kn_concepts k) (kn_concept_versions k) (kn_facts k) (kn_extractions k) x
    (kn_embeddings k) (kn_signals k).
Definition set_embeddings (x : list ListingEmbedding) (k : knowledge) : knowledge :=
  MkKnowledge (kn_db k) (kn_concepts k) (kn_concept_versions k) (kn_facts k) (kn_extractions k)
    (kn_recomputes k) x (kn_signals k).
Definition set_signals (x : list UrbanSignal) (k : knowledge) : knowledge :=
  MkKnowledge (kn_db k) (kn_concepts k) (kn_concept_versions k) (kn_facts k) (kn_extractions k)
    (kn_recomputes k) (kn_embeddings k) x.

Definition kn_observations (k : knowledge) : list ListingObservation := t_observations (kn_db k).
Definition set_observations (x : list ListingObservation) (k : knowledge) : knowledge :=
  let d := kn_db k in
  set_db (MkDb (t_profiles d) (t_versions d) (t_runs d) (t_items d) (t_events d) (t_evaluations d)
    (t_policies d) (t_policy_versions d) (t_shortlists d) (t_listings d) (t_changes d) x (t_compilations d)) k.
Definition kn_compilations (k : knowledge) : list Compilation := t_compilations (kn_db k).
Definition set_compilations (x : list Compilation) (k : knowledge) : knowledge :=
  let d := kn_db k in
  set_db (MkDb (t_profiles d) (t_versions d) (t_runs d) (t_items d) (t_events d) (t_evaluations d)
    (t_policies d) (t_policy_versions d) (t_shortlists d) (t_listings d) (t_changes d) (t_observations d) x) k.
Definition kn_events (k : knowledge) : list ProductEvent := t_events (kn_db k).
Definition set_kn_events (x : list ProductEvent) (k : knowledge) : knowledge := set_db (set_events x (kn_db k)) k.

(** ** Constraints *)

(** [key ~ '^[a-z][a-z0-9_]{0,99}$'] *)
Definition concept_clash (a b : Concept) : bool :=
  (concept_id a =? concept_id b) || bool_decide (concept_key a = concept_key b).
Definition concept_check (c : Concept) : bool :=
  bounded_re is_lower_az (fun x => is_alnum_az09 x || bool_decide (x = "_"%char)) 99 (concept_key c)
  && (Z.of_nat (length (concept_aliases c)) <=? 20).
Definition concept_version_clash (a b : ConceptVersion) : bool :=
  (cv_version_id a =? cv_version_id b)
  || ((cv_concept_id a =? cv_concept_id b) && (cv_concept_version a =? cv_concept_version b)).
Definition concept_version_check (v : ConceptVersion) : bool := 1 <=? cv_concept_version v.

Definition fact_active (f : PreferenceFact) : bool := bool_decide (fact_state f = FactActive).
Definition fact_clash (a b : PreferenceFact) : bool :=
  (fact_id a =? fact_id b)
  || (fact_active a && fact_active b && (fact_profile_id a =? fact_profile_id b)
      && bool_decide (fact_concept_key a = fact_concept_key b)).
Definition fact_check (f : PreferenceFact) : bool :=
  in_frange f0 (fact_weight f) f1 && in_frange f0 (fact_confidence f) f1
  && bool_decide (fact_polarity f ∈ ["positive"; "negative"]%string).

Definition compilation_clash (a b : Compilation) : bool :=
  (compilation_id a =? compilation_id b)
  || ((comp_profile_version_id a =? comp_profile_version_id b) && (comp_version a =? comp_version b)).
Definition compilation_check (_ : Compilation) : bool := true.

Definition extraction_clash (a b : ExtractionVersion) : bool :=
  (xv_version_id a =? xv_version_id b)
  || (bool_decide (xv_kind a = xv_kind b) && bool_decide (xv_key a = xv_key b)
      && bool_decide (xv_version a = xv_version b)).
Definition extraction_check `{JsonbSize} (v : ExtractionVersion) : bool := jsonb_size (xv_payload v) <=? 65536.

Definition obs_active (o : ListingObservation) : bool := bool_decide (obs_state o = ObsActive).
Definition observation_clash (a b : ListingObservation) : bool :=
  (observation_id a =? observation_id b)
  || (obs_active a && obs_active b && (obs_listing_id a =? obs_listing_id b)
      && bool_decide (obs_concept_key a = obs_concept_key b) && bool_decide (obs_source a = obs_source b)).
Definition observation_check (o : ListingObservation) : bool :=
  in_frange f0 (obs_score o) f1 && in_frange f0 (obs_confidence o) f1
  && (negb (bool_decide (obs_state o = ObsFailed)) || negb (bool_decide (obs_failure_code o = None))).

(** As declared: [scope_kind <> 'full' OR scope_key IS NOT NULL] *)
Definition recompute_clash (a b : RecomputeRun) : bool := rr_run_id a =? rr_run_id b.
Definition recompute_check (r : RecomputeRun) : bool :=
  negb (bool_decide (scope_kind (rr_scope r) = ScopeFull)) || negb (bool_decide (scope_key (rr_scope r) = None)).

Definition embedding_active (e : ListingEmbedding) : bool := bool_decide (emb_state e = ObsActive).
Definition embedding_clash (a b : ListingEmbedding) : bool :=
  (emb_id a =? emb_id b)
  || (embedding_active a && embedding_active b && (emb_listing_id a =? emb_listing_id b)
      && (emb_extraction_version_id a =? emb_extraction_version_id b)).
(** [Vector(1536)] *)
Definition embedding_check (e : ListingEmbedding) : bool := Z.of_nat (length (emb_vector e)) =? 1536.

Definition signal_clash (a b : UrbanSignal) : bool := us_id a =? us_id b.
Definition signal_check (s : UrbanSignal) : bool :=
  bool_decide (us_signal_type s ∈ ["cafe"; "transport"; "green_space"]%string).

(** ** Concepts *)

(** The row stored for a concept: the source column names the writer. *)
Definition concept_row (version : Z) (c : Concept) : Concept :=
  MkConcept (concept_id c) (concept_key c) (concept_name c) (concept_aliases c) (concept_matcher_type c)
    (concept_params_schema c) "criteria.concept" (concept_defaults c) (concept_compute_policy c) version
    (concept_current_version_id c) (concept_created_at c) (concept_updated_at c) (concept_correlation_id c)
    (concept_actor_kind c) (concept_actor_id c).

Definition concept_insert (c : Concept) : M knowledge unit :=
  add_to kn_concepts set_concepts concept_clash concept_check (concept_row 1 c).

(** What [save] writes of [c] on the row [r]; a change of the current version bumps [version]. *)
Definition concept_assign (c r : Concept) : Concept :=
  MkConcept (concept_id r) (concept_key r) (concept_name c) (concept_aliases c) (concept_matcher_type c)
    (concept_params_schema c) (concept_source r) (concept_defaults c) (concept_compute_policy c)
    (concept_version r + 1) (concept_current_version_id c) (concept_created_at r) (concept_updated_at c)
    (concept_correlation_id r) (concept_actor_kind r) (concept_actor_id r).

Definition concept_save (c : Concept) : M knowledge unit :=
  k ← get;
  match get_by concept_id (concept_id c) (kn_concepts k) with
  | None => raise KeyError
  | Some r =>
      if concept_check (concept_assign c r)
      then put (set_concepts (update_by concept_id (concept_id c) (concept_assign c) (kn_concepts k)) k)
      else raise IntegrityError
  end.

Definition concept_get (key : string) (k : knowledge) : option Concept :=
  find_first (fun c => bool_decide (concept_key c = key)) (kn_concepts k).

(** [ORDER BY key], in the order of code points *)
Definition concepts_active (k : knowledge) : list Concept :=
  sort_by (fun a b => str_ltb (concept_key a) (concept_key b)) (kn_concepts k).

Definition concept_version_insert (v : ConceptVersion) : M knowledge unit :=
  add_to kn_concept_versions set_concept_versions concept_version_clash concept_version_check v.

Definition concept_latest_version (id : Z) (k : knowledge) : option ConceptVersion :=
  max_by (fun a b => cv_concept_version a <? cv_concept_version b)
    (List.filter (fun v => cv_concept_id v =? id) (kn_concept_versions k)).

(** ** Facts and compilations *)

Section repo.
Context `{NumericColumns} `{JsonbSize}.

Definition fact_row (f : PreferenceFact) : PreferenceFact :=
  MkPreferenceFact (fact_id f) (fact_profile_id f) (fact_concept_key f) (fact_value f)
    (numeric 4 (fact_weight f)) (fact_polarity f) (numeric 4 (fact_confidence f)) (fact_source f)
    (fact_state f) (fact_superseded_by f) (fact_created_at f) (fact_correlation_id f)
    (fact_actor_kind f) (fact_actor_id f).

Definition superseded_fact (by_ : Z) (f : PreferenceFact) : PreferenceFact :=
  MkPreferenceFact (fact_id f) (fact_profile_id f) (fact_concept_key f) (fact_value f) (fact_weight f)
    (fact_polarity f) (fact_confidence f) (fact_source f) FactSuperseded (Some by_) (fact_created_at f)
    (fact_correlation_id f) (fact_actor_kind f) (fact_actor_id f).

(** The active facts of the same preference give way to the new one. *)
Definition give_way (fact : PreferenceFact) (superseded_by : option Z) (f : PreferenceFact) : PreferenceFact :=
  match superseded_by with
  | Some id =>
      if fact_active f && (fact_profile_id f =? fact_profile_id fact)
         && bool_decide (fact_concept_key f = fact_concept_key fact)
      then superseded_fact id f else f
  | None => f
  end.

Definition record_change (fact : PreferenceFact) (superseded_by : option Z) : M knowledge unit :=
  k ← get;
  match insert_row fact_clash fact_check (fact_row fact) (map (give_way fact superseded_by) (kn_facts k)) with
  | Some facts => put (set_facts facts k)
  | None => raise IntegrityError
  end.

Definition active_facts (profile : Z) (k : knowledge) : list PreferenceFact :=
  List.filter (fun f => (fact_profile_id f =? profile) && fact_active f) (kn_facts k).

Definition compilation_insert (c : Compilation) : M knowledge unit :=
  add_to kn_compilations set_compilations compilation_clash compilation_check c.
Definition compilation_latest (profile_version : Z) (k : knowledge) : option Compilation :=
  max_by (fun a b => comp_version a <? comp_version b)
    (List.filter (fun c => comp_profile_version_id c =? profile_version) (kn_compilations k)).

(** ** Extraction versions *)

Definition extraction_insert (v : ExtractionVersion) : M knowledge unit :=
  add_to kn_extractions set_extractions extraction_clash extraction_check v.
Definition extraction_get (id : Z) (k : knowledge) : option ExtractionVersion :=
  get_by xv_version_id id (kn_extractions k).
Definition extraction_find (kind key version : string) (k : knowledge) : option ExtractionVersion :=
  find_first (fun v => bool_decide (xv_kind v = kind) && bool_decide (xv_key v = key)
                       && bool_decide (xv_version v = version)) (kn_extractions k).
Definition extraction_latest (kind key : string) (k : knowledge) : option ExtractionVersion :=
  max_by (fun a b => xv_created_at a <? xv_created_at b)
    (List.filter (fun v => bool_decide (xv_kind v = kind) && bool_decide (xv_key v = key)) (kn_extractions k)).

(** ** Observations *)

Definition obs_with_state (s : ObservationState) (o : ListingObservation) : ListingObservation :=
  MkListingObservation (observation_id o) (obs_listing_id o) (obs_concept_key o) (obs_matcher_type o)
    (obs_value o) (obs_score o) (obs_confidence o) (obs_evidence o) (obs_source o)
    (obs_extraction_version_id o) s (obs_failure_code o) (obs_recomputation_run_id o) (obs_created_at o)
    (obs_correlation_id o) (obs_actor_kind o) (obs_actor_id o).

(** [UPDATE ... SET state = 'invalidated'] of the active rows that match; the number of them *)
Definition invalidate (matches : knowledge -> ListingObservation -> bool) : M knowledge Z :=
  k ← get;
  let hit := fun o => obs_active o && matches k o in
  _ ← put (set_observations (map (fun o => if hit o then obs_with_state ObsInvalidated o else o)
                                (kn_observations k)) k);
  mret (Z.of_nat (length (List.filter hit (kn_observations k)))).

Definition of_concept (key : string) (_ : knowledge) (o : ListingObservation) : bool :=
  bool_decide (obs_concept_key o = key).
Definition of_extraction (id : Z) (_ : knowledge) (o : ListingObservation) : bool :=
  bool_decide (obs_extraction_version_id o = Some id).
Definition of_normalizer (version : string) (k : knowledge) (o : ListingObservation) : bool :=
  existsb (fun l => (listing_id l =? obs_listing_id o) && bool_decide (normalizer_version l = version))
    (t_listings (kn_db k)).

Definition invalidate_for_concept (key : string) : M knowledge Z := invalidate (of_concept key).
Definition invalidate_for_extraction_version (id : Z) : M knowledge Z := invalidate (of_extraction id).
Definition invalidate_for_normalizer_version (version : string) : M knowledge Z := invalidate (of_normalizer version).

(** A scope key counts when it is neither [None] nor empty. *)
Definition given (key : option string) : option string :=
  match key with Some s => if bool_decide (s = "") then None else Some s | None => None end.
Definition uuid_of_key (s : string) : result Z :=
  match uuid_of_str s with Some u => Ok u | None => Raise ValueError end.

(** The observations of a scope *)
Definition scope_filter (scope : RecomputeScope) : result (knowledge -> ListingObservation -> bool) :=
  match scope_kind scope, given (scope_key scope) with
  | ScopeConcept, Some key => Ok (of_concept key)
  | ScopeExtraction, Some key => u ← uuid_of_key key; Ok (of_extraction u)
  | ScopeParser, Some key => Ok (of_normalizer key)
  | _, _ => Ok (fun _ _ => true)
  end.

Definition obs_current (o : ListingObservation) : bool :=
  bool_decide (obs_state o = ObsActive \/ obs_state o = ObsInvalidated).
Definition ids_for_scope (scope : RecomputeScope) : M knowledge (list Z) :=
  matches ← lift (scope_filter scope);
  gets (fun k => map observation_id (List.filter (fun o => obs_current o && matches k o) (kn_observations k))).

Definition observation_row (o : ListingObservation) : ListingObservation :=
  MkListingObservation (observation_id o) (obs_listing_id o) (obs_concept_key o) (obs_matcher_type o)
    (obs_value o) (numeric 4 (obs_score o)) (numeric 4 (obs_confidence o)) (obs_evidence o) (obs_source o)
    (obs_extraction_version_id o) (obs_state o) (obs_failure_code o) (obs_recomputation_run_id o)
    (obs_created_at o) (obs_correlation_id o) (obs_actor_kind o) (obs_actor_id o).

Definition recompute_get (id : Z) (k : knowledge) : option RecomputeRun := get_by rr_run_id id (kn_recomputes k).

(** The row of a run with the state, the counts and the end of [run] *)
Definition recompute_assign (state : RecomputeRunState) (run r : RecomputeRun) : RecomputeRun :=
  MkRecomputeRun (rr_run_id r) (rr_scope r) (rr_cause r) state (rr_counts run) (rr_job_execution_id r)
    (rr_finished_at run) (rr_created_at r) (rr_correlation_id r) (rr_version r + 1) (rr_actor_kind r)
    (rr_actor_id r).

Definition supersede (ids : list Z) (o : ListingObservation) : ListingObservation :=
  if bool_decide (observation_id o ∈ ids) then obs_with_state ObsSuperseded o else o.

(** New observations, superseded ones, the run and the event: one transaction *)
Definition publish_observations (observations : list ListingObservation) (supersede_ids : list Z)
    (run : option RecomputeRun) (event : option ProductEvent) : M knowledge unit :=
  k ← get;
  match run with
  | Some r => if bool_decide (recompute_get (rr_run_id r) k = None) then raise KeyError else mret tt
  | None => mret tt
  end ;;
  let runs := match run with
              | Some r => update_by rr_run_id (rr_run_id r) (recompute_assign (rr_state r) r) (kn_recomputes k)
              | None => kn_recomputes k
              end in
  match insert_rows observation_clash observation_check (map observation_row observations)
          (map (supersede supersede_ids) (kn_observations k)),
        match event with
        | Some e => insert_row event_clash event_check e (kn_events k)
        | None => Some (kn_events k)
        end with
  | Some observations', Some events' =>
      put (set_recomputes runs (set_observations observations' (set_kn_events events' k)))
  | _, _ => raise IntegrityError
  end.

(** ** Recomputes *)

Definition recompute_insert (r : RecomputeRun) : M knowledge unit :=
  add_to kn_recomputes set_recomputes recompute_clash recompute_check r.

(** [fail]: the failure code is an argument that is not stored. *)
Definition recompute_fail (run : RecomputeRun) (failure_code : string) : M knowledge unit :=
  k ← get;
  match recompute_get (rr_run_id run) k with
  | None => raise KeyError
  | Some _ => put (set_recomputes (update_by rr_run_id (rr_run_id run) (recompute_assign RecomputeFailed run)
                                     (kn_recomputes k)) k)
  end.

(** ** Embeddings and urban signals *)

Definition supersede_embedding (listing version : Z) (e : ListingEmbedding) : ListingEmbedding :=
  if embedding_active e && (emb_listing_id e =? listing) && (emb_extraction_version_id e =? version)
  then MkListingEmbedding (emb_id e) (emb_listing_id e) (emb_extraction_version_id e) (emb_vector e)
         ObsSuperseded (emb_run_id e) (emb_created_at e) (emb_correlation_id e)
  else e.

(** The rows of a batch, or [None] when one is refused *)
Fixpoint embed_rows (listings : list Z) (version : Z) (vectors : odict Z (list float)) (run : option Z)
    (rows : option (list ListingEmbedding)) : M knowledge (option (list ListingEmbedding)) :=
  match listings with
  | [] => mret rows
  | listing :: listings' =>
      match oget listing vectors with
      | None =>
          embed_rows listings' version vectors run (map (supersede_embedding listing version) <$> rows)
      | Some vector =>
          id ← uuid4;
          now ← clock;
          correlation ← uuid4;
          embed_rows listings' version vectors run
            (t ← rows; insert_row embedding_clash embedding_check
               (MkListingEmbedding id listing version vector ObsActive run now correlation)
               (map (supersede_embedding listing version) t))
      end
  end.

Definition publish_embeddings (listings : list Z) (version : Z) (vectors : odict Z (list float))
    (run : option RecomputeRun) : M knowledge unit :=
  k ← get;
  rows ← embed_rows listings version vectors (rr_run_id <$> run) (Some (kn_embeddings k));
  match rows with Some t => put (set_embeddings t k) | None => raise IntegrityError end.

Definition active_embedding_versions (listing : Z) (k : knowledge) : list Z :=
  map emb_extraction_version_id
    (List.filter (fun e => (emb_listing_id e =? listing) && embedding_active e) (kn_embeddings k)).

Definition signal_insert (s : UrbanSignal) : M knowledge unit :=
  add_to kn_signals set_signals signal_clash signal_check s.
Definition signals_for_listing (listing : Z) (k : knowledge) : list UrbanSignal :=
  List.filter (fun s => us_listing_id s =? listing) (kn_signals k).
End repo.

(** ** Readers *)

Definition listing_of_id (id : Z) (k : knowledge) : option NormalizedListing := listing_get id (kn_db k).
Definition listings_all (k : knowledge) : list NormalizedListing :=
  sort_by (fun a b => listing_id a <? listing_id b) (t_listings (kn_db k)).
Definition listings_of_normalizer (version : string) (k : knowledge) : list NormalizedListing :=
  List.filter (fun l => bool_decide (normalizer_version l = version)) (t_listings (kn_db k)).

Definition snapshot_payload (id : Z) (k : knowledge) : option (odict string pyval) :=
  pv_payload <$> version_get id (kn_db k).
Definition snapshot_version (id : Z) (k : knowledge) : option (Z * Z) :=
  (fun v => (pv_profile_id v, pv_profile_version v)) <$> version_get id (kn_db k).
Definition owner_of (id : Z) (k : knowledge) : option Z := owner_id <$> profile_get id (kn_db k).

(** [SqlAlchemyEventRepository.insert] *)
Definition kn_event_insert (e : ProductEvent) : M knowledge unit :=
  add_to kn_events set_kn_events event_clash event_check e.
