(* ===== verification/CriteriaService.v ===== *)
(** * The criteria service ([application/criteria/service.py])

    [CriteriaService] over the tables of [CriteriaStore] and a job queue: the versioned concept
    registry, preference facts, compilations, extraction and recomputation of observations,
    embeddings and urban context.  What the outside answers -- the extractor of a managed model,
    the embedding model, the urban source -- depends on how often it was asked before. *)

From S2P Require Export CriteriaStore JobRuntime.
#[local] Open Scope list_scope.

(** ** Values *)

Definition EXTRACTION_RUN_JOB_TYPE : string := "extraction.run".
Definition RECOMPUTE_JOB_TYPE : string := "extraction.recompute".

(** [StructuredExtractor.extract], [EmbeddingModel.embed] and [UrbanSource.fetch] *)
Definition StructuredExtractor :=
  nat -> string -> odict string pyval -> odict string pyval -> string -> result ExtractionResult.
Definition EmbeddingModel := nat -> odict string pyval -> result (list float).

(** A raw signal: a mapping, whose geometry is a pair of coordinates or something else *)
Record RawSignal := MkRawSignal { raw_signal : odict string pyval; raw_point : option (pyval * pyval) }.
Definition UrbanSource := nat -> NormalizedListing -> string -> result (list RawSignal).

Record criteria_config := MkCriteriaConfig {
  cr_seed : ConceptsSeedSpec; cr_matchers : MatcherTypesSpec; cr_contract : ExtractionContractSpec;
  cr_events : EventsRegistrySpec; cr_extractor : option StructuredExtractor;
  cr_embeddings : bool; cr_embedding_model : option EmbeddingModel;
  cr_signals : bool; cr_urban_source : option UrbanSource; cr_jobs : bool;
  cr_extraction_job_type : string; cr_recompute_job_type : string; cr_max_attempts : Z; cr_batch_size : Z;
  cr_embeddings_enabled : bool; cr_embedding_key : string; cr_urban_enabled : bool
}.

(** The tables, the job queue, and how often the outside has been asked *)
Record criteria (J : Type) := MkCriteria { ct_data : knowledge; ct_jobs : J; ct_asked : nat }.
Arguments MkCriteria {J} _ _ _.
Arguments ct_data {J} _.
Arguments ct_jobs {J} _.
Arguments ct_asked {J} _.

Definition seed_to_payload (s : ConceptSeed) : odict string pyval := [
  ("key", VStr (seed_key s)); ("name", VStr (seed_name s)); ("aliases", VList (map VStr (seed_aliases s)));
  ("matcher_type", VStr (seed_matcher_type s)); ("params_schema", VDict (seed_params_schema s));
  ("source", VStr (seed_source s)); ("defaults", VDict (seed_defaults s));
  ("compute_policy", VDict (seed_compute_policy s))]%string.

Definition _rule_score (value : pyval) (fragment : option string) : float :=
  match value with VNone => FFin 0 | _ => match fragment with Some _ => FFin 1 | None => flit 6 10 end end.

(** [re.sub("[^a-z0-9._:-]+", "-", s)]; [inside]: in a run that was replaced already *)
Fixpoint slug_chars (inside : bool) (l : list ascii) : list ascii :=
  match l with
  | [] => []
  | c :: l' =>
      if is_alnum_az09 c || bool_decide (c ∈ chars "._:-") then c :: slug_chars false l'
      else if inside then slug_chars true l' else "-"%char :: slug_chars true l'
  end.
Definition _cause_slug (cause : string) : string :=
  let slug := of_chars (slug_chars false (chars (lower (strip cause)))) in
  let slug := take_str 80 (strip_by (is_char "-"%char) slug) in
  if bool_decide (slug = "") then "recompute" else slug.

Example cause_slug_ex : map _cause_slug [" Nueva versión: v2 "; "??"; "a--b"]%string
  = ["nueva-versi-n:-v2"; "recompute"; "a--b"]%string.
Proof. vm_compute. reflexivity. Qed.

Definition _authorized_geometry (listing : NormalizedListing) (raw : RawSignal) : option string :=
  if bool_decide (geo_precision listing = Exact \/ geo_precision listing = Block) then
    (fun p => ("POINT(" ++ py_str p.1 ++ " " ++ py_str p.2 ++ ")")%string) <$> raw_point raw
  else None.
Definition _raw_payload (raw : RawSignal) : odict string pyval :=
  match dget "payload" (raw_signal raw) with VDict d => oupdate [] d | _ => [] end.

Definition _DEFAULT_PROMPT : string :=
  "Eres un extractor de datos inmobiliarios. A partir de los campos " ++
  "permitidos del listing, responde solo con el esquema JSON solicitado, " ++
  "con evidencia textual citada del texto y un nivel de confianza 0..1. " ++
  "No inventes hechos que no esten soportados.".

(** [l[start : start + n]] for [start] in [range(0, len(l), n)] *)
Fixpoint chunks_of {A} (fuel n : nat) (l : list A) : list (list A) :=
  match fuel, l with
  | O, _ | _, [] => []
  | S fuel', _ => take n l :: chunks_of fuel' n (drop n l)
  end.
Definition batches {A} (size : Z) (l : list A) : result (list (list A)) :=
  if size =? 0 then Raise ValueError
  else Ok (if size <? 0 then [] else chunks_of (length l) (Z.to_nat size) l).

Definition key_or_full (scope : RecomputeScope) : string := default "full" (given (scope_key scope)).

Section service.
Context {J : Type} `{JobPort J} `{NumericColumns} `{JsonbSize}.
Variable cfg : criteria_config.

Definition on_data {A} (m : M knowledge A) : M (criteria J) A :=
  zoom ct_data (fun k s => MkCriteria k (ct_jobs s) (ct_asked s)) m.
Definition on_job_queue {A} (m : M J A) : M (criteria J) A :=
  zoom ct_jobs (fun j s => MkCriteria (ct_data s) j (ct_asked s)) m.

(** One call of the outside *)
Definition ask {A} (call : nat -> result A) : M (criteria J) A :=
  s ← get;
  _ ← put (MkCriteria (ct_data s) (ct_jobs s) (Datatypes.S (ct_asked s)));
  lift (call (ct_asked s)).

(** ** Events *)

Definition _build_event (event_type : string) (correlation_id : Z) (actor_id : option Z)
    (payload : odict string pyval) : M (criteria J) ProductEvent :=
  id ← uuid4;
  now ← clock;
  mret (MkProductEvent id event_type (version_or_1 (event_version (cr_events cfg) event_type)) actor_id now
          correlation_id payload).

Definition criteria_event (event_type : string) (correlation_id : Z) (actor_id : option Z)
    (payload : odict string pyval) : M (criteria J) unit :=
  e ← _build_event event_type correlation_id actor_id payload; on_data (kn_event_insert e).

(** [UUID(actor_id) if actor_id else None] *)
Definition actor_uuid (actor_id : option string) : result (option Z) :=
  match given actor_id with Some s => u ← uuid_of_key s; Ok (Some u) | None => Ok None end.

(** ** The concept registry *)

Definition register_concept_version (key name : string) (aliases : list string) (matcher_type : string)
    (params_schema defaults compute_policy : odict string pyval) (correlation_id : Z) (actor_kind : string)
    (actor_id : option string) : M (criteria J) ConceptVersion :=
  let seed := MkConceptSeed key name aliases matcher_type params_schema "operator" defaults compute_policy in
  let errors := validate_concept_seed seed (cr_matchers cfg) in
  if negb (bool_decide (errors = [])) then raise (CriteriaValidationError errors)
  else
    existing ← on_data (gets (concept_get key));
    let number := match existing with Some c => concept_version c + 1 | None => 1 end in
    now ← clock;
    version_id ← uuid4;
    owner ← (match existing with Some c => mret (concept_id c) | None => uuid4 end);
    let version := MkConceptVersion version_id owner number (seed_to_payload seed) now correlation_id
                     actor_kind actor_id in
    _ ← match existing with
        | None =>
            on_data (concept_insert (MkConcept owner key name aliases matcher_type params_schema "operator"
              defaults compute_policy 1 (Some version_id) now now correlation_id actor_kind actor_id))
        | Some c =>
            on_data (concept_save (MkConcept (concept_id c) (concept_key c) name aliases matcher_type
              params_schema (concept_source c) defaults compute_policy (concept_version c) (Some version_id)
              (concept_created_at c) now (concept_correlation_id c) (concept_actor_kind c) (concept_actor_id c)))
        end;
    _ ← on_data (concept_version_insert version);
    _ ← on_data (invalidate_for_concept key);
    actor ← lift (actor_uuid actor_id);
    _ ← criteria_event "criteria.concept_version_created.v1" correlation_id actor
          [("concept_key", VStr key); ("concept_version", VInt number)]%string;
    mret version.

Definition _register_seed (seed : ConceptSeed) (correlation_id : Z) : M (criteria J) ConceptVersion :=
  register_concept_version (seed_key seed) (seed_name seed) (seed_aliases seed) (seed_matcher_type seed)
    (seed_params_schema seed) (seed_defaults seed) (seed_compute_policy seed) correlation_id "service" None.

Fixpoint seed_concepts (seeds : list ConceptSeed) (correlation_id registered : Z) : M (criteria J) Z :=
  match seeds with
  | [] => mret registered
  | seed :: seeds' =>
      existing ← on_data (gets (concept_get (seed_key seed)));
      match existing with
      | Some _ => seed_concepts seeds' correlation_id registered
      | None => _ ← _register_seed seed correlation_id; seed_concepts seeds' correlation_id (registered + 1)
      end
  end.
Definition seed_registry (correlation_id : Z) : M (criteria J) Z :=
  seed_concepts (css_concepts (cr_seed cfg)) correlation_id 0.

(** ** Extraction versions *)

Definition register_extraction_version (kind key version : string) (payload : odict string pyval)
    (correlation_id : Z) : M (criteria J) ExtractionVersion :=
  same ← on_data (gets (extraction_find kind key version));
  match same with
  | Some v => mret v
  | None =>
      previous ← on_data (gets (extraction_latest kind key));
      id ← uuid4;
      now ← clock;
      let entry := MkExtractionVersion id kind key version payload now correlation_id "service" None in
      _ ← on_data (extraction_insert entry);
      _ ← match previous with
          | Some p => _ ← on_data (invalidate_for_extraction_version (xv_version_id p)); mret tt
          | None => mret tt
          end;
      mret entry
  end.

(** ** Preference facts and compilations *)

Definition out_of_unit (x : float) : bool := negb (fleb (FFin 0) x && fleb x (FFin 1)).

Definition record_preference_fact (owner profile : Z) (concept_key : string) (value : pyval) (weight : float)
    (polarity : string) (confidence : float) (fact_source : string) (correlation_id : Z) (actor_kind : string)
    (actor_id : option string) : M (criteria J) PreferenceFact :=
  found ← on_data (gets (owner_of profile));
  if negb (bool_decide (found = Some owner)) then raise CriteriaNotFound
  else
    concept ← on_data (gets (concept_get concept_key));
    if bool_decide (concept = None)
    then raise (CriteriaValidationError ["criteria.concept_not_found:" ++ concept_key]%string)
    else if out_of_unit weight then raise (CriteriaValidationError ["criteria.fact_weight_out_of_range"%string])
    else if out_of_unit confidence
    then raise (CriteriaValidationError ["criteria.fact_confidence_out_of_range"%string])
    else if negb (bool_decide (polarity ∈ ["positive"; "negative"]%string))
    then raise (CriteriaValidationError ["criteria.fact_polarity_invalid"%string])
    else
      id ← uuid4;
      now ← clock;
      let fact := MkPreferenceFact id profile concept_key value weight polarity confidence fact_source FactActive
                    None now correlation_id actor_kind actor_id in
      _ ← on_data (record_change fact (Some id));
      mret fact.

Definition registered_concepts (k : knowledge) : concepts_arg :=
  match concepts_active k with
  | [] => ConceptsMapping (foldl (fun acc s => oset (seed_key s) (seed_like s) acc) [] (css_concepts (cr_seed cfg)))
  | l => ConceptsMapping (foldl (fun acc c => oset (concept_key c) (concept_like c) acc) [] l)
  end.

Definition compile_profile (owner profile profile_version : Z) (edits : list pyval) (confirmations : list string)
    (correlation_id : Z) (actor_kind : string) (actor_id : option string) : M (criteria J) Compilation :=
  found ← on_data (gets (owner_of profile));
  if negb (bool_decide (found = Some owner)) then raise CriteriaNotFound
  else
    ref ← on_data (gets (snapshot_version profile_version));
    match ref with
    | None => raise CriteriaNotFound
    | Some (version_profile, profile_version_number) =>
        if negb (version_profile =? profile) then raise CriteriaNotFound
        else
          facts ← on_data (gets (active_facts profile));
          concepts ← on_data (gets registered_concepts);
          draft ← lift (compile_criteria concepts (cr_matchers cfg) facts edits confirmations);
          previous ← on_data (gets (compilation_latest profile_version));
          let version := match previous with Some p => comp_version p + 1 | None => 1 end in
          id ← uuid4;
          now ← clock;
          let compilation := MkCompilation id profile profile_version version (draft_criteria draft)
                               (draft_warnings draft) (draft_confirmations draft) now correlation_id actor_kind
                               actor_id in
          _ ← on_data (compilation_insert compilation);
          actor ← lift (actor_uuid actor_id);
          _ ← criteria_event "criteria.compilation_created.v1" correlation_id actor [
                ("profile_id", VStr (uuid_str profile)); ("profile_version", VInt profile_version_number);
                ("compilation_version", VInt version);
                ("criterion_count", VInt (Z.of_nat (length (draft_criteria draft))));
                ("warning_count", VInt (Z.of_nat (length (draft_warnings draft))))]%string;
          mret compilation
    end.

Definition latest_compilation (profile_version : Z) : M (criteria J) (option Compilation) :=
  on_data (gets (compilation_latest profile_version)).

(** ** Jobs *)

Definition submit_scope (job_type target key : string) (correlation_id : Z) : M (criteria J) (option JobSnapshot) :=
  if negb (cr_jobs cfg) then mret None
  else
    command ← lift (SubmitJob_create 0 job_type target key (Some correlation_id) (Some AuditActor_system) 5);
    job ← on_job_queue (submit_job command);
    mret (Some job).

Definition submit_extraction (scope : RecomputeScope) (correlation_id : Z) : M (criteria J) (option JobSnapshot) :=
  submit_scope (cr_extraction_job_type cfg) (scope_target scope) ("extract:" ++ scope_target scope)%string
    correlation_id.

Definition submit_recompute (scope : RecomputeScope) (cause : string) (correlation_id : Z)
  : M (criteria J) (option JobSnapshot) :=
  submit_scope (cr_recompute_job_type cfg) (scope_target scope)
    ("recompute:" ++ scope_target scope ++ ":" ++ _cause_slug cause)%string correlation_id.

Definition invalidate_scope (scope : RecomputeScope) : M (criteria J) Z :=
  match scope_kind scope, given (scope_key scope) with
  | ScopeConcept, Some key => on_data (invalidate_for_concept key)
  | ScopeExtraction, Some key => u ← lift (uuid_of_key key); on_data (invalidate_for_extraction_version u)
  | ScopeParser, Some key => on_data (invalidate_for_normalizer_version key)
  | _, _ => mret 0
  end.

(** ** Extraction *)

Definition _concept_source (key : string) : result string :=
  match oget key (ec_concepts (cr_contract cfg)) with
  | Some concept => Ok (py_str (default (VStr "rule") (oget "source"%string concept)))
  | None => Raise CriteriaNotFound
  end.

Definition _extraction_targets (scope : RecomputeScope) : M (criteria J) (list (string * string)) :=
  let all := lift (map_result (fun seed => source ← _concept_source (seed_key seed); Ok (seed_key seed, source))
                     (css_concepts (cr_seed cfg))) in
  match scope_kind scope, given (scope_key scope) with
  | ScopeConcept, Some key =>
      concept ← on_data (gets (concept_get key));
      if bool_decide (concept = None) then raise CriteriaNotFound
      else source ← lift (_concept_source key); mret [(key, source)]
  | ScopeExtraction, Some key =>
      u ← lift (uuid_of_key key);
      version ← on_data (gets (extraction_get u));
      match version with
      | None => raise CriteriaNotFound
      | Some v =>
          if bool_decide (xv_kind v = "rule"%string) then mret [(xv_key v, "rule"%string)]
          else if bool_decide (xv_kind v = "model"%string) then mret [(xv_key v, "model"%string)]
          else raise (CriteriaValidationError ["criteria.extraction_scope_invalid"%string])
      end
  | _, _ => all
  end.

Definition _listings_for_scope (scope : RecomputeScope) (k : knowledge) : list NormalizedListing :=
  match scope_kind scope, given (scope_key scope) with
  | ScopeParser, Some key => listings_of_normalizer key k
  | _, _ => listings_all k
  end.

(** [self.extraction_contract.concepts.get(key, {}).get("schema")], which must be a mapping *)
Definition concept_schema (key : string) : result (odict string pyval) :=
  match dget "schema" (default [] (oget key (ec_concepts (cr_contract cfg)))) with
  | VDict schema => Ok schema
  | _ => Raise (CriteriaPermanentError "criteria.schema_missing")
  end.

Definition _ensure_extraction_version (key source : string) (correlation_id : Z) : M (criteria J) ExtractionVersion :=
  if bool_decide (source = "rule"%string) then
    register_extraction_version "rule" key (rule_version key)
      [("rule", VStr key); ("module", VStr "umbral.application.criteria.rules")]%string correlation_id
  else
    schema ← lift (concept_schema key);
    schema_entry ← register_extraction_version "schema" (key ++ ".schema")%string "v1"
                     [("schema"%string, VDict (oupdate [] schema))] correlation_id;
    prompt_entry ← register_extraction_version "prompt" (key ++ ".prompt")%string "v1"
                     [("prompt"%string, VStr _DEFAULT_PROMPT)] correlation_id;
    register_extraction_version "model" key (key ++ ".model-v1")%string
      [("provider", VStr "managed"); ("schema_ref", VStr (uuid_str (xv_version_id schema_entry)));
       ("prompt_ref", VStr (uuid_str (xv_version_id prompt_entry)))]%string correlation_id.

Definition _matcher_type (key : string) (k : knowledge) : string :=
  match concept_get key k with
  | Some c => concept_matcher_type c
  | None => match find_first (fun s => bool_decide (seed_key s = key)) (css_concepts (cr_seed cfg)) with
            | Some s => seed_matcher_type s
            | None => "categorical"
            end
  end.

Definition opt_text (v : option string) : pyval := match v with Some s => VStr s | None => VNone end.

Definition _rule_observation (listing : Z) (key matcher : string) (version : ExtractionVersion)
    (projection : odict string pyval) (now correlation_id : Z) : M (criteria J) ListingObservation :=
  outcome ← lift (run_rule key projection);
  id ← uuid4;
  mret (MkListingObservation id listing key matcher (ro_value outcome)
          (_rule_score (ro_value outcome) (ro_fragment outcome))
          (if is_none (ro_value outcome) then FFin 0 else FFin 1)
          [("fragment", opt_text (ro_fragment outcome));
           ("span", match ro_span outcome with Some (a, b) => VList [VInt a; VInt b] | None => VNone end);
           ("matched_on", VList (map VStr (ro_matched_on outcome)))]%string
          SourceRule (Some (xv_version_id version)) ObsActive None None now correlation_id "service" None).

(** What the attempts of a model have given: a failure code, or a value, its evidence and confidence *)
Record reading := MkReading {
  rd_failure : option string; rd_value : pyval; rd_evidence : option string; rd_confidence : float
}.
Definition failing (code : string) : reading := MkReading (Some code) VNone None (FFin 0).

(** [float(value)] also reads a text. *)
Definition python_float (v : pyval) : result float :=
  match v with VStr s => float_of_str s | _ => to_float v end.

(** One answer of the extractor *)
Definition read_attempt (schema : odict string pyval) (attempt : ExtractionResult) : result reading :=
  if xr_failed attempt then
    Ok (failing (default "extraction.failed"%string (given (xr_failure_code attempt))))
  else
    match xr_value attempt with
    | VDict output =>
        code ← validate_model_output output schema;
        match code with
        | Some c => Ok (failing ("extraction.invalid_output:" ++ c)%string)
        | None =>
            confidence ← python_float (default (VFloat (FFin 0)) (oget "confidence"%string output));
            Ok (MkReading None (dget "value" output) (evidence_fragment_text output) confidence)
        end
    | _ => Ok (failing "extraction.invalid_output"%string)
    end.

Fixpoint attempts (n : nat) (call : nat -> result ExtractionResult) (schema : odict string pyval) (last : reading)
  : M (criteria J) reading :=
  match n with
  | O => mret last
  | Datatypes.S n' =>
      attempt ← ask call;
      r ← lift (read_attempt schema attempt);
      match rd_failure r with
      | Some _ => attempts n' call schema r
      | None => mret r
      end
  end.

Definition _model_observation (listing : Z) (key matcher : string) (version : ExtractionVersion)
    (projection : odict string pyval) (now correlation_id : Z) : M (criteria J) ListingObservation :=
  match cr_extractor cfg with
  | None => raise (CriteriaPermanentError "criteria.extractor_unavailable")
  | Some extract =>
      schema ← lift (concept_schema key);
      r ← attempts (Z.to_nat (Z.max 1 (cr_max_attempts cfg)))
            (fun asked => extract asked key projection schema (xv_version version)) schema (failing "");
      id ← uuid4;
      mret (MkListingObservation id listing key matcher (rd_value r) (FFin 0) (rd_confidence r)
              [("fragment", opt_text (rd_evidence r)); ("span", VNone); ("matched_on", VList [])]%string
              SourceModel (Some (xv_version_id version))
              (match rd_failure r with Some _ => ObsFailed | None => ObsActive end)
              (rd_failure r) None now correlation_id "service" None)
  end.

(** The observation of one listing *)
Definition observe (key source : string) (version : ExtractionVersion) (now correlation_id : Z)
    (listing : NormalizedListing) : M (criteria J) ListingObservation :=
  let projection := build_permitted_input listing (cr_contract cfg) key in
  matcher ← on_data (gets (_matcher_type key));
  if bool_decide (source = "rule"%string)
  then _rule_observation (listing_id listing) key matcher version projection now correlation_id
  else _model_observation (listing_id listing) key matcher version projection now correlation_id.

(** [for x in l: result.append(f(x))] *)
Fixpoint map_M {S A B} (f : A -> M S B) (l : list A) : M S (list B) :=
  match l with
  | [] => mret []
  | x :: l' => y ← f x; ys ← map_M f l'; mret (y :: ys)
  end.

Definition _extract_concept (key source : string) (version : ExtractionVersion) (correlation_id : Z)
    (listings : list NormalizedListing) : M (criteria J) (list ListingObservation) :=
  now ← clock; map_M (observe key source version now correlation_id) listings.

Definition extract_target (listings : list NormalizedListing) (correlation_id : Z) (target : string * string)
  : M (criteria J) (list ListingObservation * (string * string * ExtractionVersion)) :=
  let '(key, source) := target in
  version ← _ensure_extraction_version key source correlation_id;
  chunks ← lift (batches (cr_batch_size cfg) listings);
  observations ← map_M (_extract_concept key source version correlation_id) chunks;
  mret (concat observations, (key, source, version)).

Definition _extract_for_scope (scope : RecomputeScope) (correlation_id : Z)
  : M (criteria J) (list ListingObservation * list (string * string * ExtractionVersion)) :=
  targets ← _extraction_targets scope;
  listings ← on_data (gets (_listings_for_scope scope));
  parts ← map_M (extract_target listings correlation_id) targets;
  mret (concat (map fst parts), map snd parts).

Definition count_state (state : ObservationState) (l : list ListingObservation) : Z :=
  Z.of_nat (length (List.filter (fun o => bool_decide (obs_state o = state)) l)).
Definition or_uuid4 (given_id : option Z) : M (criteria J) Z :=
  match given_id with Some id => mret id | None => uuid4 end.

Definition process_extraction (scope : RecomputeScope) (job_execution_id : Z) (correlation_id : option Z)
  : M (criteria J) (odict string pyval) :=
  correlation ← or_uuid4 correlation_id;
  '(observations, targets) ← _extract_for_scope scope correlation;
  supersede_ids ← on_data (ids_for_scope scope);
  let published := count_state ObsActive observations in
  let failed := count_state ObsFailed observations in
  let superseded := Z.of_nat (length supersede_ids) in
  _ ← on_data (publish_observations observations supersede_ids None None);
  _ ← (if bool_decide (scope_kind scope = ScopeConcept) then
         version ← lift (match targets with (_, _, v) :: _ => Ok (xv_version_id v) | [] => Raise IndexError end);
         criteria_event "criteria.observation_batch_published.v1" correlation None [
           ("scope_kind", VStr (scope_kind_str (scope_kind scope))); ("scope_key", VStr (key_or_full scope));
           ("extraction_version_id", VStr (uuid_str version)); ("published_count", VInt published);
           ("superseded_count", VInt superseded); ("failed_count", VInt failed)]%string
       else mret tt);
  mret [("scope_kind", VStr (scope_kind_str (scope_kind scope))); ("scope_key", VStr (key_or_full scope));
        ("published", VInt published); ("superseded", VInt superseded); ("failed", VInt failed);
        ("concept_count", VInt (Z.of_nat (length targets)))]%string.

(** [except CriteriaError] *)
Definition is_criteria_error (e : exn) : bool :=
  match e with
  | CriteriaValidationError _ | SoftToHardRequiresConfirmation _ | CriteriaNotFound | CriteriaPermanentError _
  | CriteriaTransientError _ => true
  | _ => false
  end.

Definition process_recompute (scope : RecomputeScope) (cause : string) (job_execution_id : Z)
    (correlation_id : option Z) : M (criteria J) (odict string pyval) :=
  correlation ← or_uuid4 correlation_id;
  now ← clock;
  run_id ← uuid4;
  let run := MkRecomputeRun run_id scope cause RecomputePending [] (Some job_execution_id) None now correlation 1
               "service" None in
  _ ← on_data (recompute_insert run);
  supersede_ids ← on_data (ids_for_scope scope);
  '(observations, _) ← try_except (_extract_for_scope scope correlation)
    (fun e => if is_criteria_error e
              then _ ← on_data (recompute_fail run "criteria.recompute_failed"); raise e
              else raise e);
  finished ← clock;
  let published := count_state ObsActive observations in
  let failed := count_state ObsFailed observations in
  let superseded := Z.of_nat (length supersede_ids) in
  let counts := [("invalidated", VInt superseded); ("published", VInt published);
                 ("superseded", VInt superseded); ("failed", VInt failed)]%string in
  let succeeded := MkRecomputeRun run_id scope cause RecomputeSucceeded counts (Some job_execution_id)
                     (Some finished) now correlation 1 "service" None in
  event ← _build_event "criteria.recompute_completed.v1" correlation None [
    ("recompute_run_id", VStr (uuid_str run_id)); ("scope_kind", VStr (scope_kind_str (scope_kind scope)));
    ("scope_key", VStr (key_or_full scope)); ("cause", VStr cause); ("state", VStr "succeeded");
    ("published_count", VInt published); ("failed_count", VInt failed)]%string;
  _ ← on_data (publish_observations observations supersede_ids (Some succeeded) (Some event));
  mret [("recompute_run_id", VStr (uuid_str run_id)); ("scope_kind", VStr (scope_kind_str (scope_kind scope)));
        ("scope_key", VStr (key_or_full scope)); ("cause", VStr cause); ("state", VStr "succeeded");
        ("published", VInt published); ("superseded", VInt superseded); ("failed", VInt failed)]%string.

(** ** Embeddings and urban context *)

Definition embed_listing (embed : EmbeddingModel) (listing : NormalizedListing) : M (criteria J) (Z * list float) :=
  let projection := build_permitted_input listing (cr_contract cfg) (cr_embedding_key cfg) in
  vector ← ask (fun asked => embed asked projection);
  mret (listing_id listing, vector).

Definition process_embeddings (scope : RecomputeScope) (correlation_id : option Z)
  : M (criteria J) (odict string pyval) :=
  correlation ← or_uuid4 correlation_id;
  match cr_embeddings_enabled cfg, cr_embedding_model cfg with
  | true, Some embed =>
      version ← register_extraction_version "embedding" (cr_embedding_key cfg) "v1"
                  [("model"%string, VStr (cr_embedding_key cfg))] correlation;
      listings ← on_data (gets (_listings_for_scope scope));
      pairs ← map_M (embed_listing embed) listings;
      let vectors := oupdate [] pairs in
      _ ← (if cr_embeddings cfg
           then on_data (publish_embeddings (okeys vectors) (xv_version_id version) vectors None) else mret tt);
      mret [("enabled", VBool true); ("published", VInt (Z.of_nat (length vectors)))]%string
  | _, _ => mret [("enabled", VBool false); ("published", VInt 0)]%string
  end.

Definition store_signal (listing : NormalizedListing) (signal_type : string) (now correlation_id : Z) (raw : RawSignal)
  : M (criteria J) unit :=
  id ← uuid4;
  on_data (signal_insert (MkUrbanSignal id (listing_id listing) signal_type
    (py_str (default (VStr "unknown") (oget "source"%string (raw_signal raw)))) now
    (_authorized_geometry listing raw)
    (py_str (default (VStr "v1") (oget "algorithm_version"%string (raw_signal raw)))) (_raw_payload raw)
    now correlation_id)).

Definition ingest_urban_signals (id : Z) (signal_type : string) (correlation_id : Z) : M (criteria J) Z :=
  match cr_urban_enabled cfg, cr_urban_source cfg, cr_signals cfg with
  | true, Some fetch, true =>
      listing ← on_data (gets (listing_of_id id));
      match listing with
      | None => raise CriteriaNotFound
      | Some l =>
          signals ← ask (fun asked => fetch asked l signal_type);
          now ← clock;
          _ ← map_M (store_signal l signal_type now correlation_id) signals;
          mret (Z.of_nat (length signals))
      end
  | _, _, _ => mret 0
  end.
End service.

(** ** Job handlers ([workers/criteria.py]) *)

Section workers.
Context {J : Type} `{JobPort J} `{NumericColumns} `{JsonbSize}.
Variable cfg : criteria_config.

Definition job_scope (context : JobContext) : result RecomputeScope :=
  match jc_logical_target context with
  | None => Raise (PermanentJobError "criteria.target_missing")
  | Some target =>
      match scope_parse target with
      | Raise ValueError => Raise (PermanentJobError "criteria.target_invalid")
      | r => r
      end
  end.

(** The errors of the service as those of a job, whose constructors normalise the code *)
Definition as_job_error (e : exn) : exn :=
  let raised := fun r : result exn => match r with Ok x | Raise x => x end in
  match e with
  | CriteriaTransientError code => raised (TransientJobError_init code None)
  | CriteriaPermanentError code => raised (PermanentJobError_init code)
  | e => e
  end.

Definition _summary (summary : odict string pyval) : odict string pyval :=
  map (fun kv => (kv.1, match kv.2 with VList _ | VDict _ => VStr (py_str kv.2) | v => v end)) summary.

Definition ExtractionRunHandler_run (context : JobContext) : M (criteria J) (odict string pyval) :=
  scope ← lift (job_scope context);
  summary ← try_except (process_extraction cfg scope (jc_execution_id context) (Some (jc_correlation_id context)))
              (fun e => raise (as_job_error e));
  mret (_summary summary).

Definition RecomputeHandler_run (context : JobContext) : M (criteria J) (odict string pyval) :=
  scope ← lift (job_scope context);
  summary ← try_except (process_recompute cfg scope (default "" (jc_logical_target context))
                          (jc_execution_id context) (Some (jc_correlation_id context)))
              (fun e => raise (as_job_error e));
  mret (_summary summary).
End workers.
