(* ===== verification/CriteriaInvariant.v ===== *)
(** * The invariant of the criteria tables

    Every table satisfies its constraints, no version of a concept is newer than the concept,
    and every observation is backed by a registered extraction version of its own concept and
    source.  Every operation of the service keeps this, whether it returns or raises. *)

From S2P Require Export CriteriaService Hoare.
#[local] Open Scope list_scope.

Section invariant.
Context `{NumericColumns} `{JsonbSize}.

Definition source_kind (s : ObservationSource) : string :=
  match s with SourceRule => "rule" | SourceModel => "model" end.

(** The extraction version behind an observation *)
Definition backed (k : knowledge) (o : ListingObservation) : Prop :=
  exists v, v ∈ kn_extractions k /\ obs_extraction_version_id o = Some (xv_version_id v)
    /\ xv_key v = obs_concept_key o /\ xv_kind v = source_kind (obs_source o).

Record criteria_inv (k : knowledge) : Prop := {
  ci_concepts : table_ok concept_clash concept_check (kn_concepts k);
  ci_versions : table_ok concept_version_clash concept_version_check (kn_concept_versions k);
  ci_facts : table_ok fact_clash fact_check (kn_facts k);
  ci_compilations : table_ok compilation_clash compilation_check (kn_compilations k);
  ci_extractions : table_ok extraction_clash extraction_check (kn_extractions k);
  ci_observations : table_ok observation_clash observation_check (kn_observations k);
  ci_recomputes : table_ok recompute_clash recompute_check (kn_recomputes k);
  ci_embeddings : table_ok embedding_clash embedding_check (kn_embeddings k);
  ci_signals : table_ok signal_clash signal_check (kn_signals k);
  ci_events : table_ok event_clash event_check (kn_events k);
  ci_numbers : Forall (fun v => exists c, c ∈ kn_concepts k /\ concept_id c = cv_concept_id v
                                 /\ cv_concept_version v <= concept_version c) (kn_concept_versions k);
  ci_backed : Forall (backed k) (kn_observations k)
}.

Definition no_criteria (d : db) : Prop :=
  t_observations d = [] /\ t_compilations d = [] /\ table_ok event_clash event_check (t_events d).

Lemma criteria_inv_empty d : no_criteria d -> criteria_inv (empty_knowledge d).
Proof.
  intros (Ho & Hc & He). split; unfold kn_observations, kn_compilations, kn_events; simpl; rewrite ?Ho, ?Hc;
    try apply table_ok_nil; try constructor; apply He.
Qed.

(** ** Changes of state *)

Lemma clash_no_active (f : ListingObservation -> ListingObservation) a b :
  (forall o, observation_id (f o) = observation_id o /\ obs_listing_id (f o) = obs_listing_id o
             /\ obs_concept_key (f o) = obs_concept_key o /\ obs_source (f o) = obs_source o
             /\ (obs_active (f o) = true -> obs_active o = true)) ->
  observation_clash a b = false -> observation_clash (f a) (f b) = false.
Proof.
  intros Hf. destruct (Hf a) as (Ia & La & Ka & Sa & Aa), (Hf b) as (Ib & Lb & Kb & Sb & Ab).
  unfold observation_clash. rewrite Ia, Ib, La, Lb, Ka, Kb, Sa, Sb, !orb_false_iff. intros [-> Hc]. split; [done|].
  destruct (obs_active (f a)); [|done]. destruct (obs_active (f b)); [|by rewrite andb_false_r].
  rewrite Aa, Ab in Hc by done. exact Hc.
Qed.

Lemma observation_check_state s o : s <> ObsFailed -> observation_check o = true ->
  observation_check (obs_with_state s o) = true.
Proof.
  intros Hs. unfold observation_check. simpl. rewrite (bool_decide_eq_false_2 (s = ObsFailed)) by done. simpl.
  intros Hc. by apply andb_true_iff in Hc as [-> _].
Qed.

(** Rows that change to a state that is neither active nor failed *)
Lemma restate_ok (hit : ListingObservation -> bool) s t : s <> ObsActive -> s <> ObsFailed ->
  table_ok observation_clash observation_check t ->
  table_ok observation_clash observation_check (map (fun o => if hit o then obs_with_state s o else o) t).
Proof.
  intros Ha Hf. apply map_ok_le.
  - intros a b _ _. apply (clash_no_active (fun o => if hit o then obs_with_state s o else o)). intros o. destruct (hit o); [|done]. simpl.
    repeat split; [reflexivity..|]. unfold obs_active. simpl. by rewrite bool_decide_eq_false_2.
  - intros o _ Hc. destruct (hit o); [by apply observation_check_state|done].
Qed.

Lemma restate_backed k (hit : ListingObservation -> bool) s t : Forall (backed k) t ->
  Forall (backed k) (map (fun o => if hit o then obs_with_state s o else o) t).
Proof.
  intros Hb. apply Forall_map. eapply Forall_impl; [exact Hb|]. intros o Ho. by destruct (hit o).
Qed.

Lemma backed_same k k' : kn_extractions k' = kn_extractions k -> forall o, backed k o -> backed k' o.
Proof. intros E o (v & Hv & ?). exists v. by rewrite E. Qed.

Lemma backed_more k k' new : kn_extractions k' = kn_extractions k ++ new -> forall o, backed k o -> backed k' o.
Proof. intros E o (v & Hv & ?). exists v. rewrite E. split; [set_solver|done]. Qed.

(** ** Transactions *)

(** What is known of every outcome may be used for any. *)
Lemma wp_use {S A} (m : M S A) w s (P Q : result A -> sys S -> Prop) :
  wp m w s P -> wp m w s (fun r s' => P r s' -> Q r s') -> wp m w s Q.
Proof. unfold wp. destruct (m w s) as [r s']. auto. Qed.

Definition keeps {A} (m : M knowledge A) : Prop := forall w s,
  criteria_inv (state_of s) -> wp m w s (fun _ s' => criteria_inv (state_of s')).

Lemma keeps_gets {A} (f : knowledge -> A) : keeps (gets f).
Proof. by intros w s Hi. Qed.

(** After a concept is stored, its row is there with the number of its new version. *)
Definition concept_stored (id number : Z) (s : sys knowledge) : Prop :=
  criteria_inv (state_of s) /\ exists c, c ∈ kn_concepts (state_of s) /\ concept_id c = id /\ concept_version c = number.

Lemma wp_concept_insert c w s : criteria_inv (state_of s) ->
  wp (concept_insert c) w s (fun r s' => criteria_inv (state_of s')
                                          /\ match r with Ok _ => concept_stored (concept_id c) 1 s' | Raise _ => True end).
Proof.
  intros []. apply wp_add_to; [|split; [by split|done]].
  intros t' Hins. pose proof (insert_row_ok _ _ _ _ _ ci_concepts0 Hins) as Ht.
  apply insert_row_Some in Hins as (-> & _).
  assert (Hi : criteria_inv (set_concepts (kn_concepts (state_of s) ++ [concept_row 1 c]) (state_of s))).
  { split; simpl; try done. eapply Forall_impl; [exact ci_numbers0|]. intros v (c' & Hc' & ?). exists c'. set_solver. }
  split; [exact Hi|]. split; [exact Hi|]. exists (concept_row 1 c). simpl. set_solver.
Qed.

Lemma concept_assign_check c r a : concept_check (concept_assign c r) = true -> concept_check a = true ->
  concept_check (concept_assign c a) = true.
Proof. unfold concept_check. simpl. rewrite !andb_true_iff. tauto. Qed.

Lemma wp_concept_save c r w s : criteria_inv (state_of s) ->
  get_by concept_id (concept_id c) (kn_concepts (state_of s)) = Some r ->
  wp (concept_save c) w s (fun o s' => criteria_inv (state_of s')
    /\ match o with Ok _ => concept_stored (concept_id c) (concept_version r + 1) s' | Raise _ => True end).
Proof.
  intros Hinv Hget. pose proof Hinv as []. unfold concept_save. wp_step. rewrite Hget.
  destruct (concept_check (concept_assign c r)) eqn:Hcheck; wp_step; [|by split].
  assert (Hi : criteria_inv (set_concepts (update_by concept_id (concept_id c) (concept_assign c)
                               (kn_concepts (state_of s))) (state_of s))).
  { split; simpl; try done.
    - unfold update_by. apply map_ok; [| |done].
      + intros a b _ _. by destruct (concept_id a =? _), (concept_id b =? _).
      + intros a _ Ha. destruct (concept_id a =? _); [by eapply concept_assign_check|done].
    - eapply Forall_impl; [exact ci_numbers0|]. intros v (c' & Hc' & Hid & Hv).
      exists (if concept_id c' =? concept_id c then concept_assign c c' else c'). split; [|destruct (concept_id c' =? concept_id c); simpl; (split; [done|lia])].
      apply (list_elem_of_fmap_2 (fun r => if concept_id r =? concept_id c then concept_assign c r else r)). done. }
  split; [exact Hi|]. split; [exact Hi|]. apply get_by_Some in Hget as [Hr Hid]. exists (concept_assign c r). simpl.
  split; [|done]. replace (concept_assign c r) with (if concept_id r =? concept_id c then concept_assign c r else r)
    by (by rewrite Hid, Z.eqb_refl). by apply (list_elem_of_fmap_2 (fun r => if concept_id r =? concept_id c then concept_assign c r else r)).
Qed.

Lemma wp_concept_version_insert v number w s :
  concept_stored (cv_concept_id v) number s -> cv_concept_version v <= number ->
  wp (concept_version_insert v) w s (fun _ s' => criteria_inv (state_of s')).
Proof.
  intros (Hinv & c & Hc & Hid & Hn) Hv. pose proof Hinv as []. apply wp_add_to; [|done]. intros t' Hins.
  pose proof (insert_row_ok _ _ _ _ _ ci_versions0 Hins) as Ht. apply insert_row_Some in Hins as (-> & _).
  split; simpl; try done. apply Forall_app. split; [done|]. repeat constructor. exists c. split; [done|]. split; [done|lia].
Qed.

Lemma keeps_record_change f by_ : keeps (record_change f by_).
Proof.
  intros w s Hinv. pose proof Hinv as []. unfold record_change. wp_step. destruct (insert_row _ _ _ _) as [t'|] eqn:Hins; [|done].
  split; simpl; try done. eapply insert_row_ok; [|exact Hins]. apply map_ok_le; [| |done].
  - intros a b _ _. unfold give_way. destruct by_ as [id|]; [|done].
    set (hit := fun x => fact_active x && (fact_profile_id x =? fact_profile_id f)
                         && bool_decide (fact_concept_key x = fact_concept_key f)).
    change (fact_clash a b = false -> fact_clash (if hit a then superseded_fact id a else a)
                                        (if hit b then superseded_fact id b else b) = false).
    unfold fact_clash. destruct (hit a), (hit b); intros [Hid Hc]%orb_false_iff; apply orb_false_iff;
      (split; [exact Hid|]); [done|done| |exact Hc].
    change (fact_active a && false && (fact_profile_id a =? fact_profile_id b)
            && bool_decide (fact_concept_key a = fact_concept_key b) = false). by rewrite andb_false_r.
  - intros a _ Ha. unfold give_way. destruct by_; [|done]. by destruct (_ && _).
Qed.

Lemma keeps_compilation_insert c : keeps (compilation_insert c).
Proof.
  intros w s Hinv. pose proof Hinv as []. apply wp_add_to; [|done]. intros t' Hins.
  pose proof (insert_row_ok _ _ _ _ _ ci_compilations0 Hins). by split.
Qed.

Lemma keeps_kn_event_insert e : keeps (kn_event_insert e).
Proof.
  intros w s Hinv. pose proof Hinv as []. apply wp_add_to; [|done]. intros t' Hins.
  pose proof (insert_row_ok _ _ _ _ _ ci_events0 Hins). by split.
Qed.

Lemma keeps_invalidate matches : keeps (invalidate matches).
Proof.
  intros w s Hinv. pose proof Hinv as []. unfold invalidate. do 2 wp_step.
  split; simpl; try done; [by apply restate_ok|by apply restate_backed].
Qed.

Lemma keeps_extraction_insert v : keeps (extraction_insert v).
Proof.
  intros w s Hinv. pose proof Hinv as []. apply wp_add_to; [|done]. intros t' Hins.
  pose proof (insert_row_ok _ _ _ _ _ ci_extractions0 Hins) as Ht. apply insert_row_Some in Hins as (-> & _).
  split; simpl; try done. eapply Forall_impl; [exact ci_backed0|]. by eapply backed_more.
Qed.

Lemma keeps_ids_for_scope scope : keeps (ids_for_scope scope).
Proof. intros w s Hinv. unfold ids_for_scope. by wp_step. Qed.

Lemma keeps_recompute_insert r : keeps (recompute_insert r).
Proof.
  intros w s Hinv. pose proof Hinv as []. apply wp_add_to; [|done]. intros t' Hins.
  pose proof (insert_row_ok _ _ _ _ _ ci_recomputes0 Hins). by split.
Qed.

Lemma recompute_update_ok id f t : (forall r, rr_run_id (f r) = rr_run_id r /\ rr_scope (f r) = rr_scope r) ->
  table_ok recompute_clash recompute_check t -> table_ok recompute_clash recompute_check (update_by rr_run_id id f t).
Proof.
  intros Hf. unfold update_by. apply map_ok.
  - intros a b _ _. unfold recompute_clash. destruct (rr_run_id a =? id), (rr_run_id b =? id);
      by rewrite ?(proj1 (Hf _)).
  - intros a _. unfold recompute_check. destruct (rr_run_id a =? id); [by rewrite (proj2 (Hf _))|done].
Qed.

Lemma keeps_recompute_fail run code : keeps (recompute_fail run code).
Proof.
  intros w s Hinv. pose proof Hinv as []. unfold recompute_fail. wp_step. destruct (recompute_get _ _); [|done].
  split; simpl; try done. by apply recompute_update_ok.
Qed.

Lemma keeps_signal_insert x : keeps (signal_insert x).
Proof.
  intros w s Hinv. pose proof Hinv as []. apply wp_add_to; [|done]. intros t' Hins.
  pose proof (insert_row_ok _ _ _ _ _ ci_signals0 Hins). by split.
Qed.

(** The tables after a publication *)
Definition published (obs : list ListingObservation) (ids : list Z) (run : option RecomputeRun)
    (events : list ProductEvent) (k : knowledge) : knowledge :=
  set_recomputes (match run with
                  | Some r => update_by rr_run_id (rr_run_id r) (recompute_assign (rr_state r) r) (kn_recomputes k)
                  | None => kn_recomputes k
                  end)
    (set_observations (map (supersede ids) (kn_observations k) ++ map observation_row obs) (set_kn_events events k)).

Definition events_with (event : option ProductEvent) (k : knowledge) (events : list ProductEvent) : Prop :=
  match event with
  | Some e => insert_row event_clash event_check e (kn_events k) = Some events
  | None => events = kn_events k
  end.

Lemma wp_publish obs ids run event w s (Q : result unit -> sys knowledge -> Prop) :
  (forall e, e = KeyError \/ e = IntegrityError -> Q (Raise e) s) ->
  (forall events observations, events_with event (state_of s) events ->
     insert_rows observation_clash observation_check (map observation_row obs)
       (map (supersede ids) (kn_observations (state_of s))) = Some observations ->
     match run with Some r => is_Some (recompute_get (rr_run_id r) (state_of s)) | None => True end ->
     Q (Ok tt) (Sys (published obs ids run events (state_of s)) (drawn s) (ticks s))) ->
  wp (publish_observations obs ids run event) w s Q.
Proof.
  intros HR HO. unfold publish_observations. wp_step.
  assert (Hgo : match run with Some r => is_Some (recompute_get (rr_run_id r) (state_of s)) | None => True end
                \/ exists r, run = Some r /\ recompute_get (rr_run_id r) (state_of s) = None).
  { destruct run as [r|]; [|by left]. destruct (recompute_get _ _) eqn:E; [by left|right; by exists r]. }
  destruct Hgo as [Hgo|(r & -> & Hno)].
  2:{ rewrite bool_decide_eq_true_2 by done. do 2 wp_step. apply HR. by left. }
  assert (Hcheck : (match run with
    | Some r => if bool_decide (recompute_get (rr_run_id r) (state_of s) = None) then raise KeyError else mret tt
    | None => mret tt end : M knowledge unit) = mret tt).
  { destruct run as [r|]; [|done]. destruct Hgo as [x Hx]. by rewrite bool_decide_eq_false_2 by congruence. }
  rewrite Hcheck. wp_step. wp_step.
  destruct (insert_rows _ _ _ _) as [obs'|] eqn:Hins; [|by wp_step; apply HR; right].
  pose proof Hins as [-> _]%insert_rows_Some.
  destruct event as [e|]; [destruct (insert_row _ _ _ _) as [events|] eqn:Hev; [|by wp_step; apply HR; right]|];
    wp_step; by eapply HO.
Qed.

(** Published observations have to be backed. *)
Lemma published_inv obs ids run event events observations k :
  criteria_inv k -> Forall (backed k) obs -> events_with event k events ->
  insert_rows observation_clash observation_check (map observation_row obs)
    (map (supersede ids) (kn_observations k)) = Some observations ->
  criteria_inv (published obs ids run events k).
Proof.
  intros Hinv Hobs Hev Hins. pose proof Hinv as [].
  assert (Hobs' : table_ok observation_clash observation_check observations).
  { eapply insert_rows_ok; [|exact Hins]. unfold supersede.
    exact (restate_ok (fun o => bool_decide (observation_id o ∈ ids)) ObsSuperseded _ ltac:(done) ltac:(done) ci_observations0). }
  apply insert_rows_Some in Hins as [-> _]. split; simpl; try done.
  - destruct run as [r|]; [|done]. by apply recompute_update_ok.
  - destruct event as [e|]; simpl in Hev; [by eapply insert_row_ok|by subst].
  - apply Forall_app. split.
    + exact (restate_backed _ (fun o => bool_decide (observation_id o ∈ ids)) ObsSuperseded _ ci_backed0).
    + apply Forall_map. exact Hobs.
Qed.

Lemma embedding_supersede_ok listing version t : table_ok embedding_clash embedding_check t ->
  table_ok embedding_clash embedding_check (map (supersede_embedding listing version) t).
Proof.
  apply map_ok_le.
  - intros a b _ _. unfold supersede_embedding.
    set (hit := fun x => embedding_active x && (emb_listing_id x =? listing) && (emb_extraction_version_id x =? version)).
    set (old := fun x => MkListingEmbedding (emb_id x) (emb_listing_id x) (emb_extraction_version_id x) (emb_vector x)
                           ObsSuperseded (emb_run_id x) (emb_created_at x) (emb_correlation_id x)).
    change (embedding_clash a b = false -> embedding_clash (if hit a then old a else a) (if hit b then old b else b) = false).
    unfold embedding_clash. destruct (hit a), (hit b); intros [Hid Hc]%orb_false_iff; apply orb_false_iff;
      (split; [exact Hid|]); [done|done| |exact Hc].
    change (embedding_active a && false && (emb_listing_id a =? emb_listing_id b)
            && (emb_extraction_version_id a =? emb_extraction_version_id b) = false). by rewrite andb_false_r.
  - intros a _ Ha. unfold supersede_embedding. by destruct (_ && _).
Qed.

Lemma wp_embed_rows listings version vectors run rows w s :
  match rows with Some t => table_ok embedding_clash embedding_check t | None => True end ->
  wp (embed_rows listings version vectors run rows) w s (fun r s' => state_of s' = state_of s /\
    match r with Ok (Some t) => table_ok embedding_clash embedding_check t | _ => True end).
Proof.
  revert rows s. induction listings as [|x listings IH]; intros rows s Hrows; cbn [embed_rows]; [by wp_step; destruct rows|].
  destruct (oget x vectors) as [v|].
  - do 3 wp_step. eapply wp_mono; [apply IH|done]. destruct rows as [t|]; [|done]. simpl.
    destruct (insert_row _ _ _ _) eqn:E; [|done]. eapply insert_row_ok; [|exact E]. by apply embedding_supersede_ok.
  - apply IH. destruct rows as [t|]; [|done]. by apply embedding_supersede_ok.
Qed.

Lemma keeps_publish_embeddings listings version vectors run : keeps (publish_embeddings listings version vectors run).
Proof.
  intros w s Hinv. pose proof Hinv as []. unfold publish_embeddings. wp_step. wp_step.
  eapply wp_mono; [by apply wp_embed_rows|]. intros [[t|]|e] s' [E Ht];
    [wp_step; by split|wp_step; simpl; by rewrite E|simpl; by rewrite E].
Qed.
End invariant.
