(* ===== verification/CriteriaRuns.v ===== *)
(** * Extraction and recomputation

    What a batch of extraction stores, and that a recomputation stores all of it or nothing:
    rules for the computations of the criteria service, by what they do to the tables. *)

From S2P Require Export CriteriaInvariant.
#[local] Open Scope list_scope.

Section service.
Context {J : Type} `{JobPort J} `{NumericColumns} `{JsonbSize}.
Variable cfg : criteria_config.

Definition tables_of (s : sys (criteria J)) : knowledge := ct_data (state_of s).

(** ** Rules *)

Lemma wp_on_data {A} (m : M knowledge A) w s (Q : result A -> sys (criteria J) -> Prop) :
  wp m w (Sys (tables_of s) (drawn s) (ticks s))
    (fun r s' => forall j n, j = ct_jobs (state_of s) -> n = ct_asked (state_of s) ->
       Q r (Sys (MkCriteria (state_of s') j n) (drawn s') (ticks s'))) ->
  wp (on_data m) w s Q.
Proof. intros Hm. apply wp_zoom. eapply wp_mono; [exact Hm|]. intros r s' HQ. by apply HQ. Qed.

Lemma wp_read {A B} (f : knowledge -> A) (g : A -> M (criteria J) B) w s Q :
  wp (g (f (tables_of s))) w s Q -> wp (mbind g (on_data (gets f))) w s Q.
Proof. destruct s as [[k j n] d t]. intros Hg. wp_step. exact Hg. Qed.

(** Computations that leave the tables *)
Definition quiet {A} (m : M (criteria J) A) (post : A -> Prop) : Prop := forall w s,
  wp m w s (fun r s' => tables_of s' = tables_of s /\ match r with Ok a => post a | Raise _ => True end).

Lemma quiet_bind {A B} (m : M (criteria J) A) (f : A -> M (criteria J) B) P Q :
  quiet m P -> (forall a, P a -> quiet (f a) Q) -> quiet (mbind f m) Q.
Proof.
  intros Hm Hf w s. wp_step. eapply wp_mono; [apply Hm|]. intros [a|e] s' [E Ha]; [|done].
  eapply wp_mono; [by apply Hf|]. intros r s2 [E2 Hr]. by rewrite E2.
Qed.
Lemma quiet_ret {A} (a : A) (P : A -> Prop) : P a -> quiet (mret a) P.
Proof. by intros Ha w s. Qed.
Lemma quiet_raise {A} e (P : A -> Prop) : quiet (raise e) P.
Proof. by intros w s. Qed.
Lemma quiet_lift {A} (r : result A) : quiet (lift r) (fun a => r = Ok a).
Proof. intros w s. unfold wp, lift. by destruct r. Qed.
Lemma quiet_uuid4 : quiet uuid4 (fun _ => True).
Proof. by intros w s. Qed.
Lemma quiet_clock : quiet clock (fun _ => True).
Proof. by intros w s. Qed.
Lemma quiet_ask {A} (call : nat -> result A) : quiet (ask call) (fun _ => True).
Proof.
  intros w s. unfold ask. wp_step. wp_step. wp_step. unfold wp, lift. simpl. by destruct (call _).
Qed.
Lemma quiet_gets {A} (f : knowledge -> A) : quiet (on_data (gets f)) (fun _ => True).
Proof. intros w s. by apply wp_on_data. Qed.

Lemma quiet_map_M {A B} (f : A -> M (criteria J) B) (P : A -> B -> Prop) l :
  (forall x, quiet (f x) (P x)) -> quiet (map_M f l) (Forall2 P l).
Proof.
  intros Hf. induction l as [|x l IH]; cbn [map_M]; [by apply quiet_ret; constructor|].
  eapply quiet_bind; [apply Hf|]. intros y Hy. eapply quiet_bind; [exact IH|]. intros ys Hys.
  apply quiet_ret. by constructor.
Qed.

Lemma quiet_mono {A} (m : M (criteria J) A) (P Q : A -> Prop) : quiet m P -> (forall a, P a -> Q a) -> quiet m Q.
Proof. intros Hm HPQ w s. eapply wp_mono; [apply Hm|]. intros [a|e] s' [E Ha]; [split; [done|by apply HPQ]|done]. Qed.

(** ** The tables while a batch is prepared *)

(** An observation is kept, or it was active and is invalidated. *)
Definition aged (o o' : ListingObservation) : Prop :=
  o' = o \/ (obs_state o = ObsActive /\ o' = obs_with_state ObsInvalidated o).

Definition others_of (k : knowledge) :=
  (kn_concepts k, kn_concept_versions k, kn_facts k, kn_recomputes k, kn_embeddings k, kn_signals k,
   kn_compilations k, kn_events k, t_listings (kn_db k), t_profiles (kn_db k), t_versions (kn_db k)).

Record prepared (k k' : knowledge) : Prop := {
  pr_extractions : exists new, kn_extractions k' = kn_extractions k ++ new;
  pr_observations : Forall2 aged (kn_observations k) (kn_observations k');
  pr_others : others_of k' = others_of k
}.

Lemma aged_trans a b c : aged a b -> aged b c -> aged a c.
Proof. intros [->|[Ha ->]] [->|[Hb ->]]; [by left|by right|by right; split|done]. Qed.

Lemma prepared_refl k : prepared k k.
Proof.
  split; [exists []; by rewrite app_nil_r| |done]. induction (kn_observations k); constructor; [by left|done].
Qed.

Lemma aged_all_trans l1 l2 l3 : Forall2 aged l1 l2 -> Forall2 aged l2 l3 -> Forall2 aged l1 l3.
Proof.
  intros H12. revert l3. induction H12 as [|a b l1 l2 Hab _ IH]; intros l3; [by inversion 1; constructor|].
  inversion 1; subst. constructor; [by eapply aged_trans|by apply IH].
Qed.

Lemma prepared_trans k1 k2 k3 : prepared k1 k2 -> prepared k2 k3 -> prepared k1 k3.
Proof.
  intros [[n1 E1] O1 R1] [[n2 E2] O2 R2]. split; [|by eapply aged_all_trans|congruence].
  exists (n1 ++ n2). by rewrite E2, E1, app_assoc.
Qed.

Lemma prepared_backed k k' o : prepared k k' -> backed k o -> backed k' o.
Proof. intros [[n E] _ _]. by apply (backed_more k k' n). Qed.

Definition prepares {A} (m : M (criteria J) A) (post : A -> knowledge -> Prop) : Prop := forall w s,
  criteria_inv (tables_of s) ->
  wp m w s (fun r s' => criteria_inv (tables_of s') /\ prepared (tables_of s) (tables_of s')
                        /\ match r with Ok a => post a (tables_of s') | Raise _ => True end).

Lemma prepares_quiet {A} (m : M (criteria J) A) P : quiet m P -> prepares m (fun a _ => P a).
Proof.
  intros Hm w s Hinv. eapply wp_mono; [apply Hm|]. intros r s' [-> Hr]. split; [done|]. split; [apply prepared_refl|done].
Qed.

Lemma prepares_bind {A B} (m : M (criteria J) A) (f : A -> M (criteria J) B) P Q :
  prepares m P -> (forall a k, P a k -> prepares (fun w s => f a w s) (fun b k' => prepared k k' -> Q b k')) ->
  prepares (mbind f m) Q.
Proof.
  intros Hm Hf w s Hinv. wp_step. eapply wp_mono; [by apply Hm|]. intros [a|e] s1 (Hi & Hp & Ha); [|done].
  eapply wp_mono; [by apply (Hf a (tables_of s1) Ha w s1 Hi)|]. intros r s2 (Hi2 & Hp2 & Hr).
  split; [done|]. split; [by eapply prepared_trans|]. destruct r; [by apply Hr|done].
Qed.

Lemma prepares_mono {A} (m : M (criteria J) A) (P Q : A -> knowledge -> Prop) :
  prepares m P -> (forall a k, P a k -> Q a k) -> prepares m Q.
Proof.
  intros Hm HPQ w s Hinv. eapply wp_mono; [by apply Hm|]. intros r s' (Hi & Hp & Hr).
  split; [done|]. split; [done|]. destruct r; [by apply HPQ|done].
Qed.

Lemma prepares_ret {A} (a : A) (P : A -> knowledge -> Prop) : (forall k, P a k) -> prepares (mret a) P.
Proof. intros Ha w s Hinv. wp_step. split; [done|]. split; [apply prepared_refl|apply Ha]. Qed.

Lemma prepares_map_M {A B} (f : A -> M (criteria J) B) (P : A -> B -> knowledge -> Prop) l :
  (forall x y k k', P x y k -> prepared k k' -> P x y k') -> (forall x, prepares (f x) (P x)) ->
  prepares (map_M f l) (fun ys k => Forall2 (fun x y => P x y k) l ys).
Proof.
  intros Hmono Hf. induction l as [|x l IH]; cbn [map_M]; [apply prepares_ret; constructor|].
  eapply prepares_bind; [apply Hf|]. intros y k Hy. eapply prepares_bind; [exact IH|]. intros ys k1 Hys.
  apply prepares_ret. intros k2 H12 Hk.
  constructor; [exact (Hmono x y k k2 Hy Hk)|].
  eapply Forall2_impl; [exact Hys|]. intros a b Hab. exact (Hmono a b k1 k2 Hab H12).
Qed.
(** ** Extraction versions *)

Definition is_version (kind key : string) (v : ExtractionVersion) (k : knowledge) : Prop :=
  v ∈ kn_extractions k /\ xv_kind v = kind /\ xv_key v = key.

Lemma is_version_mono kind key v k k' : is_version kind key v k -> prepared k k' -> is_version kind key v k'.
Proof. intros [Hv ?] [[new E] _ _]. split; [rewrite E; set_solver|done]. Qed.

Lemma invalidated_aged (hit : ListingObservation -> bool) l : (forall o, hit o = true -> obs_state o = ObsActive) ->
  Forall2 aged l (map (fun o => if hit o then obs_with_state ObsInvalidated o else o) l).
Proof.
  intros Hh. induction l as [|o l IH]; constructor; [|done]. destruct (hit o) eqn:E; [right; by split; [apply Hh|]|by left].
Qed.

Lemma prepares_invalidate matches : prepares (on_data (invalidate matches)) (fun _ _ => True).
Proof.
  intros w s Hinv. apply wp_on_data. pose proof (keeps_invalidate matches w (Sys (tables_of s) (drawn s) (ticks s)) Hinv) as Hk.
  unfold invalidate, wp in *. simpl in *. intros j n -> ->. split; [exact Hk|]. split; [|done].
  split; [exists []; by rewrite app_nil_r| |done]. apply (invalidated_aged (fun o => obs_active o && matches (tables_of s) o)).
  intros o Ho. apply andb_true_iff in Ho as [Ho _]. by apply bool_decide_eq_true in Ho.
Qed.

Lemma prepares_extraction_insert v : prepares (on_data (extraction_insert v)) (fun _ k => v ∈ kn_extractions k).
Proof.
  intros w s Hinv. apply wp_on_data.
  eapply wp_use; [exact (keeps_extraction_insert v w (Sys (tables_of s) (drawn s) (ticks s)) Hinv)|].
  apply wp_add_to; simpl.
  - intros t' Hins Hk j n -> ->. apply insert_row_Some in Hins as (-> & _). split; [exact Hk|]. split; [|simpl; set_solver].
    split; [by exists [v]|apply (pr_observations _ _ (prepared_refl (tables_of s)))|done].
  - intros Hk j n -> ->. split; [exact Hk|]. split; [apply prepared_refl|done].
Qed.

Lemma prepares_gets {A} (f : knowledge -> A) : prepares (on_data (gets f)) (fun a k => a = f k).
Proof. intros w s Hinv. apply wp_on_data. intros j n -> ->. split; [done|]. split; [apply prepared_refl|done]. Qed.

Lemma extraction_find_version kind key version k v :
  extraction_find kind key version k = Some v -> is_version kind key v k.
Proof.
  intros [Hv Hb]%find_first_Some. split; [done|].
  apply andb_true_iff in Hb as [[Ekind Ekey]%andb_true_iff _]. by apply bool_decide_eq_true in Ekind, Ekey.
Qed.

Lemma prepares_register kind key version payload correlation :
  prepares (register_extraction_version kind key version payload correlation) (is_version kind key).
Proof.
  unfold register_extraction_version. eapply prepares_bind; [apply prepares_gets|]. intros same k Hsame.
  destruct same as [v|].
  { apply prepares_ret. intros k' Hp. eapply is_version_mono; [|exact Hp]. by eapply extraction_find_version. }
  eapply prepares_bind; [apply prepares_quiet, quiet_gets|]. intros previous k1 _.
  eapply prepares_bind; [apply prepares_quiet, quiet_uuid4|]. intros id k2 _.
  eapply prepares_bind; [apply prepares_quiet, quiet_clock|]. intros now k3 _.
  eapply prepares_bind; [apply prepares_extraction_insert|]. intros u k4 Hentry.
  eapply prepares_bind; [apply (prepares_mono _ (fun _ _ => True) (fun _ _ => True)); [|done]|].
  { destruct previous; [|by apply prepares_ret]. eapply prepares_bind; [apply prepares_invalidate|].
    intros n k5 _. by apply prepares_ret. }
  intros _ k5 _. apply prepares_ret. intros k6 _ H46 _ _ _ _.
  eapply (is_version_mono _ _ _ k4); [by split|exact H46].
Qed.

Lemma prepares_ensure key source correlation :
  prepares (_ensure_extraction_version cfg key source correlation)
    (is_version (if bool_decide (source = "rule"%string) then "rule" else "model") key).
Proof.
  unfold _ensure_extraction_version. destruct (bool_decide (source = "rule"%string)); [apply prepares_register|].
  eapply prepares_bind; [apply prepares_quiet, quiet_lift|]. intros schema k _.
  eapply prepares_bind; [apply prepares_register|]. intros schema_entry k1 _.
  eapply prepares_bind; [apply prepares_register|]. intros prompt_entry k2 _.
  eapply prepares_mono; [apply prepares_register|]. done.
Qed.

(** ** Observations of a batch *)

Definition source_of (source : string) : ObservationSource :=
  if bool_decide (source = "rule"%string) then SourceRule else SourceModel.

(** The observation of a listing for a target and its version *)
Record observed (key source : string) (version : ExtractionVersion) (l : NormalizedListing) (o : ListingObservation)
  : Prop := {
  ob_listing : obs_listing_id o = listing_id l;
  ob_key : obs_concept_key o = key;
  ob_source : obs_source o = source_of source;
  ob_version : obs_extraction_version_id o = Some (xv_version_id version);
  ob_state : obs_state o = ObsActive \/ (obs_state o = ObsFailed /\ is_Some (obs_failure_code o))
}.

Lemma quiet_attempts n call schema last : quiet (attempts n call schema last) (fun _ => True).
Proof.
  revert last. induction n as [|n IH]; intros last; cbn [attempts]; [by apply quiet_ret|].
  eapply quiet_bind; [apply quiet_ask|]. intros attempt _. eapply quiet_bind; [apply quiet_lift|]. intros r _.
  destruct (rd_failure r); [apply IH|by apply quiet_ret].
Qed.

Lemma quiet_observe key source version now correlation l :
  quiet (observe cfg key source version now correlation l) (observed key source version l).
Proof.
  unfold observe. eapply quiet_bind; [apply quiet_gets|]. intros matcher _.
  unfold source_of. destruct (bool_decide (source = "rule"%string)) eqn:Hs.
  - unfold _rule_observation. eapply quiet_bind; [apply quiet_lift|]. intros outcome _.
    eapply quiet_bind; [apply quiet_uuid4|]. intros id _. apply quiet_ret.
    split; try done; [by unfold source_of; rewrite Hs|by left].
  - unfold _model_observation. destruct (cr_extractor cfg) as [extract|]; [|apply quiet_raise].
    eapply quiet_bind; [apply quiet_lift|]. intros schema _. eapply quiet_bind; [apply quiet_attempts|]. intros r _.
    eapply quiet_bind; [apply quiet_uuid4|]. intros id _. apply quiet_ret.
    split; try done; [by unfold source_of; rewrite Hs|]. simpl. destruct (rd_failure r); [right; by split|by left].
Qed.

(** The listings a batch reads: none when the batch size is negative *)
Definition batch_listings (l : list NormalizedListing) : list NormalizedListing :=
  if cr_batch_size cfg <? 0 then [] else l.

Lemma concat_chunks {A} fuel n (l : list A) : (0 < n)%nat -> (length l <= fuel)%nat -> concat (chunks_of fuel n l) = l.
Proof.
  intros Hn. revert l. induction fuel as [|fuel IH]; intros l Hl; [by destruct l; simpl in *; [|lia]|].
  destruct l as [|x l]; [done|]. cbn [chunks_of concat]. rewrite IH; [apply take_drop|].
  rewrite length_drop. simpl in *. lia.
Qed.

Lemma concat_batches l chunks : batches (cr_batch_size cfg) l = Ok chunks -> concat chunks = batch_listings l.
Proof.
  unfold batches, batch_listings. destruct (Z.eqb_spec (cr_batch_size cfg) 0); [done|]. intros [= <-].
  destruct (Z.ltb_spec (cr_batch_size cfg) 0); [done|]. apply concat_chunks; lia.
Qed.

Lemma quiet_extract_chunks key source version correlation chunks :
  quiet (map_M (_extract_concept cfg key source version correlation) chunks)
    (fun l => Forall2 (observed key source version) (concat chunks) (concat l)).
Proof.
  eapply quiet_mono.
  - apply (quiet_map_M _ (Forall2 (observed key source version))). intros chunk.
    unfold _extract_concept. eapply quiet_bind; [apply quiet_clock|]. intros now _.
    apply quiet_map_M. intros l. apply quiet_observe.
  - intros l Hl. induction Hl; simpl; [constructor|]. by apply Forall2_app.
Qed.

(** What the extraction of one target gives *)
Definition target_done (listings : list NormalizedListing) (t : string * string)
    (r : list ListingObservation * (string * string * ExtractionVersion)) (k : knowledge) : Prop :=
  exists v, r.2 = (t, v) /\ is_version (if bool_decide (t.2 = "rule"%string) then "rule" else "model") t.1 v k
    /\ Forall2 (observed t.1 t.2 v) (batch_listings listings) r.1.

Lemma target_done_mono listings t r k k' : target_done listings t r k -> prepared k k' -> target_done listings t r k'.
Proof. intros (v & E & Hv & Ho) Hp. exists v. split; [done|]. split; [by eapply is_version_mono|done]. Qed.

Lemma prepares_target listings correlation t :
  prepares (extract_target cfg listings correlation t) (target_done listings t).
Proof.
  destruct t as [key source]. unfold extract_target.
  eapply prepares_bind; [apply prepares_ensure|]. intros v k Hv.
  eapply prepares_bind; [apply prepares_quiet, quiet_lift|]. intros chunks k1 Hc. apply concat_batches in Hc.
  eapply prepares_bind; [apply prepares_quiet, quiet_extract_chunks|]. intros l k2 Hl.
  apply prepares_ret. intros k3 _ _ Hp. exists v. split; [done|]. split; [by eapply is_version_mono|].
  simpl. by rewrite <- Hc.
Qed.

(** What the extraction of a scope gives: one observation per target and listing, in order *)
Record extracted (listings : list NormalizedListing) (obs : list ListingObservation)
    (targets : list (string * string * ExtractionVersion)) (k : knowledge) : Prop := {
  ex_places : map (fun o => (obs_concept_key o, obs_source o, obs_listing_id o)) obs
              = flat_map (fun t => map (fun l => (t.1.1, source_of t.1.2, listing_id l)) listings) targets;
  ex_backed : Forall (backed k) obs;
  ex_states : Forall (fun o => obs_state o = ObsActive \/ (obs_state o = ObsFailed /\ is_Some (obs_failure_code o))) obs
}.

Lemma targets_extracted listings targets parts k :
  Forall2 (fun t r => target_done listings t r k) targets parts ->
  extracted (batch_listings listings) (concat (map fst parts)) (map snd parts) k /\ map fst (map snd parts) = targets.
Proof.
  induction 1 as [|t [obs r] targets parts (v & Er & Hv & Ho) _ [[Hpl Hb Hs] Ht]]; simpl in *; [by repeat constructor|].
  subst r. split; [split|simpl; congruence].
  - rewrite map_app, Hpl. simpl. apply (f_equal (fun x => x ++ _)). clear -Ho.
    induction Ho as [|l o ls os [] _ IH]; [done|]. simpl. rewrite IH. congruence.
  - apply Forall_app. split; [|done]. clear -Ho Hv. induction Ho as [|l o ls os Hlo _ IH]; constructor; [|done].
    destruct Hlo, Hv as (Hin & Hkind & Hkey). exists v. split; [done|]. split; [done|]. split; [congruence|].
    rewrite Hkind, ob_source0. unfold source_of. by destruct (bool_decide _).
  - apply Forall_app. split; [|done]. clear -Ho. induction Ho as [|l o ls os Hlo _ IH]; constructor; [apply Hlo|done].
Qed.
End service.

(** * What extraction and recomputation publish

    The observations of a scope are replaced by one observation for each target and listing;
    a recomputation publishes them with its run and event, or publishes nothing. *)
#[local] Open Scope list_scope.

Section service.
Context {J : Type} `{JobPort J} `{NumericColumns} `{JsonbSize}.
Variable cfg : criteria_config.

(** The concepts of a scope and where their observations come from *)
Definition targets_for (scope : RecomputeScope) (k : knowledge) : result (list (string * string)) :=
  match scope_kind scope, given (scope_key scope) with
  | ScopeConcept, Some key =>
      match concept_get key k with
      | None => Raise CriteriaNotFound
      | Some _ => source ← _concept_source cfg key; Ok [(key, source)]
      end
  | ScopeExtraction, Some key =>
      u ← uuid_of_key key;
      match extraction_get u k with
      | None => Raise CriteriaNotFound
      | Some v => if bool_decide (xv_kind v ∈ ["rule"; "model"]%string) then Ok [(xv_key v, xv_kind v)]
                  else Raise (CriteriaValidationError ["criteria.extraction_scope_invalid"%string])
      end
  | _, _ => map_result (fun seed => source ← _concept_source cfg (seed_key seed); Ok (seed_key seed, source))
              (css_concepts (cr_seed cfg))
  end.

Lemma extraction_targets_run scope w (s : sys (criteria J)) :
  _extraction_targets cfg scope w s = (targets_for scope (tables_of s), s).
Proof.
  destruct s as [[k j n] d t]. unfold _extraction_targets, targets_for, tables_of. simpl.
  destruct (scope_kind scope), (given (scope_key scope)) as [key|]; try reflexivity.
  - unfold mbind, M_bind, on_data, zoom, gets. simpl. destruct (concept_get key k) as [c|]; [|reflexivity].
    rewrite bool_decide_eq_false_2 by done. unfold lift. by destruct (_concept_source cfg key).
  - unfold mbind, M_bind, on_data, zoom, gets, lift. simpl. destruct (uuid_of_key key) as [u|e]; [|reflexivity]. simpl.
    destruct (extraction_get u k) as [v|]; [|reflexivity].
    destruct (decide (xv_kind v = "rule"%string)) as [->|Hr]; [reflexivity|].
    destruct (decide (xv_kind v = "model"%string)) as [->|Hm]; [reflexivity|].
    rewrite !bool_decide_eq_false_2 by set_solver. reflexivity.
Qed.

(** The observations extracted for a scope, from the tables [k], and their versions in [k'] *)
Record extraction_of (scope : RecomputeScope) (k k' : knowledge) (obs : list ListingObservation)
    (versions : list (string * string * ExtractionVersion)) : Prop := {
  eo_targets : targets_for scope k = Ok (map fst versions);
  eo_extracted : extracted (batch_listings cfg (_listings_for_scope scope k)) obs versions k'
}.

Lemma wp_extract scope correlation w (s : sys (criteria J)) : criteria_inv (tables_of s) ->
  wp (_extract_for_scope cfg scope correlation) w s (fun r s' => criteria_inv (tables_of s')
    /\ prepared (tables_of s) (tables_of s')
    /\ match r with Ok (obs, versions) => extraction_of scope (tables_of s) (tables_of s') obs versions | Raise _ => True end).
Proof.
  intros Hinv. unfold _extract_for_scope. wp_step. unfold wp at 1. rewrite extraction_targets_run.
  destruct (targets_for scope (tables_of s)) as [targets|e] eqn:Ht; [|by pose proof (prepared_refl (tables_of s))].
  apply wp_read. wp_step. eapply wp_mono.
  { apply (prepares_map_M _ (target_done cfg (_listings_for_scope scope (tables_of s)))); [|apply prepares_target|exact Hinv].
    intros t r k k'. apply target_done_mono. }
  intros [parts|e] s' (Hi & Hp & Hr); [|done]. wp_step. split; [done|]. split; [done|].
  destruct (targets_extracted cfg _ _ _ _ Hr) as [He Hm]. split; [congruence|exact He].
Qed.

(** ** Rows of a scope *)

Definition in_scope (scope : RecomputeScope) (k : knowledge) (o : ListingObservation) : bool :=
  match scope_filter scope with Ok matches => matches k o | Raise _ => false end.

Lemma in_scope_stable scope k k' o st : t_listings (kn_db k') = t_listings (kn_db k) ->
  in_scope scope k' (obs_with_state st o) = in_scope scope k o.
Proof.
  intros E. unfold in_scope, scope_filter. destruct (scope_kind scope), (given (scope_key scope)) as [key|]; try done.
  - by destruct (uuid_of_key key).
  - unfold of_normalizer. by rewrite E.
Qed.

Lemma in_scope_stable' scope k k' o : t_listings (kn_db k') = t_listings (kn_db k) ->
  in_scope scope k' o = in_scope scope k o.
Proof. intros E. rewrite <- (in_scope_stable scope k k' o (obs_state o)) by done. by destruct o. Qed.

(** The identifiers of the rows that a batch of the scope replaces *)
Definition scope_ids (scope : RecomputeScope) (k : knowledge) : list Z :=
  map observation_id (List.filter (fun o => obs_current o && in_scope scope k o) (kn_observations k)).

Lemma wp_scope_ids scope w (s : sys (criteria J)) Q :
  Q (Ok (scope_ids scope (tables_of s))) s -> (forall e, scope_filter scope = Raise e -> Q (Raise e) s) ->
  wp (on_data (ids_for_scope scope)) w s Q.
Proof.
  destruct s as [[k j n] d t]. intros HO HR. apply wp_on_data. apply wp_lift.
  - intros matches Hm. unfold wp, gets. simpl. intros ? ? -> ->. unfold scope_ids, in_scope in HO. by rewrite Hm in HO.
  - intros e He ? ? -> ->. by apply HR.
Qed.

(** A row is kept, or stops being active. *)
Definition retired (o o' : ListingObservation) : Prop :=
  o' = o \/ o' = obs_with_state ObsInvalidated o \/ o' = obs_with_state ObsSuperseded o.

Lemma supersede_retired ids o o' : aged o o' -> retired o (supersede ids o').
Proof.
  unfold supersede. intros [->|[Ha ->]]; destruct (bool_decide _); unfold retired; simpl; auto.
Qed.

Lemma superseded_inactive scope k0 k1 : prepared k0 k1 ->
  Forall (fun o => in_scope scope k1 o = true -> obs_active o = false)
    (map (supersede (scope_ids scope k0)) (kn_observations k1)).
Proof.
  intros [_ Hage Hoth]. assert (El : t_listings (kn_db k1) = t_listings (kn_db k0)) by (unfold others_of in Hoth; congruence).
  apply Forall_map, Forall_forall. intros o Ho. unfold supersede. destruct (bool_decide _) eqn:Hid; [done|].
  intros Hs. apply bool_decide_eq_false in Hid. destruct (obs_active o) eqn:Ha; [|done]. destruct Hid.
  apply list_elem_of_lookup in Ho as [i Ho]. destruct (Forall2_lookup_r _ _ _ _ _ Hage Ho) as (o0 & Ho0 & Hr).
  destruct Hr as [->|[_ ->]]; [|done]. unfold scope_ids. apply list_elem_of_fmap. exists o0. split; [done|].
  apply list_elem_of_In, filter_In. split; [by eapply list_elem_of_In, list_elem_of_lookup_2|].
  rewrite <- (in_scope_stable' _ _ _ _ El), Hs, andb_true_r. unfold obs_current. apply bool_decide_eq_true.
  left. by apply bool_decide_eq_true in Ha.
Qed.

(** The tables [k'] once a batch extracted from [k] is published *)
Record batch_published (scope : RecomputeScope) (k k' : knowledge) (obs : list ListingObservation)
    (versions : list (string * string * ExtractionVersion)) : Prop := {
  bp_extraction : extraction_of scope k k' obs versions;
  bp_rows : exists kept, kn_observations k' = kept ++ map observation_row obs
    /\ Forall2 retired (kn_observations k) kept
    /\ Forall (fun o => in_scope scope k o = true -> obs_active o = false) kept;
  bp_listings : t_listings (kn_db k') = t_listings (kn_db k)
}.

Lemma published_batch scope k k0 k1 obs versions run events :
  prepared k k0 -> prepared k0 k1 -> extraction_of scope k k1 obs versions ->
  batch_published scope k (published obs (scope_ids scope k0) run events k1) obs versions.
Proof.
  intros Hp0 Hp1 [Ht [Hpl Hb Hs]]. pose proof (prepared_trans _ _ _ Hp0 Hp1) as [_ Hage Hoth].
  assert (El : t_listings (kn_db k1) = t_listings (kn_db k)) by (unfold others_of in Hoth; congruence).
  split; [split; [done|split; [done| |done]]| |done].
  - eapply Forall_impl; [exact Hb|]. intros o. by apply backed_same.
  - eexists. split; [reflexivity|]. split.
    + apply Forall2_fmap_r. eapply Forall2_impl; [exact Hage|]. intros o o'. apply supersede_retired.
    + eapply Forall_impl; [by apply superseded_inactive|]. intros o Ho Hin. apply Ho.
      by rewrite (in_scope_stable' _ _ _ _ El).
Qed.

(** ** Events *)

(** An event is stored, or refused and nothing changes. *)
Lemma wp_criteria_event event_type correlation actor payload w (s : sys (criteria J)) :
  wp (criteria_event cfg event_type correlation actor payload) w s (fun r s' =>
    tables_of s' = tables_of s \/ exists e, r = Ok tt /\ tables_of s' = set_kn_events (kn_events (tables_of s) ++ [e]) (tables_of s)).
Proof.
  unfold criteria_event, _build_event. wp_step. do 3 wp_step. apply wp_on_data. apply wp_add_to.
  - intros t' (-> & _)%insert_row_Some j n -> ->. right. by eexists.
  - intros j n -> ->. by left.
Qed.
End service.
