(* ===== verification/CriteriaSystem.v ===== *)
(** * The criteria service as a system

    The invariant of the criteria tables in every state the operations of the service reach,
    whatever they return or raise and whatever the rest of the program does in between. *)

From S2P Require Export CriteriaRuns.
#[local] Open Scope list_scope.

Section system.
Context {J : Type} `{JobPort J} `{NumericColumns} `{JsonbSize}.
Variable cfg : criteria_config.

(** ** Computations that keep the invariant *)

Definition safe {A} (m : M (criteria J) A) : Prop := forall w s,
  criteria_inv (tables_of s) -> wp m w s (fun _ s' => criteria_inv (tables_of s')).

Lemma safe_bind {A B} (m : M (criteria J) A) (f : A -> M (criteria J) B) :
  safe m -> (forall a, safe (f a)) -> safe (mbind f m).
Proof.
  intros Hm Hf w s Hinv. wp_step. eapply wp_mono; [by apply Hm|]. intros [a|e] s' Hi; [by apply Hf|done].
Qed.
Lemma safe_quiet {A} (m : M (criteria J) A) P : quiet m P -> safe m.
Proof. intros Hm w s Hinv. eapply wp_mono; [apply Hm|]. by intros r s' [-> _]. Qed.
Lemma safe_prepares {A} (m : M (criteria J) A) P : prepares m P -> safe m.
Proof. intros Hm w s Hinv. eapply wp_mono; [by apply Hm|]. by intros r s' [? _]. Qed.
Lemma safe_data {A} (m : M knowledge A) : keeps m -> safe (on_data m).
Proof. intros Hm w s Hinv. apply wp_on_data. eapply wp_mono; [by apply Hm|]. intros r s' Hi j n -> ->. exact Hi. Qed.
Lemma safe_jobs {A} (m : M J A) : safe (on_job_queue m).
Proof. intros w s Hinv. by apply wp_zoom_any. Qed.
Lemma safe_ret {A} (a : A) : safe (mret a).
Proof. by intros w s. Qed.
Lemma safe_raise {A} e : safe (raise e : M (criteria J) A).
Proof. by intros w s. Qed.
Lemma safe_lift {A} (r : result A) : safe (lift r).
Proof. eapply safe_quiet, quiet_lift. Qed.
Lemma safe_uuid4 : safe uuid4.
Proof. eapply safe_quiet, quiet_uuid4. Qed.
Lemma safe_clock : safe clock.
Proof. eapply safe_quiet, quiet_clock. Qed.
Lemma safe_ask {A} (call : nat -> result A) : safe (ask call).
Proof. eapply safe_quiet, quiet_ask. Qed.
Lemma safe_try {A} (m : M (criteria J) A) h : safe m -> (forall e, safe (h e)) -> safe (try_except m h).
Proof.
  intros Hm Hh w s Hinv. apply wp_try. eapply wp_mono; [by apply Hm|]. intros [a|e] s' Hi; [done|by apply Hh].
Qed.
Lemma safe_map_M {A B} (f : A -> M (criteria J) B) l : (forall x, safe (f x)) -> safe (map_M f l).
Proof.
  intros Hf. induction l as [|x l IH]; cbn [map_M]; [apply safe_ret|].
  apply safe_bind; [apply Hf|]. intros y. apply safe_bind; [exact IH|]. intros ys. apply safe_ret.
Qed.
Lemma safe_gets {A} (f : knowledge -> A) : safe (on_data (gets f)).
Proof. apply safe_data, keeps_gets. Qed.

Hint Resolve safe_quiet safe_jobs safe_ret safe_raise safe_lift safe_uuid4 safe_clock safe_ask safe_gets
  safe_data keeps_gets keeps_record_change keeps_compilation_insert keeps_kn_event_insert keeps_invalidate
  keeps_extraction_insert keeps_ids_for_scope keeps_recompute_insert keeps_recompute_fail keeps_signal_insert
  keeps_publish_embeddings : safe.

(** Follows the binds and the branches of a computation. *)
Ltac safe_steps := repeat first
  [ done | solve [eauto 3 with safe]
  | lazymatch goal with
    | |- safe (mbind _ _) => apply safe_bind; [|intros ?]
    | |- safe (map_M _ _) => apply safe_map_M; intros ?
    | |- safe (if ?b then _ else _) => destruct b
    | |- safe (match ?x with _ => _ end) => destruct x
    end ].

Lemma safe_event event_type correlation actor payload : safe (criteria_event cfg event_type correlation actor payload).
Proof. unfold criteria_event, _build_event. safe_steps. Qed.
Hint Resolve safe_event : safe.

(** ** The registry *)

Lemma find_first_map {A} (p : A -> bool) (f : A -> A) l : (forall x, p (f x) = p x) ->
  find_first p (map f l) = f <$> find_first p l.
Proof. intros Hp. induction l as [|x l IH]; [done|]. simpl. rewrite Hp. by destruct (p x). Qed.

Lemma find_first_app {A} (p : A -> bool) l1 l2 :
  find_first p (l1 ++ l2) = match find_first p l1 with Some x => Some x | None => find_first p l2 end.
Proof. induction l1 as [|x l IH]; [done|]. simpl. by destruct (p x). Qed.

Lemma concept_unique k a b : criteria_inv k -> a ∈ kn_concepts k -> b ∈ kn_concepts k ->
  concept_id a = concept_id b -> a = b.
Proof.
  intros Hinv Ha Hb Hid. apply (table_unique _ _ _ _ _ (ci_concepts _ Hinv) Ha Hb); unfold concept_clash;
    by rewrite Hid, Z.eqb_refl.
Qed.

Lemma concept_row_known k c key : criteria_inv k -> concept_get key k = Some c ->
  get_by concept_id (concept_id c) (kn_concepts k) = Some c.
Proof.
  intros Hinv [Hc _]%find_first_Some. destruct (get_by _ _ _) as [r|] eqn:Hget.
  - apply get_by_Some in Hget as [Hr Hid]. f_equal. by apply (concept_unique k).
  - unfold get_by in Hget. apply find_first_None in Hget. rewrite Forall_forall in Hget.
    specialize (Hget _ Hc). by rewrite Z.eqb_refl in Hget.
Qed.

(** The registry [k'] once the version [number] of a concept is its current one *)
Record concept_current (key : string) (owner number version_id : Z) (k k' : knowledge) : Prop := {
  cc_row : exists c, concept_get key k' = Some c /\ concept_id c = owner /\ concept_version c = number
                     /\ concept_current_version_id c = Some version_id;
  cc_others : forall key', key' <> key -> concept_get key' k' = concept_get key' k;
  cc_rest : exists concepts, k' = set_concepts concepts k
}.

Lemma inserted_current c version_id k : concept_get (concept_key c) k = None ->
  concept_current_version_id c = Some version_id ->
  concept_current (concept_key c) (concept_id c) 1 version_id k
    (set_concepts (kn_concepts k ++ [concept_row 1 c]) k).
Proof.
  unfold concept_get. intros Hno Hv. split; [| |by eexists].
  - exists (concept_row 1 c). unfold concept_get. simpl. rewrite find_first_app, Hno. simpl.
    by rewrite bool_decide_eq_true_2.
  - intros key' Hne. unfold concept_get. simpl. rewrite find_first_app. simpl. rewrite bool_decide_eq_false_2 by done.
    by destruct (find_first (fun c0 => bool_decide (concept_key c0 = key')) (kn_concepts k)).
Qed.

Lemma saved_current key c c' version_id k : criteria_inv k -> concept_get key k = Some c ->
  concept_current_version_id c' = Some version_id ->
  concept_current key (concept_id c) (concept_version c + 1) version_id k
    (set_concepts (update_by concept_id (concept_id c) (concept_assign c') (kn_concepts k)) k).
Proof.
  intros Hinv Hc Hv. pose proof Hc as [Hin Hkey%bool_decide_eq_true]%find_first_Some.
  assert (Hget : forall key', concept_get key' (set_concepts (update_by concept_id (concept_id c) (concept_assign c')
                   (kn_concepts k)) k)
                 = (fun r => if concept_id r =? concept_id c then concept_assign c' r else r) <$> concept_get key' k).
  { intros key'. unfold concept_get, update_by. simpl. apply find_first_map. intros x. by destruct (_ =? _). }
  split; [| |by eexists].
  - eexists. rewrite Hget, Hc. simpl. rewrite Z.eqb_refl. done.
  - intros key' Hne. rewrite Hget. destruct (concept_get key' k) as [r|] eqn:Hr; [|done]. simpl.
    destruct (Z.eqb_spec (concept_id r) (concept_id c)) as [Hid|]; [|done].
    apply find_first_Some in Hr as [Hr Hk%bool_decide_eq_true].
    rewrite (concept_unique k r c) in Hk by done. congruence.
Qed.

Lemma wp_insert_current c version_id w (s : sys (criteria J)) : criteria_inv (tables_of s) ->
  concept_get (concept_key c) (tables_of s) = None -> concept_current_version_id c = Some version_id ->
  wp (on_data (concept_insert c)) w s (fun r s' => criteria_inv (tables_of s') /\
    match r with Ok _ => concept_current (concept_key c) (concept_id c) 1 version_id (tables_of s) (tables_of s')
               | Raise _ => tables_of s' = tables_of s end).
Proof.
  intros Hinv Hno Hv. apply wp_on_data. eapply wp_use; [apply wp_concept_insert; exact Hinv|].
  apply wp_add_to; [|by intros [Hi _] j n -> ->].
  intros t' (-> & _)%insert_row_Some [Hi _] j n -> ->. split; [exact Hi|]. by apply inserted_current.
Qed.

Lemma wp_save_current key c c' version_id w (s : sys (criteria J)) : criteria_inv (tables_of s) ->
  concept_get key (tables_of s) = Some c -> concept_id c' = concept_id c ->
  concept_current_version_id c' = Some version_id ->
  wp (on_data (concept_save c')) w s (fun r s' => criteria_inv (tables_of s') /\
    match r with Ok _ => concept_current key (concept_id c) (concept_version c + 1) version_id (tables_of s) (tables_of s')
               | Raise _ => tables_of s' = tables_of s end).
Proof.
  intros Hinv Hc Hid Hv. apply wp_on_data. pose proof (concept_row_known _ _ _ Hinv Hc) as Hget.
  eapply wp_use; [apply (wp_concept_save _ c); [exact Hinv|by rewrite Hid]|].
  unfold concept_save. wp_step. cbn [state_of]. rewrite Hid, Hget. destruct (concept_check _); wp_step.
  - intros [Hi _] j n -> ->. split; [exact Hi|]. by apply saved_current.
  - by intros [Hi _] j n -> ->.
Qed.

(** What the registration of a version of a concept leaves *)
Record concept_registered (key : string) (v : ConceptVersion) (k k' : knowledge) : Prop := {
  rg_number : cv_concept_version v = match concept_get key k with Some c => concept_version c + 1 | None => 1 end;
  rg_current : exists c, concept_get key k' = Some c /\ concept_id c = cv_concept_id v
                 /\ concept_version c = cv_concept_version v /\ concept_current_version_id c = Some (cv_version_id v);
  rg_others : forall key', key' <> key -> concept_get key' k' = concept_get key' k;
  rg_history : kn_concept_versions k' = kn_concept_versions k ++ [v];
  rg_observations : Forall2 aged (kn_observations k) (kn_observations k');
  rg_invalidated : Forall (fun o => obs_concept_key o = key -> obs_active o = false) (kn_observations k')
}.

Lemma invalidated_key key l :
  Forall (fun o => obs_concept_key o = key -> obs_active o = false)
    (map (fun o => if obs_active o && bool_decide (obs_concept_key o = key) then obs_with_state ObsInvalidated o else o) l).
Proof.
  apply Forall_map, Forall_forall. intros o _. destruct (obs_active o) eqn:Ha; [|done]. simpl.
  destruct (bool_decide_reflect (obs_concept_key o = key)); [done|]. by intros ?.
Qed.

(** After the concept is stored: its version, the invalidation and the event *)
Lemma wp_register_rest key v (actor : option string) correlation payload k w (s : sys (criteria J)) :
  cv_concept_version v = match concept_get key k with Some c => concept_version c + 1 | None => 1 end ->
  criteria_inv (tables_of s) ->
  concept_current key (cv_concept_id v) (cv_concept_version v) (cv_version_id v) k (tables_of s) ->
  wp (_ ← on_data (concept_version_insert v); _ ← on_data (invalidate_for_concept key);
      a ← lift (actor_uuid actor);
      _ ← criteria_event cfg "criteria.concept_version_created.v1" correlation a payload;
      mret v) w s (fun r s' => criteria_inv (tables_of s') /\
    match r with Ok v' => v' = v /\ concept_registered key v k (tables_of s') | Raise _ => True end).
Proof.
  intros Hnum Hinv [Hrow Hoth (concepts & Ek)]. wp_step. apply wp_on_data. eapply wp_use.
  { apply (wp_concept_version_insert v (cv_concept_version v)); [split; [exact Hinv|]|lia].
    destruct Hrow as (c & [Hc _]%find_first_Some & ? & ? & _). by exists c. }
  apply wp_add_to; [|by intros Hi j n -> ->]. intros t' (-> & _)%insert_row_Some Hi j n -> ->.
  wp_step. apply wp_on_data. eapply wp_use; [apply keeps_invalidate; exact Hi|].
  unfold invalidate_for_concept, invalidate. do 3 wp_step. intros Hi2 j n -> ->. cbn [state_of] in *.
  apply wp_lift; [|by intros e _]. intros a _. wp_step.
  set (s2 := Sys (MkCriteria (set_observations _ _) _ _) _ _). change (criteria_inv (tables_of s2)) in Hi2.
  assert (Hreg : concept_registered key v k (tables_of s2)).
  { split; [exact Hnum|destruct Hrow as (c & ? & ? & ? & ?); by exists c|exact Hoth| | |].
    - unfold s2, tables_of. simpl. change (ct_data (state_of s)) with (tables_of s). by rewrite Ek.
    - unfold s2, tables_of. simpl. change (ct_data (state_of s)) with (tables_of s). rewrite Ek.
      apply (invalidated_aged (fun o => obs_active o && bool_decide (obs_concept_key o = key))).
      intros o [Ho _]%andb_true_iff. by apply bool_decide_eq_true in Ho.
    - apply invalidated_key. }
  clearbody s2. eapply wp_use; [apply (safe_event _ correlation a payload w s2 Hi2)|].
  eapply wp_mono; [apply wp_criteria_event|]. intros r s3 Hs3 Hi3. destruct r as [[]|e]; [|done]. wp_step.
  split; [exact Hi3|]. split; [done|]. destruct Hs3 as [->|(e & _ & ->)]; [exact Hreg|]. by destruct Hreg.
Qed.

Lemma wp_register_concept key name aliases matcher params defaults policy correlation kind actor w (s : sys (criteria J)) :
  criteria_inv (tables_of s) ->
  wp (register_concept_version cfg key name aliases matcher params defaults policy correlation kind actor) w s
    (fun r s' => criteria_inv (tables_of s') /\
       match r with Ok v => concept_registered key v (tables_of s) (tables_of s') | Raise _ => True end).
Proof.
  intros Hinv. unfold register_concept_version. destruct (negb _); [by wp_step|]. apply wp_read. do 2 wp_step.
  destruct (concept_get key (tables_of s)) as [c|] eqn:Hc.
  - do 3 wp_step. eapply wp_mono; [by apply (wp_save_current key c)|]. intros [[]|e] s' [Hi Hcur]; [|done].
    eapply wp_mono; [apply (wp_register_rest _ _ _ _ _ (tables_of s)); [by rewrite Hc|exact Hi|exact Hcur]|].
    intros [v|e] s2 [Hi2 Hv]; [|done]. destruct Hv as [-> Hv]. by split.
  - do 2 wp_step. eapply wp_mono; [by apply wp_insert_current|]. intros [[]|e] s' [Hi Hcur]; [|done].
    eapply wp_mono; [apply (wp_register_rest _ _ _ _ _ (tables_of s)); [by rewrite Hc|exact Hi|exact Hcur]|].
    intros [v|e] s2 [Hi2 Hv]; [|done]. destruct Hv as [-> Hv]. by split.
Qed.

Lemma safe_register_concept key name aliases matcher params defaults policy correlation kind actor :
  safe (register_concept_version cfg key name aliases matcher params defaults policy correlation kind actor).
Proof. intros w s Hinv. eapply wp_mono; [by apply wp_register_concept|]. by intros r s' [Hi _]. Qed.
Hint Resolve safe_register_concept : safe.

Lemma safe_seed seeds correlation registered : safe (seed_concepts cfg seeds correlation registered).
Proof.
  revert registered. induction seeds as [|seed seeds IH]; intros registered; cbn [seed_concepts]; [apply safe_ret|].
  unfold _register_seed. safe_steps; apply IH.
Qed.

Lemma safe_register_extraction kind key version payload correlation :
  safe (register_extraction_version kind key version payload correlation).
Proof. eapply safe_prepares, prepares_register. Qed.
Hint Resolve safe_register_extraction : safe.

(** ** Facts, compilations, jobs and scopes *)

Lemma safe_record_fact owner profile key value weight polarity confidence source correlation kind actor :
  safe (record_preference_fact owner profile key value weight polarity confidence source correlation kind actor).
Proof. unfold record_preference_fact. safe_steps. Qed.

Lemma safe_compile owner profile version edits confirmations correlation kind actor :
  safe (compile_profile cfg owner profile version edits confirmations correlation kind actor).
Proof. unfold compile_profile. safe_steps. Qed.

Lemma safe_submit job_type target key correlation : safe (submit_scope cfg job_type target key correlation).
Proof. unfold submit_scope. safe_steps. Qed.

Lemma safe_invalidate_scope scope : safe (invalidate_scope scope : M (criteria J) Z).
Proof. unfold invalidate_scope, invalidate_for_concept, invalidate_for_extraction_version, invalidate_for_normalizer_version. safe_steps. Qed.

(** ** Batches *)

Lemma wp_publish_safe obs ids run event w (s : sys (criteria J)) : criteria_inv (tables_of s) ->
  Forall (backed (tables_of s)) obs ->
  wp (on_data (publish_observations obs ids run event)) w s (fun _ s' => criteria_inv (tables_of s')).
Proof.
  intros Hinv Hobs. apply wp_on_data. apply wp_publish; [by intros e _ j n -> ->|].
  intros events observations Hev Hins _ j n -> ->. by apply (published_inv _ _ _ event _ observations).
Qed.

Lemma safe_or_uuid4 id : safe (or_uuid4 id).
Proof. unfold or_uuid4. safe_steps. Qed.
Hint Resolve safe_or_uuid4 : safe.

Lemma safe_process_extraction scope job correlation : safe (process_extraction cfg scope job correlation).
Proof.
  unfold process_extraction. apply safe_bind; [auto with safe|]. intros c w s Hinv. wp_step.
  eapply wp_mono; [by apply wp_extract|]. intros [[obs versions]|e] s1 (Hi & _ & Hx); [|done].
  wp_step. apply wp_scope_ids; [|done]. wp_step.
  eapply wp_mono; [apply wp_publish_safe; [exact Hi|apply Hx]|]. intros [[]|e] s2 Hi2; [|done].
  revert w s2 Hi2. apply safe_bind; [|intros _; apply safe_ret]. safe_steps.
Qed.

Lemma safe_process_recompute scope cause job correlation : safe (process_recompute cfg scope cause job correlation).
Proof.
  unfold process_recompute, _build_event. do 3 (apply safe_bind; [auto with safe|intros ?]).
  apply safe_bind; [auto with safe|]. intros _. apply safe_bind; [auto with safe|]. intros ids w s Hinv.
  wp_step. apply wp_try. eapply wp_mono; [by apply wp_extract|]. intros [[obs versions]|e] s1 (Hi & _ & Hx).
  - do 6 wp_step. eapply wp_mono; [apply wp_publish_safe; [exact Hi|apply Hx]|]. by intros [[]|e] s2 Hi2; [wp_step|].
  - destruct (is_criteria_error e); [|by wp_step]. wp_step.
    eapply wp_mono; [by apply (safe_data _ (keeps_recompute_fail _ _))|]. by intros [[]|?] s2 Hi2; [wp_step|].
Qed.

Lemma safe_process_embeddings scope correlation : safe (process_embeddings cfg scope correlation).
Proof. unfold process_embeddings, embed_listing. safe_steps. Qed.

Lemma safe_ingest id signal_type correlation : safe (ingest_urban_signals cfg id signal_type correlation).
Proof. unfold ingest_urban_signals, store_signal. safe_steps. Qed.

(** ** Reachable states *)

(** What the rest of the program may do: anything, but for the rows this component writes *)
Record outside_criteria (k : knowledge) (d : db) : Prop := {
  oc_observations : t_observations d = kn_observations k;
  oc_compilations : t_compilations d = kn_compilations k;
  oc_events : table_ok event_clash event_check (t_events d)
}.

Lemma outside_inv k d : outside_criteria k d -> criteria_inv k -> criteria_inv (set_db d k).
Proof.
  intros [Ho Hc He] Hinv. pose proof (ci_backed _ Hinv) as Hb. destruct Hinv. split; try done.
  - unfold kn_compilations. simpl. by rewrite Hc.
  - unfold kn_observations. simpl. by rewrite Ho.
  - unfold kn_observations. simpl. rewrite Ho. eapply Forall_impl; [exact Hb|]. intros o. by apply backed_same.
Qed.

(** One operation of the service, in any world of identifiers and instants *)
Inductive criteria_step : sys (criteria J) -> sys (criteria J) -> Prop :=
  | step_concept key name aliases matcher params defaults policy c kind actor w s r s' :
      register_concept_version cfg key name aliases matcher params defaults policy c kind actor w s = (r, s') ->
      criteria_step s s'
  | step_seed c w s r s' : seed_registry cfg c w s = (r, s') -> criteria_step s s'
  | step_extraction_version kind key version payload c w s r s' :
      register_extraction_version kind key version payload c w s = (r, s') -> criteria_step s s'
  | step_fact owner profile key value weight polarity confidence source c kind actor w s r s' :
      record_preference_fact owner profile key value weight polarity confidence source c kind actor w s = (r, s') ->
      criteria_step s s'
  | step_compile owner profile version edits confirmations c kind actor w s r s' :
      compile_profile cfg owner profile version edits confirmations c kind actor w s = (r, s') -> criteria_step s s'
  | step_submit_extraction scope c w s r s' : submit_extraction cfg scope c w s = (r, s') -> criteria_step s s'
  | step_submit_recompute scope cause c w s r s' :
      submit_recompute cfg scope cause c w s = (r, s') -> criteria_step s s'
  | step_invalidate scope w s r s' : invalidate_scope scope w s = (r, s') -> criteria_step s s'
  | step_process_extraction scope job c w s r s' :
      process_extraction cfg scope job c w s = (r, s') -> criteria_step s s'
  | step_process_recompute scope cause job c w s r s' :
      process_recompute cfg scope cause job c w s = (r, s') -> criteria_step s s'
  | step_embeddings scope c w s r s' : process_embeddings cfg scope c w s = (r, s') -> criteria_step s s'
  | step_urban id signal_type c w s r s' : ingest_urban_signals cfg id signal_type c w s = (r, s') -> criteria_step s s'
  | step_elsewhere d j a n t s : outside_criteria (tables_of s) d ->
      criteria_step s (Sys (MkCriteria (set_db d (tables_of s)) j a) n t).

Lemma safe_run {A} (m : M (criteria J) A) w s r s' :
  safe m -> criteria_inv (tables_of s) -> m w s = (r, s') -> criteria_inv (tables_of s').
Proof. intros Hm Hinv Hrun. exact (wp_run m w s (fun _ s' => criteria_inv (tables_of s')) r s' (Hm w s Hinv) Hrun). Qed.

Lemma criteria_step_inv s s' : criteria_step s s' -> criteria_inv (tables_of s) -> criteria_inv (tables_of s').
Proof.
  destruct 1; intros Hinv; [..|by apply outside_inv]; (eapply safe_run; [|exact Hinv|eassumption]).
  - apply safe_register_concept.
  - apply safe_seed.
  - apply safe_register_extraction.
  - apply safe_record_fact.
  - apply safe_compile.
  - apply safe_submit.
  - apply safe_submit.
  - apply safe_invalidate_scope.
  - apply safe_process_extraction.
  - apply safe_process_recompute.
  - apply safe_process_embeddings.
  - apply safe_ingest.
Qed.

(** C27: In every state the operations of the criteria service reach from empty tables, in any
    order, whether they succeed or fail, and whatever the rest of the program does to its own
    tables in between: every table satisfies its constraints (one active fact for a
    preference, one active observation for a listing, concept and source), no version of a
    concept is newer than the concept, and every observation is backed by a registered
    extraction version of its own concept and source. *)
Theorem criteria_invariant d j a n t s : no_criteria d ->
  rtc criteria_step (Sys (MkCriteria (empty_knowledge d) j a) n t) s -> criteria_inv (tables_of s).
Proof.
  intros Hd Hr. assert (H0' : criteria_inv (tables_of (Sys (MkCriteria (empty_knowledge d) j a) n t)))
    by by apply criteria_inv_empty.
  revert H0'. induction Hr as [s|s1 s2 s3 Hs _ IH]; [done|]. intros Hinv. by apply IH, (criteria_step_inv s1).
Qed.

(** C30: A registered version of a concept has the next number, or 1, and is the current one of the
    concept; its predecessors stay in the history, the other concepts stay as they were, and
    no observation of the concept is active afterwards. *)
Theorem concept_version_registered key name aliases matcher params defaults policy c kind actor w
    (s : sys (criteria J)) v s' :
  criteria_inv (tables_of s) ->
  register_concept_version cfg key name aliases matcher params defaults policy c kind actor w s = (Ok v, s') ->
  concept_registered key v (tables_of s) (tables_of s').
Proof.
  intros Hinv Hrun. apply (wp_run _ _ _ _ _ _ (wp_register_concept _ _ _ _ _ _ _ _ _ _ _ _ Hinv) Hrun).
Qed.

(** ** Preference facts *)

Definition same_preference (f g : PreferenceFact) : bool :=
  (fact_profile_id g =? fact_profile_id f) && bool_decide (fact_concept_key g = fact_concept_key f).

Lemma filter_none {A} (f : A -> bool) l : Forall (fun x => f x = false) l -> List.filter f l = [].
Proof. induction 1 as [|x l Hx _ IH]; [done|]. simpl. by rewrite Hx. Qed.

Lemma given_way fact id facts : Forall (fun g => fact_active g && same_preference fact g = false)
  (map (give_way fact (Some id)) facts).
Proof.
  apply Forall_map, Forall_forall. intros g _. unfold give_way, same_preference.
  destruct (fact_active g && (fact_profile_id g =? fact_profile_id fact) && bool_decide (fact_concept_key g = fact_concept_key fact)) eqn:Hg;
    [done|]. by rewrite andb_assoc.
Qed.

(** A preference is recorded only for the owner of the profile, for a registered concept and with
    a weight and confidence between 0 and 1; it becomes the only active fact of its profile
    and concept, the fact it replaces stays and points to it, and the facts of other
    preferences stay as they were.  When it is refused, nothing changes. *)
Theorem fact_recorded owner profile key value weight polarity confidence source c kind actor w
    (s : sys (criteria J)) r s' :
  record_preference_fact owner profile key value weight polarity confidence source c kind actor w s = (r, s') ->
  match r with
  | Raise _ => tables_of s' = tables_of s
  | Ok fact =>
      owner_of profile (tables_of s) = Some owner /\ is_Some (concept_get key (tables_of s))
      /\ fleb (FFin 0) weight && fleb weight (FFin 1) && fleb (FFin 0) confidence && fleb confidence (FFin 1) = true
      /\ fact_profile_id fact = profile /\ fact_concept_key fact = key
      /\ List.filter (fun f => fact_active f && same_preference fact f) (kn_facts (tables_of s')) = [fact_row fact]
      /\ exists facts, kn_facts (tables_of s') = facts ++ [fact_row fact]
          /\ Forall2 (fun f f' => if fact_active f && same_preference fact f
                                  then f' = superseded_fact (fact_id fact) f else f' = f)
               (kn_facts (tables_of s)) facts
  end.
Proof.
  intros Hrun. pattern r, s'. eapply wp_run; [|exact Hrun]. clear Hrun r s'.
  unfold record_preference_fact. apply wp_read.
  destruct (bool_decide _) eqn:Hown; cbn [negb]; [apply bool_decide_eq_true in Hown|by wp_step].
  apply wp_read. destruct (concept_get key (tables_of s)) as [concept|] eqn:Hc;
    [rewrite bool_decide_eq_false_2 by done|by rewrite bool_decide_eq_true_2 by done; wp_step].
  destruct (out_of_unit weight) eqn:Hw; [by wp_step|]. destruct (out_of_unit confidence) eqn:Hcf; [by wp_step|].
  apply negb_false_iff in Hw, Hcf. destruct (negb _); [by wp_step|]. do 3 wp_step. apply wp_on_data.
  unfold record_change. wp_step. destruct (insert_row _ _ _ _) as [facts|] eqn:Hins; wp_step; intros j n -> ->; [|done].
  apply insert_row_Some in Hins as (-> & _). wp_step.
  set (fact := MkPreferenceFact _ _ _ _ _ _ _ _ _ _ _ _ _ _). unfold tables_of. simpl.
  split; [done|]. split; [by eexists|]. split; [by rewrite Hw, <- andb_assoc, Hcf|]. split; [done|]. split; [done|]. split.
  - rewrite List.filter_app, filter_none; [|apply given_way]. simpl. unfold same_preference. simpl.
    by rewrite Z.eqb_refl, bool_decide_eq_true_2.
  - eexists. split; [reflexivity|]. apply Forall2_fmap_r, Forall_Forall2_diag, Forall_forall. intros f _.
    unfold give_way, same_preference. rewrite andb_assoc. simpl. by destruct (_ && _ && _).
Qed.
End system.
