(* ===== verification/CriteriaOutcomes.v ===== *)
(** * The outcomes of extraction and recomputation

    What [process_extraction] and [process_recompute] leave in the tables, on every path. *)

From S2P Require Export CriteriaRuns.
#[local] Open Scope list_scope.

Section service.
Context {J : Type} `{JobPort J} `{NumericColumns} `{JsonbSize}.
Variable cfg : criteria_config.

Lemma or_uuid4_quiet (given_id : option Z) w (s : sys (criteria J)) Q :
  (forall id s', tables_of s' = tables_of s -> Q (Ok id) s') -> wp (or_uuid4 given_id) w s Q.
Proof. intros HQ. destruct given_id; [by apply HQ|]. by apply HQ. Qed.

Lemma wp_ok {A} (m : M (criteria J) A) w s (P : A -> sys (criteria J) -> Prop) a s' :
  wp m w s (fun r s' => match r with Ok a => P a s' | Raise _ => True end) -> m w s = (Ok a, s') -> P a s'.
Proof. intros Hm E. by apply (wp_run _ _ _ _ _ _ Hm E). Qed.

Lemma batch_event scope k k' obs versions events : batch_published cfg scope k k' obs versions ->
  batch_published cfg scope k (set_kn_events events k') obs versions.
Proof. intros [[Ht [Hpl Hb Hs]] Hr Hl]. split; [by repeat split|exact Hr|exact Hl]. Qed.

(** The observations of a batch are published or failed. *)
Lemma count_states obs :
  Forall (fun o => obs_state o = ObsActive \/ (obs_state o = ObsFailed /\ is_Some (obs_failure_code o))) obs ->
  count_state ObsActive obs + count_state ObsFailed obs = Z.of_nat (length obs).
Proof.
  unfold count_state. induction 1 as [|o obs Ho _ IH]; [done|]. simpl.
  destruct Ho as [->|[-> _]]; simpl; lia.
Qed.

(** C29: When a scope is extracted, each of its concepts is read on each of its listings
    exactly once, by a registered version of that concept's rule or model; the rows of the
    scope that were active no longer are, the others are kept, and the summary counts what was
    published and what failed, which is all of it. *)
Theorem extraction_published scope job correlation w (s : sys (criteria J)) summary s' :
  criteria_inv (tables_of s) ->
  process_extraction cfg scope job correlation w s = (Ok summary, s') ->
  exists obs versions, batch_published cfg scope (tables_of s) (tables_of s') obs versions
    /\ oget "published"%string summary = Some (VInt (count_state ObsActive obs))
    /\ oget "failed"%string summary = Some (VInt (count_state ObsFailed obs))
    /\ count_state ObsActive obs + count_state ObsFailed obs = Z.of_nat (length obs).
Proof.
  intros Hinv Hrun. pattern summary, s'. eapply wp_ok; [|exact Hrun]. clear Hrun summary s'.
  unfold process_extraction. wp_step. apply or_uuid4_quiet. intros c s0 E0. rewrite <- E0 in *. clear s E0.
  wp_step. eapply wp_mono; [by apply wp_extract|]. intros [[obs versions]|e] s1 (Hi1 & Hp1 & Hx); [|done].
  wp_step. apply wp_scope_ids; [|done]. wp_step. apply wp_on_data. apply wp_publish; [done|].
  intros events observations Hev Hins _ j n -> ->.
  pose proof (published_batch cfg scope _ _ _ _ _ None events Hp1 (prepared_refl _) Hx) as Hb.
  pose proof (count_states _ (ex_states _ _ _ _ (eo_extracted _ _ _ _ _ _ Hx))) as Hc.
  wp_step. set (s2 := Sys _ _ _). change (published _ _ _ _ _) with (tables_of s2) in Hb. clearbody s2.
  eapply (wp_mono _ _ _ (fun r s' => batch_published cfg scope (tables_of s0) (tables_of s') obs versions)).
  - destruct (bool_decide (scope_kind scope = ScopeConcept)); [|exact Hb]. apply wp_lift; [|done]. intros version _.
    eapply wp_mono; [apply wp_criteria_event|]. intros r s3 [->|(e & _ & ->)]; [exact Hb|by apply batch_event].
  - intros [[]|e] s3 Hb3; [|done]. wp_step. by exists obs, versions.
Qed.

(** ** Recomputations *)

Lemma update_fresh id (f : RecomputeRun -> RecomputeRun) runs run : rr_run_id run = id ->
  Forall (fun r => recompute_clash run r = false) runs ->
  update_by rr_run_id id f (runs ++ [run]) = runs ++ [f run].
Proof.
  intros <- Hfresh. unfold update_by. rewrite map_app. simpl. rewrite Z.eqb_refl. f_equal.
  induction Hfresh as [|r runs Hr _ IH]; [done|]. simpl. unfold recompute_clash in Hr. by rewrite Z.eqb_sym, Hr, IH.
Qed.

Lemma recompute_get_fresh run runs k : kn_recomputes k = runs ++ [run] ->
  Forall (fun r => recompute_clash run r = false) runs -> recompute_get (rr_run_id run) k = Some run.
Proof.
  intros E Hfresh. unfold recompute_get. rewrite E, get_by_app.
  assert (get_by rr_run_id (rr_run_id run) runs = None) as ->.
  { unfold get_by. apply find_first_None. eapply Forall_impl; [exact Hfresh|]. intros r. unfold recompute_clash.
    by rewrite Z.eqb_sym. }
  unfold get_by. simpl. by rewrite Z.eqb_refl.
Qed.

Lemma wp_recompute_fail runs run code w (s : sys (criteria J)) Q :
  kn_recomputes (tables_of s) = runs ++ [run] -> Forall (fun r => recompute_clash run r = false) runs ->
  (forall s', tables_of s' = set_recomputes (runs ++ [recompute_assign RecomputeFailed run run]) (tables_of s) ->
     Q (Ok tt) s') ->
  wp (on_data (recompute_fail run code)) w s Q.
Proof.
  intros E Hfresh HQ. apply wp_on_data. unfold recompute_fail. wp_step. simpl.
  rewrite (recompute_get_fresh run runs) by done. wp_step. intros j n -> ->. apply HQ.
  unfold tables_of at 1. cbn [state_of ct_data]. by rewrite E, update_fresh.
Qed.

Lemma wp_build_event event_type correlation actor payload w (s : sys (criteria J)) Q :
  (forall e s', tables_of s' = tables_of s -> ev_event_type e = event_type -> Q (Ok e) s') ->
  wp (_build_event cfg event_type correlation actor payload) w s Q.
Proof. intros HQ. unfold _build_event. do 3 wp_step. by apply HQ. Qed.

(** A run that is published with its batch and event *)
Lemma wp_publish_run obs ids runs run finished event w (s : sys (criteria J)) Q :
  kn_recomputes (tables_of s) = runs ++ [run] -> Forall (fun r => recompute_clash run r = false) runs ->
  rr_run_id finished = rr_run_id run ->
  (forall e s', is_criteria_error e = false -> tables_of s' = tables_of s -> Q (Raise e) s') ->
  (forall s', tables_of s' = published obs ids (Some finished) (kn_events (tables_of s) ++ [event]) (tables_of s) ->
     kn_recomputes (tables_of s') = runs ++ [recompute_assign (rr_state finished) finished run] -> Q (Ok tt) s') ->
  wp (on_data (publish_observations obs ids (Some finished) (Some event))) w s Q.
Proof.
  intros Er Hfresh Hid HR HO. apply wp_on_data. apply wp_publish.
  - intros e He j n -> ->. apply HR; [by destruct He as [-> | ->]|done].
  - intros events observations (-> & _)%insert_row_Some Hins _ j n -> ->. apply HO; [done|].
    unfold tables_of at 1. cbn. by rewrite Er, Hid, update_fresh.
Qed.

Lemma batch_with_runs scope runs k k' obs versions :
  batch_published cfg scope (set_recomputes runs k) k' obs versions -> batch_published cfg scope k k' obs versions.
Proof. 
  intros [[Ht He] (kept & E & Hr & Hk) Hl]. split; [by split| |exact Hl]. exists kept. split; [done|]. split; [exact Hr|].
  eapply Forall_impl; [exact Hk|]. intros o. cbv beta. by rewrite (in_scope_stable' scope k (set_recomputes runs k)).
Qed.

Lemma scope_filter_error scope e : scope_filter scope = Raise e -> is_criteria_error e = false.
Proof.
  unfold scope_filter. destruct (scope_kind scope), (given (scope_key scope)) as [key|]; try done.
  unfold uuid_of_key. destruct (uuid_of_str key); [done|]. by intros [= <-].
Qed.

(** C28: A recomputation is all or nothing.  When it returns, the observations of its scope are
    replaced, its run has succeeded and its event is stored, together.  When it raises,
    nothing is published: observations at most stop being active because the extraction
    version they used was replaced, no event is stored, and the run, unless the table refused
    it, is failed when the error is one of the criteria service and still pending otherwise. *)
Theorem recompute_atomic scope cause job correlation w (s : sys (criteria J)) r s' :
  criteria_inv (tables_of s) ->
  process_recompute cfg scope cause job correlation w s = (r, s') ->
  match r with
  | Ok _ => exists obs versions run event,
      batch_published cfg scope (tables_of s) (tables_of s') obs versions
      /\ kn_recomputes (tables_of s') = kn_recomputes (tables_of s) ++ [run]
      /\ rr_scope run = scope /\ rr_state run = RecomputeSucceeded
      /\ kn_events (tables_of s') = kn_events (tables_of s) ++ [event]
      /\ ev_event_type event = "criteria.recompute_completed.v1"%string
  | Raise e =>
      Forall2 aged (kn_observations (tables_of s)) (kn_observations (tables_of s'))
      /\ kn_events (tables_of s') = kn_events (tables_of s)
      /\ (kn_recomputes (tables_of s') = kn_recomputes (tables_of s) /\ e = IntegrityError
          \/ exists run, kn_recomputes (tables_of s') = kn_recomputes (tables_of s) ++ [run] /\ rr_scope run = scope
               /\ rr_state run = if is_criteria_error e then RecomputeFailed else RecomputePending)
  end.
Proof.
  intros Hinv Hrun. pattern r, s'. eapply wp_run; [|exact Hrun]. clear Hrun r s'.
  unfold process_recompute. wp_step. apply or_uuid4_quiet. intros c s0 E0. rewrite <- E0 in *. clear s E0.
  do 2 wp_step. set (run := MkRecomputeRun _ _ _ _ _ _ _ _ _ _ _ _).
  wp_step. apply wp_on_data. eapply wp_use; [apply keeps_recompute_insert; exact Hinv|].
  apply wp_add_to.
  2:{ intros _ j n -> ->. split; [apply (pr_observations _ _ (prepared_refl _))|]. split; [done|by left]. }
  intros t' (-> & _ & Hfresh)%insert_row_Some Hi0 j n -> ->. cbn [state_of drawn ticks] in *.
  set (k := tables_of s0) in *. set (s2 := Sys (MkCriteria _ _ _) _ _).
  assert (Hi2 : criteria_inv (tables_of s2)) by exact Hi0. clear Hi0.
  change (Forall (fun r => recompute_clash run r = false) (kn_recomputes k)) in Hfresh.
  assert (E2 : tables_of s2 = set_recomputes (kn_recomputes k ++ [run]) k) by done.
  assert (Er : kn_recomputes (tables_of s2) = kn_recomputes k ++ [run]) by done.
  assert (Eo : kn_observations (tables_of s2) = kn_observations k) by done.
  assert (Ee : kn_events (tables_of s2) = kn_events k) by done. clearbody s2.
  wp_step. apply wp_scope_ids.
  2:{ intros e He. rewrite Eo, Ee. split; [apply (pr_observations _ _ (prepared_refl _))|]. split; [done|]. right.
      exists run. by rewrite (scope_filter_error _ _ He). }
  wp_step. apply wp_try. eapply wp_mono; [by apply wp_extract|].
  intros [[obs versions]|e] s3 (Hi3 & Hp3 & Hx); pose proof Hp3 as [_ Hage Hoth]; rewrite Eo in Hage;
    (assert (Er3 : kn_recomputes (tables_of s3) = kn_recomputes k ++ [run]) by (unfold others_of in Hoth; congruence));
    (assert (Ee3 : kn_events (tables_of s3) = kn_events k) by (unfold others_of in Hoth; congruence)); clear Hoth.
  2:{ destruct (is_criteria_error e) eqn:Hce; [|wp_step; split; [done|]; split; [done|]; right; exists run; by rewrite Hce].
      wp_step. eapply wp_recompute_fail; [done..|]. intros s4 E4. wp_step. rewrite E4. split; [done|]. split; [done|].
      right. eexists. split; [reflexivity|]. by rewrite Hce. }
  do 2 wp_step. apply wp_build_event. intros event s5 E5 Et. change (tables_of s5 = tables_of s3) in E5.
  rewrite <- E5 in *.
  wp_step. eapply wp_publish_run; [exact Er3|exact Hfresh|done| |].
  { intros e s4 He E4. rewrite E4. split; [exact Hage|]. split; [exact Ee3|]. right. exists run. split; [exact Er3|].
    by rewrite He. }
  intros s4 E4 Er4. wp_step. exists obs, versions. eexists. exists event. split; [|split; [exact Er4|]].
  - rewrite E4. apply (batch_with_runs _ (kn_recomputes k ++ [run])). rewrite <- E2.
    apply published_batch; [apply prepared_refl|exact Hp3|exact Hx].
  - split; [done|]. split; [done|]. rewrite E4. split; [by rewrite <- Ee3|exact Et].
Qed.

(** The recomputation of everything never runs: the scope of the job target "full" has no
    key, the table of runs requires one exactly there, and the handler raises that error
    with the tables as they were. *)
Theorem full_recompute_refused context w (s : sys (criteria J)) :
  jc_logical_target context = Some "full"%string ->
  exists s', RecomputeHandler_run cfg context w s = (Raise IntegrityError, s') /\ tables_of s' = tables_of s.
Proof.
  intros Ht. enough (wp (RecomputeHandler_run cfg context) w s (fun r s' => r = Raise IntegrityError /\ tables_of s' = tables_of s)) as Hw.
  { unfold wp in Hw. destruct (RecomputeHandler_run cfg context w s) as [r s']. destruct Hw as [-> ?]. by exists s'. }
  unfold RecomputeHandler_run. apply wp_lift; unfold job_scope; rewrite Ht; [|done]. intros scope [= <-].
  wp_step. apply wp_try. unfold process_recompute. wp_step. apply or_uuid4_quiet.
  intros c s1 <-. do 3 wp_step. apply wp_on_data. apply wp_add_to.
  - intros t' (_ & Hc & _)%insert_row_Some. done.
  - intros j n -> ->. by wp_step.
Qed.

(** ** Readings of a model *)

(** What the answer number [i] of the outside reads as *)
Definition reading_at (call : nat -> result ExtractionResult) (schema : odict string pyval) (i : nat) : result reading :=
  attempt ← call i; read_attempt schema attempt.

Record first_valid (call : nat -> result ExtractionResult) (schema : odict string pyval) (asked n k : nat) (r : reading)
  : Prop := {
  fv_bounds : (1 <= k <= n)%nat;
  fv_earlier : forall i, (i < pred k)%nat -> exists r', reading_at call schema (asked + i) = Ok r' /\ is_Some (rd_failure r');
  fv_last : reading_at call schema (asked + pred k) = Ok r;
  fv_exhausted : is_Some (rd_failure r) -> k = n
}.

Lemma ask_run {A} (call : nat -> result A) w (s : sys (criteria J)) :
  ask call w s = (call (ct_asked (state_of s)),
    Sys (MkCriteria (tables_of s) (ct_jobs (state_of s)) (S (ct_asked (state_of s)))) (drawn s) (ticks s)).
Proof. reflexivity. Qed.

Lemma attempts_first n call schema last w (s : sys (criteria J)) r s' : (0 < n)%nat ->
  attempts n call schema last w s = (Ok r, s') ->
  tables_of s' = tables_of s
  /\ exists k, ct_asked (state_of s') = (ct_asked (state_of s) + k)%nat /\ first_valid call schema (ct_asked (state_of s)) n k r.
Proof.
  revert last s. induction n as [|n IH]; intros last [[kn j a] d t] Hn; [lia|]. cbn [attempts].
  unfold mbind, M_bind, lift, mret, M_ret. rewrite ask_run. cbn. destruct (call a) as [answer|e] eqn:Hcall; [|done].
  destruct (read_attempt schema answer) as [x|e] eqn:Hx; [|done].
  assert (Hat : reading_at call schema a = Ok x) by (unfold reading_at; by rewrite Hcall).
  destruct (rd_failure x) as [code|] eqn:Hf.
  - destruct n as [|n].
    + intros [= <- <-]. split; [done|]. exists 1%nat. split; [simpl; lia|]. split; [lia|lia|by rewrite Nat.add_0_r|done].
    + intros Hrun. apply IH in Hrun as (Et & k & Ea & [Hb He Hl Hex]); [|lia]. split; [exact Et|]. exists (S k).
      split; [cbn in *; lia|]. cbn in *. split; [lia| | |].
      * intros [|i] Hi; [rewrite Nat.add_0_r; by exists x|]. destruct (He i) as (r' & Hr' & ?); [lia|].
        exists r'. split; [|done]. rewrite <- Hr'. f_equal. lia.
      * rewrite <- Hl. f_equal. lia.
      * intros Hr. apply Hex in Hr. lia.
  - intros [= <- <-]. split; [done|]. exists 1%nat. split; [simpl; lia|]. split; [lia|lia|by rewrite Nat.add_0_r|].
    rewrite Hf. by intros [? ?].
Qed.

(** C31: A model is asked at most as often as configured, at least once, and no more once an answer
    satisfies the schema and cites evidence: the observation is active with the value of that
    first valid answer, or has failed with the error of the last of all attempts. *)
Theorem model_reads_first_valid extract listing key matcher version projection now correlation w (s : sys (criteria J)) o s' :
  cr_extractor cfg = Some extract ->
  _model_observation cfg listing key matcher version projection now correlation w s = (Ok o, s') ->
  exists schema k r, concept_schema cfg key = Ok schema
    /\ first_valid (fun asked => extract asked key projection schema (xv_version version)) schema
         (ct_asked (state_of s)) (Z.to_nat (Z.max 1 (cr_max_attempts cfg))) k r
    /\ ct_asked (state_of s') = (ct_asked (state_of s) + k)%nat
    /\ obs_value o = rd_value r /\ obs_failure_code o = rd_failure r
    /\ obs_state o = match rd_failure r with None => ObsActive | Some _ => ObsFailed end
    /\ tables_of s' = tables_of s.
Proof.
  intros Hex. unfold _model_observation. rewrite Hex. unfold mbind at 1, M_bind at 1, lift at 1.
  destruct (concept_schema cfg key) as [schema|e] eqn:Hs; [|done]. unfold mbind at 1, M_bind at 1.
  destruct (attempts _ _ _ _ w s) as [[r|e] s1] eqn:Ha; [|done].
  apply attempts_first in Ha as (Et & k & Ek & Hk); [|lia]. intros [= <- <-].
  exists schema, k, r. split; [done|]. split; [exact Hk|]. split; [exact Ek|]. repeat (split; [done|]). exact Et.
Qed.
End service.
