(* ===== verification/CriteriaExamples.v ===== *)
(** * Extraction, end to end

    The hypotheses of the theorems on the criteria service at concrete inputs: a concept read by
    a rule and one read by a model that answers badly once, on two listings. *)

From S2P Require Export CriteriaOutcomes CriteriaSystem.
#[local] Open Scope list_scope.

Module CriteriaExamples.

#[export] Instance sample_queue : JobPort runtime := in_memory_port (Config "release-1" 60 None).
#[export] Instance sample_columns : NumericColumns := fun n f => fround f n.
#[export] Instance sample_jsonb : JsonbSize := fun d => Z.of_nat (length d).

Definition w0 : world := World (fun n => 1000 + Z.of_nat n) (fun n => 50 + Z.of_nat n).

Definition listing (id : Z) (text : string) : NormalizedListing :=
  MkNormalizedListing id 1 id 1 (MkSourceIdentity "portal" "1" "1") "x" None None 0 "silver-v1" Rental
    Apartment (FFin 900) ARS None None None [] None (Some 2) None None [] (Some text) "" None Exact None None [].
Definition tables : db :=
  MkDb [MkSearchProfile 7 70 "mine" Rental [] (FFin 900) None 1 None None ProfileActive [] 1 0 0 None None 5 "user" None] [] [] [] [] [] [] [] []
    [listing 50 "Dos ambientes con balcon"; listing 51 "Un ambiente"] [] [] [].

Definition schema : odict string pyval :=
  [("required", VList [VStr "value"]);
   ("properties", VDict [("value", VDict [("type", VStr "string")]); ("evidence", VDict [("type", VStr "string")]);
                         ("confidence", VDict [("type", VStr "number")])])]%string.
Definition contract : ExtractionContractSpec :=
  MkExtractionContractSpec "1" "extraction-v1" ["description_text"; "rooms"]%string [] 2
    [("balcon", [("source", VStr "rule"); ("input_fields", VList [VStr "description_text"])]);
     ("luz", [("source", VStr "model"); ("schema", VDict schema)])]%string.
Definition answer (output : pyval) : ExtractionResult := MkExtractionResult output None (FFin 0) false None.
(** The first answer lacks its evidence. *)
Definition extractor : StructuredExtractor := fun asked _ _ _ _ =>
  Ok (answer (VDict (("value", VStr "mucha") :: (if Nat.eqb asked 0 then [] else
    [("evidence", VStr "luminoso"); ("confidence", VFloat (flit 9 10))])))%string).
Definition cfg : criteria_config :=
  MkCriteriaConfig
    (MkConceptsSeedSpec "1" "v1" [MkConceptSeed "balcon" "Balcon" ["terraza"%string] "categorical" [] "seed" [] [];
                                  MkConceptSeed "luz" "Luz" [] "categorical" [] "seed" [] []])
    (MkMatcherTypesSpec "1" "v1" [("categorical"%string, MkMatcherTypeSpec "categorical" [])]) contract
    (MkEventsRegistrySpec "1" "v1" [] [] []) (Some extractor) false None false None true
    EXTRACTION_RUN_JOB_TYPE RECOMPUTE_JOB_TYPE 2 10 false "" false.

Definition start : sys (criteria runtime) := Sys (MkCriteria (empty_knowledge tables) (new_runtime 0) 0) 0 0.
Definition seeded : sys (criteria runtime) := (seed_registry cfg 5 w0 start).2.
Definition scope (key : string) : RecomputeScope := MkRecomputeScope ScopeConcept (Some key).

Example seeding : seed_registry cfg 5 w0 start = (Ok 2, seeded).
Proof. vm_compute. reflexivity. Qed.
Example seeded_inv : criteria_inv (tables_of seeded).
Proof.
  apply (safe_run (seed_registry cfg 5) w0 start (Ok 2) seeded); [apply safe_seed| |exact seeding].
  apply criteria_inv_empty. split; [done|]. split; [done|apply table_ok_nil].
Qed.

(** The observations of the table: listing, concept, value, state *)
Definition seen (s : sys (criteria runtime)) : list (Z * string * pyval * ObservationState) :=
  map (fun o => (obs_listing_id o, obs_concept_key o, obs_value o, obs_state o)) (kn_observations (tables_of s)).

Notation extraction := (process_extraction cfg (scope "balcon") 9 (Some 5) w0).
Definition extracted_once := (extraction seeded).2.
Example extraction_run :
  exists summary, extraction seeded = (Ok summary, extracted_once)
    /\ seen extracted_once = [(50, "balcon"%string, VStr "true", ObsActive); (51, "balcon"%string, VNone, ObsActive)].
Proof. eexists. split; [vm_compute; reflexivity|]. vm_compute. reflexivity. Qed.

Notation recompute := (process_recompute cfg (scope "luz") "cause" 9 (Some 5) w0).
Definition recomputed := (recompute extracted_once).2.
Example recompute_run :
  exists summary, recompute extracted_once = (Ok summary, recomputed)
    /\ seen recomputed = [(50, "balcon"%string, VStr "true", ObsActive); (51, "balcon"%string, VNone, ObsActive);
         (50, "luz"%string, VStr "mucha", ObsActive); (51, "luz"%string, VStr "mucha", ObsActive)]
    /\ ct_asked (state_of recomputed) = 3%nat.
Proof. eexists. split; [vm_compute; reflexivity|]. split; vm_compute; reflexivity. Qed.

Example extracted_inv : criteria_inv (tables_of extracted_once).
Proof.
  destruct extraction_run as (summary & E & _).
  exact (safe_run (process_extraction cfg (scope "balcon") 9 (Some 5)) w0 seeded (Ok summary) extracted_once
           (safe_process_extraction cfg _ _ _) seeded_inv E).
Qed.

Lemma extraction_published_witness : exists summary obs versions,
  extraction seeded = (Ok summary, extracted_once)
  /\ batch_published cfg (scope "balcon") (tables_of seeded) (tables_of extracted_once) obs versions.
Proof.
  destruct extraction_run as (summary & E & _).
  destruct (extraction_published cfg (scope "balcon") 9 (Some 5) w0 seeded summary extracted_once seeded_inv E)
    as (obs & versions & Hb & _). exists summary, obs, versions. split; [exact E|exact Hb].
Defined.

Lemma recompute_atomic_witness : exists summary obs versions run,
  recompute extracted_once = (Ok summary, recomputed)
  /\ batch_published cfg (scope "luz") (tables_of extracted_once) (tables_of recomputed) obs versions
  /\ kn_recomputes (tables_of recomputed) = kn_recomputes (tables_of extracted_once) ++ [run].
Proof.
  destruct recompute_run as (summary & E & _).
  destruct (recompute_atomic cfg (scope "luz") "cause" 9 (Some 5) w0 extracted_once (Ok summary) recomputed extracted_inv E)
    as (obs & versions & run & event & Hb & Hr & _). exists summary, obs, versions, run.
  split; [exact E|]. split; [exact Hb|exact Hr].
Defined.

Definition full_context : JobContext :=
  MkJobContext 9 1 5 "release-1" (Some "full"%string).
Lemma full_recompute_refused_witness : exists s',
  RecomputeHandler_run cfg full_context w0 seeded = (Raise IntegrityError, s') /\ tables_of s' = tables_of seeded.
Proof. exact (full_recompute_refused cfg full_context w0 seeded eq_refl). Defined.

Lemma criteria_invariant_witness : criteria_inv (tables_of recomputed).
Proof.
  destruct extraction_run as (summary1 & E1 & _), recompute_run as (summary2 & E2 & _).
  apply (criteria_invariant cfg tables (new_runtime 0) 0 0 0 recomputed);
    [split; [done|]; split; [done|apply table_ok_nil]|].
  eapply rtc_l; [exact (step_seed cfg 5 w0 start _ _ seeding)|].
  eapply rtc_l; [exact (step_process_extraction cfg (scope "balcon") 9 (Some 5) w0 seeded _ _ E1)|].
  eapply rtc_l; [exact (step_process_recompute cfg (scope "luz") "cause" 9 (Some 5) w0 extracted_once _ _ E2)|].
  apply rtc_refl.
Defined.

(** A second version of a concept that has observations *)
Notation second :=
  (register_concept_version cfg "balcon" "Balcon o terraza" ["terraza"%string] "categorical" [] [] [] 5 "user" None w0).
Definition renamed := (second recomputed).2.
Example second_run : exists v, second recomputed = (Ok v, renamed) /\ cv_concept_version v = 2
  /\ seen renamed = [(50, "balcon"%string, VStr "true", ObsInvalidated); (51, "balcon"%string, VNone, ObsInvalidated);
         (50, "luz"%string, VStr "mucha", ObsActive); (51, "luz"%string, VStr "mucha", ObsActive)].
Proof. eexists. split; [vm_compute; reflexivity|]. split; vm_compute; reflexivity. Qed.
Example recomputed_inv : criteria_inv (tables_of recomputed).
Proof.
  destruct recompute_run as (summary & E & _).
  exact (safe_run (process_recompute cfg (scope "luz") "cause" 9 (Some 5)) w0 extracted_once (Ok summary) recomputed
           (safe_process_recompute cfg _ _ _ _) extracted_inv E).
Qed.
Lemma concept_version_registered_witness : exists v,
  second recomputed = (Ok v, renamed) /\ concept_registered "balcon" v (tables_of recomputed) (tables_of renamed).
Proof.
  destruct second_run as (v & E & _). exists v. split; [exact E|].
  exact (concept_version_registered cfg _ _ _ _ _ _ _ _ _ _ w0 recomputed v renamed recomputed_inv E).
Defined.

Notation wish value :=
  (record_preference_fact 70 7 "balcon" (VStr value) (flit 1 2) "positive" (FFin 1) "chat" 5 "user" None w0).
Definition wished := (wish "si"%string seeded).2.
Definition wished_again := (wish "no"%string wished).2.
Example wish_run : exists fact, wish "no"%string wished = (Ok fact, wished_again)
  /\ map fact_state (kn_facts (tables_of wished_again)) = [FactSuperseded; FactActive].
Proof. eexists. split; [vm_compute; reflexivity|]. vm_compute. reflexivity. Qed.
Lemma fact_recorded_witness : exists fact,
  wish "no"%string wished = (Ok fact, wished_again)
  /\ List.filter (fun f => fact_active f && same_preference fact f) (kn_facts (tables_of wished_again)) = [fact_row fact].
Proof.
  destruct wish_run as (fact & E & _). exists fact. split; [exact E|].
  exact (proj1 (proj2 (proj2 (proj2 (proj2 (proj2
    (fact_recorded 70 7 "balcon" (VStr "no") (flit 1 2) "positive" (FFin 1) "chat" 5 "user" None w0 wished
       (Ok fact) wished_again E))))))).
Defined.

Definition luz_version := MkExtractionVersion 3 "model" "luz" "luz.model-v1" [] 0 5 "service" None.
Notation reading_of := (_model_observation cfg 50 "luz" "categorical" luz_version [] 40 5 w0).
Definition read_luz := (reading_of seeded).2.
Example reading_run : exists o, reading_of seeded = (Ok o, read_luz)
  /\ obs_state o = ObsActive /\ ct_asked (state_of read_luz) = 2%nat.
Proof. eexists. split; [vm_compute; reflexivity|]. split; vm_compute; reflexivity. Qed.
Lemma model_reads_first_valid_witness : exists o k r,
  reading_of seeded = (Ok o, read_luz)
  /\ first_valid (fun asked => extractor asked "luz"%string [] schema "luz.model-v1"%string) schema 0 2 k r.
Proof.
  destruct reading_run as (o & E & _).
  destruct (model_reads_first_valid cfg extractor 50 "luz" "categorical" luz_version [] 40 5 w0 seeded o read_luz eq_refl E)
    as (schema' & k & r & Hs & Hf & _). injection Hs as <-. exists o, k, r. split; [exact E|exact Hf].
Defined.
End CriteriaExamples.
