(* ===== verification/ScoringService.v ===== *)
(** * The scoring service

    [application/scoring/service.py] over the repositories of
    [infrastructure/db/repositories/scoring.py] (and, for runs, items and profiles,
    those of [Database]): versioned policies, the hook that scores a run,
    explanations, comparisons and the shortlist. *)

From S2P Require Export Database ScoringEngine RadarService.

(** ** Repositories *)

Section repo.
Context `{NumericColumns}.

(** [register_version]: the key's row, created when missing, points at the version. *)
Definition register_version {S} (on : (db -> result PolicyVersion * db) -> M S PolicyVersion)
    (policy_key : string) (n : Z) (contract_version : string) (payload : odict string pyval)
    (correlation_id now : Z) : M S PolicyVersion :=
  policy_fresh ← uuid4;
  version_fresh ← uuid4;
  on (fun d =>
    let existing := find_first (fun p => bool_decide (pol_key p = policy_key)) (t_policies d) in
    let pid := match existing with Some p => pol_id p | None => policy_fresh end in
    let v := MkPolicyVersion version_fresh pid n contract_version payload now correlation_id "service" None in
    let policies := match existing with
                    | Some _ => Some (t_policies d)
                    | None => insert_row policy_clash policy_check
                                (MkPolicyRow pid policy_key None now now) (t_policies d)
                    end in
    match policies, insert_row policy_version_clash policy_version_check v (t_policy_versions d) with
    | Some ps, Some vs =>
        (Ok v, set_policy_versions vs
                 (set_policies (update_by pol_id pid (fun p =>
                    MkPolicyRow (pol_id p) (pol_key p) (Some version_fresh) (pol_created_at p) now) ps) d))
    | _, _ => (Raise IntegrityError, d)
    end).

Definition policy_version_lt (a b : PolicyVersion) : bool := polv_policy_version a <? polv_policy_version b.

Definition latest_version (policy_key : string) (d : db) : option PolicyVersion :=
  max_by policy_version_lt
    (List.filter (fun v => existsb (fun p => (pol_id p =? polv_policy_id v)
                                             && bool_decide (pol_key p = policy_key)) (t_policies d))
       (t_policy_versions d)).

Definition get_version (id : Z) (d : db) : option PolicyVersion :=
  get_by polv_version_id id (t_policy_versions d).

Definition insert_many (es : list CriterionEvaluation) (d : db) : result unit * db :=
  match insert_rows evaluation_clash evaluation_check (map evaluation_row es) (t_evaluations d) with
  | Some t => (Ok tt, set_evaluations t d)
  | None => (Raise IntegrityError, d)
  end.

Definition for_run (rid : Z) (d : db) : list CriterionEvaluation :=
  List.filter (fun e => ce_run_id e =? rid) (t_evaluations d).

(** The evaluations of some listings of a run, grouped by listing, by criterion key *)
Definition for_run_and_listings (rid : Z) (ids : list Z) (d : db)
  : odict Z (list CriterionEvaluation) :=
  let rows := List.filter (fun e => (ce_run_id e =? rid) && bool_decide (ce_listing_id e ∈ ids))
                (t_evaluations d) in
  let grouped := foldl (fun acc e => oset (ce_listing_id e)
                          (default [] (oget (ce_listing_id e) acc) ++ [e])%list acc) [] rows in
  map (fun kv => (kv.1, sort_by (fun a b => str_ltb (ce_criterion_key a) (ce_criterion_key b)) kv.2))
    grouped.

Definition shortlist_rows (pid : Z) (ids : list Z) (fresh : nat -> Z) : list ShortlistRow :=
  map (fun '(position, lid) => MkShortlistRow (fresh (Z.to_nat position)) pid lid position)
    (enumerate ids).

(** [replace]: delete the profile's rows, then insert the new ones *)
Definition shortlist_replace (pid : Z) (ids : list Z) (fresh : nat -> Z) (d : db) : result unit * db :=
  match insert_rows shortlist_clash shortlist_check (shortlist_rows pid ids fresh)
          (List.filter (fun r => negb (sl_profile_id r =? pid)) (t_shortlists d)) with
  | Some t => (Ok tt, set_shortlists t d)
  | None => (Raise IntegrityError, d)
  end.

Definition list_for_profile (pid : Z) (d : db) : list Z :=
  map sl_listing_id (sort_by (fun a b => sl_position a <? sl_position b)
    (List.filter (fun r => sl_profile_id r =? pid) (t_shortlists d))).

Definition active_for_listings (ids : list Z) (d : db) : odict Z (odict string ListingObservation) :=
  foldl (fun acc o => oset (obs_listing_id o)
           (oset (obs_concept_key o) o (default [] (oget (obs_listing_id o) acc))) acc)
    [] (List.filter (fun o => bool_decide (obs_listing_id o ∈ ids)
                              && bool_decide (obs_state o = ObsActive)) (t_observations d)).

Definition list_by_ids (ids : list Z) (d : db) : list NormalizedListing :=
  List.filter (fun l => bool_decide (listing_id l ∈ ids)) (t_listings d).

(** The newest compilation of a profile version *)
Definition latest_for_profile_version (vid : Z) (d : db) : option Compilation :=
  max_by (fun a b => comp_version a <? comp_version b)
    (List.filter (fun c => comp_profile_version_id c =? vid) (t_compilations d)).
End repo.

(** ** Service *)

Record scoring_config := ScoringConfig {
  sc_matcher_types : MatcherTypesSpec; policy_seed : odict string pyval;
  policy_seed_version : string; templates : odict string string;
  legacy_score_policy_version : string; comparison_max_listings : Z; shortlists_enabled : bool
}.

Definition _item_confidence (es : list CriterionEvaluation) (policy : ScoringPolicyDoc)
  : result float := _run_confidence es policy.

Definition _satisfied_filters (p : SearchProfile) : list string :=
  ((if fltb f0 (budget_max p) then ["budget_max"] else [])
   ++ (if bool_decide (zones p = []) then [] else ["zones"])
   ++ (if 0 <? min_rooms p then ["min_rooms"] else [])
   ++ match surface_min p, surface_max p with None, None => [] | _, _ => ["surface"] end)%list.

Section service.
Context `{NumericColumns}.
Variable cfg : scoring_config.

Definition tx {A} (f : db -> result A * db) : M db A := fun _ s =>
  let '(r, d) := f (state_of s) in (r, Sys d (drawn s) (ticks s)).
Definition query {A} (f : db -> A) : M db A := fun _ s => (Ok (f (state_of s)), s).

Definition register_policy_version (policy_key : string) (payload : odict string pyval)
    (correlation_id : Z) : M db PolicyVersion :=
  parsed ← lift (parse_policy_document payload (sc_matcher_types cfg));
  latest ← query (latest_version policy_key);
  let n := match latest with Some v => polv_policy_version v + 1 | None => 1 end in
  now ← clock;
  register_version tx policy_key n (doc_contract_version parsed) payload correlation_id now.

Definition seed_registry (correlation_id : Z) : M db Z :=
  latest ← query (latest_version (policy_seed_version cfg));
  match latest with
  | Some _ => mret 0
  | None => register_policy_version (policy_seed_version cfg) (policy_seed cfg) correlation_id ;; mret 1
  end.

Definition latest_policy_document : M db ScoringPolicyDoc :=
  v ← query (latest_version (policy_seed_version cfg));
  v ← match v with
      | Some v => mret (Some v)
      | None => c ← uuid4; seed_registry c ;; query (latest_version (policy_seed_version cfg))
      end;
  match v with
  | None => raise ScoringNotFound
  | Some v => lift (parse_policy_document (polv_payload v) (sc_matcher_types cfg))
  end.

(** The hook of the run pipeline *)
Definition scoring_compilation_for (vid : Z) (d : db) : option Compilation :=
  latest_for_profile_version vid d.

Definition scoring_score_run (profile : SearchProfile) (compilation : Compilation)
    (candidates : list NormalizedListing) (rid corr : Z) : M db (list ScoredCandidate) :=
  policy ← latest_policy_document;
  observations ← query (active_for_listings (map listing_id candidates));
  now ← clock;
  score_candidates profile compilation candidates observations policy rid corr now.

Definition scoring_engine : PolicyRunEngine :=
  MkPolicyRunEngine scoring_compilation_for scoring_score_run.

(** ** Access checks *)

Definition _profile_owned (owner pid : Z) : M db SearchProfile :=
  p ← query (profile_get pid);
  match p with
  | Some p => if owner_id p =? owner then mret p else raise ScoringNotAccessible
  | None => raise ScoringNotAccessible
  end.

Definition _profile (pid : Z) : M db SearchProfile :=
  p ← query (profile_get pid);
  match p with Some p => mret p | None => raise ScoringNotFound end.

Definition _owned_succeeded_run (owner pid rid : Z) : M db RecommendationRun :=
  _profile_owned owner pid ;;
  run ← query (run_get rid);
  match run with
  | None => raise ScoringNotFound
  | Some run =>
      if negb (run_profile_id run =? pid) then raise ScoringNotFound
      else if negb (bool_decide (run_state run = RunSucceeded)) then raise ScoringStateError
      else mret run
  end.

Definition _latest_run_id (owner pid : Z) : M db Z :=
  _profile_owned owner pid ;;
  run ← query (latest_succeeded_for_profile pid);
  match run with Some r => mret (run_id r) | None => raise ScoringNotFound end.

Definition is_legacy (run : RecommendationRun) : bool :=
  bool_decide (run_score_policy_version run = legacy_score_policy_version cfg).

(** ** Explanations *)

Definition explain_item (pid : Z) (run : RecommendationRun) (item : RecommendationItem)
    (es : list CriterionEvaluation) (policy : ScoringPolicyDoc) (profile : SearchProfile)
  : M db Explanation :=
  conf ← lift (_item_confidence es policy);
  mret (build_explanation pid (run_id run) (item_listing_id item) (item_score item) conf es policy
          (templates cfg) (_satisfied_filters profile) (run_profile_version_id run)).

Definition get_explanation (owner pid rid lid : Z) : M db Explanation :=
  run ← _owned_succeeded_run owner pid rid;
  if is_legacy run then raise ExplanationUnavailable
  else
    ids ← query (listing_ids_for_run (run_id run));
    if negb (bool_decide (lid ∈ ids)) then raise ScoringNotFound
    else
      es ← query (fun d => default [] (oget lid (for_run_and_listings (run_id run) [lid] d)));
      items ← (r ← query (list_for_run (run_id run) None 1000); lift r);
      match find_first (fun i => item_listing_id i =? lid) items with
      | None => raise ScoringNotFound
      | Some item =>
          policy ← latest_policy_document;
          profile ← _profile pid;
          explain_item pid run item es policy profile
      end.

Fixpoint explain_all (pid : Z) (run : RecommendationRun) (items : list RecommendationItem)
    (es : odict Z (list CriterionEvaluation)) (policy : ScoringPolicyDoc) (profile : SearchProfile)
  : M db (list Explanation) :=
  match items with
  | [] => mret []
  | i :: rest =>
      e ← explain_item pid run i (default [] (oget (item_listing_id i) es)) policy profile;
      es' ← explain_all pid run rest es policy profile;
      mret (e :: es')
  end.

Definition list_explanations (owner pid rid : Z) (after_position : option Z) (limit : Z)
  : M db (list Explanation) :=
  run ← _owned_succeeded_run owner pid rid;
  if is_legacy run then raise ExplanationUnavailable
  else
    items ← (r ← query (list_for_run (run_id run) after_position limit); lift r);
    es ← query (for_run_and_listings (run_id run) (map item_listing_id items));
    policy ← latest_policy_document;
    profile ← _profile pid;
    explain_all pid run items es policy profile.

(** ** Comparison *)

Definition outside (ids run_ids : list Z) : option Z :=
  find_first (fun i => negb (bool_decide (i ∈ run_ids))) ids.

Definition service_build_comparison (owner pid : Z) (ids : list Z) : M db Comparison :=
  rid ← _latest_run_id owner pid;
  run ← _owned_succeeded_run owner pid rid;
  let limit := comparison_max_listings cfg in
  if is_legacy run then raise ExplanationUnavailable
  else if Z.of_nat (length ids) <? 2 then raise (ComparisonLimitExceeded limit)
  else if negb (bool_decide (NoDup ids)) then raise ComparisonDuplicateListing
  else if limit <? Z.of_nat (length ids) then raise (ComparisonLimitExceeded limit)
  else
    run_ids ← query (listing_ids_for_run (run_id run));
    match outside ids run_ids with
    | Some i => raise (ComparisonNotInRadar i)
    | None =>
        items ← (r ← query (list_for_run (run_id run) None 1000); lift r);
        es ← query (for_run_and_listings (run_id run) ids);
        listings ← query (list_by_ids ids);
        policy ← latest_policy_document;
        profile ← _profile pid;
        mret (build_comparison profile (run_id run) (score_policy_version policy) limit items
                (oupdate [] (map (fun l => (listing_id l, l)) listings))
                (map (fun kv => (kv.1, by_criterion_key kv.2)) es) policy)
    end.

(** ** Shortlist *)

Definition get_shortlist (owner pid : Z) : M db (list Z) :=
  _profile_owned owner pid ;;
  if negb (shortlists_enabled cfg) then mret [] else query (list_for_profile pid).

(** Every replaced row draws its own identity. *)
Definition replace_shortlist (pid : Z) (ids : list Z) : M db unit :=
  fun w s => tx (shortlist_replace pid ids (fun i => uuid_at w (drawn s + i)%nat)) w
               (Sys (state_of s) (drawn s + length ids)%nat (ticks s)).

Definition set_shortlist (owner pid : Z) (ids : list Z) (correlation_id : Z) : M db (list Z) :=
  _profile_owned owner pid ;;
  if negb (shortlists_enabled cfg) then raise ScoringStateError
  else if comparison_max_listings cfg <? Z.of_nat (length ids)
  then raise (ComparisonLimitExceeded (comparison_max_listings cfg))
  else
    run ← query (latest_succeeded_for_profile pid);
    match run with
    | None => raise ScoringNotFound
    | Some run =>
        run_ids ← query (listing_ids_for_run (run_id run));
        match outside ids run_ids with
        | Some i => raise (ComparisonNotInRadar i)
        | None =>
            now ← clock;
            replace_shortlist pid ids ;;
            mret ids
        end
    end.
End service.
