(* ===== verification/ScoringFacts.v ===== *)
(** * Facts about scoring

    The lemmas behind the theorems of [ScoringTheorems]: checked computations only
    add error codes, the evaluators stay in the unit interval, the candidate loop is
    a map over the criteria, the sort orders are strict weak orders. *)

From Stdlib Require Import QArith Lqa.
From S2P Require Export ScoringEngine.
#[local] Open Scope Z_scope.
#[local] Open Scope list_scope.
#[local] Opaque rnd.

(** ** Checked computations *)

(** The caller's error codes stay a prefix of the codes after the call. *)
Class Grows {A} (m : checked A) : Prop :=
  grows : forall errors a errors', m errors = Ok (a, errors') -> exists l, errors' = errors ++ l.

#[export] Instance grows_ret {A} (a : A) : Grows (mret a).
Proof. intros e b e' [= <- <-]. exists []. by rewrite app_nil_r. Qed.

#[export] Instance grows_bind {A B} (m : checked A) (f : A -> checked B) :
  Grows m -> (forall a, Grows (f a)) -> Grows (m ≫= f).
Proof.
  intros Hm Hf e b e' H. inv_bind.
  destruct (Hm _ _ _ ltac:(eassumption)) as [l1 ->].
  destruct (Hf _ _ _ _ H) as [l2 ->]. exists (l1 ++ l2). by rewrite app_assoc.
Qed.

#[export] Instance grows_emit code : Grows (emit code).
Proof. intros e b e' [= <- <-]. by eexists. Qed.

#[export] Instance grows_emit_if b code : Grows (emit_if b code).
Proof. unfold emit_if. destruct b; apply _. Qed.

#[export] Instance grows_pure {A} (r : result A) : Grows (pure r).
Proof. intros e b e' H. unfold pure in H. case_match; simplify_eq. exists []. by rewrite app_nil_r. Qed.

#[export] Instance grows_fold {A B} (f : B -> A -> checked B) acc l :
  (forall b x, Grows (f b x)) -> Grows (fold_checked f acc l).
Proof. intros Hf. revert acc. induction l as [|x l IH]; intros acc; simpl; apply _. Qed.

Ltac solve_grows :=
  repeat (intros;
    lazymatch goal with
    | |- Grows (mbind _ _) => apply grows_bind
    | |- Grows (fold_checked _ _ _) => apply grows_fold
    | |- Grows (emit_if _ _) => exact (grows_emit_if _ _)
    | |- Grows (emit _) => exact (grows_emit _)
    | |- Grows (pure _) => exact (grows_pure _)
    | |- Grows (mret _) => exact (grows_ret _)
    | |- Grows (match ?x with _ => _ end) => destruct x
    | |- Grows (let _ := _ in _) => simpl
    | |- _ => solve [apply _]
    end).

(** A computation that ends without codes had none at any point. *)
Lemma clean_bind {A B} (m : checked A) (f : A -> checked B) errors b :
  Grows m -> (forall a, Grows (f a)) -> (m ≫= f) errors = Ok (b, []) ->
  errors = [] /\ exists a, m [] = Ok (a, []) /\ f a [] = Ok (b, []).
Proof.
  intros Hm Hf H. inv_bind.
  match goal with E : m _ = _ |- _ => pose proof E as Em; apply Hm in E as [l1 ->] end.
  pose proof (Hf _ _ _ _ H) as [l2 E].
  symmetry in E. apply app_eq_nil in E as [E ->]. apply app_eq_nil in E as [-> ->].
  split; [done|]. by eexists.
Qed.

Lemma clean_emit_if b code errors u : emit_if b code errors = Ok (u, []) -> b = false.
Proof.
  unfold emit_if, emit. destruct b; [|done]. intros [= _ H].
  by apply app_eq_nil in H as [_ ?].
Qed.

Lemma clean_emit code errors u : emit code errors <> Ok (u, []).
Proof. unfold emit. intros [= _ H]. by apply app_eq_nil in H as [_ ?]. Qed.

Lemma clean_pure {A} (r : result A) errors a errors' :
  pure r errors = Ok (a, errors') -> r = Ok a /\ errors' = errors.
Proof. unfold pure. case_match; naive_solver. Qed.

(** One statement of a clean run *)
Ltac clean H :=
  let a := fresh "a" in let Ha := fresh "Ha" in
  apply clean_bind in H as [_ (a & Ha & H)]; [|solve_grows|solve_grows].

(** A branch that emits is not clean. *)
Ltac dirty H :=
  exfalso; clean H;
  match goal with
  | E : emit _ _ = Ok (_, []) |- _ => exact (clean_emit _ _ _ E)
  | E : mbind _ _ _ = Ok (_, []) |- _ => dirty E
  end.

(** An invariant of the accumulator survives a clean loop. *)
Lemma clean_fold {A B} (f : B -> A -> checked B) (I : B -> Prop) acc l b :
  (forall b x, Grows (f b x)) ->
  (forall b x b', I b -> x ∈ l -> f b x [] = Ok (b', []) -> I b') ->
  I acc -> fold_checked f acc l [] = Ok (b, []) -> I b.
Proof.
  intros Hg. revert acc. induction l as [|x l IH]; intros acc Hstep Hacc H; simpl in H.
  - by injection H as <-.
  - clean H. apply (IH a); [|apply (Hstep acc x); [done|set_solver|done]|done].
    intros b' y b'' Hb Hy. apply Hstep; [done|set_solver].
Qed.

(** ** Accepted policy documents *)

Record criterion_ok (mts : MatcherTypesSpec) (c : PolicyCriterion) : Prop := {
  ok_key : pc_key c <> "";
  ok_concept : pc_concept c <> "";
  ok_matcher : exists spec, oget (pc_matcher_type c) (matcher_types mts) = Some spec
                            /\ Forall (fun k => k ∈ allowed_params spec) (okeys (pc_params c));
  ok_weight : in_frange f0 (pc_weight c) f1 = true;
  ok_gate : pc_gate c = VNone \/ py_in (pc_gate c) (map VStr _SUPPORTED_GATES) = true
}.

Definition delta_ok (cs : list PolicyCriterion) (b : PolicyBonusPenalty) : Prop :=
  bp_criterion b ∈ map pc_key cs /\ in_frange (fneg max_delta) (bp_delta b) max_delta = true.

Record policy_ok (mts : MatcherTypesSpec) (p : ScoringPolicyDoc) : Prop := {
  ok_round : 2 <= score_round p <= 6;
  ok_normalization : normalization p = "weighted_sum";
  ok_nonempty : criteria p <> [];
  ok_keys : NoDup (map pc_key (criteria p));
  ok_criteria : Forall (criterion_ok mts) (criteria p);
  ok_total : fltb _WEIGHT_EPSILON (fabs (fsub (fsum (map pc_weight (criteria p))) f1)) = false;
  ok_deltas : Forall (delta_ok (criteria p)) (bonuses p ++ penalties p);
  ok_tie : exists rest, tie_break p = "score" :: rest /\ Forall (fun k => k ∈ _SUPPORTED_TIE_KEYS) rest
}.

#[export] Instance grows_parse_criterion raw mts keys : Grows (_parse_criterion raw mts keys).
Proof. unfold _parse_criterion. solve_grows. Qed.
#[export] Instance grows_parse_criteria raw mts : Grows (parse_criteria raw mts).
Proof. unfold parse_criteria. solve_grows. Qed.
#[export] Instance grows_parse_delta known code entry : Grows (parse_delta known code entry).
Proof. unfold parse_delta. solve_grows. Qed.
#[export] Instance grows_parse_deltas raw cs code : Grows (_parse_deltas raw cs code).
Proof. unfold _parse_deltas. solve_grows. Qed.
#[export] Instance grows_tie_break raw : Grows (_tie_break raw).
Proof. unfold _tie_break. solve_grows. Qed.

(** The accumulator of [parse_criteria]: the keys seen, and the criteria they gave *)
Definition parsing_ok (mts : MatcherTypesSpec) (acc : list string * list PolicyCriterion) : Prop :=
  NoDup (map pc_key acc.2) /\ Forall (criterion_ok mts) acc.2
  /\ (forall k, k ∈ map pc_key acc.2 -> k ∈ acc.1).

Lemma parse_criterion_ok raw mts keys keys' parsed :
  _parse_criterion raw mts keys [] = Ok ((keys', parsed), []) ->
  exists c, parsed = Some c /\ criterion_ok mts c /\ pc_key c ∉ keys /\ keys' = pc_key c :: keys.
Proof.
  unfold _parse_criterion. intros H.
  repeat (case_match; try (dirty H)).
  clean H. injection Ha as <-.
  clean H. apply clean_emit_if in Ha as Hallowed. clean H. apply clean_pure in Ha0 as [Hw _].
  clean H. apply clean_emit_if in Ha0 as Hrange. clean H. apply clean_emit_if in Ha1 as Hgate.
  injection H as <- <-. eexists. split; [done|].
  split; [|split; [by eapply bool_decide_eq_false|done]].
  constructor; simpl.
  - by eapply bool_decide_eq_false.
  - by eapply bool_decide_eq_false.
  - eexists. split; [done|]. apply negb_false_iff in Hallowed.
    apply Forall_forall. intros k [Hk|Hk]%elem_okeys_oupdate; [by apply elem_of_nil in Hk|].
    rewrite forallb_forall in Hallowed.
    by apply list_elem_of_In, Hallowed, bool_decide_eq_true in Hk.
  - destruct a0; [|done]. by apply negb_false_iff in Hrange.
  - apply andb_false_iff in Hgate as [Hn|Hn]; apply negb_false_iff in Hn; [left|by right].
    by destruct (dget "gate" d).
Qed.

Lemma parse_criteria_ok raw mts cs :
  parse_criteria raw mts [] = Ok (cs, []) ->
  NoDup (map pc_key cs) /\ Forall (criterion_ok mts) cs /\ (raw <> [] -> cs <> []).
Proof.
  unfold parse_criteria. intros H. clean H. injection H as <-.
  assert (Hok : parsing_ok mts a).
  { apply (clean_fold _ (parsing_ok mts)) in Ha; [done|solve_grows| |by repeat split; simpl; [constructor| |set_solver]].
    intros [ks acc] x b' (Hnd & Hall & Hsub) _ Hx. simpl in *. clean Hx. destruct a0 as [keys' parsed].
    injection Hx as <-. apply parse_criterion_ok in Ha0 as (c & -> & Hc & Hnew & ->).
    split; [|split]; simpl.
    - rewrite map_app. apply NoDup_app. repeat split; [done| |by repeat constructor; set_solver].
      simpl. intros k Hk ->%list_elem_of_singleton. by apply Hnew, Hsub.
    - apply Forall_app. split; [done|]. by constructor.
    - intros k. rewrite map_app. simpl. set_solver. }
  destruct Hok as (? & ? & _). repeat split; [done..|].
  intros Hraw. destruct raw as [|x raw]; [done|]. simpl in Ha. clean Ha.
  clean Ha0. destruct a1 as [keys' parsed]. injection Ha0 as <-.
  apply parse_criterion_ok in Ha1 as (c & -> & _).
  apply (clean_fold _ (fun acc => acc.2 <> [])) in Ha; [done|solve_grows| |done].
  intros b y b' Hb _ Hy. clean Hy. destruct a0 as [? [?|]]; injection Hy as <-; simpl; [|done].
  by destruct b.2.
Qed.

Lemma parse_delta_ok cs code x b :
  parse_delta (map pc_key cs) code x [] = Ok (Some b, []) -> delta_ok cs b.
Proof.
  unfold parse_delta. intros H. destruct x as [| | | | | |d]; try (clean H; discriminate H).
  clean H. clean H. apply clean_pure in Ha0 as [Hk _]. clean H.
  destruct (a0 && a1) eqn:Hv; simpl in H; [|dirty H].
  apply andb_true_iff in Hv as [-> _].
  destruct a as [delta|]; [|dirty H]. destruct (state_of_val _) as [state|]; [|dirty H].
  destruct (in_frange _ _ _) eqn:Hd; [|dirty H]. injection H as <-.
  split; [|exact Hd]. simpl bp_criterion. destruct (dget "criterion" d); try discriminate Hk.
  injection Hk as Hk.
  by apply bool_decide_eq_true in Hk.
Qed.

Lemma parse_deltas_ok raw cs code ds :
  _parse_deltas raw cs code [] = Ok (ds, []) -> Forall (delta_ok cs) ds.
Proof.
  unfold _parse_deltas. intros H. destruct raw as [| | | | |l|]; try dirty H.
  - by injection H as <-.
  - apply (clean_fold _ (Forall (delta_ok cs))) in H; [done|solve_grows| |constructor].
    intros acc x acc' Hacc _ Hx. clean Hx. destruct a as [b|]; injection Hx as <-; [|done].
    apply Forall_app. split; [done|]. constructor; [|done]. by eapply parse_delta_ok.
Qed.

Lemma tie_break_ok raw tb : _tie_break raw [] = Ok (tb, []) ->
  exists rest, tb = "score" :: rest /\ Forall (fun k => k ∈ _SUPPORTED_TIE_KEYS) rest.
Proof.
  unfold _tie_break. intros H. destruct raw as [| | | | |[|x l]|]; try dirty H.
  destruct (bool_decide (py_str x = "score")) eqn:Hx; simpl in H; [|dirty H].
  clean H. apply clean_emit_if in Ha as Hun. injection H as <-.
  apply negb_false_iff, bool_decide_eq_true in Hun. apply bool_decide_eq_true in Hx.
  eexists. split; [by rewrite Hx|]. apply Forall_forall. intros k Hk.
  destruct (decide (k ∈ _SUPPORTED_TIE_KEYS)) as [|Hn]; [done|].
  assert (k ∈ @nil string) as []%elem_of_nil. rewrite <- Hun. by apply list_elem_of_filter.
Qed.

Lemma check_policy_ok data mts doc :
  check_policy_document data mts [] = Ok (doc, []) -> policy_ok mts doc.
Proof.
  unfold check_policy_document. intros H.
  clean H. clean H. clean H. apply clean_emit_if in Ha1 as Hnorm.
  clean H. apply clean_emit_if in Ha2 as Hround. clean H. clean H. rename a4 into cs, Ha4 into Hcs.
  clean H. rename a4 into bs, Ha4 into Hbs. clean H. rename a4 into ps, Ha4 into Hps.
  clean H. rename a4 into tb, Ha4 into Htb. injection H as <-.
  apply parse_deltas_ok in Hbs, Hps. apply tie_break_ok in Htb.
  destruct (dget "criteria" data) as [| | | | |[|x l]|]; try dirty Hcs.
  clean Hcs. rename a4 into cs', Ha4 into Hcs'. clean Hcs. apply clean_emit_if in Ha4 as Hsum.
  injection Hcs as ->. apply parse_criteria_ok in Hcs' as (Hnd & Hall & Hne).
  constructor; simpl; [|by apply negb_false_iff, bool_decide_eq_true in Hnorm|by apply Hne|done..| | done].
  - apply negb_false_iff, andb_true_iff in Hround. lia.
  - apply Forall_app. split; assumption.
Qed.

(** An accepted document is well-formed. *)
Lemma parse_policy_ok data mts doc :
  parse_policy_document data mts = Ok doc -> policy_ok mts doc.
Proof.
  unfold parse_policy_document. destruct (check_policy_document data mts []) as [[d errors]|] eqn:E;
    [|done]. simpl. destruct (bool_decide (errors = [])) eqn:Hb; [|done].
  apply bool_decide_eq_true in Hb as ->. intros [= <-]. by eapply check_policy_ok.
Qed.

(** ** Evaluators stay in the unit interval *)

Abbreviation unit_float := (PyFloat.between 0 1) (only parsing).

Lemma exact_small z : Z.abs z <= 1000 -> exact_Z z.
Proof. unfold exact_Z. lia. Qed.

Lemma flit_between n d : 0 <= n <= Z.pos d -> unit_float (flit n d).
Proof.
  intros [H1 H2]. unfold flit. apply rnd_between; [apply exact_small; lia..|].
  unfold Qle; simpl. lia.
Qed.

Lemma f0_between : unit_float f0.
Proof. exists 0%Q. split; [done|]. unfold Qle; simpl; lia. Qed.
Lemma f1_between : unit_float f1.
Proof. exists 1%Q. split; [done|]. unfold Qle; simpl; lia. Qed.
Lemma half_between : unit_float half.
Proof. by apply flit_between. Qed.

Lemma fround_unit f n : 0 <= n -> unit_float f -> unit_float (fround f n).
Proof. intros. apply PyFloat.fround_between; [apply exact_small; lia..|done|done]. Qed.

#[local] Hint Resolve f0_between f1_between half_between : unit_interval.
#[local] Hint Extern 1 (unit_float (flit _ _)) => apply flit_between; lia : unit_interval.
#[local] Hint Extern 1 (unit_float (fround _ _)) => apply fround_unit; [lia|] : unit_interval.
#[local] Hint Extern 1 (unit_float (fmax f0 (fmin f1 _))) => apply clamp_unit : unit_interval.

(** An evaluation whose numbers are in the unit interval *)
Definition unit_result (r : EvaluationResult) : Prop :=
  unit_float (res_score r) /\ unit_float (res_confidence r).

Lemma unit_result_intro s c st code : unit_float s -> unit_float c ->
  unit_result (MkEvaluationResult s c st code).
Proof. by split. Qed.

Ltac solve_unit :=
  repeat case_match; try apply unit_result_intro; auto with unit_interval.

Lemma unknown_result_unit : unit_result unknown_result.
Proof. solve_unit. Qed.

Lemma precision_unit g : unit_float (_PRECISION_CONFIDENCE g).
Proof. destruct g; simpl; auto with unit_interval. Qed.
#[local] Hint Resolve unknown_result_unit precision_unit : unit_interval.

Lemma evaluate_geo_proximity_unit b g : unit_result (evaluate_geo_proximity b g).
Proof. unfold evaluate_geo_proximity. solve_unit. Qed.

Lemma evaluate_numeric_range_unit v params r :
  evaluate_numeric_range v params = Ok r -> unit_result r.
Proof.
  unfold evaluate_numeric_range. intros H. inv_bind. repeat case_match; simplify_eq; solve_unit.
Qed.

Lemma evaluate_categorical_unit v params : unit_result (evaluate_categorical v params).
Proof. unfold evaluate_categorical. solve_unit. Qed.

Lemma evaluate_semantic_unit s c params r : unit_float s -> unit_float c ->
  evaluate_semantic_feature (VFloat s) (VFloat c) params = Ok r -> unit_result r.
Proof.
  unfold evaluate_semantic_feature. intros Hs Hc H. simpl in H. inv_bind.
  simplify_eq. case_match; apply unit_result_intro; auto with unit_interval.
Qed.

Lemma evaluate_budget_unit b c r : evaluate_budget b c = Ok r -> unit_result r.
Proof.
  unfold evaluate_budget. intros H. repeat case_match; inv_bind; simplify_eq; solve_unit.
Qed.

Lemma evaluate_fixed_unit key b c mr r smin smax m2 zs n g res :
  evaluate_fixed_criterion key b c mr r smin smax m2 zs n g = Ok res -> unit_result res.
Proof.
  unfold evaluate_fixed_criterion. intros H. repeat (case_match; [|]);
    try (by apply evaluate_budget_unit in H); simplify_eq; auto with unit_interval.
  - unfold evaluate_rooms. solve_unit.
  - unfold evaluate_surface, surface_result. solve_unit.
  - apply evaluate_geo_proximity_unit.
Qed.

(** Observations as extraction stores them: score and confidence in the unit interval *)
Definition observation_unit (o : ListingObservation) : Prop :=
  unit_float (obs_score o) /\ unit_float (obs_confidence o).

Lemma evaluate_criterion_unit c p l obs r refs :
  Forall (fun kv => observation_unit kv.2) obs ->
  _evaluate_criterion c p l obs = Ok (r, refs) -> unit_result r.
Proof.
  intros Hobs. unfold _evaluate_criterion. destruct (is_fixed_criterion _).
  - intros H. inv_bind. simplify_eq. by eapply evaluate_fixed_unit.
  - destruct (oget _ obs) as [o|] eqn:Ho; [|intros [= <- <-]; apply unknown_result_unit].
    apply oget_Some_elem in Ho. rewrite Forall_forall in Hobs. apply Hobs in Ho as [Hs Hc].
    simpl in Hs, Hc. intros H. inv_bind. simplify_eq.
    match goal with E : evaluate_observation_criterion _ _ _ _ = _ |- _ => rename E into H end.
    unfold evaluate_observation_criterion in H. repeat case_match; simplify_eq.
    + by eapply evaluate_numeric_range_unit.
    + apply evaluate_categorical_unit.
    + exact (evaluate_semantic_unit _ _ _ _ Hs Hc H).
    + exact (evaluate_geo_proximity_unit false UnknownPrecision).
Qed.

(** ** The loop over the criteria *)

(** [criterion] excludes the listing: an exclusion gate whose evaluation mismatches *)
Definition excludes (profile : SearchProfile) (listing : NormalizedListing)
    (obs : observations_by_concept) (c : PolicyCriterion) : bool :=
  gate_is c "exclude_on_mismatch"
  && match _evaluate_criterion c profile listing obs with
     | Ok (r, _) => bool_decide (res_state r = Mismatch)
     | Raise _ => false
     end.

(** [e] records the evaluation of [c]: result, version and weighted contribution *)
Definition evaluation_of (profile : SearchProfile) (listing : NormalizedListing)
    (obs : observations_by_concept) (rid : Z) (c : PolicyCriterion) (e : CriterionEvaluation) : Prop :=
  exists r input_refs,
    _evaluate_criterion c profile listing obs = Ok (r, input_refs)
    /\ ce_criterion_key e = pc_key c /\ ce_run_id e = rid /\ ce_listing_id e = listing_id listing
    /\ ce_score e = res_score r /\ ce_confidence e = res_confidence r /\ ce_state e = res_state r
    /\ ce_contribution e = fround (fmul (pc_weight c) (res_score r)) 6
    /\ ce_evidence_refs e = input_refs.

Section loop.
Context {S : Type}.
Implicit Types (w : world) (s : sys S).

Lemma evaluate_loop_Some cs profile listing obs key rid corr now acc es w s sum es' s' :
  evaluate_loop cs profile listing obs key rid corr now acc es w s = (Ok (Some (sum, es')), s') ->
  existsb (excludes profile listing obs) cs = false
  /\ exists new, es' = es ++ new /\ Forall2 (evaluation_of profile listing obs rid) cs new
     /\ sum = foldl fadd acc (map ce_contribution new).
Proof.
  revert acc es s. induction cs as [|c cs IH]; intros acc es s; cbn [evaluate_loop existsb].
  - intros [= <- <- <-]. split; [done|]. exists []. by rewrite app_nil_r.
  - intros H. inv_bind. destruct x as [r refs]. unfold lift in H0. injection H0 as Hr <-.
    unfold excludes at 1. rewrite Hr.
    destruct (gate_is c _ && bool_decide _) eqn:Hgate; [done|]. inv_bind.
    apply IH in H as (Hex & new & -> & Hnew & ->). split; [done|].
    eexists (_ :: new). rewrite <- app_assoc. split; [done|]. split; [|done].
    constructor; [|done]. exists r, refs. by repeat split.
Qed.

Lemma evaluate_loop_None cs profile listing obs key rid corr now acc es w s s' :
  evaluate_loop cs profile listing obs key rid corr now acc es w s = (Ok None, s') ->
  existsb (excludes profile listing obs) cs = true.
Proof.
  revert acc es s. induction cs as [|c cs IH]; intros acc es s; cbn [evaluate_loop existsb]; [done|].
  intros H. inv_bind. destruct x as [r refs]. unfold lift in H0. injection H0 as Hr <-.
  unfold excludes at 1. rewrite Hr.
  destruct (gate_is c _ && bool_decide _) eqn:Hgate; [done|]. inv_bind. by apply IH in H.
Qed.

(** A scored candidate: one evaluation per criterion, and the policy's totals *)
Definition candidate_of (profile : SearchProfile) (obs : observations_by_concept)
    (policy : ScoringPolicyDoc) (rid : Z) (listing : NormalizedListing) (c : ScoredCandidate) : Prop :=
  let es := cand_evaluations c in
  existsb (excludes profile listing obs) (criteria policy) = false
  /\ Forall2 (evaluation_of profile listing obs rid) (criteria policy) es
  /\ cand_listing_id c = listing_id listing
  /\ cand_score c = total_score (foldl fadd f0 (map ce_contribution es)) policy es
  /\ _run_confidence es policy = Ok (cand_confidence c)
  /\ cand_contributions c = contributions_of policy es.

Lemma score_candidate_Ok profile listing obs policy rid corr now w s out s' :
  _score_candidate profile listing obs policy rid corr now w s = (Ok out, s') ->
  match out with
  | Some c => candidate_of profile obs policy rid listing c
  | None => existsb (excludes profile listing obs) (criteria policy) = true
  end.
Proof.
  unfold _score_candidate. intros H. inv_bind. destruct x as [[sum es]|]; [|].
  - inv_bind. unfold lift in *. simplify_eq/=. apply evaluate_loop_Some in H0 as (Hex & new & -> & Hn & ->).
    injection H as <- _. by repeat split.
  - injection H as <- <-. by apply evaluate_loop_None in H0.
Qed.

Definition observations_for (observations : observations_by_listing) (l : NormalizedListing)
  : observations_by_concept := default [] (oget (listing_id l) observations).

(** The candidates that no exclusion gate removes *)
Definition kept (profile : SearchProfile) (observations : observations_by_listing)
    (policy : ScoringPolicyDoc) (l : NormalizedListing) : bool :=
  negb (existsb (excludes profile l (observations_for observations l)) (criteria policy)).

Lemma score_all_Ok profile candidates observations policy rid corr now w s cs s' :
  score_all profile candidates observations policy rid corr now w s = (Ok cs, s') ->
  Forall2 (fun l => candidate_of profile (observations_for observations l) policy rid l)
    (List.filter (kept profile observations policy) candidates) cs.
Proof.
  revert s s' cs. induction candidates as [|l ls IH]; intros s s' cs; cbn [score_all List.filter].
  - intros [= <- _]. constructor.
  - intros H. inv_bind. apply score_candidate_Ok in H0. apply IH in H1. unfold kept at 1.
    unfold observations_for in *. destruct x as [c|]; injection H as <- <-.
    + destruct H0 as (Hex & H0). rewrite Hex. simpl. by constructor.
    + by rewrite H0.
Qed.
End loop.

(** ** Totals *)

Lemma fadd_not_nan a x : nan a = false -> nan (fadd a (FFin x)) = false.
Proof. destruct a as [|[]|y]; try done. simpl. intros _. apply rnd_not_nan. Qed.

Definition finite (f : float) : Prop := exists x, f = FFin x.

Lemma unit_finite f : unit_float f -> finite f.
Proof. intros (x & -> & _). by exists x. Qed.

Lemma unit_not_nan f : unit_float f -> nan f = false.
Proof. by intros (x & -> & _). Qed.

Lemma foldl_fadd_not_nan acc l : nan acc = false -> Forall finite l -> nan (foldl fadd acc l) = false.
Proof.
  revert acc. induction l as [|y l IH]; intros acc Ha Hl; [done|].
  apply Forall_cons in Hl as [[x ->] Hl]. simpl. apply IH; [by apply fadd_not_nan|done].
Qed.

Lemma in_frange_finite lo hi x : finite lo -> finite hi -> in_frange lo x hi = true -> finite x.
Proof.
  intros [a ->] [b ->]. unfold in_frange. intros [H1 H2]%andb_true_iff.
  destruct x as [|[]|x]; try done. by exists x.
Qed.

Lemma in_frange_unit x : in_frange f0 x f1 = true <-> unit_float x.
Proof.
  unfold in_frange, f0, f1. rewrite andb_true_iff. split.
  - destruct x as [|[]|x]; try (by intros []). rewrite !fleb_fin. intros. exists x. auto.
  - intros (q & -> & H1 & H2). by rewrite !fleb_fin.
Qed.

Lemma unit_mul a b : unit_float a -> unit_float b -> unit_float (fmul a b).
Proof.
  intros (x & -> & H1 & H2) (y & -> & H3 & H4). simpl.
  apply rnd_between; [apply exact_small; lia..|].
  change (inject_Z 0) with 0%Q in *. change (inject_Z 1) with 1%Q in *. nra.
Qed.

Lemma total_score_unit sum policy es : 0 <= score_round policy ->
  unit_float (total_score sum policy es).
Proof. intros. unfold total_score. apply fround_unit; [done|]. apply clamp_unit. Qed.

Lemma apply_deltas_not_nan base policy es : nan base = false ->
  Forall (fun b => finite (bp_delta b)) (bonuses policy ++ penalties policy) ->
  nan (_apply_deltas base policy es) = false.
Proof.
  unfold _apply_deltas. generalize (bonuses policy ++ penalties policy). intros l.
  revert base. induction l as [|b l IH]; intros base Hb Hl; [done|].
  apply Forall_cons in Hl as [[x Hx] Hl]. simpl. apply IH; [|done].
  repeat case_match; try done. rewrite Hx. by apply fadd_not_nan.
Qed.

Lemma fmin_le_r a b : nan a = false -> nan b = false -> fleb (fmin a b) b = true.
Proof.
  intros Ha Hb. unfold fmin. destruct (fltb b a) eqn:E; [by apply fleb_refl|].
  rewrite fleb_fltb by done. by rewrite E.
Qed.

Lemma fmin_le_l a b : nan a = false -> nan b = false -> fleb (fmin a b) a = true.
Proof.
  intros Ha Hb. unfold fmin. destruct (fltb b a) eqn:E; [|by apply fleb_refl].
  unfold fleb. by rewrite E.
Qed.

Lemma fmin_not_nan a b : nan a = false -> nan b = false -> nan (fmin a b) = false.
Proof. unfold fmin. by case_match. Qed.

Lemma clamp_le x c : nan x = false -> nan c = false -> fleb (FFin 0) c = true ->
  fleb x c = true -> fleb (fmax (FFin 0) (fmin (FFin 1) x)) c = true.
Proof.
  intros Hx Hc H0 Hxc. unfold fmax.
  destruct (fltb (FFin 0) _); [|done]. unfold fmin. destruct (fltb x (FFin 1)) eqn:E; [done|].
  apply (fleb_trans _ x); [|done]. rewrite fleb_fltb by done. by rewrite E.
Qed.

Lemma gate_cap_finite : finite gate_cap.
Proof. apply unit_finite, flit_between. lia. Qed.

Lemma gate_cap_not_nan : nan gate_cap = false.
Proof. apply unit_not_nan, flit_between. lia. Qed.

(** 0.6 is a fixed point of the roundings a policy may ask for. *)
Lemma gate_cap_round n : 2 <= n <= 6 -> fleb (fround gate_cap n) gate_cap = true.
Proof.
  intros Hn. assert (n = 2 \/ n = 3 \/ n = 4 \/ n = 5 \/ n = 6) as H by lia.
  destruct H as [->|[->|[->|[->| ->]]]]; vm_compute; reflexivity.
Qed.

Lemma gate_cap_nonneg : fleb (FFin 0) gate_cap = true.
Proof. vm_compute. reflexivity. Qed.

#[local] Opaque gate_cap.

Definition gated (policy : ScoringPolicyDoc) (es : list CriterionEvaluation) : bool :=
  gate_hit "cap_0.6_on_mismatch" Mismatch policy es || gate_hit "cap_0.6_on_unknown" Unknown policy es.

Lemma total_score_capped sum policy es :
  2 <= score_round policy <= 6 -> nan (_apply_deltas sum policy es) = false ->
  gated policy es = true -> fleb (total_score sum policy es) gate_cap = true.
Proof.
  intros Hr Hn Hg. unfold total_score.
  apply (fleb_trans _ (fround gate_cap (score_round policy))); [|by apply gate_cap_round].
  apply fround_mono. pose proof gate_cap_not_nan as Hc.
  pose proof (fmin_not_nan _ _ Hn Hc) as Hn1.
  pose proof gate_cap_nonneg as H0. unfold gated in Hg.
  destruct (gate_hit "cap_0.6_on_mismatch" _ _ _), (gate_hit "cap_0.6_on_unknown" _ _ _);
    try discriminate Hg; apply clamp_le; auto using fmin_not_nan, fmin_le_r.
Qed.

(** The contributions of an accepted policy's criteria are in the unit interval. *)
Lemma contributions_unit profile listing obs mts policy rid es :
  policy_ok mts policy -> Forall (fun kv => observation_unit kv.2) obs ->
  Forall2 (evaluation_of profile listing obs rid) (criteria policy) es ->
  Forall (fun e => unit_float (ce_score e) /\ unit_float (ce_confidence e)
                   /\ unit_float (ce_contribution e)) es.
Proof.
  intros [_ _ _ _ Hcs _ _ _] Hobs Hes. induction Hes as [|c e cs es He Hes IH]; [constructor|].
  apply Forall_cons in Hcs as [Hc Hcs]. constructor; [|by apply IH].
  destruct He as (r & refs & Hr & _ & _ & _ & -> & -> & _ & -> & _).
  apply evaluate_criterion_unit in Hr as [Hs Hf]; [|done]. repeat split; [done..|].
  apply fround_unit; [lia|]. apply unit_mul; [|done]. apply in_frange_unit. by destruct Hc.
Qed.

Lemma policy_deltas_finite mts policy : policy_ok mts policy ->
  Forall (fun b => finite (bp_delta b)) (bonuses policy ++ penalties policy).
Proof.
  intros Hok. eapply Forall_impl; [exact (ok_deltas _ _ Hok)|]. intros b [_ Hb].
  assert (finite max_delta) as [x Hx] by (apply unit_finite, flit_between; lia).
  eapply in_frange_finite; [| |exact Hb]; rewrite Hx; by eexists.
Qed.

(** ** The order of the candidates *)

Lemma fneg_not_nan a : nan (fneg a) = nan a.
Proof. by destruct a. Qed.

Lemma fltb_fneg a b : fltb (fneg a) (fneg b) = fltb b a.
Proof.
  destruct a as [|[]|x], b as [|[]|y]; try done. simpl fneg.
  destruct (fltb (FFin y) (FFin x)) eqn:E.
  - apply fltb_fin in E. apply fltb_fin. lra.
  - apply fltb_fin_false in E. apply fltb_fin_false. lra.
Qed.

Definition id_ltb {A} (id_of : A -> Z) (a b : A) : bool :=
  str_ltb (uuid_str (id_of a)) (uuid_str (id_of b)).

Section ranking.
Context {A : Type} (score : A -> float) (cost : A -> float) (id_of : A -> Z).

(** [(-score, cost, str(id))] *)
Definition rank_ltb (a b : A) : bool :=
  lex_ltb (fun x => fneg (score x)) (lex_ltb cost (id_ltb id_of)) a b.

Definition numbers (a : A) : Prop := nan (score a) = false /\ nan (cost a) = false.

Lemma rank_sorted l : Forall numbers l -> StronglySorted (in_order rank_ltb) (sort_by rank_ltb l).
Proof.
  apply sort_by_sorted.
  - intros a b Ha Hb. apply (lex_asym _ _ numbers); [intros ? [? ?]; by rewrite fneg_not_nan| |done..].
    intros a' b' Ha' Hb'. apply (lex_asym _ _ numbers); [by intros ? []| |done..].
    intros ?? _ _. apply codes_ltb_asym.
  - intros a b c Ha Hb Hc. apply (lex_ntrans _ _ numbers); [intros ? [? ?]; by rewrite fneg_not_nan| |done..].
    intros a' b' c' Ha' Hb' Hc'. apply (lex_ntrans _ _ numbers); [by intros ? []| |done..].
    intros ??? _ _ _. apply codes_ltb_ntrans.
Qed.

(** What the order says: a better score first, then the lower cost, then the id. *)
Lemma rank_ltb_false a b : numbers a -> numbers b ->
  rank_ltb a b = false <->
  fltb (score b) (score a) = false
  /\ (fltb (score a) (score b) = false ->
      fltb (cost a) (cost b) = false
      /\ (fltb (cost b) (cost a) = false -> id_ltb id_of a b = false)).
Proof.
  intros Ha Hb. unfold rank_ltb.
  rewrite (lex_ltb_false _ _ numbers); [|intros ? [? ?]; by rewrite fneg_not_nan|done..].
  rewrite (lex_ltb_false _ _ numbers); [|by intros ? []|done..].
  by rewrite !fltb_fneg.
Qed.

(** A list in rank order has no better score after a worse one. *)
Lemma rank_sorted_scores l : Forall numbers l -> StronglySorted (in_order rank_ltb) l ->
  StronglySorted (fun a b => fltb (score a) (score b) = false) l.
Proof.
  intros Hn Hs. induction Hs as [|a l Hs IH Ha]; [constructor|].
  apply Forall_cons in Hn as [Hna Hnl]. constructor; [by apply IH|].
  rewrite Forall_forall in Ha, Hnl |- *. intros b Hb.
  by apply (proj1 (rank_ltb_false b a (Hnl b Hb) Hna)), Ha.
Qed.
End ranking.
