(* ===== verification/ScoringTheorems.v ===== *)
(** * What scoring guarantees

    The properties of the scoring engine, its policies, its evaluators and the
    explanations and comparisons built from its evaluations. *)

From Stdlib Require Import QArith Qround Lqa.
From S2P Require Export ScoringFacts Database.
#[local] Open Scope Z_scope.
#[local] Open Scope list_scope.

(** ** A sample policy and a run of it *)

Definition sample_matcher_types : MatcherTypesSpec :=
  MkMatcherTypesSpec "1" "v1"
    (map (fun '(n, ps) => (n, MkMatcherTypeSpec n ps))
       [("numeric_range", ["min"; "max"; "unit"]); ("categorical", ["allowed_values"]);
        ("geo_proximity", ["radius_m"]); ("semantic_feature", ["concept"; "threshold"])]).

Definition raw_criterion (key matcher_type : string) (weight : float) (params : odict string pyval)
    (gate : pyval) : pyval :=
  VDict [("key", VStr key); ("concept", VStr key); ("matcher_type", VStr matcher_type);
         ("weight", VFloat weight); ("params", VDict params); ("gate", gate)].

Definition raw_delta (criterion state : string) (delta : float) : pyval :=
  VDict [("criterion", VStr criterion); ("state", VStr state); ("delta", VFloat delta)].

(** A policy of three criteria: a budget, a balcony whose mismatch caps the score, and
    a light score that excludes the listing; bonuses and penalties as in the seed. *)
Definition sample_document : odict string pyval :=
  [("contract_version", VStr "1"); ("score_policy_version", VStr "scoring-policy-v1");
   ("normalization", VStr "weighted_sum"); ("score_round", VInt 4);
   ("criteria", VList
      [raw_criterion "presupuesto" "numeric_range" (flit 1 2) [("min", VInt 0)] VNone;
       raw_criterion "balcon" "categorical" (flit 1 4) [("allowed_values", VList [VStr "si"])]
         (VStr "cap_0.6_on_mismatch");
       raw_criterion "luminosidad" "semantic_feature" (flit 1 4) [("threshold", VFloat (flit 1 2))]
         (VStr "exclude_on_mismatch")]);
   ("bonuses", VList [raw_delta "balcon" "match" (flit 3 100)]);
   ("penalties", VList [raw_delta "presupuesto" "mismatch" (flit 1 10)]);
   ("tie_break", VList [VStr "score"; VStr "total_cost_asc"; VStr "listing_id_asc"])].

Definition default_policy : ScoringPolicyDoc := MkScoringPolicyDoc "" "" "" 0 [] [] [] [] [].
Definition sample_policy : ScoringPolicyDoc :=
  match parse_policy_document sample_document sample_matcher_types with
  | Ok p => p
  | Raise _ => default_policy
  end.

Example sample_policy_parsed :
  parse_policy_document sample_document sample_matcher_types = Ok sample_policy.
Proof. vm_compute. reflexivity. Qed.

Definition sample_profile : SearchProfile :=
  MkSearchProfile 1 2 "depto" Rental ["Palermo"] (FFin 1000) None 0 None None ProfileActive [] 1 0 0
    None None 7 "user" None.

Definition sample_listing (id : Z) (cost : Z) : NormalizedListing :=
  MkNormalizedListing id 1 id 1 (MkSourceIdentity "portal" "1" "1") "x" None None 0 "silver-v1" Rental
    Apartment (FFin (inject_Z cost)) ARS None None (Some (FFin (inject_Z cost))) [] None None None
    None [] None "" (Some "Palermo") Exact None None [].

Definition sample_observation (lid : Z) (concept : string) (v : pyval) (score : float)
  : ListingObservation :=
  MkListingObservation (lid + 100) lid concept "categorical" v score f1 [] SourceRule None ObsActive
    None None 0 7 "system" None.

Definition sample_compilation : Compilation :=
  MkCompilation 5 1 6 1 [] [] [] 0 7 "system" None.

(** Listings 10 (cheap), 11 (dear) and 12 (too dark); 10 has no balcony. *)
Definition sample_listings : list NormalizedListing :=
  [sample_listing 10 400; sample_listing 11 900; sample_listing 12 500].
Definition sample_observations : observations_by_listing :=
  [(10, [("balcon", sample_observation 10 "balcon" (VStr "no") f0);
         ("luminosidad", sample_observation 10 "luminosidad" VNone (flit 9 10))]);
   (11, [("balcon", sample_observation 11 "balcon" (VStr "si") f1);
         ("luminosidad", sample_observation 11 "luminosidad" VNone f1)]);
   (12, [("luminosidad", sample_observation 12 "luminosidad" VNone f0)])].

Definition sample_world : world := World (fun n => 1000 + Z.of_nat n) (fun n => Z.of_nat n).

Definition sample_run : result (list ScoredCandidate) * sys unit :=
  score_candidates sample_profile sample_compilation sample_listings sample_observations
    sample_policy 3 7 0 sample_world (Sys tt 0 0).
Definition sample_scored : list ScoredCandidate :=
  match sample_run.1 with Ok cs => cs | Raise _ => [] end.

Example sample_run_scored :
  score_candidates sample_profile sample_compilation sample_listings sample_observations
    sample_policy 3 7 0 sample_world (Sys tt 0 0) = (Ok sample_scored, sample_run.2).
Proof. vm_compute. reflexivity. Qed.

Example sample_order : map cand_listing_id sample_scored = [11; 10].
Proof. vm_compute. reflexivity. Qed.

(** ** Ranking *)

(** The cost the policy breaks ties with: none unless it asks for the full order *)
Definition tie_cost (policy : ScoringPolicyDoc) (candidates : list NormalizedListing) (id : Z) : float :=
  if bool_decide (tie_break policy = ["score"; "total_cost_asc"; "listing_id_asc"])
  then _total_cost id candidates else f0.

Definition ranked (policy : ScoringPolicyDoc) (candidates : list NormalizedListing)
  : ScoredCandidate -> ScoredCandidate -> bool :=
  rank_ltb cand_score (fun c => tie_cost policy candidates (cand_listing_id c)) cand_listing_id.

Lemma sort_candidates_ranked policy candidates scored :
  sort_candidates policy candidates scored = sort_by (ranked policy candidates) scored.
Proof.
  unfold sort_candidates, ranked, rank_ltb, tie_cost.
  case_bool_decide; apply sort_by_ext; intros a b; unfold score_cost_ltb, score_ltb, lex_ltb, id_ltb.
  - done.
  - by replace (feqb f0 f0) with true by reflexivity.
Qed.

Lemma total_cost_not_nan id candidates :
  Forall (fun l => nan (cost_or_zero l) = false) candidates -> nan (_total_cost id candidates) = false.
Proof.
  intros Hc. unfold _total_cost. destruct (find_first _ _) as [l|] eqn:E; [|done].
  apply find_first_Some in E as [Hl _]. rewrite Forall_forall in Hc. by apply Hc.
Qed.

Lemma candidates_of_kept profile observations policy rid candidates cs :
  Forall2 (fun l => candidate_of profile (observations_for observations l) policy rid l)
    (List.filter (kept profile observations policy) candidates) cs ->
  map cand_listing_id cs = map listing_id (List.filter (kept profile observations policy) candidates).
Proof. induction 1 as [|l c ls cs (_ & _ & H & _) _ IH]; simpl; [done|]. by rewrite H, IH. Qed.

(** C35: A scored run lists exactly the candidates that no exclusion gate removes, each
    once, from the best score to the worst; equal scores are ordered by total cost when
    the policy asks for it, and then by listing id. *)
Theorem score_candidates_ranking {S} profile compilation candidates observations policy rid corr now
    w (s s' : sys S) cs :
  0 <= score_round policy ->
  Forall (fun l => nan (cost_or_zero l) = false) candidates ->
  score_candidates profile compilation candidates observations policy rid corr now w s = (Ok cs, s') ->
  Permutation (map cand_listing_id cs)
    (map listing_id (List.filter (kept profile observations policy) candidates))
  /\ StronglySorted (fun a b => ranked policy candidates b a = false) cs
  /\ StronglySorted (fun a b => fltb (cand_score a) (cand_score b) = false) cs.
Proof.
  intros Hr Hc H. unfold score_candidates in H. inv_bind. injection H as <- <-.
  apply score_all_Ok in H0. rewrite sort_candidates_ranked.
  assert (Hn : Forall (numbers cand_score (fun c => tie_cost policy candidates (cand_listing_id c))) x).
  { apply Forall_forall. intros c Hin. apply list_elem_of_lookup in Hin as [i Hi].
    destruct (Forall2_lookup_r _ _ _ _ _ H0 Hi) as (l & _ & (_ & _ & _ & Hs & _)).
    split.
    - rewrite Hs. by apply unit_not_nan, total_score_unit.
    - unfold tie_cost. case_bool_decide; [by apply total_cost_not_nan|done]. }
  split; [|split].
  - apply candidates_of_kept in H0. rewrite <- H0. by rewrite sort_by_perm.
  - by apply rank_sorted.
  - eapply rank_sorted_scores; [|by apply (rank_sorted _ _ cand_listing_id), Hn].
    by rewrite sort_by_perm.
Qed.

Lemma score_candidates_ranking_witness :
  0 <= score_round sample_policy
  /\ map cand_listing_id sample_scored = [11; 10]
  /\ Permutation (map cand_listing_id sample_scored)
       (map listing_id (List.filter (kept sample_profile sample_observations sample_policy) sample_listings)).
Proof.
  split; [vm_compute; discriminate|]. split; [exact sample_order|].
  refine (proj1 (score_candidates_ranking _ _ _ _ _ _ _ _ _ _ _ _ _ _ sample_run_scored)).
  - vm_compute. discriminate.
  - repeat constructor.
Defined.

(** ** Scores *)

Definition observations_unit (observations : observations_by_listing) : Prop :=
  Forall (fun kv => Forall (fun o => observation_unit o.2) kv.2) observations.

Lemma observations_for_unit observations l :
  observations_unit observations ->
  Forall (fun o => observation_unit o.2) (observations_for observations l).
Proof.
  intros H. unfold observations_for. destruct (oget _ _) as [o|] eqn:E; [|constructor].
  apply oget_Some_elem in E. by apply (proj1 (Forall_forall _ _) H) in E.
Qed.

Lemma run_confidence_nonneg es policy c : _run_confidence es policy = Ok c -> nonneg c.
Proof.
  unfold _run_confidence. destruct es; intros H.
  - by injection H as <-.
  - inv_bind. injection H as <-. apply nonneg_fround, nonneg_fmax_0.
Qed.

Lemma candidate_numbers profile observations mts policy rid l c :
  policy_ok mts policy -> observations_unit observations ->
  candidate_of profile (observations_for observations l) policy rid l c ->
  unit_float (cand_score c) /\ nonneg (cand_confidence c)
  /\ (gated policy (cand_evaluations c) = true -> fleb (cand_score c) gate_cap = true)
  /\ Forall (fun e => evaluation_check e = true) (cand_evaluations c).
Proof.
  intros Hok Hobs (_ & Hes & _ & Hscore & Hconf & _).
  pose proof (contributions_unit _ _ _ _ _ _ _ Hok (observations_for_unit _ l Hobs) Hes) as Hu.
  pose proof (ok_round _ _ Hok) as Hr.
  rewrite Hscore. split; [apply total_score_unit; lia|].
  split; [by eapply run_confidence_nonneg|]. split.
  - intros Hg. apply total_score_capped; [done| |done].
    apply apply_deltas_not_nan; [|by eapply policy_deltas_finite].
    apply foldl_fadd_not_nan; [done|]. apply Forall_fmap.
    eapply Forall_impl; [exact Hu|]. intros e (_ & _ & He). by apply unit_finite.
  - eapply Forall_impl; [exact Hu|]. intros e (Hs & Hc & _).
    unfold evaluation_check. apply andb_true_iff. by rewrite !in_frange_unit.
Qed.

(** C36: Under an accepted policy, every candidate's score is a number between 0 and 1,
    at most 0.6 when a cap gate of the policy is hit, its confidence is not negative, and
    every evaluation satisfies the CHECK constraints of the table it is stored in. *)
Theorem score_candidates_bounds {S} data mts policy profile compilation candidates observations rid
    corr now w (s s' : sys S) cs :
  parse_policy_document data mts = Ok policy ->
  observations_unit observations ->
  score_candidates profile compilation candidates observations policy rid corr now w s = (Ok cs, s') ->
  Forall (fun c =>
    unit_float (cand_score c) /\ nonneg (cand_confidence c)
    /\ (gated policy (cand_evaluations c) = true -> fleb (cand_score c) gate_cap = true)
    /\ Forall (fun e => evaluation_check e = true) (cand_evaluations c)) cs.
Proof.
  intros Hok%parse_policy_ok Hobs H. unfold score_candidates in H. inv_bind. injection H as <- <-.
  apply score_all_Ok in H0. rewrite sort_candidates_ranked, sort_by_perm.
  apply Forall_forall. intros c Hin. apply list_elem_of_lookup in Hin as [i Hi].
  destruct (Forall2_lookup_r _ _ _ _ _ H0 Hi) as (l & _ & Hc).
  by eapply candidate_numbers.
Qed.

Lemma sample_observations_unit : observations_unit sample_observations.
Proof.
  repeat (constructor; simpl);
    first [apply f0_between | apply f1_between | apply flit_between; lia].
Qed.

(** Listing 10, without a balcony, is capped. *)
Lemma score_candidates_bounds_witness :
  map (fun c => (cand_listing_id c, gated sample_policy (cand_evaluations c))) sample_scored
  = [(11, false); (10, true)]
  /\ Forall (fun c => unit_float (cand_score c)) sample_scored.
Proof.
  split; [vm_compute; reflexivity|].
  pose proof (score_candidates_bounds _ _ _ _ _ _ _ _ _ _ _ _ _ _ sample_policy_parsed
                sample_observations_unit sample_run_scored) as H.
  eapply Forall_impl; [exact H|]. by intros c [? _].
Defined.



(** The adjustment's criterion was evaluated, and is in the adjustment's state. *)
Definition applies (es : list CriterionEvaluation) (b : PolicyBonusPenalty) : bool :=
  match oget (bp_criterion b) (by_criterion_key es) with
  | Some e => bool_decide (ce_state e = bp_state b)
  | None => false
  end.

(** One step of [_apply_deltas] *)
Definition adjust (es : list CriterionEvaluation) (base : float) (b : PolicyBonusPenalty) : float :=
  if applies es b then fadd base (bp_delta b) else base.

Lemma apply_deltas_adjust base policy es :
  _apply_deltas base policy es = foldl (adjust es) base (bonuses policy ++ penalties policy).
Proof.
  unfold _apply_deltas. generalize (bonuses policy ++ penalties policy). intros l. revert base.
  induction l as [|b l IH]; intros base; [done|]. simpl. rewrite IH. f_equal.
  unfold adjust, applies. by destruct (oget _ _).
Qed.

Lemma adjust_none base es bs :
  Forall (fun b => applies es b = false) bs -> foldl (adjust es) base bs = base.
Proof.
  induction bs as [|b bs IH]; [done|]. intros [Hb H]%Forall_cons. simpl.
  unfold adjust at 2. rewrite Hb. by apply IH.
Qed.

(** Adding at least 1/32 to a number of the unit interval makes it larger. *)
Lemma fadd_grows base d : unit_float base -> (1 # 32 <= d)%Q -> (d <= 1)%Q ->
  fltb base (fadd base (FFin d)) = true.
Proof.
  intros (x & -> & H1 & H2) Hd1 Hd2. change (inject_Z 0) with 0%Q in H1.
  change (inject_Z 1) with 1%Q in H2. simpl.
  set (k := Qfloor (x * 32) + 1).
  pose proof (Qfloor_le (x * 32)) as Hf. pose proof (Qlt_floor (x * 32)) as Hf'.
  fold k in Hf'. assert (Hk : (inject_Z k == inject_Z (Qfloor (x * 32)) + 1)%Q).
  { unfold k. rewrite inject_Z_plus. done. }
  assert (Hkz : 0 <= k <= 33).
  { rewrite !Zle_Qle. change (inject_Z 0) with 0%Q. change (inject_Z 33) with 33%Q. split; lra. }
  assert (Hrep : representable (inject_Z k * pow2 (-5))) by (apply representable_grid; lia).
  assert (E : (inject_Z k * pow2 (-5) == inject_Z k / 32)%Q) by (change (pow2 (-5)) with (1 # 32)%Q; unfold Qdiv; reflexivity).
  assert (Hm : fleb (rnd (inject_Z k * pow2 (-5))) (rnd (x + d)) = true).
  { apply rnd_mono. rewrite E. unfold Qdiv. change (/ 32)%Q with (1 # 32)%Q. lra. }
  assert (Hl : fltb (FFin x) (rnd (inject_Z k * pow2 (-5))) = true).
  { destruct (rnd_between 0 2 (inject_Z k * pow2 (-5))) as (r & Hr & _);
      [apply exact_small; lia..| |].
    - rewrite E. rewrite !Zle_Qle in Hkz. unfold Qdiv. change (/ 32)%Q with (1 # 32)%Q.
      change (inject_Z 0) with 0%Q in *. change (inject_Z 2) with 2%Q.
      change (inject_Z 33) with 33%Q in *. lra.
    - rewrite Hr. apply fltb_fin. assert (Er : (r == inject_Z k * pow2 (-5))%Q).
      { unfold representable in Hrep. unfold rnd in Hr.
        destruct (Qle_bool _ _); [done|]. destruct (Qle_bool _ _); [done|]. injection Hr as <-. done. }
      rewrite Er, E. unfold Qdiv. change (/ 32)%Q with (1 # 32)%Q. lra. }
  destruct (fltb (FFin x) (rnd (x + d))) eqn:Hc; [done|].
  assert (Hxd : fltb (FFin x) (rnd (inject_Z k * pow2 (-5))) = false).
  { apply (fltb_ntrans _ (rnd (x + d))); [done|apply rnd_not_nan..|done|].
    rewrite fleb_fltb in Hm by apply rnd_not_nan. by apply negb_true_iff in Hm. }
  congruence.
Qed.

(** A penalty of a policy may be positive, as the seed document's is: such a policy
    is accepted, and the penalty then raises the total of every listing it applies to
    (and to which no bonus applies). *)
Theorem penalty_can_reward :
  exists policy penalty,
    parse_policy_document sample_document sample_matcher_types = Ok policy
    /\ penalties policy = [penalty]
    /\ forall base es,
        unit_float base -> applies es penalty = true ->
        Forall (fun b => applies es b = false) (bonuses policy) ->
        fltb base (_apply_deltas base policy es) = true.
Proof.
  exists sample_policy, (MkPolicyBonusPenalty "presupuesto" Mismatch (flit 1 10)).
  split; [apply sample_policy_parsed|]. split; [vm_compute; reflexivity|].
  intros base es Hb Ha Hn. rewrite apply_deltas_adjust, foldl_app, (adjust_none base es (bonuses sample_policy)) by exact Hn.
  change (penalties sample_policy) with [MkPolicyBonusPenalty "presupuesto" Mismatch (flit 1 10)].
  cbn [foldl]. unfold adjust. rewrite Ha. simpl bp_delta.
  assert (exists d, flit 1 10 = FFin d /\ (1 # 32 <= d <= 1)%Q) as (d & -> & Hd1 & Hd2).
  { eexists. split; [vm_compute; reflexivity|]. split; discriminate. }
  by apply fadd_grows.
Qed.

(** ** Evaluators *)

(** The listing, or its observations, lack what the criterion needs. *)
Definition missing_data (profile : SearchProfile) (c : PolicyCriterion) (l : NormalizedListing)
    (obs : observations_by_concept) : bool :=
  if bool_decide (pc_key c = "presupuesto") then negb (bool_decide (is_Some (total_cost l)))
  else if bool_decide (pc_key c = "ambientes")
  then negb (min_rooms profile =? 0) && negb (bool_decide (is_Some (rooms l)))
  else if bool_decide (pc_key c = "superficie")
  then (bool_decide (is_Some (surface_min profile)) || bool_decide (is_Some (surface_max profile)))
       && negb (bool_decide (is_Some (surface_m2 l)))
  else if bool_decide (pc_key c = "ubicacion") then negb (bool_decide (is_Some (neighborhood l)))
  else negb (bool_decide (is_Some (oget (pc_concept c) obs))).

Lemma missing_None {A} (x : option A) : negb (bool_decide (is_Some x)) = true -> x = None.
Proof. intros H%negb_true_iff%bool_decide_eq_false. by apply eq_None_not_Some. Qed.

(** A criterion whose data is missing evaluates to unknown with no confidence, never
    to a mismatch, but for the location: a listing without a neighbourhood is a mismatch
    scored 0.3. *)
Theorem missing_data_state profile c l obs :
  missing_data profile c l obs = true ->
  exists r refs, _evaluate_criterion c profile l obs = Ok (r, refs)
    /\ if bool_decide (pc_key c = "ubicacion")
       then res_state r = Mismatch /\ res_score r = flit 3 10
       else res_state r = Unknown /\ res_confidence r = f0.
Proof.
  unfold missing_data, _evaluate_criterion, is_fixed_criterion, evaluate_fixed_criterion. intros H.
  destruct (bool_decide (pc_key c = "presupuesto")) eqn:E1;
    [apply bool_decide_eq_true in E1; rewrite E1; apply missing_None in H; rewrite H; by do 2 eexists|].
  destruct (bool_decide (pc_key c = "ambientes")) eqn:E2.
  { apply bool_decide_eq_true in E2. rewrite E2. apply andb_true_iff in H as [Hm H%missing_None].
    apply negb_true_iff in Hm. unfold evaluate_rooms. rewrite H, Hm. by do 2 eexists. }
  destruct (bool_decide (pc_key c = "superficie")) eqn:E3.
  { apply bool_decide_eq_true in E3. rewrite E3. apply andb_true_iff in H as [Hb H%missing_None].
    unfold evaluate_surface. rewrite H.
    destruct (surface_min profile), (surface_max profile); try done; by do 2 eexists. }
  destruct (bool_decide (pc_key c = "ubicacion")) eqn:E4.
  { apply bool_decide_eq_true in E4. rewrite E4. apply missing_None in H.
    unfold evaluate_location. rewrite H. by do 2 eexists. }
  apply missing_None in H. rewrite H.
  apply bool_decide_eq_false in E1, E2, E3, E4.
  rewrite bool_decide_eq_false_2 by (unfold FIXED_CRITERIA_KEYS; set_solver).
  by do 2 eexists.
Qed.

Definition location_criterion : PolicyCriterion :=
  MkPolicyCriterion "ubicacion" "ubicacion" "geo_proximity" f1 [] VNone.
Definition nowhere : NormalizedListing :=
  MkNormalizedListing 9 1 9 1 (MkSourceIdentity "portal" "1" "1") "x" None None 0 "silver-v1" Rental
    Apartment f1 ARS None None (Some f1) [] None None None None [] None "" None Exact None None [].

Lemma missing_data_state_witness :
  missing_data sample_profile location_criterion nowhere [] = true
  /\ exists r refs, _evaluate_criterion location_criterion sample_profile nowhere [] = Ok (r, refs)
       /\ res_state r = Mismatch /\ res_score r = flit 3 10.
Proof.
  split; [reflexivity|].
  exact (missing_data_state sample_profile location_criterion nowhere [] eq_refl).
Defined.

Lemma evaluate_budget_over b c : (0 < b)%Q -> (b < c)%Q ->
  evaluate_budget (FFin b) (Some (FFin c)) = Ok (MkEvaluationResult f0 f1 Mismatch "budget_over_max").
Proof.
  intros Hb Hc. unfold evaluate_budget, f0.
  destruct (fleb (FFin b) (FFin 0)) eqn:E; [apply fleb_fin in E; exfalso; lra|].
  by apply fltb_fin in Hc as ->.
Qed.

Lemma evaluate_budget_within b c r : (0 < b)%Q -> (c <= b)%Q ->
  evaluate_budget (FFin b) (Some (FFin c)) = Ok r ->
  exists ratio, fdiv (fsub (FFin b) (FFin c)) (FFin b) = Ok ratio
    /\ res_score r = fround (fmax (FFin 0) (fmin (FFin 1) ratio)) 4.
Proof.
  intros Hb Hc. unfold evaluate_budget, f0.
  destruct (fleb (FFin b) (FFin 0)) eqn:E; [apply fleb_fin in E; exfalso; lra|].
  apply fltb_fin_false in Hc as ->. intros H. inv_bind. injection H as <-. by eexists.
Qed.

(** A dearer listing never gets a better budget score than a cheaper one. *)
Theorem budget_score_antitone b c1 c2 r1 r2 :
  (0 < b)%Q -> (c1 <= c2)%Q ->
  evaluate_budget (FFin b) (Some (FFin c1)) = Ok r1 ->
  evaluate_budget (FFin b) (Some (FFin c2)) = Ok r2 ->
  fleb (res_score r2) (res_score r1) = true.
Proof.
  intros Hb Hc H1 H2. destruct (Qlt_le_dec b c2) as [H|Hc2].
  - apply evaluate_budget_unit in H1 as [(x & Hx & H0 & _) _]. rewrite Hx.
    rewrite evaluate_budget_over in H2 by done. injection H2 as <-. simpl. by apply fleb_fin.
  - apply evaluate_budget_within in H1 as (x1 & Hx1 & ->); [|done|lra].
    apply evaluate_budget_within in H2 as (x2 & Hx2 & ->); [|done..].
    apply fround_mono.
    pose proof (fun Hle => fdiv_mono_pos _ _ b x2 x1 Hb (rnd_not_nan _) (rnd_not_nan _) Hle Hx2 Hx1)
      as Hmono.
    destruct Hmono as (Hle & Hn2 & Hn1); [by apply fsub_antimono, fleb_fin|].
    apply fmax_mono_r; auto using fmin_not_nan. by apply fmin_mono_r.
Qed.

Lemma budget_score_antitone_witness :
  (0 < 1000)%Q /\ (400 <= 900)%Q
  /\ exists r1 r2, evaluate_budget (FFin 1000) (Some (FFin 400)) = Ok r1
       /\ evaluate_budget (FFin 1000) (Some (FFin 900)) = Ok r2
       /\ fleb (res_score r2) (res_score r1) = true.
Proof.
  split; [reflexivity|]. split; [discriminate|].
  eexists. eexists. split; [reflexivity|]. split; [reflexivity|].
  apply (budget_score_antitone 1000 400 900); [reflexivity|discriminate|reflexivity|reflexivity].
Defined.

(** ** Explanations and comparisons *)

Definition is_unknown (e : CriterionEvaluation) : bool := bool_decide (ce_state e = Unknown).
(** The evaluations an explanation flags as risks *)
Definition risky (policy : ScoringPolicyDoc) (e : CriterionEvaluation) : bool :=
  is_unknown e || fltb (ce_confidence e) (confidence_get "medium_threshold" half policy).

Lemma explain_all_spec policy templates es reasons risks missing :
  foldl (explain_one policy templates) (reasons, risks, missing) es
  = (reasons ++ map (reason_of policy templates) (List.filter (fun e => negb (is_unknown e)) es),
     risks ++ map (risk_of templates) (List.filter (risky policy) es),
     missing ++ map ce_criterion_key (List.filter is_unknown es)).
Proof.
  revert reasons risks missing. induction es as [|e es IH]; intros reasons risks missing.
  - simpl. by rewrite !app_nil_r.
  - cbn [foldl List.filter]. unfold explain_one at 2.
    change (bool_decide (ce_state e = Unknown)) with (is_unknown e). unfold risky at 1.
    destruct (is_unknown e); simpl; [|destruct (fltb _ _)]; rewrite IH; by rewrite <- ?app_assoc.
Qed.

Lemma length_filter_split {A} (f : A -> bool) l :
  (length (List.filter (fun x => negb (f x)) l) + length (List.filter f l))%nat = length l.
Proof. induction l as [|x l IH]; [done|]. simpl. destruct (f x); simpl; lia. Qed.

Definition risk_identity (r : ExplanationRisk) : string * EvaluationState :=
  (risk_criterion_key r, risk_state r).

Lemma dedupe_risks_spec seen risks :
  NoDup (map risk_identity (dedupe_risks_from seen risks))
  /\ (forall i, i ∈ map risk_identity (dedupe_risks_from seen risks)
                <-> i ∈ map risk_identity risks /\ i ∉ seen)
  /\ sublist (dedupe_risks_from seen risks) risks.
Proof.
  revert seen. induction risks as [|r rs IH]; intros seen; simpl.
  - split; [constructor|]. split; [set_solver|constructor].
  - fold (risk_identity r). case_bool_decide as Hin.
    + destruct (IH seen) as (Hn & Hi & Hs). split; [done|]. split; [|by constructor].
      intros i. rewrite Hi. set_solver.
    + destruct (IH (risk_identity r :: seen)) as (Hn & Hi & Hs). simpl. split; [|split].
      * constructor; [|done]. rewrite Hi. set_solver.
      * intros i. rewrite !elem_of_cons, Hi, elem_of_cons.
        destruct (decide (i = risk_identity r)); naive_solver.
      * by constructor.
Qed.

(** An explanation splits the evaluations: those with a known state become reasons,
    in order, and the unknown ones missing data; the risks are, once per criterion and
    state, the evaluations that are unknown or below the medium confidence threshold. *)
Theorem explanation_partitions pid rid lid score conf es policy templates filters vid :
  let e := build_explanation pid rid lid score conf es policy templates filters vid in
  exp_reasons e = map (reason_of policy templates) (List.filter (fun e => negb (is_unknown e)) es)
  /\ exp_missing_data e = map ce_criterion_key (List.filter is_unknown es)
  /\ (length (exp_reasons e) + length (exp_missing_data e))%nat = length es
  /\ NoDup (map risk_identity (exp_risks e))
  /\ (forall i, i ∈ map risk_identity (exp_risks e)
      <-> exists ev, ev ∈ es /\ risky policy ev = true /\ i = (ce_criterion_key ev, ce_state ev))
  /\ exp_score_version e = score_policy_version policy.
Proof.
  cbv zeta. unfold build_explanation. rewrite explain_all_spec. simpl.
  destruct (dedupe_risks_spec [] (map (risk_of templates) (List.filter (risky policy) es))) as (Hn & Hi & _).
  split; [done|]. split; [done|]. split; [|split; [done|split; [|done]]].
  - rewrite !length_map. apply length_filter_split.
  - intros i. unfold _dedupe_risks. rewrite Hi. rewrite list_elem_of_fmap. split.
    + intros [(r & -> & Hr) _]. apply list_elem_of_fmap in Hr as (ev & -> & Hev).
      apply list_elem_of_In, filter_In in Hev as [Hev Hr]. apply list_elem_of_In in Hev. by exists ev.
    + intros (ev & Hev & Hr & ->). split; [|set_solver]. exists (risk_of templates ev).
      split; [done|]. apply list_elem_of_fmap_2, list_elem_of_In, filter_In.
      by rewrite <- list_elem_of_In.
Qed.

(** A matrix by rows *)
Lemma length_matrix {A B C} (f : A -> B -> C) rows cols :
  length (flat_map (fun a => map (f a) cols) rows) = (length rows * length cols)%nat.
Proof. induction rows as [|a rows IH]; [done|]. simpl. by rewrite length_app, length_map, IH. Qed.

Lemma lookup_matrix {A B C} (f : A -> B -> C) rows cols i j a b :
  rows !! i = Some a -> cols !! j = Some b ->
  flat_map (fun a => map (f a) cols) rows !! (i * length cols + j)%nat = Some (f a b).
Proof.
  revert i. induction rows as [|r rows IH]; intros i Hi Hj; [done|].
  destruct i as [|i]; simpl in *.
  - injection Hi as ->. rewrite lookup_app_l.
    + by rewrite list_lookup_fmap, Hj.
    + rewrite length_map. by apply lookup_lt_Some in Hj.
  - rewrite lookup_app_r by (rewrite length_map; lia). rewrite length_map.
    replace (length cols + i * length cols + j - length cols)%nat with (i * length cols + j)%nat by lia.
    by apply IH.
Qed.

(** A comparison is a full matrix: one cell per item and dimension, in that order,
    the fixed dimensions first and then one per criterion of the policy that is not
    fixed; a cell of a criterion is missing exactly when the listing has no evaluation
    of it. *)
Theorem comparison_is_matrix profile rid version limit items listings evaluations policy i j item d :
  let c := build_comparison profile rid version limit items listings evaluations policy in
  items !! i = Some item -> cmp_dimensions c !! j = Some d ->
  length (cmp_cells c) = (length items * length (cmp_dimensions c))%nat
  /\ exists cell, cmp_cells c !! (i * length (cmp_dimensions c) + j)%nat = Some cell
     /\ cell_listing_id cell = item_listing_id item /\ cell_dimension_key cell = dim_key d
     /\ (dim_kind d = CriterionDimension ->
         cell_missing cell = true <->
         oget (dim_key d) (default [] (oget (item_listing_id item) evaluations)) = None)
     /\ (cell_missing cell = true -> cell_state cell = Unknown).
Proof.
  cbv zeta. unfold build_comparison. cbn [cmp_cells cmp_dimensions].
  set (dims := comparison_dimensions policy). intros Hi Hj.
  split; [apply length_matrix|]. eexists. split; [by apply lookup_matrix|].
  unfold _cell. destruct (bool_decide (dim_kind d = CriterionDimension)) eqn:Hk.
  - destruct (oget (dim_key d) _); simpl; by split_and!.
  - apply bool_decide_eq_false in Hk. split; [by repeat case_match|]. split; [by repeat case_match|].
    split; [done|]. repeat (case_match; simpl; try done).
Qed.

Definition sample_items : list RecommendationItem :=
  [MkRecommendationItem 1 3 10 f1 0 []; MkRecommendationItem 2 3 11 f1 1 []].

(** Column 7 is the first criterion that is not fixed, which listing 10 lacks. *)
Lemma comparison_is_matrix_witness :
  let c := build_comparison sample_profile 3 "v1" 4 sample_items [] [] sample_policy in
  let d := MkComparisonDimension CriterionDimension "balcon" "balcon" (Some "balcon") in
  length (cmp_dimensions c) = 9%nat
  /\ exists cell, cmp_cells c !! 16%nat = Some cell
       /\ (dim_kind d = CriterionDimension ->
           cell_missing cell = true <-> oget (dim_key d) (@nil (string * CriterionEvaluation)) = None).
Proof.
  split; [vm_compute; reflexivity|].
  destruct (comparison_is_matrix sample_profile 3 "v1" 4 sample_items [] [] sample_policy 1 7
              (MkRecommendationItem 2 3 11 f1 1 [])
              (MkComparisonDimension CriterionDimension "balcon" "balcon" (Some "balcon")))
    as [_ (cell & Hc & _ & _ & Hm & _)]; [vm_compute; reflexivity..|].
  exists cell. split; [exact Hc|exact Hm].
Defined.
