(* ===== verification/RadarInvariant.v ===== *)
(** * The radar database invariant

    Every table holds rows that satisfy its CHECK constraints and clash with no other
    row on a unique key; every method of the radar service preserves this.  A method
    is shown to preserve an invariant by the rules of [preserves], one per construct. *)

From S2P Require Export RadarService ScoringService.
#[local] Open Scope list_scope.

(** ** Tables *)

(** The replacement of the row with a given id by one with new keys *)
Lemma replace_ok {A} (id_of : A -> Z) (clash : A -> A -> bool) check id (row : A) t :
  (forall a b, clash a b = clash b a) ->
  (forall a b, id_of a = id_of b -> clash a b = true) ->
  id_of row = id -> check row = true ->
  Forall (fun r => clash row r = false) (others id_of id t) ->
  table_ok clash check t -> table_ok clash check (update_by id_of id (fun _ => row) t).
Proof.
  intros Hsym Hid Hrow Hcheck Hothers [Hs Hc]. unfold update_by. split.
  - clear Hc. induction Hs as [|a t Hs IH Ha]; simpl; [constructor|].
    unfold others in Hothers. simpl in Hothers.
    assert (Hrest : Forall (fun r => clash row r = false) (others id_of id t)).
    { unfold others. destruct (negb _); [by apply Forall_cons in Hothers as [_ ?]|done]. }
    constructor; [by apply IH|]. apply Forall_map. rewrite Forall_forall in Ha |- *.
    intros b Hb. specialize (Ha b Hb). destruct (Z.eqb_spec (id_of a) id) as [Ea|Ea], (Z.eqb_spec (id_of b) id) as [Eb|Eb].
    + rewrite Hid in Ha by congruence. done.
    + rewrite Hsym. rewrite Forall_forall in Hrest. apply Hrest.
      unfold others. apply list_elem_of_In, filter_In. rewrite <- list_elem_of_In.
      split; [done|]. by apply negb_true_iff, Z.eqb_neq.
    + apply Forall_cons in Hothers as [Hra _]. done.
    + done.
  - apply Forall_map. rewrite Forall_forall in Hc |- *. intros a Ha. case_match; auto.
Qed.

(** ** The invariant *)

Record db_inv (d : db) : Prop := {
  inv_profiles : table_ok profile_clash profile_check (t_profiles d);
  inv_versions : table_ok version_clash version_check (t_versions d);
  inv_runs : table_ok run_clash run_check (t_runs d);
  inv_items : table_ok item_clash item_check (t_items d);
  inv_events : table_ok event_clash event_check (t_events d);
  inv_evaluations : table_ok evaluation_clash evaluation_check (t_evaluations d)
}.

Lemma db_inv_empty : db_inv empty_db.
Proof. split; apply table_ok_nil. Qed.

Lemma profile_clash_sym a b : profile_clash a b = profile_clash b a.
Proof.
  unfold profile_clash. rewrite (Z.eqb_sym (profile_id a)), (Z.eqb_sym (owner_id a)).
  do 2 f_equal. apply bool_decide_ext. naive_solver.
Qed.

Section repo.
Context `{NumericColumns}.

Lemma profile_insert_inv p d : db_inv d -> db_inv (profile_insert p d).2.
Proof.
  intros []. unfold profile_insert. destruct (insert_row _ _ _ _) eqn:E; [|done].
  split; try done. by eapply insert_row_ok.
Qed.

Lemma version_insert_inv v d : db_inv d -> db_inv (version_insert v d).2.
Proof.
  intros []. unfold version_insert. destruct (insert_row _ _ _ _) eqn:E; [|done].
  split; try done. by eapply insert_row_ok.
Qed.

Lemma run_insert_inv r d : db_inv d -> db_inv (run_insert r d).2.
Proof.
  intros []. unfold run_insert. destruct (insert_row _ _ _ _) eqn:E; [|done].
  split; try done. by eapply insert_row_ok.
Qed.

Lemma event_insert_inv e d : db_inv d -> db_inv (event_insert e d).2.
Proof.
  intros []. unfold event_insert. destruct (insert_row _ _ _ _) eqn:E; [|done].
  split; try done. by eapply insert_row_ok.
Qed.

Lemma profile_save_inv p d : db_inv d -> db_inv (profile_save p d).2.
Proof.
  intros []. unfold profile_save. destruct (profile_get _ _) as [r|] eqn:Hr; [|done].
  destruct (negb _); [done|]. destruct (profile_unchanged _ _); [done|].
  destruct (existsb _ _ || _) eqn:E; [done|]. apply orb_false_iff in E as [Hc Hk].
  apply get_by_Some in Hr as [_ Hid]. split; try done. simpl.
  apply replace_ok; [apply profile_clash_sym| |done|by apply negb_false_iff| |done].
  - intros a b Hab. unfold profile_clash. by rewrite Hab, Z.eqb_refl.
  - by apply existsb_false_Forall.
Qed.

(** Runs keep their keys when they are published or failed. *)
Lemma run_update_inv id (f : RecommendationRun -> RecommendationRun) d r :
  run_get id d = Some r ->
  run_id (f r) = run_id r -> run_profile_id (f r) = run_profile_id r ->
  run_profile_version_id (f r) = run_profile_version_id r -> run_trigger (f r) = run_trigger r ->
  run_check (f r) = true ->
  table_ok run_clash run_check (t_runs d) ->
  table_ok run_clash run_check (update_by run_id id (fun _ => f r) (t_runs d)).
Proof.
  intros [Hin Hid]%get_by_Some E1 E2 E3 E4 Hcheck Ht.
  assert (Hu : forall a, a ∈ t_runs d -> run_id a = id -> a = r).
  { intros a Ha Hida. apply (table_unique _ _ _ _ _ Ht Ha Hin);
      unfold run_clash; by rewrite Hida, Hid, Z.eqb_refl. }
  apply map_ok; [| |done].
  - assert (Hg : forall a, a ∈ t_runs d -> let a' := if run_id a =? id then f r else a in
      run_id a' = run_id a /\ run_profile_id a' = run_profile_id a
      /\ run_profile_version_id a' = run_profile_version_id a /\ run_trigger a' = run_trigger a).
    { intros a Ha. simpl. destruct (Z.eqb_spec (run_id a) id) as [E|]; [|done].
      by rewrite (Hu a Ha E). }
    intros a b (A1 & A2 & A3 & A4)%Hg (B1 & B2 & B3 & B4)%Hg. unfold run_clash.
    by rewrite A1, A2, A3, A4, B1, B2, B3, B4.
  - intros a _ Ha. by case_match.
Qed.

Lemma run_publish_inv now run items event es d : db_inv d -> db_inv (run_publish now run items event es d).2.
Proof.
  intros []. unfold run_publish. destruct (run_get _ _) as [r|] eqn:Hr; [|done].
  destruct (negb _); [done|].
  destruct (insert_rows item_clash _ _ _) eqn:E1; [|done].
  destruct (insert_rows evaluation_clash _ _ _) eqn:E2; [|done].
  destruct (insert_row event_clash _ _ _) eqn:E3; [|done].
  split; simpl; try done.
  - by apply (run_update_inv _ (published_row now run (Z.of_nat (length items))) _ r).
  - by eapply insert_rows_ok.
  - by eapply insert_row_ok.
  - by eapply insert_rows_ok.
Qed.
End repo.

(** ** Methods that preserve an invariant *)

Section preserves.
Context {S : Type} (I : S -> Prop).

Definition preserves {A} (m : M S A) : Prop :=
  forall w s, I (state_of s) -> I (state_of (m w s).2).

Lemma preserves_ret {A} (a : A) : preserves (mret a).
Proof. by intros w s. Qed.
Lemma preserves_raise {A} e : preserves (raise (A:=A) e).
Proof. by intros w s. Qed.
Lemma preserves_lift {A} (r : result A) : preserves (lift r).
Proof. by intros w s. Qed.
Lemma preserves_uuid4 : preserves uuid4.
Proof. by intros w s. Qed.
Lemma preserves_clock : preserves clock.
Proof. by intros w s. Qed.
Lemma preserves_bind {A B} (m : M S A) (f : A -> M S B) :
  preserves m -> (forall a, preserves (f a)) -> preserves (m ≫= f).
Proof.
  intros Hm Hf w s Hs. unfold mbind, M_bind. specialize (Hm w s Hs).
  destruct (m w s) as [[a|e] s']; [by apply Hf|done].
Qed.
(** The continuation may use what the first step can return. *)
Lemma preserves_bind_post {A B} (m : M S A) (f : A -> M S B) :
  preserves m -> (forall a, (exists w s s', m w s = (Ok a, s')) -> preserves (f a)) ->
  preserves (m ≫= f).
Proof.
  intros Hm Hf w s Hs. unfold mbind, M_bind. specialize (Hm w s Hs).
  destruct (m w s) as [[a|e] s'] eqn:E; [|done]. apply Hf; [by do 3 eexists|done].
Qed.
Lemma preserves_try {A} (m : M S A) h : preserves m -> (forall e, preserves (h e)) ->
  preserves (try_except m h).
Proof.
  intros Hm Hh w s Hs. unfold try_except. specialize (Hm w s Hs).
  destruct (m w s) as [[a|e] s']; [done|by apply Hh].
Qed.
End preserves.

Create HintDb preserves.
#[export] Hint Resolve preserves_ret preserves_raise preserves_lift preserves_uuid4
  preserves_clock : preserves.

(** Splits a method into its steps; the leaves are hints of the database. *)
Ltac solve_preserves :=
  repeat (intros;
    lazymatch goal with
    | |- preserves _ (mbind _ _) => apply preserves_bind
    | |- preserves _ (try_except _ _) => apply preserves_try
    | |- preserves _ (let _ := _ in _) => simpl
    | |- preserves _ (match ?x with _ => _ end) => destruct x
    | |- _ => solve [eauto with preserves]
    end).

(** ** The service

    For an invariant [I] of the database that the repositories' mutations keep; saving a
    profile need keep it only when the profile satisfies [saved]. *)

Section service.
Context {J : Type} `{JobPort J} `{NumericColumns}.
Variable cfg : radar_config.
Variable I : db -> Prop.
Variable saved : SearchProfile -> Prop.
Hypothesis profile_insert_I : forall p d, I d -> I (profile_insert p d).2.
Hypothesis profile_save_I : forall p d, saved p -> I d -> I (profile_save p d).2.
Hypothesis version_insert_I : forall v d, I d -> I (version_insert v d).2.
Hypothesis run_insert_I : forall r d, I d -> I (run_insert r d).2.
Hypothesis event_insert_I : forall e d, I d -> I (event_insert e d).2.
Hypothesis run_publish_I : forall now run items e es d, I d -> I (run_publish now run items e es d).2.

(** The invariant of the database component; the job runtime is any. *)
Definition service_inv (s : db * J) : Prop := I s.1.
Abbreviation keeps := (preserves service_inv) (only parsing).

Lemma keeps_on_db {A} (f : db -> result A * db) :
  (forall d, I d -> I (f d).2) -> keeps (on_db f).
Proof.
  intros Hf w s Hs. unfold on_db. specialize (Hf (state_of s).1 Hs).
  by destruct (f (state_of s).1).
Qed.
Lemma keeps_read {A} (f : db -> A) : keeps (read f).
Proof. by intros w s. Qed.
Lemma keeps_on_jobs {A} (m : M J A) : keeps (on_jobs m).
Proof. intros w s Hs. unfold on_jobs. by destruct (m w _). Qed.
Lemma keeps_on_engine {A} (m : M db A) : preserves I m -> keeps (on_engine m).
Proof.
  intros Hm w s Hs. unfold on_engine. specialize (Hm w (Sys (state_of s).1 (drawn s) (ticks s)) Hs).
  by destruct (m w _).
Qed.

Lemma keeps_profile_insert p : keeps (on_db (profile_insert p)).
Proof. apply keeps_on_db. auto. Qed.
Lemma keeps_profile_save p : saved p -> keeps (on_db (profile_save p)).
Proof. intros. apply keeps_on_db. auto. Qed.
Lemma keeps_version_insert v : keeps (on_db (version_insert v)).
Proof. apply keeps_on_db. auto. Qed.
Lemma keeps_run_insert r : keeps (on_db (run_insert r)).
Proof. apply keeps_on_db. auto. Qed.
Lemma keeps_event_insert e : keeps (on_db (event_insert e)).
Proof. apply keeps_on_db. auto. Qed.
Lemma keeps_run_publish now run items e es : keeps (on_db (run_publish now run items e es)).
Proof. apply keeps_on_db. auto. Qed.
#[local] Hint Resolve keeps_read keeps_on_jobs keeps_profile_insert keeps_version_insert
  keeps_run_insert keeps_event_insert keeps_run_publish : preserves.

Lemma keeps_owned owner pid : keeps (_owned owner pid).
Proof. unfold _owned. solve_preserves. Qed.
Lemma keeps_check_version p n : keeps (_check_version p n).
Proof. unfold _check_version. solve_preserves. Qed.
Lemma keeps_validate payload : keeps (_validate cfg payload).
Proof. unfold _validate. solve_preserves. Qed.
Lemma keeps_snapshot p payload n : keeps (_snapshot_version p payload n).
Proof. unfold _snapshot_version. solve_preserves. Qed.
Lemma keeps_submit_run p v t : keeps (_submit_run cfg p v t).
Proof. unfold _submit_run. solve_preserves. Qed.
Lemma keeps_emit ty a c payload : keeps (_emit_server_event cfg ty a c payload).
Proof. unfold _emit_server_event. solve_preserves. Qed.
Lemma keeps_number_items rid pos scored : keeps (number_items rid pos scored).
Proof.
  revert pos. induction scored as [|[[lid sc] c] rest IH]; intros pos; simpl; solve_preserves.
Qed.
#[local] Hint Resolve keeps_owned keeps_check_version keeps_validate keeps_snapshot
  keeps_submit_run keeps_emit keeps_number_items : preserves.

(** What [_owned] returns is the stored profile of that id. *)
Lemma owned_Ok owner pid w (s s' : sys (db * J)) p :
  _owned owner pid w s = (Ok p, s') ->
  profile_get pid (state_of s).1 = Some p /\ profile_id p = pid /\ owner_id p = owner /\ s' = s.
Proof.
  unfold _owned, read, mbind, M_bind.
  destruct (profile_get pid (state_of s).1) as [q|] eqn:E; [|done].
  destruct (Z.eqb_spec (owner_id q) owner) as [Ho|]; [|done]. intros [= <- <-].
  pose proof (get_by_Some _ _ _ _ E) as [_ Hid]. done.
Qed.

(** The scoring hook, when there is one, keeps the invariant. *)
Definition engine_keeps : Prop :=
  forall engine, policy_engine cfg = Some engine ->
  forall p c ls rid corr, preserves I (score_run engine p c ls rid corr).

Lemma keeps_create_profile owner n zs bmax bmin rooms smin smax strategy corr kind aid :
  keeps (create_profile cfg owner n zs bmax bmin rooms smin smax strategy corr kind aid).
Proof. unfold create_profile. solve_preserves. Qed.

Lemma keeps_update_profile owner pid expected changes corr kind aid :
  (forall q, profile_id q = pid -> saved q) ->
  keeps (update_profile cfg owner pid expected changes corr kind aid).
Proof.
  intros Hq. unfold update_profile. apply preserves_bind_post; [apply keeps_owned|].
  intros p (w & s & s' & (_ & Hid & _)%owned_Ok).
  pose proof (fun q Hid' => keeps_profile_save q (Hq q Hid')) as Hsave. solve_preserves.
Qed.

Lemma keeps_set_status owner pid expected target corr kind aid :
  (forall q, profile_id q = pid -> saved q) ->
  keeps (set_status cfg owner pid expected target corr kind aid).
Proof.
  intros Hq. unfold set_status. apply preserves_bind_post; [apply keeps_owned|].
  intros p (w & s & s' & (_ & Hid & _)%owned_Ok).
  pose proof (fun q Hid' => keeps_profile_save q (Hq q Hid')) as Hsave. solve_preserves.
Qed.

Lemma keeps_record_client_event ty payload aid corr :
  keeps (record_client_event cfg ty payload aid corr).
Proof. unfold record_client_event. solve_preserves. Qed.

Lemma keeps_score_items p vid rid corr passed : engine_keeps ->
  keeps (score_items cfg p vid rid corr passed).
Proof.
  intros He w s Hs. unfold score_items, mbind at 1, M_bind at 1, read. cbn [fst].
  destruct (policy_engine cfg) as [engine|] eqn:E; [destruct (compilation_for _ _ _) as [c|]|];
    match goal with |- service_inv (state_of (?m w s).2) => refine ((_ : keeps m) w s Hs) end.
  - pose proof (keeps_on_engine _ (He engine E p c passed rid corr)). solve_preserves.
  - solve_preserves.
  - solve_preserves.
Qed.

Lemma keeps_process_run pid vid job : engine_keeps -> keeps (process_run cfg pid vid job).
Proof.
  intros He. pose proof (fun p => keeps_score_items p) as Hitems. unfold process_run. solve_preserves.
Qed.
End service.

(** The scoring hook reads the radar's tables and writes the policy tables only. *)
Section hook.
Context `{NumericColumns}.
Variable I : db -> Prop.
Hypothesis policies_I : forall d ps vs, I d -> I (set_policy_versions vs (set_policies ps d)).

Lemma preserves_query {A} (f : db -> A) : preserves I (query f).
Proof. by intros w s. Qed.

Lemma preserves_register key n cv payload corr now :
  preserves I (register_version tx key n cv payload corr now).
Proof.
  intros w s Hs. unfold register_version, uuid4, mbind, M_bind, tx. simpl.
  repeat case_match; simplify_eq/=; auto.
Qed.

Lemma preserves_score_all profile ls obs policy rid corr now :
  preserves I (score_all profile ls obs policy rid corr now).
Proof.
  assert (Hloop : forall cs l o key acc es,
    preserves I (evaluate_loop cs profile l o key rid corr now acc es)).
  { induction cs as [|c cs IH]; intros; cbn [evaluate_loop]; solve_preserves. }
  induction ls as [|l ls IH]; simpl; unfold _score_candidate; solve_preserves.
Qed.

Lemma scoring_engine_keeps sc p c ls rid corr : preserves I (score_run (scoring_engine sc) p c ls rid corr).
Proof.
  pose proof preserves_register. pose proof (fun A => @preserves_query A).
  pose proof preserves_score_all.
  simpl. unfold scoring_score_run, latest_policy_document, seed_registry, register_policy_version,
    score_candidates. solve_preserves.
Qed.
End hook.
