(* ===== verification/RadarTheorems.v ===== *)
(** * What the radar guarantees

    The properties of the profile policy, the hard filters, the profile lifecycle, run
    processing and the match pages. *)

From S2P Require Export RadarInvariant.
#[local] Open Scope list_scope.

(** ** A sample installation *)

Definition sample_spp : SearchProfilePolicySpec :=
  MkSearchProfilePolicySpec "1" "search-profile-v1" ["rental"] ["palermo"; "recoleta"]
    [("name_max_length", VInt 80); ("zones_min", VInt 1); ("zones_max", VInt 15);
     ("budget_min_ge", VInt 0); ("min_rooms_min", VInt 0); ("min_rooms_max", VInt 200);
     ("surface_min_ge", VInt 0)]
    ["active"; "paused"; "archived"]
    [("active", ["paused"; "archived"]); ("paused", ["active"; "archived"]); ("archived", [])]
    [("price", "exclude"); ("location", "exclude"); ("rooms", "include"); ("surface", "include")] [].

Definition sample_baseline : ScoringBaselineSpec :=
  MkScoringBaselineSpec "1" "baseline-v1"
    [("budget", flit 35 100); ("rooms", flit 25 100); ("surface", flit 2 10);
     ("location_precision", flit 2 10)] [] [] [] [] 4.

Definition sample_events : EventsRegistrySpec := MkEventsRegistrySpec "1" "v1" [] [] [].

(** The radar over the in-memory job runtime, scored by the baseline *)
Definition sample_radar : radar_config :=
  RadarConfig sample_spp sample_baseline sample_events true RADAR_RUN_JOB_TYPE "baseline-v1" None.

#[local] Instance plain_columns : NumericColumns := fun _ f => f.
Definition sample_job_config : config := Config "release-1" 60 None.
#[local] Instance sample_jobs : JobPort runtime := in_memory_port sample_job_config.

Definition sample_world : world := World (fun n => 1000 + Z.of_nat n) (fun n => Z.of_nat n).
Definition fresh_state : sys (db * runtime) := Sys (empty_db, new_runtime 0) 0 0.

(** ** The database invariant *)

(** The scoring hook of an installation is the scoring service, when it has one. *)
Definition installed `{NumericColumns} (cfg : radar_config) : Prop :=
  policy_engine cfg = None \/ exists sc, policy_engine cfg = Some (scoring_engine sc).

Lemma installed_keeps `{NumericColumns} cfg (I : db -> Prop) :
  (forall d ps vs, I d -> I (set_policy_versions vs (set_policies ps d))) ->
  installed cfg -> engine_keeps cfg I.
Proof.
  intros HI [E|[sc E]] engine Hengine; rewrite E in Hengine; [done|].
  injection Hengine as <-. intros. by apply scoring_engine_keeps.
Qed.

(** One call of the service, successful or not, or a step of the job runtime *)
Inductive radar_step {J} `{JobPort J} `{NumericColumns} (cfg : radar_config) (w : world)
  : sys (db * J) -> sys (db * J) -> Prop :=
  | step_create owner n zs bmax bmin rooms smin smax strategy corr kind aid s :
      radar_step cfg w s
        (create_profile cfg owner n zs bmax bmin rooms smin smax strategy corr kind aid w s).2
  | step_update owner pid expected changes corr kind aid s :
      radar_step cfg w s (update_profile cfg owner pid expected changes corr kind aid w s).2
  | step_set_status owner pid expected target corr kind aid s :
      radar_step cfg w s (set_status cfg owner pid expected target corr kind aid w s).2
  | step_process_run pid vid job s :
      radar_step cfg w s (process_run cfg pid vid job w s).2
  | step_client_event ty payload aid corr s :
      radar_step cfg w s (record_client_event cfg ty payload aid corr w s).2
  | step_jobs j d n k j' :
      radar_step cfg w (Sys (d, j) n k) (Sys (d, j') n k).


Definition create_sample : M (db * runtime) (SearchProfile * option RecommendationRun) :=
  create_profile sample_radar 7 "depto" ["palermo"] (VInt 1000) VNone (VInt 1) VNone VNone None 9
    "user" (Some "7").
Definition created : sys (db * runtime) := (create_sample sample_world fresh_state).2.


(** ** Hard filters *)

(** A listing passes the hard filters exactly when it has the profile's operation,
    when a price filter that excludes unknown prices sees a positive cost within the
    budget, when such a location filter sees one of the profile's zones (case folded),
    and when its rooms, if known, reach a positive minimum; unknown rooms pass unless
    the profile excludes them. *)
Theorem hard_filters_spec l p :
  apply_hard_filters l p = true <->
  operation l = sp_operation p
  /\ (_strategy p "price" = "exclude" ->
      exists c, total_cost l = Some c /\ fleb c f0 = false /\ fltb (budget_max p) c = false)
  /\ (_strategy p "location" = "exclude" ->
      exists n, neighborhood l = Some n /\ casefold n ∈ map casefold (zones p))
  /\ (0 < min_rooms p ->
      match rooms l with
      | Some r => min_rooms p <= r
      | None => _strategy p "rooms" <> "exclude"
      end).
Proof.
  unfold apply_hard_filters, _zones_casefold.
  destruct (decide (operation l = sp_operation p)) as [Ho|Ho];
    [rewrite (bool_decide_eq_true_2 _ Ho)|rewrite (bool_decide_eq_false_2 _ Ho); naive_solver].
  simpl negb. cbv iota.
  assert (Hprice : (bool_decide (_strategy p "price" = "exclude")
    && match total_cost l with None => true | Some c => fleb c f0 || fltb (budget_max p) c end) = false
    <-> (_strategy p "price" = "exclude" ->
         exists c, total_cost l = Some c /\ fleb c f0 = false /\ fltb (budget_max p) c = false)).
  { rewrite andb_false_iff, bool_decide_eq_false. destruct (total_cost l) as [c|];
      rewrite ?orb_false_iff; destruct (decide (_strategy p "price" = "exclude")); naive_solver. }
  assert (Hloc : (bool_decide (_strategy p "location" = "exclude")
    && match neighborhood l with
       | None => true
       | Some n => negb (bool_decide (casefold n ∈ map casefold (zones p)))
       end) = false
    <-> (_strategy p "location" = "exclude" ->
         exists n, neighborhood l = Some n /\ casefold n ∈ map casefold (zones p))).
  { rewrite andb_false_iff, bool_decide_eq_false. destruct (neighborhood l) as [n|];
      rewrite ?negb_false_iff, ?bool_decide_eq_true;
      destruct (decide (_strategy p "location" = "exclude")); naive_solver. }
  destruct (_ && _) in Hprice |- *; [naive_solver|].
  destruct (_ && _) in Hloc |- *; [naive_solver|].
  destruct (Z.ltb_spec 0 (min_rooms p)) as [Hr|Hr]; [|naive_solver lia].
  destruct (rooms l) as [r|]; rewrite negb_true_iff.
  - rewrite Z.ltb_ge. naive_solver.
  - rewrite bool_decide_eq_false. naive_solver.
Qed.

(** ** Validation and the constraints of the table *)

Lemma unique_nil l : unique l = [] -> l = [].
Proof.
  unfold unique. destruct l as [|x l]; [done|]. simpl. intros H.
  assert (Hgen : forall (l acc : list string), acc <> [] ->
    foldl (fun acc x => if bool_decide (x ∈ acc) then acc else x :: acc) acc l <> []).
  { clear. induction l as [|y l IH]; intros acc Hacc; simpl; [done|]. apply IH. by case_bool_decide. }
  apply (f_equal (@rev string)) in H. rewrite rev_involutive in H. by apply Hgen in H.
Qed.

(** The profile that [create_profile] builds from floats *)
Definition new_profile (pid owner : Z) (n : string) (zs : list string) (bmax : float)
    (bmin : option float) (rooms : Z) (smin smax : option float)
    (strategy : odict string string) (now corr : Z) (kind : string) (aid : option string)
  : SearchProfile :=
  MkSearchProfile pid owner n Rental zs bmax bmin rooms smin smax ProfileActive strategy 1 now now
    None None corr kind aid.

Definition is_number_fin (x : option float) : Prop :=
  match x with Some f => exists q, f = FFin q | None => True end.

Lemma num_leb_fin x y : num_leb (VFloat (FFin x)) (VFloat (FFin y)) = fleb (FFin x) (FFin y).
Proof. done. Qed.

Lemma fltb_fleb_fin x y : fltb (FFin x) (FFin y) = negb (fleb (FFin y) (FFin x)).
Proof. rewrite fleb_fltb by done. by rewrite negb_involutive. Qed.

(** For finite numbers that its columns keep, a validated profile satisfies the CHECK
    constraints of its table exactly when its minimal surface, which is not validated
    against zero, is not negative. *)
Theorem validated_profile_storable `{NumericColumns} spec pid owner n zs b bmin rooms smin smax
    strategy now corr kind aid st :
  (forall k f, numeric k f = f) ->
  0 <= _limit_int spec "min_rooms_min" 0 -> _limit_int spec "min_rooms_max" 200 <= 200 ->
  is_number_fin bmin -> is_number_fin smin -> is_number_fin smax ->
  validate_profile (_payload n zs (VFloat (FFin b)) (opt_val bmin) (VInt rooms) (opt_val smin)
                      (opt_val smax) st) spec = [] ->
  profile_check (profile_row (new_profile pid owner n zs (FFin b) bmin rooms smin smax strategy now
                                corr kind aid)) = true
  <-> match smin with Some m => fleb f0 m = true | None => True end.
Proof.
  intros Hn Hmin Hmax Hb Hs1 Hs2 Hv%unique_nil.
  apply app_nil in Hv as [_ Hv]. apply app_nil in Hv as [_ Hv].
  apply app_nil in Hv as [Hbudget Hv]. apply app_nil in Hv as [Hrooms Hv].
  apply app_nil in Hv as [Hsurface _].
  unfold profile_check, profile_row, new_profile.
  cbn [budget_max budget_min surface_min surface_max min_rooms]. rewrite Hn.
  (* budget *)
  unfold validate_budget in Hbudget. simpl in Hbudget. apply app_nil in Hbudget as [Hb1 Hb2].
  destruct (num_leb _ (VInt 0)) eqn:E in Hb1; [done|]. clear Hb1.
  assert (E0 : fltb f0 (FFin b) = true).
  { unfold f0. rewrite fltb_fleb_fin. apply negb_true_iff. exact E. }
  rewrite E0. cbn [andb].
  assert (Ebm : opt_check (fun m => fltb m (FFin b)) (numeric 2 <$> bmin) = true).
  { destruct bmin as [m|]; [|done]. destruct Hb as [q ->]. simpl in Hb2. cbn [fmap option_fmap option_map opt_check]. rewrite Hn.
    destruct (num_leb _ _) eqn:E2 in Hb2; [done|]. rewrite fltb_fleb_fin. apply negb_true_iff. exact E2. }
  rewrite Ebm. cbn [andb].
  (* rooms *)
  unfold validate_rooms in Hrooms. simpl in Hrooms.
  destruct (_ || _) eqn:E3 in Hrooms; [done|]. apply orb_false_iff in E3 as [E3 E4].
  assert (0 <=? rooms = true) as -> by lia. assert (rooms <=? 200 = true) as -> by lia.
  rewrite !andb_true_r.
  (* surface *)
  destruct smin as [m|]; [|done]. destruct Hs1 as [q ->]. cbn [fmap option_fmap option_map opt_check]. rewrite Hn.
  assert (Esm : opt_check (fun x => fltb (FFin q) x) (numeric 2 <$> smax) = true).
  { destruct smax as [x|]; [|done]. destruct Hs2 as [r ->]. cbn [fmap option_fmap option_map opt_check]. rewrite Hn.
    unfold validate_surface in Hsurface. simpl in Hsurface.
    destruct (num_leb _ _) eqn:E5 in Hsurface; [done|]. rewrite fltb_fleb_fin. apply negb_true_iff. exact E5. }
  rewrite Esm, andb_true_r. done.
Qed.

(** A profile with a negative minimal surface is validated and cannot be stored. *)
Lemma validated_profile_storable_witness :
  profile_check (profile_row (new_profile 1 7 "depto" ["palermo"] (FFin 1000) None 1
                                (Some (FFin (-5))) None [] 0 9 "user" None)) = true
  <-> fleb f0 (FFin (-5)) = true.
Proof.
  apply (validated_profile_storable sample_spp 1 7 "depto" ["palermo"] 1000 None 1
           (Some (FFin (-5))) None [] 0 9 "user" None "active").
  - reflexivity.
  - vm_compute. discriminate.
  - vm_compute. discriminate.
  - exact I.
  - by exists (-5)%Q.
  - exact I.
  - vm_compute. reflexivity.
Defined.

(** ** Profile lifecycle *)

(** No transition leaves the archived state. *)
Definition archived_absorbing (spec : SearchProfilePolicySpec) : Prop :=
  forall target, can_transition spec "archived" target = false.

(** The row [p] is stored under its id. *)
Definition stored (p : SearchProfile) (d : db) : Prop := profile_get (profile_id p) d = Some p.

Section lifecycle.
Context {J : Type} `{JobPort J} `{NumericColumns}.
Variable cfg : radar_config.
Implicit Types (w : world) (s : sys (db * J)) (p q : SearchProfile).

Lemma stored_profile_insert p q d : stored p d -> stored p (profile_insert q d).2.
Proof.
  unfold stored, profile_insert. intros Hp. destruct (insert_row _ _ _ _) eqn:E; [|done].
  apply insert_row_Some in E as (-> & _ & _). unfold profile_get in *. simpl.
  by rewrite get_by_app, Hp.
Qed.

Lemma profile_save_other p q d : profile_id q <> profile_id p -> stored p d -> stored p (profile_save q d).2.
Proof.
  unfold stored, profile_save. intros Hne Hp. destruct (profile_get (profile_id q) d) as [r|] eqn:E; [|done].
  repeat case_match; try done. unfold profile_get in *. simpl.
  apply get_by_Some in E as [_ E]. rewrite get_by_update_ne; [done|done|congruence].
Qed.

(** A method on an archived profile is refused and changes nothing. *)
Lemma update_archived owner pid expected changes corr kind aid w s p :
  profile_get pid (state_of s).1 = Some p -> status p = ProfileArchived ->
  exists e, update_profile cfg owner pid expected changes corr kind aid w s = (Raise e, s).
Proof.
  intros Hp Ha. unfold update_profile, _owned, _check_version, read, mbind, M_bind.
  rewrite Hp. destruct (owner_id p =? owner); [|by eexists].
  simpl. destruct (negb _); [by eexists|]. simpl. rewrite bool_decide_eq_true_2 by done. by eexists.
Qed.

Lemma set_status_archived owner pid expected target corr kind aid w s p :
  archived_absorbing (policy cfg) ->
  profile_get pid (state_of s).1 = Some p -> status p = ProfileArchived ->
  exists e, set_status cfg owner pid expected target corr kind aid w s = (Raise e, s).
Proof.
  intros Habs Hp Ha. unfold set_status, _owned, _check_version, read, mbind, M_bind.
  rewrite Hp. destruct (owner_id p =? owner); [|by eexists].
  simpl. destruct (negb (version p =? expected)); [by eexists|]. simpl. rewrite Ha. simpl.
  rewrite Habs. by eexists.
Qed.

(** An archived profile stays as it is for ever: in an installation whose policy lets
    nothing leave the archived state, no sequence of calls of the service and of steps
    of its job runtime changes the row. *)
Theorem archived_profile_frozen w s s' p :
  installed cfg -> archived_absorbing (policy cfg) ->
  status p = ProfileArchived -> stored p (state_of s).1 ->
  rtc (radar_step cfg w) s s' -> stored p (state_of s').1.
Proof.
  intros Hi Habs Ha Hs Hsteps.
  assert (He : engine_keeps cfg (stored p)) by (by apply installed_keeps).
  pose proof (stored_profile_insert p) as H1.
  pose proof (fun q d (Hq : profile_id q <> profile_id p) => profile_save_other p q d Hq) as H2.
  assert (H3 : forall v d, stored p d -> stored p (version_insert v d).2)
    by (intros; unfold version_insert; by case_match).
  assert (H4 : forall r d, stored p d -> stored p (run_insert r d).2)
    by (intros; unfold run_insert; by case_match).
  assert (H5 : forall e d, stored p d -> stored p (event_insert e d).2)
    by (intros; unfold event_insert; by case_match).
  assert (H6 : forall now run items e es d, stored p d -> stored p (run_publish now run items e es d).2)
    by (intros; unfold run_publish; by repeat case_match).
  induction Hsteps as [s|s s1 s' Hstep _ IH]; [done|].
  apply IH. destruct Hstep; try exact Hs.
  - by eapply (keeps_create_profile cfg (stored p)).
  - destruct (decide (pid = profile_id p)) as [->|Hne].
    + by destruct (update_archived owner (profile_id p) expected changes corr kind aid w s p Hs Ha) as [e ->].
    + eapply (keeps_update_profile cfg (stored p) (fun q => profile_id q <> profile_id p)); try done.
      congruence.
  - destruct (decide (pid = profile_id p)) as [->|Hne].
    + by destruct (set_status_archived owner (profile_id p) expected target corr kind aid w s p Habs Hs Ha) as [e ->].
    + eapply (keeps_set_status cfg (stored p) (fun q => profile_id q <> profile_id p)); try done.
      congruence.
  - by eapply (keeps_process_run cfg (stored p)).
  - by eapply (keeps_record_client_event cfg (stored p)).
Qed.
End lifecycle.

Lemma sample_archived_absorbing : archived_absorbing sample_spp.
Proof.
  intros target. unfold can_transition. simpl. by case_match.
Qed.

Definition archive_sample : M (db * runtime) (SearchProfile * option RecommendationRun) :=
  set_status sample_radar 7 1000 1 ProfileArchived 9 "user" (Some "7").
Definition archived_state : sys (db * runtime) := (archive_sample sample_world created).2.
Definition archived_profile : SearchProfile :=
  match profile_get 1000 (state_of archived_state).1 with
  | Some p => p
  | None => new_profile 0 0 "" [] f0 None 0 None None [] 0 0 "" None
  end.
Definition reactivated : sys (db * runtime) :=
  (set_status sample_radar 7 1000 2 ProfileActive 9 "user" (Some "7") sample_world archived_state).2.

Lemma archived_profile_frozen_witness :
  status archived_profile = ProfileArchived /\ stored archived_profile (state_of reactivated).1.
Proof.
  split; [vm_compute; reflexivity|].
  apply (archived_profile_frozen sample_radar sample_world archived_state).
  - by left.
  - apply sample_archived_absorbing.
  - vm_compute. reflexivity.
  - vm_compute. reflexivity.
  - apply rtc_once. apply step_set_status.
Defined.

Section locking.
Context {J : Type} `{JobPort J} `{NumericColumns}.
Variable cfg : radar_config.
Implicit Types (w : world) (s : sys (db * J)) (p q : SearchProfile).

Lemma check_version_stale p n w s : version p <> n ->
  _check_version p n w s = (Raise (ConcurrencyConflict (Some n) (Some (version p))), s).
Proof. intros Hn. unfold _check_version. by apply Z.eqb_neq in Hn as ->. Qed.

Lemma owned_run owner pid w s p :
  profile_get pid (state_of s).1 = Some p -> owner_id p = owner -> _owned owner pid w s = (Ok p, s).
Proof.
  intros Hp Ho. unfold _owned, read, mbind, M_bind. by rewrite Hp, (proj2 (Z.eqb_eq _ _) Ho).
Qed.

Lemma submit_run_profiles p v t w s : t_profiles (state_of (_submit_run cfg p v t w s).2).1
  = t_profiles (state_of s).1.
Proof.
  set (I := fun d => t_profiles d = t_profiles (state_of s).1).
  assert (Hk : preserves (service_inv I) (_submit_run cfg p v t)); [|by apply Hk].
  apply keeps_submit_run. intros r d. unfold run_insert. by case_match.
Qed.

Lemma profile_save_Ok q d d' : profile_save q d = (Ok tt, d') ->
  exists r, profile_get (profile_id q) d = Some r /\ version r = version q
    /\ (profile_unchanged q r = true
        \/ profile_get (profile_id q) d' = Some (profile_assign q r)).
Proof.
  unfold profile_save. destruct (profile_get (profile_id q) d) as [r|] eqn:Hr; [|done].
  destruct (Z.eqb_spec (version r) (version q)) as [Hv|]; [|done]. simpl.
  destruct (profile_unchanged q r) eqn:Hu; [intros; exists r; auto|].
  destruct (_ || _); [done|]. intros [= <-]. exists r. split; [done|]. split; [done|]. right.
  unfold profile_get in *. simpl. pose proof (get_by_Some _ _ _ _ Hr) as [_ Hid].
  clear Hu. induction (t_profiles d) as [|x t IH]; [done|].
  unfold get_by, update_by in *. simpl in *. destruct (Z.eqb_spec (profile_id x) (profile_id q)) as [E|E].
  - simpl. by rewrite Hid, Z.eqb_refl.
  - apply Z.eqb_neq in E. rewrite E. auto.
Qed.

Lemma set_status_Ok owner pid expected target corr kind aid w s s' out p :
  profile_get pid (state_of s).1 = Some p -> updated_at p <> time_at w (ticks s) ->
  set_status cfg owner pid expected target corr kind aid w s = (Ok out, s') ->
  exists p', profile_get pid (state_of s').1 = Some p' /\ status p' = target
    /\ owner_id p' = owner /\ version p = expected /\ version p' = expected + 1.
Proof.
  intros Hp Hfresh Hrun. unfold set_status in Hrun.
  apply M_bind_Ok in Hrun as (q & s1 & (Hq & Hid & Ho & ->)%owned_Ok & Hrun).
  rewrite Hp in Hq. injection Hq as <-.
  apply M_bind_Ok in Hrun as ([] & s1 & Hver & Hrun). unfold _check_version in Hver.
  destruct (Z.eqb_spec (version p) expected) as [Hv|]; [|done]. injection Hver as <-.
  destruct (negb (can_transition _ _ _)); [done|].
  apply M_bind_Ok in Hrun as (now & s1 & Hnow & Hrun). injection Hnow as <- <-.
  apply M_bind_Ok in Hrun as ([] & s2 & Hsave & Hrun). unfold on_db in Hsave.
  destruct (profile_save _ _) as [r0 d0] eqn:E in Hsave. injection Hsave as -> <-.
  apply profile_save_Ok in E as (r & Hr & Hrv & Hcase). simpl in Hr, Hcase. rewrite Hid in *.
  simpl in Hr. rewrite Hp in Hr. injection Hr as <-.
  destruct Hcase as [Hu|Hstored].
  { exfalso. unfold profile_unchanged in Hu. rewrite !andb_true_iff in Hu. destruct Hu as [_ Hu].
    apply Z.eqb_eq in Hu. simpl in Hu. congruence. }
  apply M_bind_Ok in Hrun as (run & s3 & Hsub & Hrun). injection Hrun as _ <-.
  assert (Ht : t_profiles (state_of s3).1 = t_profiles d0).
  { destruct (bool_decide (target = ProfileActive) && _); [|by injection Hsub as _ <-].
    apply M_bind_Ok in Hsub as (latest & s4 & Hl & Hsub). injection Hl as <- <-.
    destruct (version_latest_for_profile _ _) as [v|]; [|by injection Hsub as _ <-].
    match type of Hsub with _submit_run _ ?q _ _ _ ?st = _ =>
      pose proof (submit_run_profiles q v TriggerResumed w st) as Ht end.
    rewrite Hsub in Ht. exact Ht. }
  eexists. split; [unfold profile_get in *; rewrite Ht; exact Hstored|].
  simpl. repeat split; [done..|lia].
Qed.

(** A status change that succeeds stores the new status under the next version, and
    from then on the version it was made from is refused: an update or a status change
    that still expects it raises a conflict and leaves everything as it was. *)
Theorem status_change_locks owner pid expected target corr kind aid w s s' out p :
  profile_get pid (state_of s).1 = Some p -> updated_at p <> time_at w (ticks s) ->
  set_status cfg owner pid expected target corr kind aid w s = (Ok out, s') ->
  (exists p', profile_get pid (state_of s').1 = Some p' /\ status p' = target
              /\ version p = expected /\ version p' = expected + 1)
  /\ (forall changes target' c k a w',
       update_profile cfg owner pid expected changes c k a w' s'
       = (Raise (ConcurrencyConflict (Some expected) (Some (expected + 1))), s')
       /\ set_status cfg owner pid expected target' c k a w' s'
          = (Raise (ConcurrencyConflict (Some expected) (Some (expected + 1))), s')).
Proof.
  intros Hp Hfresh Hrun.
  destruct (set_status_Ok _ _ _ _ _ _ _ _ _ _ _ _ Hp Hfresh Hrun) as (p' & Hp' & Hst & Ho & Hv & Hv').
  split; [by exists p'|]. intros changes target' c k a w'.
  assert (Hstale : version p' <> expected) by lia. rewrite <- Hv'.
  unfold update_profile, set_status.
  split; (erewrite M_bind_run by (by apply owned_run)); by apply M_bind_raise, check_version_stale.
Qed.
End locking.

Definition created_profile : SearchProfile :=
  match profile_get 1000 (state_of created).1 with
  | Some p => p
  | None => archived_profile
  end.
Definition archive_output : SearchProfile * option RecommendationRun :=
  ok_or (created_profile, None) (archive_sample sample_world created).1.

(** After the profile is archived from version 1, version 1 is stale. *)
Lemma status_change_locks_witness :
  set_status sample_radar 7 1000 1 ProfilePaused 9 "user" None sample_world archived_state
  = (Raise (ConcurrencyConflict (Some 1) (Some 2)), archived_state).
Proof.
  refine (proj2 (proj2 (status_change_locks sample_radar 7 1000 1 ProfileArchived 9 "user" (Some "7")
            sample_world created archived_state archive_output created_profile _ _ _)
            [] ProfilePaused 9 "user" None sample_world)).
  - vm_compute. reflexivity.
  - vm_compute. discriminate.
  - apply (run_ok (created_profile, None) archive_sample). vm_compute. reflexivity.
Defined.
