(* ===== verification/RadarRuns.v ===== *)
(** * Runs: processing, publication, pages

    What [process_run] publishes, that it does so once, and that walking the match
    pages of a run yields every item once and in order. *)

From stdpp Require Import sorting.
From S2P Require Export ScoringFacts RadarTheorems.
#[local] Open Scope list_scope.

(** ** Publication *)

Section process.
Context {J : Type} `{JobPort J} `{NumericColumns}.
Variable cfg : radar_config.
Implicit Types (w : world) (s : sys (db * J)) (p : SearchProfile).

Lemma number_items_Ok rid pos scored w (s s' : sys (db * J)) items :
  number_items rid pos scored w s = (Ok items, s') ->
  state_of s' = state_of s
  /\ map item_listing_id items = map (fun x => x.1.1) scored
  /\ map item_score items = map (fun x => x.1.2) scored
  /\ map item_position items = map (fun i => pos + Z.of_nat i) (seq 0 (length scored))
  /\ Forall (fun i => item_run_id i = rid) items.
Proof.
  revert pos s items. induction scored as [|[[lid sc] c] rest IH]; intros pos s items Hrun;
    cbn [number_items] in Hrun.
  - by injection Hrun as <- <-.
  - inv_bind. injection Hrun as <- <-. apply IH in H2 as (Hs & Hl & Hsc & Hp & Hr).
    injection H1 as _ <-. split; [done|]. simpl. split; [by rewrite Hl|]. split; [by rewrite Hsc|].
    split; [|by constructor]. rewrite Hp, <- (seq_shift _ 0), map_map. f_equal; [lia|].
    apply map_ext. intros. lia.
Qed.

Lemma number_items_total rid pos scored w (s : sys (db * J)) :
  exists items s', number_items rid pos scored w s = (Ok items, s').
Proof.
  revert pos s. induction scored as [|[[lid sc] c] rest IH]; intros pos s; cbn [number_items].
  - by do 2 eexists.
  - erewrite M_bind_run by reflexivity. edestruct IH as (items & s' & E).
    erewrite M_bind_run by exact E. by do 2 eexists.
Qed.

(** The candidates of a run: the SQL narrowing, then the hard filters *)
Definition run_candidates p (d : db) : list NormalizedListing :=
  List.filter (fun l => apply_hard_filters l p) (list_candidates p d).

(** What one publication changes *)
Record published (r : RecommendationRun) (items : list RecommendationItem)
    (es : list CriterionEvaluation) (n : Z) (d d' : db) : Prop := {
  pub_run : exists r', run_get (run_id r) d' = Some r' /\ run_state r' = RunSucceeded
              /\ run_candidate_count r' = n
              /\ run_published_item_count r' = Z.of_nat (length items);
  pub_items : t_items d' = t_items d ++ map (item_row (run_id r)) items;
  pub_evaluations : t_evaluations d' = t_evaluations d ++ map evaluation_row es;
  pub_event : exists e, t_events d' = t_events d ++ [e]
                /\ ev_event_type e = "recommendation.run_published.v1"
                /\ oget "run_id" (ev_payload e) = Some (VStr (uuid_str (run_id r)));
  pub_profiles : t_profiles d' = t_profiles d;
  pub_versions : t_versions d' = t_versions d;
  pub_other_runs : forall id, id <> run_id r -> run_get id d' = run_get id d
}.

Lemma get_by_update_same {A} (id_of : A -> Z) id (row : A) t r :
  id_of row = id -> get_by id_of id t = Some r ->
  get_by id_of id (update_by id_of id (fun _ => row) t) = Some row.
Proof.
  unfold get_by, update_by. intros Hrow. induction t as [|x t IH]; [done|]. simpl.
  destruct (Z.eqb_spec (id_of x) id) as [E|E]; simpl.
  - by rewrite Hrow, Z.eqb_refl.
  - apply Z.eqb_neq in E. rewrite E. exact IH.
Qed.

Lemma run_publish_Ok now run items event es d d' :
  run_publish now run items event es d = (Ok tt, d') ->
  exists r, run_get (run_id run) d = Some r /\ run_version r = run_version run
  /\ t_runs d' = update_by run_id (run_id run)
                   (fun _ => published_row now run (Z.of_nat (length items)) r) (t_runs d)
  /\ t_items d' = t_items d ++ map (item_row (run_id run)) items
  /\ t_evaluations d' = t_evaluations d ++ map evaluation_row es
  /\ t_events d' = t_events d ++ [event]
  /\ t_profiles d' = t_profiles d /\ t_versions d' = t_versions d
  /\ t_listings d' = t_listings d.
Proof.
  unfold run_publish. destruct (run_get (run_id run) d) as [r|] eqn:Hr; [|done].
  destruct (Z.eqb_spec (run_version r) (run_version run)) as [Hv|]; [|done]. simpl.
  destruct (insert_rows item_clash _ _ _) as [ti|] eqn:E1; [|done].
  destruct (insert_rows evaluation_clash _ _ _) as [te|] eqn:E2; [|done].
  destruct (insert_row event_clash _ _ _) as [tv|] eqn:E3; [|done].
  apply insert_rows_Some in E1 as [-> _]. apply insert_rows_Some in E2 as [-> _].
  apply insert_row_Some in E3 as (-> & _). intros [= <-]. exists r. repeat split; done.
Qed.

Lemma published_of now run items event es n d d' r :
  run_publish now run items event es d = (Ok tt, d') -> run_id run = run_id r ->
  run_candidate_count run = n ->
  ev_event_type event = "recommendation.run_published.v1" ->
  oget "run_id" (ev_payload event) = Some (VStr (uuid_str (run_id r))) ->
  published r items es n d d'.
Proof.
  intros (q & Hq & _ & Hruns & Hi & He & Hev & Hp & Hv & _)%run_publish_Ok Hid Hn Ht Hpay.
  rewrite Hid in *. pose proof (get_by_Some _ _ _ _ Hq) as [_ Hqid].
  split; try done.
  - eexists. split; [unfold run_get; rewrite Hruns; by eapply get_by_update_same|]. by split_and!.
  - by exists event.
  - intros id Hne. unfold run_get. rewrite Hruns. by apply get_by_update_ne.
Qed.

Lemma run_publish_Raise now run items event es d e d' :
  run_publish now run items event es d = (Raise e, d') -> d' = d.
Proof. unfold run_publish. repeat case_match; naive_solver. Qed.

(** *** The baseline branch *)

Lemma map_result_keys {A B C} (f : A -> result B) (key : A -> C) (key' : B -> C) l l' :
  (forall a b, f a = Ok b -> key' b = key a) -> map_result f l = Ok l' -> map key' l' = map key l.
Proof.
  intros Hf. revert l'. induction l as [|a l IH]; intros l' Hl; cbn [map_result] in Hl.
  - by injection Hl as <-.
  - inv_bind. injection Hl as <-. simpl. f_equal; [by apply Hf|by apply IH].
Qed.

Abbreviation scored_listing := (float * NormalizedListing * odict string float)%type (only parsing).

Lemma score_baseline_listings p passed scored :
  score_baseline cfg p passed = Ok scored -> map (fun x : scored_listing => x.1.2) scored = passed.
Proof.
  unfold score_baseline. intros Hm. rewrite <- (map_id passed).
  refine (map_result_keys _ (fun l => l) _ _ _ _ Hm).
  intros l [[sc l'] c] Hx. inv_bind. destruct x as [sc' c']. by injection Hx as <- <- <-.
Qed.

(** The scored listings of a run, best first *)
Definition baseline_ranking (scored : list scored_listing) : list scored_listing :=
  sort_by baseline_ltb scored.

Lemma score_items_baseline p vid rid corr passed w s res s' :
  policy_engine cfg = None ->
  score_items cfg p vid rid corr passed w s = (res, s') ->
  state_of s' = state_of s
  /\ forall items es, res = Ok (items, es) ->
     es = [] /\ exists scored, score_baseline cfg p passed = Ok scored
       /\ map item_listing_id items = map (fun x => listing_id x.1.2) (baseline_ranking scored)
       /\ map item_score items = map (fun x => x.1.1) (baseline_ranking scored)
       /\ map item_position items = map Z.of_nat (seq 0 (length items)).
Proof.
  intros He Hrun. unfold score_items in Hrun. rewrite He in Hrun.
  erewrite M_bind_run in Hrun by reflexivity. cbv iota beta in Hrun.
  unfold lift in Hrun. destruct (score_baseline cfg p passed) as [scored|e] eqn:Hb.
  - erewrite M_bind_run in Hrun by reflexivity.
    set (triples := map _ (sort_by baseline_ltb scored)) in Hrun.
    destruct (number_items_total rid 0 triples w s) as (items & s1 & Hn).
    erewrite M_bind_run in Hrun by exact Hn. injection Hrun as <- <-.
    apply number_items_Ok in Hn as (Hs & Hl & Hsc & Hp & _). split; [done|].
    intros items' es [= <- <-]. split; [done|]. exists scored. split; [done|].
    assert (Hlen : length items = length triples).
    { rewrite <- (length_map item_position items), Hp. by rewrite length_map, length_seq. }
    unfold baseline_ranking. split; [|split].
    + rewrite Hl. unfold triples. rewrite map_map. apply map_ext. by intros [[? ?] ?].
    + rewrite Hsc. unfold triples. rewrite map_map. apply map_ext. by intros [[? ?] ?].
    + by rewrite Hp, Hlen.
  - erewrite M_bind_raise in Hrun by reflexivity. by injection Hrun as <- <-.
Qed.

(** *** The whole run *)

Definition pending (r : RecommendationRun) : Prop := run_state r = RunPending \/ run_state r = RunRunning.

Lemma pending_not_terminal r : pending r ->
  bool_decide (run_state r = RunSucceeded \/ run_state r = RunFailed) = false.
Proof. intros [E|E]; apply bool_decide_eq_false; rewrite E; by intros []. Qed.

Definition numbered (x : scored_listing) : Prop :=
  nan x.1.1 = false /\ nan (cost_of x.1.2) = false.

Lemma baseline_ranking_sorted scored : Forall numbered scored ->
  StronglySorted (fun a b => fltb a b = false) (map (fun x => x.1.1) (baseline_ranking scored)).
Proof.
  intros Hn. unfold baseline_ranking.
  set (score := fun x : scored_listing => x.1.1). set (cost := fun x : scored_listing => cost_of x.1.2).
  rewrite (sort_by_ext baseline_ltb (rank_ltb score cost (fun x => listing_id x.1.2)))
    by (intros [[sa la] ca] [[sb lb] cb]; done).
  assert (Hs : StronglySorted (fun a b => fltb (score a) (score b) = false)
                 (sort_by (rank_ltb score cost (fun x => listing_id x.1.2)) scored)).
  { eapply rank_sorted_scores; [|by apply rank_sorted]. by rewrite sort_by_perm. }
  induction Hs as [|a l Hs IH Ha]; simpl; constructor; [done|]. by apply Forall_map.
Qed.

(** A lost optimistic lock is reported as a transient error. *)
Definition race (e : exn) : exn :=
  match e with ConcurrencyConflict _ _ => RadarTransientError "radar.run_race" | e => e end.

(** The run with the job execution it is processed by, unless it had one *)
Definition with_execution (job : option Z) (r : RecommendationRun) : RecommendationRun :=
  match job, run_job_execution_id r with Some j, None => with_job (Some j) r | _, _ => r end.

Lemma with_execution_fields job r :
  run_id (with_execution job r) = run_id r
  /\ run_correlation_id (with_execution job r) = run_correlation_id r
  /\ run_failure_code (with_execution job r) = run_failure_code r
  /\ run_score_policy_version (with_execution job r) = run_score_policy_version r.
Proof. unfold with_execution. by repeat case_match. Qed.

(** The steps of [process_run] on a run that is still to be done *)
Lemma process_run_steps pid vid job w s p v r :
  profile_get pid (state_of s).1 = Some p -> version_get vid (state_of s).1 = Some v ->
  get_for_version pid vid (state_of s).1 = Some r -> pending r ->
  forall res s1,
      score_items cfg p vid (run_id r) (run_correlation_id r) (run_candidates p (state_of s).1) w s
      = (res, s1) ->
      match res with
      | Raise e => process_run cfg pid vid job w s = (Raise e, s1)
      | Ok (items, es) =>
          let n := Z.of_nat (length (run_candidates p (state_of s).1)) in
          let m := Z.of_nat (length items) in
          let now := time_at w (ticks s1) in
          let final := with_published n m now (with_execution job r) in
          let event := run_event cfg (uuid_at w (drawn s1)) now pid (run_id r) (run_correlation_id r) n m in
          let '(out, d') := run_publish (time_at w (ticks s1 + 1)) final items event es (state_of s1).1 in
          exists s', process_run cfg pid vid job w s
            = (match out with
               | Ok _ => Ok (_summary final)
               | Raise e => Raise (race e)
               end, s')
            /\ state_of s' = (d', (state_of s1).2)
      end.
Proof.
  intros Hp Hv Hr Hpend res s1 Hitems. unfold process_run, read.
  erewrite M_bind_run by reflexivity. rewrite Hp.
  erewrite M_bind_run by reflexivity. rewrite Hv.
  erewrite M_bind_run by reflexivity. rewrite Hr, pending_not_terminal by done.
  erewrite M_bind_run by reflexivity. fold (run_candidates p (state_of s).1) (with_execution job r).
  destruct (with_execution_fields job r) as (Hid & Hcorr & _). rewrite Hid, Hcorr.
  destruct res as [[items es]|e]; [|by erewrite M_bind_raise by exact Hitems].
  erewrite M_bind_run by exact Hitems. cbv iota beta zeta.
  erewrite M_bind_run by reflexivity. erewrite M_bind_run by reflexivity.
  cbn [state_of drawn ticks].
  destruct (run_publish _ _ _ _ _ _) as [out d'] eqn:Hpub.
  unfold try_except, on_db, mbind, M_bind, clock. cbn [state_of drawn ticks].
  replace (Datatypes.S (ticks s1)) with (ticks s1 + 1)%nat by lia. rewrite Hpub.
  destruct out as [[]|e]; [by eexists|]. destruct e; by eexists.
Qed.
End process.


(** ** Processing again *)

Lemma max_by_map {A} (lt : A -> A -> bool) (f : A -> A) l :
  (forall a b, lt (f a) (f b) = lt a b) -> max_by lt (map f l) = f <$> max_by lt l.
Proof.
  intros Hf. destruct l as [|x l]; [done|]. simpl. f_equal. revert x.
  induction l as [|y l IH]; intros x; [done|]. simpl. rewrite Hf. rewrite <- IH. by destruct (lt x y).
Qed.

Lemma filter_map_commute {A} (P : A -> bool) (f : A -> A) l :
  (forall a, P (f a) = P a) -> List.filter P (map f l) = map f (List.filter P l).
Proof.
  intros Hf. induction l as [|a l IH]; [done|]. simpl. rewrite Hf, IH. by destruct (P a).
Qed.

Lemma max_by_elem {A} (lt : A -> A -> bool) l x : max_by lt l = Some x -> x ∈ l.
Proof.
  destruct l as [|y l]; [done|]. simpl. intros [= <-]. revert y.
  induction l as [|z l IH]; intros y; simpl; [set_solver|].
  destruct (lt y z); [specialize (IH z)|specialize (IH y)]; set_solver.
Qed.

Lemma get_for_version_elem pid vid d r :
  get_for_version pid vid d = Some r -> r ∈ t_runs d /\ run_profile_id r = pid.
Proof.
  intros Hr%max_by_elem%list_elem_of_In. apply filter_In in Hr as [Hin Hp].
  apply list_elem_of_In in Hin. split; [done|]. by apply andb_true_iff in Hp as [?%Z.eqb_eq _].
Qed.

(** With unique run ids, the update of a row is a map over the table. *)
Lemma update_run_map d id (row : RecommendationRun -> RecommendationRun) r :
  db_inv d -> run_get id d = Some r ->
  update_by run_id id (fun _ => row r) (t_runs d)
  = map (fun a => if run_id a =? id then row a else a) (t_runs d).
Proof.
  intros Hinv [Hin Hid]%get_by_Some. unfold update_by. apply map_ext_in. intros a Ha.
  destruct (Z.eqb_spec (run_id a) id) as [E|]; [|done]. f_equal. symmetry.
  apply (table_unique run_clash run_check (t_runs d)); [apply Hinv|by apply list_elem_of_In|done|..];
    unfold run_clash; by rewrite E, Hid, Z.eqb_refl.
Qed.

Lemma get_for_version_published now run n pid vid d d' r :
  db_inv d -> get_for_version pid vid d = Some r -> run_id run = run_id r ->
  t_runs d' = update_by run_id (run_id run)
                (fun _ => published_row now run n (default r (run_get (run_id run) d))) (t_runs d) ->
  get_for_version pid vid d' = Some (published_row now run n r).
Proof.
  intros Hinv Hr Hid Hruns. pose proof (get_for_version_elem _ _ _ _ Hr) as [Hin _].
  assert (Hget : run_get (run_id run) d = Some r).
  { unfold run_get, get_by. rewrite Hid. destruct (find_first _ _) as [q|] eqn:E.
    - apply find_first_Some in E as [Hq E%Z.eqb_eq]. f_equal.
      apply (table_unique run_clash run_check (t_runs d)); [apply Hinv|done..| |];
        unfold run_clash; by rewrite E, Z.eqb_refl.
    - apply find_first_None in E. rewrite Forall_forall in E. specialize (E r Hin). simpl in E.
      by rewrite Z.eqb_refl in E. }
  rewrite Hget in Hruns. simpl in Hruns.
  rewrite (update_run_map d _ (published_row now run n) r Hinv Hget) in Hruns.
  unfold get_for_version in *. rewrite Hruns, filter_map_commute by (intros; by case_match).
  rewrite max_by_map, Hr.
  - simpl. by rewrite Hid, Z.eqb_refl.
  - intros a b. unfold run_lt. by repeat case_match.
Qed.


(** ** Pages *)

(** The items of a run in page order *)
Definition run_items (rid : Z) (d : db) : list RecommendationItem :=
  sort_by item_lt (List.filter (fun i => item_run_id i =? rid) (t_items d)).

Definition before (a b : RecommendationItem) : Prop := item_position a < item_position b.

Lemma item_lt_sorted l : StronglySorted (in_order item_lt) (sort_by item_lt l).
Proof.
  apply (sort_by_sorted item_lt (fun _ => True)); [| |by apply Forall_true].
  - intros a b _ _. unfold item_lt. lia.
  - intros a b c _ _ _. unfold item_lt. lia.
Qed.

(** Sorting items of distinct positions sorts them strictly by position. *)
Lemma sort_before l : NoDup (map item_position l) -> StronglySorted before (sort_by item_lt l).
Proof.
  intros Hnd. assert (Hnd' : NoDup (map item_position (sort_by item_lt l)))
    by (by rewrite sort_by_perm).
  pose proof (item_lt_sorted l) as Hs. induction Hs as [|a s Hs IH Ha]; [constructor|].
  apply NoDup_cons in Hnd' as [Hnin Hnd']. constructor; [by apply IH|].
  rewrite Forall_forall in Ha |- *. intros b Hb. specialize (Ha b Hb). unfold in_order, item_lt in Ha.
  assert (item_position a <> item_position b).
  { intros E. apply Hnin. rewrite E. by apply list_elem_of_fmap_2. }
  unfold before. lia.
Qed.

Lemma before_unique l1 l2 :
  StronglySorted before l1 -> StronglySorted before l2 -> Permutation l1 l2 -> l1 = l2.
Proof. apply StronglySorted_unique_strong. unfold before. lia. Qed.

Lemma run_positions rid d : db_inv d ->
  NoDup (map item_position (List.filter (fun i => item_run_id i =? rid) (t_items d))).
Proof.
  intros Hinv. pose proof (no_clash _ _ _ (inv_items _ Hinv)) as Hs.
  induction Hs as [|a l Hs IH Ha]; [constructor|]. simpl.
  destruct (Z.eqb_spec (item_run_id a) rid) as [E|]; [|done]. simpl. constructor; [|done].
  intros (b & Hab & Hb)%list_elem_of_fmap. apply list_elem_of_In, filter_In in Hb as [Hb Hrb%Z.eqb_eq].
  rewrite Forall_forall in Ha. apply list_elem_of_In in Hb. specialize (Ha b Hb).
  unfold item_clash in Ha. rewrite Hab, E, Hrb, !Z.eqb_refl in Ha. simpl in Ha.
  by rewrite orb_true_r in Ha.
Qed.

Lemma run_items_before rid d : db_inv d -> StronglySorted before (run_items rid d).
Proof. intros. by apply sort_before, run_positions. Qed.

Lemma filter_before (P : RecommendationItem -> bool) l :
  StronglySorted before l -> StronglySorted before (List.filter P l).
Proof.
  intros Hs. induction Hs as [|a l Hs IH Ha]; [constructor|]. simpl. destruct (P a); [|done].
  constructor; [done|]. rewrite Forall_forall in Ha |- *. intros b Hb. apply Ha.
  apply list_elem_of_In. by apply list_elem_of_In, filter_In in Hb as [? _].
Qed.

Lemma filter_perm {A} (P : A -> bool) l1 l2 :
  Permutation l1 l2 -> Permutation (List.filter P l1) (List.filter P l2).
Proof.
  induction 1 as [|x l1 l2 _ IH|x y l|l1 l2 l3 _ IH1 _ IH2]; simpl; [done| | |by transitivity (List.filter P l2)].
  - destruct (P x); [by constructor|done].
  - destruct (P x), (P y); try done. constructor.
Qed.

(** A page is a slice of the items after a position. *)
Lemma list_for_run_spec rid after limit d : db_inv d -> 0 <= limit ->
  list_for_run rid after limit d
  = Ok (take (Z.to_nat limit)
          (List.filter (fun i => opt_check (fun a => a <? item_position i) after) (run_items rid d))).
Proof.
  intros Hinv Hl. unfold list_for_run. destruct (Z.ltb_spec limit 0); [lia|]. do 2 f_equal.
  pose proof (run_positions rid d Hinv) as Hnd. apply before_unique.
  - apply sort_before. clear -Hnd.
    induction (t_items d) as [|i l IH]; simpl; [constructor|]. simpl in Hnd.
    destruct (item_run_id i =? rid); simpl in *; [|by apply IH].
    apply NoDup_cons in Hnd as [Hnin Hnd]. destruct (opt_check _ _); [|by apply IH].
    simpl. constructor; [|by apply IH]. intros (j & Hj & Hin)%list_elem_of_fmap.
    apply Hnin. rewrite Hj. apply list_elem_of_fmap_2.
    apply list_elem_of_In, filter_In in Hin as [Hin [Hr _]%andb_true_iff].
    by apply list_elem_of_In, filter_In.
  - by apply filter_before, run_items_before.
  - rewrite sort_by_perm. unfold run_items.
    rewrite (filter_perm _ _ _ (sort_by_perm item_lt _)). clear.
    induction (t_items d) as [|i l IH]; [done|]. simpl.
    destruct (item_run_id i =? rid); simpl; [|done]. destruct (opt_check _ _); [by constructor|done].
Qed.

Lemma filter_after l j x : StronglySorted before l -> l !! j = Some x ->
  List.filter (fun i => item_position x <? item_position i) l = drop (S j) l.
Proof.
  intros Hs. revert j. induction Hs as [|a l Hs IH Ha]; intros j Hj; [done|].
  rewrite Forall_forall in Ha. destruct j as [|j]; simpl in *.
  - injection Hj as ->. rewrite Z.ltb_irrefl. apply forallb_filter_id, forallb_forall.
    intros b Hb%list_elem_of_In%Ha. by apply Z.ltb_lt.
  - assert (before a x) by (by eapply Ha, list_elem_of_lookup_2). unfold before in *.
    destruct (Z.ltb_spec (item_position x) (item_position a)); [lia|]. by apply IH.
Qed.

Section pages.
Context {J : Type} `{JobPort J} `{NumericColumns}.

(** A client that follows [next_after_position] until there is none *)
Fixpoint walk (fuel : nat) (owner pid rid : Z) (after : option Z) (limit : Z)
  : M (db * J) (list RecommendationItem) :=
  match fuel with
  | O => raise AssertionError
  | S fuel =>
      page ← get_matches owner pid (Some rid) after limit;
      match page_next_after_position page with
      | None => mret (page_items page)
      | Some a => rest ← walk fuel owner pid rid (Some a) limit; mret (page_items page ++ rest)
      end
  end.

(** A page of a succeeded run that its owner asks for *)
Lemma get_matches_page owner pid rid after limit w (s : sys (db * J)) p run items :
  profile_get pid (state_of s).1 = Some p -> owner_id p = owner ->
  run_get rid (state_of s).1 = Some run -> run_profile_id run = pid -> run_state run = RunSucceeded ->
  list_for_run (run_id run) after limit (state_of s).1 = Ok items ->
  (Z.of_nat (length items) = limit -> items <> []) ->
  exists page, get_matches owner pid (Some rid) after limit w s = (Ok page, s)
    /\ page_items page = items
    /\ page_next_after_position page
       = if Z.of_nat (length items) =? limit then item_position <$> last items else None.
Proof.
  intros Hp Ho Hrun Hpid Hst Hitems Hne. unfold get_matches.
  erewrite M_bind_run by (by apply owned_run). unfold read.
  erewrite M_bind_run by reflexivity. rewrite Hrun, Hpid, Z.eqb_refl. cbn [negb].
  rewrite bool_decide_eq_true_2 by done. cbn [negb].
  erewrite M_bind_run; [|erewrite M_bind_run by reflexivity; unfold lift; by rewrite Hitems].
  destruct (Z.eqb_spec (Z.of_nat (length items)) limit) as [E|E].
  - destruct (last items) as [x|] eqn:Hlast; [|by apply last_None, Hne in Hlast].
    erewrite M_bind_run by reflexivity. erewrite M_bind_run by reflexivity.
    erewrite M_bind_run by reflexivity. by eexists.
  - erewrite M_bind_run by reflexivity. erewrite M_bind_run by reflexivity.
    erewrite M_bind_run by reflexivity. by eexists.
Qed.

Lemma last_take_drop {A} (l : list A) k n x :
  last (take n (drop k l)) = Some x -> length (take n (drop k l)) = n -> (0 < n)%nat ->
  l !! (k + n - 1)%nat = Some x.
Proof.
  intros Hlast Hlen Hn. rewrite last_lookup, Hlen in Hlast.
  rewrite lookup_take_lt in Hlast by lia. rewrite lookup_drop in Hlast.
  replace (k + n - 1)%nat with (k + Nat.pred n)%nat by lia. done.
Qed.

Lemma walk_from fuel owner pid rid after limit w (s : sys (db * J)) p run k :
  db_inv (state_of s).1 -> 0 < limit ->
  profile_get pid (state_of s).1 = Some p -> owner_id p = owner ->
  run_get rid (state_of s).1 = Some run -> run_profile_id run = pid -> run_state run = RunSucceeded ->
  let l := run_items (run_id run) (state_of s).1 in
  List.filter (fun i => opt_check (fun a => a <? item_position i) after) l = drop k l ->
  (length (drop k l) < fuel)%nat ->
  walk fuel owner pid rid after limit w s = (Ok (drop k l), s).
Proof.
  intros Hinv Hlim Hp Ho Hrun Hpid Hst l. revert after k.
  induction fuel as [|fuel IH]; intros after k Hafter Hfuel; [lia|]. cbn [walk].
  pose proof (list_for_run_spec (run_id run) after limit _ Hinv ltac:(lia)) as Hitems.
  fold l in Hitems. rewrite Hafter in Hitems. set (n := Z.to_nat limit) in *.
  edestruct (get_matches_page owner pid rid after limit w s p run) as (page & Hpage & Hpi & Hnext);
    [done..|exact Hitems|intros E Hnil; rewrite Hnil in E; simpl in E; lia|].
  erewrite M_bind_run by exact Hpage. rewrite Hnext, Hpi.
  destruct (Z.eqb_spec (Z.of_nat (length (take n (drop k l)))) limit) as [E|E].
  - assert (Hlen : length (take n (drop k l)) = n) by lia.
    destruct (last (take n (drop k l))) as [x|] eqn:Hlast.
    2:{ apply last_None in Hlast. rewrite Hlast in Hlen. simpl in Hlen. lia. }
    apply last_take_drop in Hlast; [|done|lia]. simpl.
    assert (Hdrop : drop (S (k + n - 1)) l = drop n (drop k l)).
    { rewrite drop_drop. f_equal. lia. }
    erewrite M_bind_run.
    2:{ apply (IH (Some (item_position x)) (S (k + n - 1))%nat).
        - simpl. apply filter_after; [by apply run_items_before|done].
        - rewrite Hdrop, length_drop. rewrite length_take in Hlen. lia. }
    unfold mret, M_ret. rewrite Hdrop. by rewrite take_drop.
  - unfold mret, M_ret. rewrite take_ge; [done|]. rewrite length_take in E. lia.
Qed.

(** A client that walks the pages of a succeeded run with any positive page size gets
    every item of the run exactly once, in increasing position, and changes nothing. *)
Theorem pages_enumerate_run owner pid rid limit w (s : sys (db * J)) p run :
  db_inv (state_of s).1 -> 0 < limit ->
  profile_get pid (state_of s).1 = Some p -> owner_id p = owner ->
  run_get rid (state_of s).1 = Some run -> run_profile_id run = pid -> run_state run = RunSucceeded ->
  exists items,
    walk (S (length (t_items (state_of s).1))) owner pid rid None limit w s = (Ok items, s)
    /\ Permutation items (List.filter (fun i => item_run_id i =? rid) (t_items (state_of s).1))
    /\ StronglySorted (fun a b => item_position a < item_position b) items.
Proof.
  intros Hinv Hlim Hp Ho Hrun Hpid Hst.
  pose proof (get_by_Some _ _ _ _ Hrun) as [_ Hid].
  exists (run_items (run_id run) (state_of s).1). split; [|split].
  - change (run_items (run_id run) (state_of s).1) with (drop 0 (run_items (run_id run) (state_of s).1)).
    eapply walk_from; try done.
    + simpl. by apply forallb_filter_id, forallb_forall.
    + rewrite drop_0. unfold run_items.
      rewrite (Permutation_length (sort_by_perm item_lt _)).
      apply Nat.lt_succ_r, List.filter_length_le.
  - unfold run_items. rewrite sort_by_perm. by rewrite Hid.
  - by apply run_items_before.
Qed.
End pages.

(** ** A sample run *)

Definition radar_listing (id cost : Z) (n_rooms : option Z) (zone : string) : NormalizedListing :=
  MkNormalizedListing id 1 id 1 (MkSourceIdentity "portal" "1" "1") "x" None None 0 "silver-v1" Rental
    Apartment (FFin (inject_Z cost)) ARS None None (Some (FFin (inject_Z cost))) [] None n_rooms None
    None [] None "" (Some zone) Exact None None [].

(** Three listings pass, one is too dear, one is elsewhere, one has too few rooms. *)
Definition radar_listings : list NormalizedListing :=
  [radar_listing 50 900 (Some 1) "Palermo"; radar_listing 51 400 None "palermo";
   radar_listing 52 2000 (Some 2) "palermo"; radar_listing 53 400 (Some 2) "recoleta";
   radar_listing 54 300 (Some 0) "palermo"; radar_listing 55 600 (Some 3) "palermo"].

Definition with_listings (ls : list NormalizedListing) (d : db) : db :=
  MkDb (t_profiles d) (t_versions d) (t_runs d) (t_items d) (t_events d) (t_evaluations d)
    (t_policies d) (t_policy_versions d) (t_shortlists d) ls (t_changes d) (t_observations d)
    (t_compilations d).

#[local] Instance plain_columns' : NumericColumns := plain_columns.
#[local] Instance sample_jobs' : JobPort runtime := sample_jobs.

Definition ready : sys (db * runtime) :=
  Sys (with_listings radar_listings (state_of created).1, (state_of created).2) (drawn created)
    (ticks created).
Definition processed : sys (db * runtime) :=
  (process_run sample_radar 1000 1001 None sample_world ready).2.
Definition processed_summary : odict string pyval :=
  ok_or [] (process_run sample_radar 1000 1001 None sample_world ready).1.
Definition sample_pending : RecommendationRun :=
  match get_for_version 1000 1001 (state_of ready).1 with
  | Some r => r
  | None => MkRecommendationRun 0 0 0 RunFailed TriggerCreated "" 0 0 None None 0 None 0 0 "" None
  end.
Definition ready_version : ProfileVersion :=
  match version_get 1001 (state_of ready).1 with
  | Some v => v
  | None => MkProfileVersion 0 0 0 [] 0 0 "" None
  end.

Lemma processed_run :
  process_run sample_radar 1000 1001 None sample_world ready = (Ok processed_summary, processed).
Proof.
  refine (run_ok [] (process_run sample_radar 1000 1001 None) sample_world ready _).
  vm_compute. reflexivity.
Qed.

Lemma with_listings_inv ls d : db_inv d -> db_inv (with_listings ls d).
Proof. by intros []. Qed.

Lemma ready_inv : db_inv (state_of ready).1.
Proof.
  assert (Hc : db_inv (state_of created).1).
  { apply (keeps_create_profile sample_radar db_inv); [intros; by apply profile_insert_inv|
      intros; by apply version_insert_inv|intros; by apply run_insert_inv|
      intros; by apply event_insert_inv|apply db_inv_empty]. }
  exact (with_listings_inv radar_listings _ Hc).
Qed.



Definition published_run : RecommendationRun :=
  match run_get (run_id sample_pending) (state_of processed).1 with
  | Some r => r
  | None => sample_pending
  end.

Lemma processed_inv : db_inv (state_of processed).1.
Proof.
  apply (keeps_process_run sample_radar db_inv).
  - intros. by apply run_publish_inv.
  - by apply installed_keeps; [intros ??? []|left].
  - apply ready_inv.
Qed.

(** Two pages of size 2 *)
Lemma pages_enumerate_run_witness :
  0 < 2 /\ exists items,
    walk 4 7 1000 (run_id published_run) None 2 sample_world processed = (Ok items, processed)
    /\ StronglySorted (fun a b => item_position a < item_position b) items.
Proof.
  split; [lia|].
  destruct (pages_enumerate_run 7 1000 (run_id published_run) 2 sample_world processed created_profile
              published_run) as (items & Hw & _ & Hs).
  - apply processed_inv.
  - lia.
  - vm_compute. reflexivity.
  - vm_compute. reflexivity.
  - vm_compute. reflexivity.
  - vm_compute. reflexivity.
  - vm_compute. reflexivity.
  - exists items. split; [exact Hw|exact Hs].
Defined.
