(* ===== verification/RadarGaps.v ===== *)
(** * Where the radar's parts meet

    The SQL narrowing against the hard filters, and the behaviours at the seams of the
    service: a resumed run and the job it names, a snapshot whose update fails, the
    current version of a new profile, the identity of a recorded event. *)

From S2P Require Export JobRuntime RadarRuns.
#[local] Open Scope list_scope.

(** ** Narrowing in SQL *)

Lemma filter_filter {A} (f g : A -> bool) l :
  List.filter f (List.filter g l) = List.filter (fun x => g x && f x) l.
Proof.
  induction l as [|x l IH]; [done|]. simpl. destruct (g x); simpl; [|done]. by rewrite IH.
Qed.

Lemma filter_ext_in' {A} (f g : A -> bool) l :
  (forall x, x ∈ l -> f x = g x) -> List.filter f l = List.filter g l.
Proof. intros Hfg. apply filter_ext_in. intros x Hx. by apply Hfg, list_elem_of_In. Qed.

(** A listing as the table holds it: a cost that is a number, a neighbourhood on which
    SQL's [lower] and Python's [casefold] agree *)
Definition plain_listing (l : NormalizedListing) : Prop :=
  (forall c, total_cost l = Some c -> nan c = false)
  /\ (forall n, neighborhood l = Some n -> lower n = casefold n).

(** What the SQL query drops, the hard filters would drop. *)
Lemma candidate_match_complete p l :
  _strategy p "price" = "exclude" -> nan (budget_max p) = false -> plain_listing l ->
  apply_hard_filters l p = true -> candidate_match p l = true.
Proof.
  intros Hprice Hbm [Hnan Hcase] (Ho & Hcost & Hloc & Hrooms)%hard_filters_spec.
  destruct (Hcost Hprice) as (c & Hc & Hpos & Hmax). specialize (Hnan c Hc).
  unfold candidate_match. rewrite bool_decide_eq_true_2 by done. rewrite Hc.
  rewrite fleb_fltb in Hpos by done. apply negb_false_iff in Hpos. rewrite Hpos.
  rewrite fleb_fltb by done. rewrite Hmax. cbn [andb negb].
  apply andb_true_iff. split.
  - destruct (decide (_strategy p "location" = "exclude")) as [Hl|Hl];
      [|by rewrite bool_decide_eq_false_2].
    rewrite bool_decide_eq_true_2 by done. destruct (Hloc Hl) as (n & Hn & Hin). rewrite Hn. simpl.
    rewrite Hcase by done. by apply bool_decide_eq_true.
  - destruct (Z.ltb_spec 0 (min_rooms p)) as [Hr|Hr]; [|done]. simpl.
    destruct (rooms l) as [r|]; [|done]. by apply Z.leb_le, Hrooms.
Qed.

(** For a profile that excludes unknown prices, narrowing the candidates in SQL before
    the hard filters selects the same listings as the hard filters alone would. *)
Theorem sql_narrowing_equivalent p d :
  _strategy p "price" = "exclude" -> nan (budget_max p) = false ->
  Forall plain_listing (t_listings d) ->
  Permutation (run_candidates p d) (List.filter (fun l => apply_hard_filters l p) (t_listings d)).
Proof.
  intros Hprice Hbm Hplain. unfold run_candidates, list_candidates.
  rewrite (filter_perm _ _ _ (sort_by_perm _ _)), filter_filter.
  erewrite filter_ext_in'; [done|]. intros l Hl. simpl.
  destruct (apply_hard_filters l p) eqn:E; [|by rewrite andb_false_r].
  rewrite candidate_match_complete; [done..| |done].
  by apply (proj1 (Forall_forall _ _) Hplain).
Qed.

Lemma sql_narrowing_equivalent_witness :
  map listing_id (run_candidates created_profile (state_of ready).1) = [50; 51; 55]
  /\ Permutation (run_candidates created_profile (state_of ready).1)
       (List.filter (fun l => apply_hard_filters l created_profile) (t_listings (state_of ready).1)).
Proof.
  split; [vm_compute; reflexivity|].
  apply (sql_narrowing_equivalent created_profile (state_of ready).1).
  - vm_compute. reflexivity.
  - vm_compute. reflexivity.
  - repeat constructor; intros ? [= <-]; vm_compute; reflexivity.
Defined.

(** ** A resumed run *)

Lemma submit_existing jc fresh c j id e :
  resolve_command jc c = Ok c -> _identity_index j !! identity_key (sub_identity c) = Some id ->
  oget id (_executions j) = Some e -> submit jc fresh c j = (Ok (_snapshot e), j).
Proof. intros Hr Hi He. unfold submit. by rewrite Hr, Hi, He. Qed.

(** The run submitted for an edit or a resumption shares its job's identity with every
    other run of the same profile version: when a job of that identity exists, finished
    or not, the new run is stored as pending with that job and nothing is enqueued. *)
Theorem resumed_run_reuses_job jc cfg p v trigger w (s s' : sys (db * runtime))
    command id e run :
  let submit := @_submit_run runtime (in_memory_port jc) cfg p v trigger in
  handlers jc = None -> job_enabled cfg = true ->
  run_exists (profile_id p) (pv_version_id v) trigger (state_of s).1 = false ->
  SubmitJob_create 0 (run_job_type cfg) (_job_target (profile_id p) (pv_version_id v))
    (run_key (profile_id p) (pv_version_id v)) (Some (sp_correlation_id p)) (Some AuditActor_system) 5
  = Ok command ->
  _identity_index (state_of s).2 !! identity_key (sub_identity command) = Some id ->
  oget id (_executions (state_of s).2) = Some e ->
  submit w s = (Ok (Some run), s') ->
  run_state run = RunPending /\ run_job_execution_id run = Some (e_execution_id e)
  /\ t_runs (state_of s').1 = t_runs (state_of s).1 ++ [run_row run]
  /\ (state_of s').2 = (state_of s).2.
Proof.
  cbv zeta. intros Hh Hen Hex Hcmd Hidx He Hrun. unfold _submit_run in Hrun. rewrite Hen in Hrun.
  cbn [negb] in Hrun. unfold read in Hrun. erewrite M_bind_run in Hrun by reflexivity.
  rewrite Hex in Hrun. erewrite M_bind_run in Hrun by reflexivity.
  erewrite M_bind_run in Hrun by reflexivity.
  erewrite M_bind_run in Hrun by (unfold lift; by rewrite Hcmd).
  assert (Hr : resolve_command jc command = Ok command) by (unfold resolve_command; by rewrite Hh).
  erewrite M_bind_run in Hrun.
  2:{ unfold on_jobs, submit_job, in_memory_port. cbn [state_of drawn ticks].
      rewrite (submit_existing jc _ command _ id e Hr Hidx He). reflexivity. }
  apply M_bind_Ok in Hrun as ([] & s1 & Hins & Hrun). injection Hrun as <- <-.
  unfold on_db, run_insert in Hins. cbn [state_of] in Hins.
  destruct (insert_row _ _ _ _) as [t|] eqn:Et; [|done].
  injection Hins as <-. apply insert_row_Some in Et as (-> & _). by repeat split.
Qed.

#[local] Instance plain_columns'' : NumericColumns := plain_columns.
#[local] Instance sample_jobs'' : JobPort runtime := sample_jobs.

(** The job of the created profile is relayed, claimed and completed; then the profile is
    paused and resumed. *)
Definition sample_execution_id : Z := default 0 (run_job_execution_id sample_pending).
Definition sample_claim : JobClaim :=
  MkJobClaim sample_execution_id 1 "w1"
    (MkJobContext sample_execution_id 1 9 "release-1"
       (Some (_job_target 1000 1001))).
Definition jobs_done : runtime :=
  let relayed := (relay_due 10 (state_of processed).2 ([] : recording_queue)).2.1 in
  let claimed := (claim sample_job_config sample_execution_id 1 "w1" relayed).2 in
  (record_outcome 0 sample_claim (OutResult (VDict [])) claimed).2.
Definition paused : sys (db * runtime) :=
  (set_status sample_radar 7 1000 1 ProfilePaused 9 "user" None sample_world
     (Sys ((state_of processed).1, jobs_done) (drawn processed) (ticks processed))).2.
Definition resume_command : SubmitJob :=
  ok_or (MkSubmitJob (MkJobIdentity "" "" "") 0 AuditActor_system 0)
    (SubmitJob_create 0 RADAR_RUN_JOB_TYPE (_job_target 1000 1001) (run_key 1000 1001) (Some 9)
       (Some AuditActor_system) 5).
Definition finished_job : _Execution :=
  match oget sample_execution_id (_executions (state_of paused).2) with
  | Some e => e
  | None => new_execution 0 0 resume_command
  end.
Definition resumed : result (option RecommendationRun) * sys (db * runtime) :=
  _submit_run sample_radar created_profile ready_version TriggerResumed sample_world paused.

(** The resumed run waits for a job that has already succeeded. *)
Lemma resumed_run_reuses_job_witness :
  e_state finished_job = SUCCEEDED
  /\ exists run, run_state run = RunPending
       /\ run_job_execution_id run = Some (e_execution_id finished_job)
       /\ (state_of resumed.2).2 = (state_of paused).2.
Proof.
  split; [vm_compute; reflexivity|].
  exists (default sample_pending (ok_or None resumed.1)).
  destruct (resumed_run_reuses_job sample_job_config sample_radar created_profile ready_version
              TriggerResumed sample_world paused resumed.2 resume_command sample_execution_id
              finished_job (default sample_pending (ok_or None resumed.1))) as (H1 & H2 & _ & H4).
  - reflexivity.
  - reflexivity.
  - vm_compute. reflexivity.
  - vm_compute. reflexivity.
  - vm_compute. reflexivity.
  - vm_compute. reflexivity.
  - refine (run_ok_some sample_pending (_submit_run sample_radar created_profile ready_version
              TriggerResumed) sample_world paused _). vm_compute. reflexivity.
  - exact (conj H1 (conj H2 H4)).
Defined.

(** ** Snapshots of failed updates *)

(** An update that fails to be stored keeps the profile as it was but leaves the
    version it had snapshot: here a validated negative surface, which the table refuses,
    makes version 2 of a profile that stays at version 1. *)
Theorem failed_update_leaves_snapshot :
  let '(r, s') := update_profile sample_radar 7 1000 1 [("surface_min", VFloat (FFin (-5)))] 9 "user"
                    (Some "7") sample_world created in
  r = Raise IntegrityError
  /\ t_profiles (state_of s').1 = t_profiles (state_of created).1
  /\ option_map pv_profile_version (version_latest_for_profile 1000 (state_of created).1) = Some 1
  /\ option_map pv_profile_version (version_latest_for_profile 1000 (state_of s').1) = Some 2.
Proof. vm_compute. by repeat split. Qed.

(** ** The current version of a new profile *)

Section creation.
Context {J : Type} `{JobPort J} `{NumericColumns}.
Variable cfg : radar_config.

Lemma profile_insert_stored p d d' : profile_insert p d = (Ok tt, d') ->
  profile_get (profile_id p) d' = Some (profile_row p).
Proof.
  unfold profile_insert. destruct (insert_row _ _ _ _) as [t|] eqn:E; [|done]. intros [= <-].
  apply insert_row_Some in E as (-> & _ & Hclash). unfold profile_get. simpl. rewrite get_by_app.
  assert (Hnone : get_by profile_id (profile_id p) (t_profiles d) = None).
  { apply find_first_None. eapply Forall_impl; [exact Hclash|]. intros q Hq.
    unfold profile_clash in Hq. apply orb_false_iff in Hq as [Hq _]. simpl in Hq. lia. }
  rewrite Hnone. unfold get_by. simpl. by rewrite Z.eqb_refl.
Qed.

(** A method that does not write the profiles keeps a stored profile. *)
Lemma keeps_stored {A} (m : M (db * J) A) w s q id :
  (forall d0, preserves (service_inv (fun d => t_profiles d = d0)) m) ->
  profile_get id (state_of s).1 = Some q -> profile_get id (state_of (m w s).2).1 = Some q.
Proof. intros Hm Hq. unfold profile_get. by rewrite (Hm _ w s eq_refl). Qed.

(** The profile that [create_profile] returns carries its first version as current
    version; the profile that it stores carries none. *)
Theorem created_profile_version_unset owner n zs bmax bmin rooms smin smax strategy corr kind aid w
    (s s' : sys (db * J)) p run :
  create_profile cfg owner n zs bmax bmin rooms smin smax strategy corr kind aid w s
  = (Ok (p, run), s') ->
  (exists v, current_version_id p = Some v)
  /\ exists q, profile_get (profile_id p) (state_of s').1 = Some q /\ current_version_id q = None
               /\ version q = 1 /\ status q = ProfileActive /\ owner_id q = owner.
Proof.
  intros Hrun. unfold create_profile in Hrun.
  do 8 (apply M_bind_Ok in Hrun as (? & ? & ? & Hrun)).
  apply M_bind_Ok in Hrun as ([] & s1 & Hins & Hrun).
  apply M_bind_Ok in Hrun as (v & s2 & Hv & Hrun).
  apply M_bind_Ok in Hrun as ([] & s3 & Hev & Hrun).
  apply M_bind_Ok in Hrun as (r & s4 & Hsub & Hrun). injection Hrun as <- _ <-.
  split; [by eexists|].
  unfold on_db in Hins. destruct (profile_insert _ _) as [o d'] eqn:E in Hins.
  injection Hins as -> <-. apply profile_insert_stored in E. simpl in E.
  assert (Hk : forall (d0 : list SearchProfile) v d, t_profiles d = d0 -> t_profiles (version_insert v d).2 = d0)
    by (intros; unfold version_insert; by case_match).
  assert (Hk2 : forall (d0 : list SearchProfile) e d, t_profiles d = d0 -> t_profiles (event_insert e d).2 = d0)
    by (intros; unfold event_insert; by case_match).
  assert (Hk3 : forall (d0 : list SearchProfile) e d, t_profiles d = d0 -> t_profiles (run_insert e d).2 = d0)
    by (intros; unfold run_insert; by case_match).
  match type of Hv with ?m w ?st = _ => pose proof (keeps_stored m w st _ _
    (fun d0 => keeps_snapshot (fun d => t_profiles d = d0) (Hk d0) _ _ _) E) as E1 end.
  rewrite Hv in E1.
  match type of Hev with ?m w ?st = _ => pose proof (keeps_stored m w st _ _
    (fun d0 => keeps_emit cfg (fun d => t_profiles d = d0) (Hk2 d0) _ _ _ _) E1) as E2 end.
  rewrite Hev in E2.
  match type of Hsub with ?m w ?st = _ => pose proof (keeps_stored m w st _ _
    (fun d0 => keeps_submit_run cfg (fun d => t_profiles d = d0) (Hk3 d0) _ _ _) E2) as E3 end.
  rewrite Hsub in E3. eexists. split; [exact E3|]. by repeat split.
Qed.
End creation.

Lemma created_profile_version_unset_witness :
  exists q, profile_get 1000 (state_of created).1 = Some q /\ current_version_id q = None.
Proof.
  destruct (created_profile_version_unset sample_radar 7 "depto" ["palermo"] (VInt 1000) VNone (VInt 1)
              VNone VNone None 9 "user" (Some "7") sample_world fresh_state created
              (ok_or (created_profile, None) (create_sample sample_world fresh_state).1).1
              (ok_or (created_profile, None) (create_sample sample_world fresh_state).1).2)
    as [_ (q & Hq & Hv & _)].
  - refine (eq_trans (run_ok (created_profile, None) create_sample sample_world fresh_state _) _).
    + vm_compute. reflexivity.
    + unfold created. by destruct (ok_or _ _).
  - exists q. split; [|exact Hv]. rewrite <- Hq. vm_compute. reflexivity.
Defined.

(** ** Recorded events *)

(** The payload has the keys its type requires, no other, and none that is forbidden. *)
Definition well_keyed (spec : EventsRegistrySpec) (event_type : string) (payload : odict string pyval)
  : Prop :=
  exists ty, oget event_type (event_types spec) = Some ty
    /\ (forall k, k ∈ okeys payload <-> k ∈ required_keys ty)
    /\ (forall k, k ∈ okeys payload -> k ∉ forbidden_keys spec).

Lemma validate_event_None spec ty payload :
  validate_event spec ty (VDict payload) = None <-> well_keyed spec ty payload.
Proof.
  unfold validate_event, well_keyed. destruct (oget ty (event_types spec)) as [t|]; [|naive_solver].
  assert (Hreq : forallb (fun k => omem k payload) (required_keys t) = true
                 <-> (forall k, k ∈ required_keys t -> k ∈ okeys payload)).
  { rewrite forallb_forall. setoid_rewrite <- list_elem_of_In. unfold omem.
    setoid_rewrite bool_decide_eq_true. split; intros Hk k Hin; specialize (Hk k Hin).
    - destruct (decide (k ∈ okeys payload)) as [|Hn]; [done|]. apply oget_None in Hn.
      rewrite Hn in Hk. by destruct Hk.
    - destruct (oget k payload) eqn:E; [by eexists|]. by apply oget_None in E. }
  assert (Hforb : existsb (fun k => bool_decide (k ∈ forbidden_keys spec)) (okeys payload) = false
                  <-> (forall k, k ∈ okeys payload -> k ∉ forbidden_keys spec)).
  { rewrite existsb_false_Forall, Forall_forall. by setoid_rewrite bool_decide_eq_false. }
  assert (Hextra : existsb (fun k => bool_decide (k ∉ required_keys t)) (okeys payload) = false
                   <-> (forall k, k ∈ okeys payload -> k ∈ required_keys t)).
  { rewrite existsb_false_Forall, Forall_forall. setoid_rewrite bool_decide_eq_false.
    split; intros Hk k Hin; specialize (Hk k Hin); [|naive_solver].
    destruct (decide (k ∈ required_keys t)); naive_solver. }
  destruct (forallb _ _); simpl; [|naive_solver].
  destruct (existsb _ _) in Hforb |- *; [naive_solver|].
  destruct (existsb _ _) in Hextra |- *; [naive_solver|]. naive_solver.
Qed.

(** A client event is recorded exactly when its payload has the keys its type requires,
    no other and no forbidden one; otherwise nothing changes.  The event that is stored
    has the type and payload of the one returned but an identity and a time of its own. *)
Theorem client_event_recorded {J} `{JobPort J} cfg ty payload aid corr w (s : sys (db * J)) :
  let '(out, s') := record_client_event cfg ty payload aid corr w s in
  match out with
  | Ok e =>
      well_keyed (events_registry cfg) ty payload
      /\ ev_event_type e = ty /\ ev_payload e = payload /\ ev_actor_id e = Some aid
      /\ exists e', t_events (state_of s').1 = t_events (state_of s).1 ++ [e']
         /\ ev_event_type e' = ty /\ ev_payload e' = payload /\ ev_actor_id e' = Some aid
         /\ ev_event_id e = uuid_at w (drawn s) /\ ev_event_id e' = uuid_at w (drawn s + 1)
         /\ ev_occurred_at e = time_at w (ticks s) /\ ev_occurred_at e' = time_at w (ticks s + 1)
  | Raise e => state_of s' = state_of s
               /\ (e <> IntegrityError -> ~ well_keyed (events_registry cfg) ty payload)
  end.
Proof.
  unfold record_client_event. destruct (validate_event _ _ _) as [code|] eqn:Ev.
  - simpl. split; [done|]. intros _ Hw. apply validate_event_None in Hw. congruence.
  - apply validate_event_None in Ev. unfold _emit_server_event, on_db, event_insert, mbind, M_bind.
    simpl. destruct (insert_row _ _ _ _) as [t|] eqn:Et.
    + apply insert_row_Some in Et as (-> & _). simpl. repeat split; [done|]. eexists.
      repeat split; simpl; f_equal; lia.
    + simpl. split; [by destruct (state_of s)|done].
Qed.
