(* ===== verification/IdentityDomain.v ===== *)
(** * Identity: addresses, events, records and the authorization matrix
    ([domain/identity/email.py], [events.py], [models.py], [policy.py]) *)

From S2P Require Export PyStr PyTime PyVal.
#[local] Open Scope list_scope.

(** ** Addresses *)

(** A character of [[^@\s<>]] *)
Definition is_mail_char (c : ascii) : bool :=
  negb (bool_decide (c = "@"%char) || is_space c || bool_decide (c = "<"%char) || bool_decide (c = ">"%char)).

(** [[^@\s<>]+\.[^@\s<>]+]: a dot that is neither the first nor the last character *)
Fixpoint inner_dot (l : list ascii) : bool :=
  match l with
  | c :: (_ :: _) as l' => bool_decide (c = "."%char) || inner_dot l'
  | _ => false
  end.
Definition is_domain (l : list ascii) : bool :=
  forallb is_mail_char l && match l with [] => false | _ :: l' => inner_dot l' end.

(** [_EMAIL.fullmatch]: the first "@" is the only one. *)
Fixpoint split_at (l : list ascii) : option (list ascii * list ascii) :=
  match l with
  | [] => None
  | c :: l' => if bool_decide (c = "@"%char) then Some ([], l')
               else '(a, b) ← split_at l'; Some (c :: a, b)
  end.
Definition _EMAIL (s : string) : bool :=
  match split_at (chars s) with
  | Some (local, domain) =>
      forallb is_mail_char local && negb (bool_decide (local = [])) && is_domain domain
  | None => false
  end.

Definition NORMALIZATION_VERSION : Z := 1.

Record EmailAddress := MkEmail { email_value : string; normalization_version : Z }.

(** [EmailAddress.__post_init__] *)
Definition EmailAddress_init (value : string) (version : Z) : result EmailAddress :=
  if negb (version =? NORMALIZATION_VERSION) then Raise ValueError
  else if negb (_EMAIL value) || (320 <? len value) then Raise ValueError
  else Ok (MkEmail value version).

(** The characters of [" \t\r\n\f\v"] *)
Definition is_ascii_space (c : ascii) : bool := in_range 9 13 c || (code c =? 32).

Definition ends_with_dot (s : string) : bool :=
  match rev (chars s) with c :: _ => bool_decide (c = "."%char) | [] => false end.
Definition starts_with_dot (s : string) : bool :=
  match chars s with c :: _ => bool_decide (c = "."%char) | [] => false end.

Definition normalize_email (raw : string) : result EmailAddress :=
  let value := lower (strip_by is_ascii_space raw) in
  if negb (_EMAIL value) || contains ".." value || starts_with_dot value || ends_with_dot value
     || (len value <? 3) || (320 <? len value)
  then Raise ValueError
  else EmailAddress_init value NORMALIZATION_VERSION.

(** ** Events *)

Definition EVENT_RESULTS : list (string * list string) := [
  ("invitation.preloaded.v1", ["accepted"; "denied"]);
  ("magic_link.requested.v1", ["accepted"; "denied"]);
  ("magic_link.issue_started.v1", ["accepted"]);
  ("magic_link.issued.v1", ["accepted"]);
  ("magic_link.issue_failed.v1", ["failed"]);
  ("magic_link.delivery_observed.v1", ["observed"]);
  ("provider.event_ignored.v1", ["observed"]);
  ("magic_link.expired.v1", ["denied"]);
  ("magic_link.superseded.v1", ["denied"]);
  ("magic_link.consumed.v1", ["accepted"]);
  ("magic_link.reused.v1", ["denied"]);
  ("identity.linked.v1", ["accepted"]);
  ("identity.conflict.v1", ["denied"]);
  ("user.activated.v1", ["accepted"]);
  ("user.status_changed.v1", ["accepted"; "denied"]);
  ("role.granted.v1", ["accepted"; "denied"]);
  ("role.revoked.v1", ["accepted"; "denied"]);
  ("session.started.v1", ["accepted"]);
  ("session.ended.v1", ["accepted"; "observed"]);
  ("authorization.allowed.v1", ["allowed"]);
  ("authorization.denied.v1", ["denied"])].

Definition REASONS : list string := [
  "eligible"; "not_eligible"; "email_rate_limited"; "origin_rate_limited";
  "both_rate_limited"; "provider_accepted"; "provider_rejected";
  "provider_unavailable"; "provider_result_unknown"; "email_accepted";
  "email_delivered"; "email_delayed"; "email_bounced"; "email_complained";
  "email_rejected"; "email_unavailable"; "link_invalid"; "link_expired";
  "link_consumed"; "link_superseded"; "issuer_mismatch"; "email_mismatch";
  "subject_conflict"; "product_email_conflict"; "missing_verified_attribute";
  "user_inactive"; "session_missing"; "session_revoked"; "session_idle_expired";
  "action_unknown"; "role_unknown"; "role_not_allowed"; "owner_missing";
  "owner_ambiguous"; "owner_mismatch"; "logout"; "administrator_change";
  "zero_admin_bootstrap"; "provider_signature_invalid"; "ignored"].

Definition FORBIDDEN_KEYS : list string := [
  "email"; "normalized_email"; "token"; "token_hash"; "cookie"; "session_token";
  "raw_body"; "body"; "password"; "secret"; "authorization"; "url"; "query";
  "recipient"; "subject"; "message"].

Definition is_forbidden (key : string) : bool := bool_decide (lower key ∈ FORBIDDEN_KEYS).

(** [validate_no_sensitive_fields]: [true] when it raises.  A list is searched for
    mappings among its items, not for lists among them. *)
Fixpoint sensitive (v : pyval) : bool :=
  match v with
  | VDict d =>
      (fix fields (l : list (string * pyval)) : bool :=
         match l with
         | [] => false
         | (k, x) :: l' =>
             is_forbidden k
             || match x with
                | VDict _ => sensitive x
                | VList items =>
                    (fix in_items (l : list pyval) : bool :=
                       match l with
                       | [] => false
                       | i :: l' => match i with VDict _ => sensitive i | _ => false end || in_items l'
                       end) items
                | _ => false
                end
             || fields l'
         end) d
  | _ => false
  end.

Definition event_registered (event_type result : string) : bool :=
  match oget event_type EVENT_RESULTS with
  | Some results => bool_decide (result ∈ results)
  | None => false
  end.

Definition validate_event (event_type event_result reason : string) (fields : odict string pyval)
  : result unit :=
  if negb (event_registered event_type event_result) then Raise ValueError
  else if negb (bool_decide (reason ∈ REASONS)) then Raise ValueError
  else if existsb (fun kv => is_forbidden kv.1) fields then Raise ValueError
  else if existsb (fun kv => match kv.2 with VDict _ => sensitive kv.2 | _ => false end) fields
  then Raise ValueError
  else Ok tt.

(** ** Records *)

Inductive MagicLinkState :=
  | A_PENDING | A_ISSUING | A_ISSUED | A_CONSUMED | A_SUPERSEDED | A_EXPIRED | A_FAILED.
Inductive SubjectKind := S_INVITATION | S_PRODUCT_USER.
Inductive InvitationStatus := Inv_ACTIVE | Inv_ACCEPTED.
Inductive UserStatus := U_ACTIVE | U_DISABLED.

#[export] Instance MagicLinkState_eq_dec : EqDecision MagicLinkState.
Proof. solve_decision. Defined.
#[export] Instance SubjectKind_eq_dec : EqDecision SubjectKind.
Proof. solve_decision. Defined.
#[export] Instance InvitationStatus_eq_dec : EqDecision InvitationStatus.
Proof. solve_decision. Defined.
#[export] Instance UserStatus_eq_dec : EqDecision UserStatus.
Proof. solve_decision. Defined.

Record Invitation := MkInvitation {
  inv_id : Z; inv_email : string; inv_status : InvitationStatus; inv_accepted_user_id : option Z;
  inv_preload_source : string; inv_created_at : Z; inv_accepted_at : option Z
}.

Record ProductUser := MkUser {
  u_id : Z; u_email : string; u_status : UserStatus; u_disabled_reason : option string;
  u_created_at : Z; u_status_changed_at : Z
}.

(** [ProductUser.disable], [ProductUser.enable] *)
Definition user_disable (reason : string) (now : stamp) (u : ProductUser) : result ProductUser :=
  if bool_decide (reason = "") || (100 <? len reason) then Raise ValueError
  else t ← to_utc now;
       Ok (MkUser (u_id u) (u_email u) U_DISABLED (Some reason) (u_created_at u) t).
Definition user_enable (now : stamp) (u : ProductUser) : result ProductUser :=
  t ← to_utc now; Ok (MkUser (u_id u) (u_email u) U_ACTIVE None (u_created_at u) t).

Record ExternalIdentityLink := MkLink {
  l_id : Z; l_user_id : Z; l_provider : string; l_issuer : string; l_subject : string;
  l_email : string; l_verified_at : Z
}.

Record RoleAssignment := MkRole {
  r_id : Z; r_user_id : Z; r_role : string; r_granted_at : Z; r_revoked_at : option Z;
  r_reason : string
}.

(** [RoleAssignment.active] *)
Definition role_active (r : RoleAssignment) : bool :=
  match r_revoked_at r with None => true | Some _ => false end.

Record ProductSession := MkSession {
  ps_id : Z; ps_user_id : Z; ps_attempt_id : Z; ps_digest : string; ps_last_activity_at : Z;
  ps_revoked_at : option Z; ps_revocation_reason : option string
}.

Definition is_idle_expired (now : Z) (s : ProductSession) : bool :=
  ps_last_activity_at s + days 7 <=? now.

Record MagicLinkRequest := MkRequest {
  q_id : Z; q_email_fingerprint : string; q_origin_fingerprint : string; q_decision : string;
  q_requested_at : Z; q_purge_after : Z; q_correlation_id : Z
}.

Record MagicLinkAttempt := MkAttempt {
  at_id : Z; at_request_id : Z; at_subject_kind : SubjectKind; at_invitation_id : option Z;
  at_user_id : option Z; at_job_execution_id : option Z; at_state : MagicLinkState;
  at_provider_generated_at : option Z; at_issued_at : option Z; at_expires_at : option Z;
  at_consumed_at : option Z; at_superseded_at : option Z; at_superseded_by_id : option Z;
  at_provider_message_id : option string; at_failure_reason : option string
}.

Definition current_and_valid (now : Z) (a : MagicLinkAttempt) : bool :=
  bool_decide (at_state a = A_ISSUED)
  && match at_expires_at a with Some t => now <? t | None => false end
  && bool_decide (at_consumed_at a = None) && bool_decide (at_superseded_at a = None).

Record AccessAuditEvent := MkAudit {
  au_id : Z; au_event_type : string; au_result : string; au_reason : string;
  au_correlation_id : Z; au_occurred_at : Z; au_actor_user_id : option Z;
  au_subject_user_id : option Z; au_invitation_id : option Z; au_request_id : option Z;
  au_attempt_id : option Z; au_session_id : option Z; au_role_assignment_id : option Z;
  au_action : option string; au_policy_version : option string; au_provider : option string;
  au_provider_event_id : option string
}.

Record IdentityReport := MkReport {
  event_counts : list (string * Z); reason_counts : list (string * Z);
  user_count : Z; rep_session_count : Z
}.
Record IdentityExportLink := MkExportLink { xl_provider : string; xl_issuer : string; xl_subject : string }.
Record IdentityExportRecord := MkExportRecord {
  xr_user_id : Z; xr_status : UserStatus; xr_roles : list string; xr_links : list IdentityExportLink
}.

(** ** The authorization matrix *)

Record ActionRule := MkRule { rule_action : string; allowed_roles : list string; owner_required : bool }.

Definition everyone : list string := ["user"; "operator"; "administrator"].
Definition staff : list string := ["operator"; "administrator"].

Definition ACTION_RULES : list (string * ActionRule) :=
  map (fun r => (rule_action r, r)) [
    MkRule "auth.session.read" everyone false;
    MkRule "auth.session.logout" everyone false;
    MkRule "product.resource.create" everyone false;
    MkRule "product.resource.read" everyone true;
    MkRule "product.resource.update" everyone true;
    MkRule "product.resource.delete" everyone true;
    MkRule "product.search_profile.create" everyone false;
    MkRule "product.search_profile.read" everyone true;
    MkRule "product.search_profile.update" everyone true;
    MkRule "product.search_profile.status" everyone true;
    MkRule "product.matches.read" everyone true;
    MkRule "product.explanation.read" everyone true;
    MkRule "product.comparison.read" everyone true;
    MkRule "product.comparison.write" everyone true;
    MkRule "product.listing.read" everyone true;
    MkRule "product.events.emit" everyone false;
    MkRule "ops.identity.conflict.review" staff false;
    MkRule "ops.identity.invitation.preload" staff false;
    MkRule "ops.ingestion.batch.submit" staff false;
    MkRule "ops.ingestion.run.read" staff false;
    MkRule "ops.ingestion.quality.read" staff false;
    MkRule "admin.identity.user.status.change" ["administrator"] false;
    MkRule "admin.identity.role.change" ["administrator"] false;
    MkRule "admin.identity.bootstrap" [] false].

Record AuthorizationDecision := MkDecision { allowed : bool; decision_reason : string; policy_version : string }.
Definition decide_with (allowed : bool) (reason : string) : AuthorizationDecision :=
  MkDecision allowed reason "identity-policy.v1".

Definition authorize_roles (roles : list string) (action : string) (actor_id : Z) (owner_id : option Z)
  : AuthorizationDecision :=
  match oget action ACTION_RULES with
  | None => decide_with false "action_unknown"
  | Some rule =>
      if existsb (fun role => negb (bool_decide (role ∈ everyone))) roles
      then decide_with false "role_unknown"
      else if owner_required rule && bool_decide (owner_id = None)
      then decide_with false "owner_missing"
      else if owner_required rule && negb (bool_decide (owner_id = Some actor_id))
      then decide_with false "owner_mismatch"
      else if negb (existsb (fun role => bool_decide (role ∈ allowed_roles rule)) roles)
      then decide_with false "role_not_allowed"
      else decide_with true "eligible"
  end.

Example normalize_email_ex :
  normalize_email "  Ana.Paz@Example.ORG " = Ok (MkEmail "ana.paz@example.org" 1).
Proof. vm_compute. reflexivity. Qed.
Example normalize_email_bad :
  map normalize_email ["a@b"; "a@.b"; "a@b.c."; "a b@c.de"; "a@@b.c"; "a..b@c.de"; "<a@b.cd>"]
  = repeat (Raise ValueError) 7.
Proof. vm_compute. reflexivity. Qed.
