(* ===== verification/IdentityStore.v ===== *)
(** * The identity store ([infrastructure/db/repositories/identity.py],
    [infrastructure/db/models/identity.py], [application/identity/ports.py])

    The tables of the identity slice, their queries, and the two implementations of the
    [IdentityStore] port: [InMemoryIdentityStore], which accepts every row, and
    [SqlAlchemyIdentityStore], which upserts by primary key under the unique and check
    constraints.  They share the queries, which read the same rows: where the in-memory
    store takes the first row in insertion order, SQL has at most one or leaves the order
    open.  A transaction restores every table when its body raises.  Advisory and row
    locks make the transactions that need it one after the other, as they are here.
    Digests are parameters ([Digests]). *)

From S2P Require Export IdentityDomain.
#[local] Open Scope list_scope.

(** HMAC-SHA256 under the store's key, and SHA-256 of a session token *)
Class Digests := { fingerprint : string -> string; sha256 : string -> string }.

Record idb := MkIdb {
  i_invitations : odict Z Invitation; i_users : odict Z ProductUser;
  i_links : odict Z ExternalIdentityLink; i_roles : odict Z RoleAssignment;
  i_requests : odict Z MagicLinkRequest; i_attempts : odict Z MagicLinkAttempt;
  i_sessions : odict Z ProductSession; i_audits : list AccessAuditEvent;
  i_provider_events : list (string * string)
}.

Definition empty_idb : idb := MkIdb [] [] [] [] [] [] [] [] [].

Definition put_invitation (x : Invitation) (d : idb) : idb :=
  MkIdb (oset (inv_id x) x (i_invitations d)) (i_users d) (i_links d) (i_roles d) (i_requests d)
    (i_attempts d) (i_sessions d) (i_audits d) (i_provider_events d).
Definition put_user (x : ProductUser) (d : idb) : idb :=
  MkIdb (i_invitations d) (oset (u_id x) x (i_users d)) (i_links d) (i_roles d) (i_requests d)
    (i_attempts d) (i_sessions d) (i_audits d) (i_provider_events d).
Definition put_link (x : ExternalIdentityLink) (d : idb) : idb :=
  MkIdb (i_invitations d) (i_users d) (oset (l_id x) x (i_links d)) (i_roles d) (i_requests d)
    (i_attempts d) (i_sessions d) (i_audits d) (i_provider_events d).
Definition put_role (x : RoleAssignment) (d : idb) : idb :=
  MkIdb (i_invitations d) (i_users d) (i_links d) (oset (r_id x) x (i_roles d)) (i_requests d)
    (i_attempts d) (i_sessions d) (i_audits d) (i_provider_events d).
Definition put_request (x : MagicLinkRequest) (d : idb) : idb :=
  MkIdb (i_invitations d) (i_users d) (i_links d) (i_roles d) (oset (q_id x) x (i_requests d))
    (i_attempts d) (i_sessions d) (i_audits d) (i_provider_events d).
Definition put_attempt (x : MagicLinkAttempt) (d : idb) : idb :=
  MkIdb (i_invitations d) (i_users d) (i_links d) (i_roles d) (i_requests d)
    (oset (at_id x) x (i_attempts d)) (i_sessions d) (i_audits d) (i_provider_events d).
Definition put_session (x : ProductSession) (d : idb) : idb :=
  MkIdb (i_invitations d) (i_users d) (i_links d) (i_roles d) (i_requests d) (i_attempts d)
    (oset (ps_id x) x (i_sessions d)) (i_audits d) (i_provider_events d).
Definition put_audit (x : AccessAuditEvent) (d : idb) : idb :=
  MkIdb (i_invitations d) (i_users d) (i_links d) (i_roles d) (i_requests d) (i_attempts d)
    (i_sessions d) (i_audits d ++ [x]) (i_provider_events d).
Definition set_requests (x : odict Z MagicLinkRequest) (d : idb) : idb :=
  MkIdb (i_invitations d) (i_users d) (i_links d) (i_roles d) x (i_attempts d)
    (i_sessions d) (i_audits d) (i_provider_events d).
Definition put_provider_event (x : string * string) (d : idb) : idb :=
  MkIdb (i_invitations d) (i_users d) (i_links d) (i_roles d) (i_requests d) (i_attempts d)
    (i_sessions d) (i_audits d) (i_provider_events d ++ [x]).

(** [with store.transaction(): ...] *)
Definition transaction {A} (m : M idb A) : M idb A := fun w s =>
  match m w s with
  | (Ok a, s') => (Ok a, s')
  | (Raise e, s') => (Raise e, Sys (state_of s) (drawn s') (ticks s'))
  end.

(** ** Queries *)

Definition invitation_for_email (email : string) (d : idb) : option Invitation :=
  find_first (fun x => bool_decide (inv_email x = email)) (ovalues (i_invitations d)).
Definition invitation (id : Z) (d : idb) : option Invitation := oget id (i_invitations d).
Definition user (id : Z) (d : idb) : option ProductUser := oget id (i_users d).
Definition user_for_email (email : string) (d : idb) : option ProductUser :=
  find_first (fun x => bool_decide (u_email x = email)) (ovalues (i_users d)).
Definition link_for_subject (provider issuer subject : string) (d : idb) : option ExternalIdentityLink :=
  find_first (fun x => bool_decide (l_provider x = provider) && bool_decide (l_issuer x = issuer)
                       && bool_decide (l_subject x = subject)) (ovalues (i_links d)).

Definition role_of (user_id : Z) (x : RoleAssignment) : bool :=
  (r_user_id x =? user_id) && role_active x.
(** A Python set, in insertion order *)
Definition active_roles (user_id : Z) (d : idb) : list string :=
  remove_dups (map r_role (List.filter (role_of user_id) (ovalues (i_roles d)))).
Definition active_role (user_id : Z) (role : string) (d : idb) : option RoleAssignment :=
  find_first (fun x => role_of user_id x && bool_decide (r_role x = role)) (ovalues (i_roles d)).
Definition has_active_administrator (d : idb) : bool :=
  existsb (fun x => bool_decide (r_role x = "administrator") && role_active x) (ovalues (i_roles d)).

Definition request (id : Z) (d : idb) : option MagicLinkRequest := oget id (i_requests d).
Definition attempt (id : Z) (d : idb) : option MagicLinkAttempt := oget id (i_attempts d).

(** [max(candidates, key=issued_at or datetime.min)]: the first of the largest *)
Definition issued_lt (a b : MagicLinkAttempt) : bool :=
  match at_issued_at a, at_issued_at b with
  | None, Some _ => true
  | Some x, Some y => x <? y
  | _, None => false
  end.
Definition of_subject (invitation_id product_user_id : option Z) (a : MagicLinkAttempt) : bool :=
  match invitation_id with Some _ => bool_decide (at_invitation_id a = invitation_id) | None => true end
  && match product_user_id with Some _ => bool_decide (at_user_id a = product_user_id) | None => true end.
Definition current_attempt (invitation_id product_user_id : option Z) (d : idb)
  : option MagicLinkAttempt :=
  match List.filter (fun a => bool_decide (at_state a = A_ISSUED)
                              && of_subject invitation_id product_user_id a)
          (ovalues (i_attempts d)) with
  | [] => None
  | a :: l => Some (foldl (fun best b => if issued_lt best b then b else best) a l)
  end.

Definition attempt_for_provider_message (message_id : string) (d : idb) : option MagicLinkAttempt :=
  find_first (fun a => bool_decide (at_provider_message_id a = Some message_id))
    (ovalues (i_attempts d)).
Definition session_by_digest (digest : string) (d : idb) : option ProductSession :=
  find_first (fun x => bool_decide (ps_digest x = digest)) (ovalues (i_sessions d)).
Definition session_count (d : idb) : Z := Z.of_nat (length (i_sessions d)).

(** The two limiter fields; any other is refused. *)
Inductive limiter_field := EmailField | OriginField.
Definition limiter (field : limiter_field) (x : MagicLinkRequest) : string :=
  match field with EmailField => q_email_fingerprint x | OriginField => q_origin_fingerprint x end.
Definition recent (field : limiter_field) (digest : string) (now : Z) (x : MagicLinkRequest) : bool :=
  bool_decide (limiter field x = digest) && (now - minutes 15 <? q_requested_at x).
Definition recent_requests (field : limiter_field) (digest : string) (now : Z) (d : idb) : Z :=
  Z.of_nat (length (List.filter (recent field digest now) (ovalues (i_requests d)))).

(** The requests that stay *)
Definition unpurged (cutoff : Z) (d : idb) : odict Z MagicLinkRequest :=
  List.filter (fun kv => negb (q_purge_after kv.2 <=? cutoff)) (i_requests d).
Definition purged_count (cutoff : Z) (d : idb) : Z :=
  Z.of_nat (length (i_requests d)) - Z.of_nat (length (unpurged cutoff d)).

(** ** Reports *)

Definition count_of (key : string) (l : list string) : Z :=
  Z.of_nat (length (List.filter (fun k => bool_decide (k = key)) l)).
(** [sorted(Counter(l).items())] *)
Definition counts (l : list string) : list (string * Z) :=
  map (fun k => (k, count_of k l)) (sort_by str_ltb (remove_dups l)).

Definition identity_report (d : idb) : IdentityReport :=
  MkReport (counts (map au_event_type (i_audits d))) (counts (map au_reason (i_audits d)))
    (Z.of_nat (length (i_users d))) (session_count d).

Definition pair_ltb (a b : string * string) : bool :=
  str_ltb a.1 b.1 || (bool_decide (a.1 = b.1) && str_ltb a.2 b.2).
Definition exportable_identity_views (d : idb) : list IdentityExportRecord :=
  map (fun u =>
         MkExportRecord (u_id u) (u_status u) (sort_by str_ltb (active_roles (u_id u) d))
           (map (fun l => MkExportLink (l_provider l) (l_issuer l) (l_subject l))
              (sort_by (fun a b => pair_ltb (l_provider a, l_subject a) (l_provider b, l_subject b))
                 (List.filter (fun l => l_user_id l =? u_id u) (ovalues (i_links d))))))
    (sort_by (fun a b => str_ltb (uuid_str (u_id a)) (uuid_str (u_id b))) (ovalues (i_users d))).

Definition exportable_identities (d : idb) : list (ProductUser * list ExternalIdentityLink) :=
  map (fun u => (u, List.filter (fun l => l_user_id l =? u_id u) (ovalues (i_links d))))
    (sort_by (fun a b => str_ltb (uuid_str (u_id a)) (uuid_str (u_id b))) (ovalues (i_users d))).

(** ** The port: what is written *)

Class IdentityStore := {
  save_invitation : Invitation -> M idb unit;
  save_user : ProductUser -> M idb unit;
  save_link : ExternalIdentityLink -> M idb unit;
  save_role : RoleAssignment -> M idb unit;
  save_request : MagicLinkRequest -> M idb unit;
  save_attempt : MagicLinkAttempt -> M idb unit;
  save_session : ProductSession -> M idb unit;
  append_audit : AccessAuditEvent -> M idb unit;
  append_provider_audit_once : string -> string -> option AccessAuditEvent -> M idb bool;
  purge_requests_before : Z -> M idb Z
}.

(** ** The in-memory store *)

Definition mem_provider_audit (provider event_id : string) (event : option AccessAuditEvent) : M idb bool :=
  d ← get;
  if bool_decide ((provider, event_id) ∈ i_provider_events d) then mret false
  else
    _ ← modify (put_provider_event (provider, event_id));
    _ ← match event with Some e => modify (put_audit e) | None => mret tt end;
    mret true.

Definition mem_purge (cutoff : Z) : M idb Z :=
  d ← get;
  _ ← put (set_requests (unpurged cutoff d) d);
  mret (purged_count cutoff d).

Definition InMemoryIdentityStore : IdentityStore := {|
  save_invitation x := modify (put_invitation x);
  save_user x := modify (put_user x);
  save_link x := modify (put_link x);
  save_role x := modify (put_role x);
  save_request x := modify (put_request x);
  save_attempt x := modify (put_attempt x);
  save_session x := modify (put_session x);
  append_audit x := modify (put_audit x);
  append_provider_audit_once := mem_provider_audit;
  purge_requests_before := mem_purge
|}.

(** ** The PostgreSQL store *)

Definition IdIntegrityError : exn := OtherError "IntegrityError".

(** [INSERT ... ON CONFLICT (id) DO UPDATE]: the other unique constraints, against the
    rows of other ids, and the checks still apply. *)
Definition upsert {R} (id_of : R -> Z) (table : idb -> odict Z R) (save : R -> idb -> idb)
    (clash : R -> R -> bool) (check : R -> bool) (row : R) : M idb unit :=
  d ← get;
  if existsb (fun kv => negb (kv.1 =? id_of row) && clash kv.2 row) (table d) || negb (check row)
  then raise IdIntegrityError
  else put (save row d).

Definition is_some {A} (x : option A) : bool := match x with Some _ => true | None => false end.

Definition invitation_clash (a b : Invitation) : bool := bool_decide (inv_email a = inv_email b).
Definition invitation_check (x : Invitation) : bool :=
  match inv_status x with
  | Inv_ACTIVE => negb (is_some (inv_accepted_user_id x)) && negb (is_some (inv_accepted_at x))
  | Inv_ACCEPTED => is_some (inv_accepted_user_id x) && is_some (inv_accepted_at x)
  end.
Definition user_clash (a b : ProductUser) : bool := bool_decide (u_email a = u_email b).
Definition user_check (x : ProductUser) : bool :=
  match u_status x with
  | U_DISABLED => is_some (u_disabled_reason x)
  | U_ACTIVE => negb (is_some (u_disabled_reason x))
  end.
Definition link_clash (a b : ExternalIdentityLink) : bool :=
  bool_decide (l_provider a = l_provider b) && bool_decide (l_issuer a = l_issuer b)
  && (bool_decide (l_subject a = l_subject b) || (l_user_id a =? l_user_id b)).
(** The stored [revoke_reason] is the reason of the assignment when it is revoked. *)
Definition role_check (x : RoleAssignment) : bool := bool_decide (r_role x ∈ everyone).
Definition request_check (x : MagicLinkRequest) : bool :=
  (len (q_email_fingerprint x) =? 32) && (len (q_origin_fingerprint x) =? 32).
Definition attempt_clash (a b : MagicLinkAttempt) : bool := at_request_id a =? at_request_id b.
Definition attempt_check (x : MagicLinkAttempt) : bool :=
  match at_subject_kind x with
  | S_INVITATION => is_some (at_invitation_id x) && negb (is_some (at_user_id x))
  | S_PRODUCT_USER => is_some (at_user_id x) && negb (is_some (at_invitation_id x))
  end.
Definition session_clash (a b : ProductSession) : bool :=
  bool_decide (ps_digest a = ps_digest b) || (ps_attempt_id a =? ps_attempt_id b).
Definition session_check (x : ProductSession) : bool :=
  (len (ps_digest x) =? 32)
  && bool_decide (is_some (ps_revoked_at x) = is_some (ps_revocation_reason x)).

(** An audit row, and the unique constraint on the provider's event, which a null leaves out *)
Definition audit_clash (a b : AccessAuditEvent) : bool :=
  is_some (au_provider a) && is_some (au_provider_event_id a)
  && bool_decide (au_provider a = au_provider b)
  && bool_decide (au_provider_event_id a = au_provider_event_id b).
Definition sql_append_audit (x : AccessAuditEvent) : M idb unit :=
  d ← get;
  if existsb (fun y => audit_clash y x || (au_id y =? au_id x)) (i_audits d) then raise IdIntegrityError
  else put (put_audit x d).

(** [ON CONFLICT (provider, provider_event_id) DO NOTHING]; an ignored event is stored too. *)
Definition sql_provider_audit (provider event_id : string) (event : option AccessAuditEvent)
  : M idb bool :=
  event ← match event with
          | Some e => mret e
          | None =>
              id ← uuid4; correlation_id ← uuid4; now ← clock;
              mret (MkAudit id "provider.event_ignored.v1" "observed" "ignored" correlation_id now
                      None None None None None None None None None (Some provider) (Some event_id))
          end;
  _ ← lift (validate_event (au_event_type event) (au_result event) (au_reason event)
              [("provider", VStr provider); ("provider_event_id", VStr event_id)]);
  let row := MkAudit (au_id event) (au_event_type event) (au_result event) (au_reason event)
               (au_correlation_id event) (au_occurred_at event) (au_actor_user_id event)
               (au_subject_user_id event) (au_invitation_id event) (au_request_id event)
               (au_attempt_id event) (au_session_id event) (au_role_assignment_id event)
               (au_action event) (au_policy_version event) (Some provider) (Some event_id) in
  d ← get;
  if existsb (fun y => audit_clash y row) (i_audits d) then mret false
  else if existsb (fun y => au_id y =? au_id row) (i_audits d) then raise IdIntegrityError
  else _ ← put (put_audit row d); mret true.

(** The foreign keys of attempts and audit events restrict the deletion of a request. *)
Definition refers_to (id : Z) (d : idb) : bool :=
  existsb (fun a => at_request_id a =? id) (ovalues (i_attempts d))
  || existsb (fun e => bool_decide (au_request_id e = Some id)) (i_audits d).
Definition sql_purge (cutoff : Z) : M idb Z :=
  d ← get;
  if existsb (fun kv => (q_purge_after kv.2 <=? cutoff) && refers_to kv.1 d) (i_requests d)
  then raise IdIntegrityError
  else _ ← put (set_requests (unpurged cutoff d) d); mret (purged_count cutoff d).

Definition SqlAlchemyIdentityStore : IdentityStore := {|
  save_invitation := upsert inv_id i_invitations put_invitation invitation_clash invitation_check;
  save_user := upsert u_id i_users put_user user_clash user_check;
  save_link := upsert l_id i_links put_link link_clash (fun _ => true);
  save_role := upsert r_id i_roles put_role (fun _ _ => false) role_check;
  save_request := upsert q_id i_requests put_request (fun _ _ => false) request_check;
  save_attempt := upsert at_id i_attempts put_attempt attempt_clash attempt_check;
  save_session := upsert ps_id i_sessions put_session session_clash session_check;
  append_audit := sql_append_audit;
  append_provider_audit_once := sql_provider_audit;
  purge_requests_before := sql_purge
|}.

(** ** What the port promises

    A write that returns has stored the row and changed nothing else; the write of an attempt
    that raises has changed nothing.  The laws are what the proofs about the services use. *)

Class IdentityStoreLaws `{IdentityStore} := {
  save_invitation_ok x w s u s' : save_invitation x w s = (Ok u, s') ->
    s' = Sys (put_invitation x (state_of s)) (drawn s) (ticks s);
  save_user_ok x w s u s' : save_user x w s = (Ok u, s') ->
    s' = Sys (put_user x (state_of s)) (drawn s) (ticks s);
  save_link_ok x w s u s' : save_link x w s = (Ok u, s') ->
    s' = Sys (put_link x (state_of s)) (drawn s) (ticks s);
  save_role_ok x w s u s' : save_role x w s = (Ok u, s') ->
    s' = Sys (put_role x (state_of s)) (drawn s) (ticks s);
  save_request_ok x w s u s' : save_request x w s = (Ok u, s') ->
    s' = Sys (put_request x (state_of s)) (drawn s) (ticks s);
  save_attempt_ok x w s u s' : save_attempt x w s = (Ok u, s') ->
    s' = Sys (put_attempt x (state_of s)) (drawn s) (ticks s);
  save_attempt_raise x w s e s' : save_attempt x w s = (Raise e, s') -> s' = s;
  save_session_ok x w s u s' : save_session x w s = (Ok u, s') ->
    s' = Sys (put_session x (state_of s)) (drawn s) (ticks s);
  append_audit_ok x w s u s' : append_audit x w s = (Ok u, s') ->
    s' = Sys (put_audit x (state_of s)) (drawn s) (ticks s);
  append_provider_audit_ok p e x w s b s' : append_provider_audit_once p e x w s = (Ok b, s') ->
    exists l l', (forall y, y ∈ l -> exists z, (x = Some z \/ au_event_type z = "provider.event_ignored.v1")
                             /\ au_event_type y = au_event_type z /\ au_request_id y = au_request_id z)
      /\ state_of s' = MkIdb (i_invitations (state_of s)) (i_users (state_of s)) (i_links (state_of s))
                         (i_roles (state_of s)) (i_requests (state_of s)) (i_attempts (state_of s))
                         (i_sessions (state_of s)) (i_audits (state_of s) ++ l) l';
  purge_ok t w s n s' : purge_requests_before t w s = (Ok n, s') ->
    s' = Sys (set_requests (unpurged t (state_of s)) (state_of s)) (drawn s) (ticks s)
}.

#[export] Instance memory_store_laws : @IdentityStoreLaws InMemoryIdentityStore.
Proof.
  split; simpl; intros *; try by intros [= _ <-].
  unfold mem_provider_audit, mbind, M_bind, get, modify, mret, M_ret. simpl. case_bool_decide.
  - intros [= _ <-]. exists [], (i_provider_events (state_of s)). split; [set_solver|].
    rewrite app_nil_r. by destruct (state_of s).
  - destruct x as [e'|]; intros [= _ <-].
    + exists [e']. eexists. split; [|done]. intros y ->%list_elem_of_singleton. exists e'. auto.
    + exists []. eexists. split; [set_solver|]. simpl. by rewrite app_nil_r.
Qed.

Lemma upsert_ok {R} id_of table (save : R -> idb -> idb) clash check x w s u s' :
  upsert id_of table save clash check x w s = (Ok u, s') ->
  s' = Sys (save x (state_of s)) (drawn s) (ticks s).
Proof. unfold upsert, mbind, M_bind, get, raise. simpl. case_match; [done|]. by intros [= _ <-]. Qed.

Lemma upsert_raise {R} id_of table (save : R -> idb -> idb) clash check x w s e s' :
  upsert id_of table save clash check x w s = (Raise e, s') -> s' = s.
Proof. unfold upsert, mbind, M_bind, get, raise. simpl. case_match; [|done]. by intros [= _ <-]. Qed.

#[export] Instance sql_store_laws : @IdentityStoreLaws SqlAlchemyIdentityStore.
Proof.
  split; simpl; intros *; try apply upsert_ok; try apply upsert_raise.
  - unfold sql_append_audit, mbind, M_bind, get, raise. simpl. case_match; [done|].
    by intros [= _ <-].
  - intros H. unfold sql_provider_audit in H. inv_bind.
    set (z := x0) in *.
    assert (Hz : (x = Some z \/ au_event_type z = "provider.event_ignored.v1"%string)
                 /\ state_of x1 = state_of s).
    { destruct x as [e'|]; [injection H0 as <- <-; auto|]. inv_bind.
      repeat match goal with Hx : uuid4 _ _ = _ |- _ => injection Hx as <- <-
                        | Hx : clock _ _ = _ |- _ => injection Hx as <- <-
                        | Hx : mret _ _ _ = _ |- _ => injection Hx as <- <- end. auto. }
    destruct Hz as [Hz Es].
    unfold lift in H1. destruct (validate_event _ _ _ _); [|done]. injection H1 as <- <-.
    injection H2 as <- <-. rewrite Es in H. case_match.
    + injection H as <- <-. exists [], (i_provider_events (state_of s)). split; [set_solver|].
      rewrite app_nil_r, Es. by destruct (state_of s).
    + case_match; [done|]. injection H as <- <-. eexists [_], _. split; [|done].
      intros y ->%list_elem_of_singleton. exists z. done.
  - unfold sql_purge, mbind, M_bind, get, raise. simpl. case_match; [done|]. by intros [= _ <-].
Qed.
