(* ===== verification/IdentityAccess.v ===== *)
(** * Identity services ([application/identity/access.py], [authorization.py],
    [administration.py], [retention.py], [contracts.py])

    The magic-link flow (request, issue, confirm), sessions, authorization and
    administration, over any [IdentityStore].  The identity provider and the e-mail
    service are records of functions: what they answer to one call.  A flow that commits
    several times is the composition of its transactions, with what other processes
    commit in between ([others]) as an argument. *)

From S2P Require Export IdentityStore JobRuntime.
#[local] Open Scope list_scope.

(** ** Contracts and ports *)

Record ProviderProof := MkProof {
  pf_provider : string; pf_issuer : string; pf_subject : string; pf_verified_email : string;
  pf_verified_at : Z; pf_revocation_handle : option string
}.
Record GeneratedMagicLink := MkGenerated {
  g_provider : string; g_attempt_id : Z; g_token_hash : string; g_capture_url : string;
  g_generated_at : Z; g_expires_at : Z
}.
Record EmailAcceptance := MkAcceptance { ea_provider : string; ea_message_id : string; ea_accepted_at : Z }.
Record SessionResult := MkSessionResult {
  sr_session_id : Z; sr_user_id : Z; sr_token : string; sr_last_activity_at : Z
}.
Record CurrentPrincipal := MkPrincipal {
  cp_user_id : Z; cp_roles : list string; cp_last_activity_at : Z
}.

Definition link_unavailable : exn := IdentityError "auth.link_unavailable" 410 "request_new_link".
Definition access_denied : exn := IdentityError "auth.access_denied" 403 "contact_support".
Definition session_required : exn := IdentityError "auth.session_required" 401 "sign_in".

Record IdentityProofPort := MkProofPort {
  proof_provider : string; proof_issuer : string;
  generate_magic_link : Z -> string -> Z -> result GeneratedMagicLink;
  verify_magic_link : Z -> string -> Z -> result ProviderProof;
  revoke_provider_session : string -> result unit
}.
Record EmailPort := MkEmailPort {
  email_provider : string;
  send_magic_link : Z -> string -> string -> Z -> Z -> Z -> result EmailAcceptance;
  verify_webhook : Z -> result (option (odict string string))
}.

(** ** The capture URL: [urlparse], as far as scheme, network location and path go *)

Definition url_char (c : ascii) : bool :=
  negb (bool_decide (code c = 9) || bool_decide (code c = 10) || bool_decide (code c = 13)).
Definition is_scheme_char (c : ascii) : bool :=
  is_alnum c || bool_decide (c ∈ ["+"%char; "-"%char; "."%char]).

Definition uses_params : list string :=
  [""; "ftp"; "hdl"; "prospero"; "http"; "imap"; "https"; "shttp"; "rtsp"; "rtsps"; "rtspu";
   "sip"; "sips"; "mms"; "sftp"; "tel"].

(** The path without the parameters of its last segment *)
Definition drop_params (path : list ascii) : list ascii :=
  let '(last_rev, dirs_rev) := span (is_char "/"%char) (rev path) in
  rev dirs_rev ++ (span (is_char ";"%char) (rev last_rev)).1.

Definition split_scheme (l : list ascii) : string * list ascii :=
  let '(s, rest) := span (is_char ":"%char) l in
  match s, rest with
  | c :: _, _ :: rest' =>
      if (is_lower_az c || is_upper_az c) && forallb is_scheme_char s
      then (lower (of_chars s), rest') else (""%string, l)
  | _, _ => (""%string, l)
  end.

(** What stands between brackets in the network location is not inspected. *)
Definition urlparse (url : string) : result (string * string * string) :=
  let l := List.filter url_char (lstrip_by (fun c => code c <=? 32) (chars url)) in
  let '(scheme, rest) := split_scheme l in
  let '(netloc, rest) :=
    match rest with
    | "/"%char :: "/"%char :: r =>
        span (fun c => bool_decide (c ∈ ["/"%char; "?"%char; "#"%char])) r
    | _ => ([], rest)
    end in
  if negb (Bool.eqb (existsb (is_char "["%char) netloc) (existsb (is_char "]"%char) netloc))
  then Raise ValueError
  else
    let rest := (span (is_char "#"%char) rest).1 in
    let path := (span (is_char "?"%char) rest).1 in
    let path := if bool_decide (scheme ∈ uses_params) then drop_params path else path in
    Ok (scheme, of_chars netloc, of_chars path).

Definition rstrip_slash (s : string) : string :=
  of_chars (rev (lstrip_by (is_char "/"%char) (rev (chars s)))).

(** ** Audit events *)

Record audit_refs := MkRefs {
  ref_subject : option Z; ref_request : option Z; ref_attempt : option Z; ref_session : option Z;
  ref_action : option string; ref_provider : option string; ref_event : option string
}.
Definition about_request (id : Z) : audit_refs := MkRefs None (Some id) None None None None None.
Definition about_attempt (id : Z) : audit_refs := MkRefs None None (Some id) None None None None.
Definition about_user_attempt (user id : Z) : audit_refs :=
  MkRefs (Some user) None (Some id) None None None None.
Definition about_session (user id session : Z) : audit_refs :=
  MkRefs (Some user) None (Some id) (Some session) None None None.

Definition opt_uuid (x : option Z) : pyval :=
  match x with Some u => VStr (uuid_str u) | None => VNone end.
Definition opt_str (x : option string) : pyval := match x with Some s => VStr s | None => VNone end.

Section services.
Context `{IdentityStore} `{Digests}.

Definition _new_audit (event_type event_result reason : string) (correlation_id : Z) (refs : audit_refs)
  : M idb AccessAuditEvent :=
  _ ← lift (AuditContext_system (take_str 128 (replace event_type "." "_")) correlation_id);
  _ ← lift (validate_event event_type event_result reason
              [("subject_user_id", opt_uuid (ref_subject refs)); ("request_id", opt_uuid (ref_request refs));
               ("attempt_id", opt_uuid (ref_attempt refs)); ("session_id", opt_uuid (ref_session refs));
               ("action", opt_str (ref_action refs)); ("provider", opt_str (ref_provider refs));
               ("provider_event_id", opt_str (ref_event refs))]);
  id ← uuid4;
  now ← clock;
  mret (MkAudit id event_type event_result reason correlation_id now None (ref_subject refs) None
          (ref_request refs) (ref_attempt refs) (ref_session refs) None (ref_action refs)
          (match ref_action refs with Some _ => Some "identity-policy.v1" | None => None end)
          (ref_provider refs) (ref_event refs)).

Definition _audit (event_type event_result reason : string) (correlation_id : Z) (refs : audit_refs)
  : M idb unit :=
  event ← _new_audit event_type event_result reason correlation_id refs;
  append_audit event.

(** ** Field updates of an attempt *)

Definition at_set (state : MagicLinkState) (a : MagicLinkAttempt) : MagicLinkAttempt :=
  MkAttempt (at_id a) (at_request_id a) (at_subject_kind a) (at_invitation_id a) (at_user_id a)
    (at_job_execution_id a) state (at_provider_generated_at a) (at_issued_at a) (at_expires_at a)
    (at_consumed_at a) (at_superseded_at a) (at_superseded_by_id a) (at_provider_message_id a)
    (at_failure_reason a).
Definition at_failed (reason : string) (a : MagicLinkAttempt) : MagicLinkAttempt :=
  MkAttempt (at_id a) (at_request_id a) (at_subject_kind a) (at_invitation_id a) (at_user_id a)
    (at_job_execution_id a) A_FAILED (at_provider_generated_at a) (at_issued_at a) (at_expires_at a)
    (at_consumed_at a) (at_superseded_at a) (at_superseded_by_id a) (at_provider_message_id a)
    (Some reason).
Definition at_superseded (at_time by_id : Z) (a : MagicLinkAttempt) : MagicLinkAttempt :=
  MkAttempt (at_id a) (at_request_id a) (at_subject_kind a) (at_invitation_id a) (at_user_id a)
    (at_job_execution_id a) A_SUPERSEDED (at_provider_generated_at a) (at_issued_at a)
    (at_expires_at a) (at_consumed_at a) (Some at_time) (Some by_id) (at_provider_message_id a)
    (at_failure_reason a).
Definition at_issue (generated : GeneratedMagicLink) (acceptance : EmailAcceptance)
    (a : MagicLinkAttempt) : MagicLinkAttempt :=
  MkAttempt (at_id a) (at_request_id a) (at_subject_kind a) (at_invitation_id a) (at_user_id a)
    (at_job_execution_id a) A_ISSUED (Some (g_generated_at generated)) (Some (ea_accepted_at acceptance))
    (Some (Z.min (g_expires_at generated) (g_generated_at generated + minutes 15)))
    (at_consumed_at a) (at_superseded_at a) (at_superseded_by_id a)
    (Some (ea_message_id acceptance)) (at_failure_reason a).
Definition at_consume (now : Z) (a : MagicLinkAttempt) : MagicLinkAttempt :=
  MkAttempt (at_id a) (at_request_id a) (at_subject_kind a) (at_invitation_id a) (at_user_id a)
    (at_job_execution_id a) A_CONSUMED (at_provider_generated_at a) (at_issued_at a) (at_expires_at a)
    (Some now) (at_superseded_at a) (at_superseded_by_id a) (at_provider_message_id a)
    (at_failure_reason a).
Definition at_with_job (job : Z) (a : MagicLinkAttempt) : MagicLinkAttempt :=
  MkAttempt (at_id a) (at_request_id a) (at_subject_kind a) (at_invitation_id a) (at_user_id a)
    (Some job) (at_state a) (at_provider_generated_at a) (at_issued_at a) (at_expires_at a)
    (at_consumed_at a) (at_superseded_at a) (at_superseded_by_id a) (at_provider_message_id a)
    (at_failure_reason a).

(** ** Provider webhooks *)

Definition _provider_correlation (event : odict string string) : M idb Z :=
  match uuid_of_str (default ""%string (oget "correlation_id" event)) with
  | Some u => mret u
  | None => uuid4
  end.

Definition reason_by_type : list (string * string) := [
  ("email.delivered", "email_delivered"); ("email.delivery_delayed", "email_delayed");
  ("email.bounced", "email_bounced"); ("email.complained", "email_complained");
  ("email.failed", "email_rejected")].

Definition process_email_webhook (mail : EmailPort) (now : stamp) : M idb bool :=
  received_at ← lift (to_utc now);
  event ← lift (verify_webhook mail received_at);
  match event with
  | None | Some [] => mret false
  | Some event =>
      match oget "id" event with
      | None | Some ""%string => raise (IdentityError "auth.webhook_invalid" 400 "none")
      | Some event_id =>
          transaction (
            correlation_id ← _provider_correlation event;
            match oget (default ""%string (oget "type" event)) reason_by_type with
            | None => append_provider_audit_once (email_provider mail) event_id None
            | Some reason =>
                found ← match oget "email_id" event with
                        | Some message_id => gets (attempt_for_provider_message message_id)
                        | None => mret None
                        end;
                match found with
                | Some a =>
                    req ← gets (request (at_request_id a));
                    match req with
                    | None => append_provider_audit_once (email_provider mail) event_id None
                    | Some q =>
                        audit ← _new_audit "magic_link.delivery_observed.v1" "observed" reason
                                  (q_correlation_id q)
                                  (MkRefs None None (Some (at_id a)) None None
                                     (Some (email_provider mail)) (Some event_id));
                        append_provider_audit_once (email_provider mail) event_id (Some audit)
                    end
                | None =>
                    audit ← _new_audit "provider.event_ignored.v1" "observed" "ignored" correlation_id
                              (MkRefs None None None None None (Some (email_provider mail)) (Some event_id));
                    append_provider_audit_once (email_provider mail) event_id (Some audit)
                end
            end)
      end
  end.

(** ** Requesting a link *)

Definition normalized_or_raw (email : string) : string :=
  match normalize_email email with
  | Ok e => email_value e
  | Raise _ => take_str 320 (lower (strip email))
  end.

Definition request_decision (email_count origin_count : Z) (eligible : bool) : string :=
  let email_limited := 3 <=? email_count in
  let origin_limited := 20 <=? origin_count in
  if email_limited && origin_limited then "both_limited"
  else if email_limited then "email_limited"
  else if origin_limited then "origin_limited"
  else if eligible then "eligible" else "not_eligible".

Definition decision_audit_reason (decision : string) : string :=
  if bool_decide (decision = "eligible") then "eligible"
  else if bool_decide (decision = "email_limited") then "email_rate_limited"
  else if bool_decide (decision = "origin_limited") then "origin_rate_limited"
  else if bool_decide (decision = "both_limited") then "both_rate_limited"
  else "not_eligible".

Definition invitation_active (x : option Invitation) : bool :=
  match x with Some i => bool_decide (inv_status i = Inv_ACTIVE) | None => false end.
Definition user_active (x : option ProductUser) : bool :=
  match x with Some u => bool_decide (u_status u = U_ACTIVE) | None => false end.

(** The attempt of an eligible request: for the invitation if it is active, else for the user *)
Definition new_attempt (attempt_id request_id : Z) (invited : option Invitation) (known : option ProductUser)
  : MagicLinkAttempt :=
  match invited with
  | Some i =>
      if invitation_active invited
      then MkAttempt attempt_id request_id S_INVITATION (Some (inv_id i)) None None A_PENDING
             None None None None None None None None
      else MkAttempt attempt_id request_id S_PRODUCT_USER None (u_id <$> known) None
             A_PENDING None None None None None None None None
  | None => MkAttempt attempt_id request_id S_PRODUCT_USER None (u_id <$> known) None
              A_PENDING None None None None None None None None
  end.

Section request.
Context {J : Type} `{JobPort J}.

(** An operation of the store, beside the job runtime *)
Definition on_store {A} (m : M idb A) : M (idb * J) A := fun w s =>
  let '(r, s') := m w (Sys (state_of s).1 (drawn s) (ticks s)) in
  (r, Sys (state_of s', (state_of s).2) (drawn s') (ticks s')).
Definition on_runtime {A} (m : M J A) : M (idb * J) A := fun w s =>
  let '(r, s') := m w (Sys (state_of s).2 (drawn s) (ticks s)) in
  (r, Sys ((state_of s).1, state_of s') (drawn s') (ticks s')).
(** A transaction of the store: the job runtime has its own. *)
Definition store_transaction {A} (m : M (idb * J) A) : M (idb * J) A := fun w s =>
  match m w s with
  | (Ok a, s') => (Ok a, s')
  | (Raise e, s') => (Raise e, Sys ((state_of s).1, (state_of s').2) (drawn s') (ticks s'))
  end.

(** Whatever submission raises, the attempt, with the job if it has one by then, is stored as
    failed. *)
Definition submission_failed (a : MagicLinkAttempt) (correlation_id : Z) : M (idb * J) unit :=
  on_store (_ ← save_attempt (at_failed "job_submission_failed" a);
            _audit "magic_link.issue_failed.v1" "failed" "provider_unavailable" correlation_id
              (about_attempt (at_id a))).
Definition submit_issue (a : MagicLinkAttempt) (correlation_id : Z) : M (idb * J) unit :=
  submitted ← try_except
    (command ← lift (SubmitJob_create 0 "identity.magic_link.issue" (uuid_str (at_id a))
                       ("identity.magic-link/" ++ uuid_str (at_id a))%string (Some correlation_id)
                       None 5);
     snapshot ← on_runtime (submit_job command); mret (Some snapshot))
    (fun _ => mret None);
  match submitted with
  | None => submission_failed a correlation_id
  | Some snapshot =>
      let a := at_with_job (snap_execution_id snapshot) a in
      try_except (on_store (save_attempt a)) (fun _ => submission_failed a correlation_id)
  end.

(** [request_magic_link] has one answer whatever the decision; [job_enabled] is
    [job_runtime is not None]. *)
Definition request_magic_link (job_enabled : bool) (email origin_fingerprint : string)
    (correlation_id : Z) (now : stamp) : M (idb * J) unit :=
  now ← lift (to_utc now);
  let normalized := normalized_or_raw email in
  let email_fingerprint := fingerprint normalized in
  let origin_digest := fingerprint origin_fingerprint in
  store_transaction (
    email_count ← on_store (gets (recent_requests EmailField email_fingerprint now));
    origin_count ← on_store (gets (recent_requests OriginField origin_digest now));
    invited ← on_store (gets (invitation_for_email normalized));
    known ← on_store (gets (user_for_email normalized));
    let decision := request_decision email_count origin_count
                      (invitation_active invited || user_active known) in
    request_id ← uuid4;
    _ ← on_store (save_request (MkRequest request_id email_fingerprint origin_digest decision now
                                  (now + hours 24) correlation_id));
    _ ← on_store (_audit "magic_link.requested.v1"
                    (if bool_decide (decision = "eligible") then "accepted" else "denied")
                    (decision_audit_reason decision) correlation_id (about_request request_id));
    if negb (bool_decide (decision = "eligible")) then mret tt
    else
      attempt_id ← uuid4;
      let a := new_attempt attempt_id request_id invited known in
      _ ← on_store (save_attempt a);
      if job_enabled then submit_issue a correlation_id else mret tt).
End request.

(** ** Issuing a link *)

(** The first transaction: the address to send to and the correlation, if there is
    something to do *)
Definition issue_begin (attempt_id : Z) (correlation_id : option Z) : M idb (option (string * Z)) :=
  transaction (
    found ← gets (attempt attempt_id);
    match found with
    | None => mret None
    | Some a =>
        if negb (bool_decide (at_state a = A_PENDING)) then mret None
        else
          req ← gets (request (at_request_id a));
          match req with
          | None => mret None
          | Some q =>
              if match correlation_id with Some c => negb (q_correlation_id q =? c) | None => false end
              then raise (IdentityError "auth.request_invalid" 400 "none")
              else
                invited ← match at_invitation_id a with
                          | Some id => gets (invitation id) | None => mret None end;
                known ← match at_user_id a with Some id => gets (user id) | None => mret None end;
                let email := match invited, known with
                             | Some i, _ => Some (inv_email i)
                             | None, Some u => Some (u_email u)
                             | None, None => None
                             end in
                match email with
                | Some address =>
                    if (is_some invited && negb (invitation_active invited))
                       || (is_some known && negb (user_active known))
                    then
                      _ ← save_attempt (at_failed "not_eligible" a);
                      _ ← _audit "magic_link.issue_failed.v1" "failed" "not_eligible"
                            (q_correlation_id q) (about_attempt attempt_id);
                      mret None
                    else _ ← save_attempt (at_set A_ISSUING a);
                         mret (Some (address, q_correlation_id q))
                | None =>
                    _ ← save_attempt (at_failed "not_eligible" a);
                    _ ← _audit "magic_link.issue_failed.v1" "failed" "not_eligible"
                          (q_correlation_id q) (about_attempt attempt_id);
                    mret None
                end
          end
    end).

(** The calls to the provider and to the e-mail service *)
Definition issue_send (provider : IdentityProofPort) (mail : EmailPort) (capture_origin : string)
    (attempt_id : Z) (email : string) (now correlation_id : Z)
  : result (GeneratedMagicLink * EmailAcceptance) :=
  generated ← generate_magic_link provider attempt_id email now;
  expected ← urlparse (rstrip_slash capture_origin);
  actual ← urlparse (g_capture_url generated);
  if bool_decide (actual.1 = expected.1) && bool_decide (actual.2 = "/auth/capture"%string) then
    acceptance ← send_magic_link mail attempt_id email (g_capture_url generated)
                   (g_expires_at generated) now correlation_id;
    Ok (generated, acceptance)
  else Raise (IdentityError "auth.link_unavailable" 503 "retry_later").

Definition endswith (s suffix : string) : bool := is_prefix (rev (chars suffix)) (rev (chars s)).

Definition issue_fail (attempt_id : Z) (code : string) : M idb unit :=
  transaction (
    found ← gets (attempt attempt_id);
    match found with
    | None => mret tt
    | Some a =>
        let reason := if endswith code "provider_unavailable" then "provider_unavailable"
                      else "provider_rejected" in
        _ ← save_attempt (at_failed reason a);
        req ← gets (request (at_request_id a));
        match req with
        | None => mret tt
        | Some q => _audit "magic_link.issue_failed.v1" "failed" reason (q_correlation_id q)
                      (about_attempt attempt_id)
        end
    end).

(** [(requested_at, str(request_id))], compared as a tuple *)
Definition request_key_le (q q' : MagicLinkRequest) : bool :=
  (q_requested_at q <? q_requested_at q')
  || ((q_requested_at q =? q_requested_at q')
      && negb (str_ltb (uuid_str (q_id q')) (uuid_str (q_id q)))).

(** The last transaction: the newer request of the subject wins. *)
Definition issue_store (attempt_id : Z) (generated : GeneratedMagicLink) (acceptance : EmailAcceptance)
    (a : MagicLinkAttempt) : M idb unit :=
  _ ← save_attempt (at_issue generated acceptance a);
  req ← gets (request (at_request_id a));
  match req with
  | None => mret tt
  | Some q => _audit "magic_link.issued.v1" "accepted" "email_accepted" (q_correlation_id q)
                (about_attempt attempt_id)
  end.

Definition issue_finish (attempt_id : Z) (generated : GeneratedMagicLink) (acceptance : EmailAcceptance)
  : M idb unit :=
  transaction (
    found ← gets (attempt attempt_id);
    match found with
    | None => mret tt
    | Some a =>
        current ← gets (current_attempt (at_invitation_id a) (at_user_id a));
        match current with
        | Some c =>
            if at_id c =? at_id a then issue_store attempt_id generated acceptance a
            else
              current_request ← gets (request (at_request_id c));
              attempt_request ← gets (request (at_request_id a));
              match current_request, attempt_request with
              | Some cq, Some aq =>
                  if request_key_le aq cq then
                    _ ← save_attempt (at_superseded (ea_accepted_at acceptance) (at_id c) a);
                    _audit "magic_link.superseded.v1" "denied" "link_superseded" (q_correlation_id aq)
                      (about_attempt (at_id a))
                  else
                    _ ← save_attempt (at_superseded (ea_accepted_at acceptance) (at_id a) c);
                    _ ← _audit "magic_link.superseded.v1" "denied" "link_superseded" (q_correlation_id cq)
                          (about_attempt (at_id c));
                    issue_store attempt_id generated acceptance a
              | _, _ => mret tt
              end
        | None => issue_store attempt_id generated acceptance a
        end
    end).

Definition issue_attempt (provider : IdentityProofPort) (mail : EmailPort) (capture_origin : string)
    (others : idb -> idb) (attempt_id : Z) (now : stamp) (correlation_id : option Z) : M idb unit :=
  now ← lift (to_utc now);
  begun ← issue_begin attempt_id correlation_id;
  match begun with
  | None => mret tt
  | Some (email, correlation) =>
      _ ← modify others;
      match issue_send provider mail capture_origin attempt_id email now correlation with
      | Ok (generated, acceptance) => issue_finish attempt_id generated acceptance
      | Raise (IdentityError code _ _) => issue_fail attempt_id code
      | Raise e => raise e
      end
  end.

(** ** Confirming a link *)

(** The first transaction: the audit it writes and the expiry it stores are rolled back
    by the exception that follows. *)
Definition confirm_check (attempt_id now : Z) : M idb unit :=
  transaction (
    found ← gets (attempt attempt_id);
    match found with
    | None => raise link_unavailable
    | Some a =>
        if negb (bool_decide (at_state a = A_ISSUED)) then
          let reason := if bool_decide (at_state a = A_CONSUMED) then "link_consumed"
                        else if bool_decide (at_state a = A_SUPERSEDED) then "link_superseded"
                        else "link_invalid" in
          req ← gets (request (at_request_id a));
          _ ← match req with
              | Some q => _audit "magic_link.reused.v1" "denied" reason (q_correlation_id q)
                            (about_attempt attempt_id)
              | None => mret tt
              end;
          raise link_unavailable
        else if negb (current_and_valid now a) then
          _ ← save_attempt (at_set A_EXPIRED a);
          req ← gets (request (at_request_id a));
          _ ← match req with
              | Some q => _audit "magic_link.expired.v1" "denied" "link_expired" (q_correlation_id q)
                            (about_attempt attempt_id)
              | None => mret tt
              end;
          raise link_unavailable
        else mret tt
    end).

(** A proof of another provider or issuer, or without its attributes: the one denial whose
    audit is committed. *)
Definition confirm_conflict (provider : IdentityProofPort) (proof : ProviderProof) (attempt_id : Z)
  : M idb unit :=
  transaction (
    found ← gets (attempt attempt_id);
    match found with
    | None => mret tt
    | Some a =>
        req ← gets (request (at_request_id a));
        match req with
        | None => raise link_unavailable
        | Some q =>
            _audit "identity.conflict.v1" "denied"
              (if negb (bool_decide (pf_provider proof = proof_provider provider))
                  || negb (bool_decide (pf_issuer proof = proof_issuer provider))
               then "issuer_mismatch" else "missing_verified_attribute")
              (q_correlation_id q) (about_attempt attempt_id)
        end
    end).

Definition conflict_denied (reason : string) (correlation_id attempt_id : Z) : M idb unit :=
  _ ← _audit "identity.conflict.v1" "denied" reason correlation_id (about_attempt attempt_id);
  raise access_denied.

(** The user of a first confirmation, who accepts the invitation *)
Definition activate_user (normalized : string) (now : Z) (invited : option Invitation)
    (correlation_id attempt_id : Z) : M idb ProductUser :=
  user_id ← uuid4;
  let u := MkUser user_id normalized U_ACTIVE None now now in
  _ ← save_user u;
  role_id ← uuid4;
  _ ← save_role (MkRole role_id user_id "user" now None "activation");
  _ ← match invited with
      | Some i => save_invitation (MkInvitation (inv_id i) (inv_email i) Inv_ACCEPTED (Some user_id)
                                     (inv_preload_source i) (inv_created_at i) (Some now))
      | None => mret tt
      end;
  _ ← _audit "user.activated.v1" "accepted" "eligible" correlation_id
        (about_user_attempt user_id attempt_id);
  mret u.

(** The session of the confirmed attempt; [token] is what [token_urlsafe] returns. *)
Definition start_session (token : string) (now : Z) (u : ProductUser) (a : MagicLinkAttempt)
    (correlation_id : Z) : M idb SessionResult :=
  _ ← save_attempt (at_consume now a);
  session_id ← uuid4;
  _ ← save_session (MkSession session_id (u_id u) (at_id a) (sha256 token) now None None);
  _ ← _audit "magic_link.consumed.v1" "accepted" "link_consumed" correlation_id
        (about_session (u_id u) (at_id a) session_id);
  _ ← _audit "session.started.v1" "accepted" "eligible" correlation_id
        (about_session (u_id u) (at_id a) session_id);
  mret (MkSessionResult session_id (u_id u) token now).

Definition confirm_finish (proof : ProviderProof) (normalized token : string) (attempt_id now : Z)
  : M idb SessionResult :=
  transaction (
    found ← gets (attempt attempt_id);
    match found with
    | None => raise link_unavailable
    | Some a =>
        req ← gets (request (at_request_id a));
        match req with
        | None => raise link_unavailable
        | Some q =>
            if negb (current_and_valid now a) then raise link_unavailable
            else
              known ← match at_user_id a with Some id => gets (user id) | None => mret None end;
              invited ← match at_invitation_id a with
                        | Some id => gets (invitation id) | None => mret None end;
              existing_link ← gets (link_for_subject (pf_provider proof) (pf_issuer proof) (pf_subject proof));
              _ ← match existing_link with
                  | Some l =>
                      if match known with Some u => negb (l_user_id l =? u_id u) | None => true end
                      then conflict_denied "subject_conflict" (q_correlation_id q) attempt_id
                      else mret tt
                  | None => mret tt
                  end;
              _ ← match known with
                  | Some u => if negb (bool_decide (u_email u = normalized))
                              then conflict_denied "email_mismatch" (q_correlation_id q) attempt_id
                              else mret tt
                  | None => mret tt
                  end;
              _ ← match invited with
                  | Some i => if negb (bool_decide (inv_status i = Inv_ACTIVE))
                                 || negb (bool_decide (inv_email i = normalized))
                              then conflict_denied "not_eligible" (q_correlation_id q) attempt_id
                              else mret tt
                  | None => mret tt
                  end;
              u ← match known with
                  | Some u => mret u
                  | None => activate_user normalized now invited (q_correlation_id q) attempt_id
                  end;
              _ ← match existing_link with
                  | Some _ => mret tt
                  | None =>
                      link_id ← uuid4;
                      _ ← save_link (MkLink link_id (u_id u) (pf_provider proof) (pf_issuer proof)
                                       (pf_subject proof) normalized (pf_verified_at proof));
                      _audit "identity.linked.v1" "accepted" "eligible" (q_correlation_id q)
                        (about_user_attempt (u_id u) attempt_id)
                  end;
              start_session token now u a (q_correlation_id q)
        end
    end).

Definition confirm_magic_link (provider : IdentityProofPort) (others : idb -> idb)
    (token : string) (attempt_id : Z) (token_hash : string) (now : stamp) : M idb SessionResult :=
  now ← lift (to_utc now);
  _ ← confirm_check attempt_id now;
  _ ← modify others;
  proof ← lift (verify_magic_link provider attempt_id token_hash now);
  if negb (bool_decide (pf_provider proof = proof_provider provider))
     || negb (bool_decide (pf_issuer proof = proof_issuer provider))
     || bool_decide (pf_subject proof = ""%string) || bool_decide (pf_verified_email proof = ""%string)
  then _ ← confirm_conflict provider proof attempt_id; raise access_denied
  else
    match normalize_email (pf_verified_email proof) with
    | Raise _ => raise access_denied
    | Ok e =>
        match match pf_revocation_handle proof with
              | Some handle => revoke_provider_session provider handle
              | None => Ok tt
              end with
        | Raise _ => raise (IdentityError "auth.provider_unavailable" 503 "retry_later")
        | Ok _ => confirm_finish proof (email_value e) token attempt_id now
        end
    end.

(** ** Sessions and authorization *)

Definition session_update (last_activity_at : Z) (revoked_at : option Z) (reason : option string)
    (x : ProductSession) : ProductSession :=
  MkSession (ps_id x) (ps_user_id x) (ps_attempt_id x) (ps_digest x) last_activity_at revoked_at reason.

(** [AccessControl._audit]: the event is not validated. *)
Definition authorization_audit (allowed : bool) (reason action : string) (user_id : option Z)
    (session_id : Z) (correlation_id : option Z) : M idb unit :=
  id ← uuid4;
  correlation_id ← match correlation_id with Some c => mret c | None => uuid4 end;
  now ← clock;
  append_audit
    (MkAudit id (if allowed then "authorization.allowed.v1" else "authorization.denied.v1")
       (if allowed then "allowed" else "denied") reason correlation_id now user_id user_id None None
       None (Some session_id) None (Some action) (Some "identity-policy.v1") None None).

(** [now] in UTC; what is written before a [raise] is rolled back with the transaction. *)
Definition authorize (token action : string) (resource_owner_id : option Z) (now : Z)
    (correlation_id : option Z) : M idb CurrentPrincipal :=
  transaction (
    found ← gets (session_by_digest (sha256 token));
    match found with
    | None => raise session_required
    | Some x =>
        known ← gets (user (ps_user_id x));
        let user_id := u_id <$> known in
        match ps_revoked_at x with
        | Some _ =>
            _ ← authorization_audit false "session_revoked" action user_id (ps_id x) correlation_id;
            raise session_required
        | None =>
            if is_idle_expired now x then
              _ ← save_session (session_update (ps_last_activity_at x) (Some now) (Some "idle_timeout") x);
              _ ← authorization_audit false "session_idle_expired" action user_id (ps_id x) correlation_id;
              raise session_required
            else
              match known with
              | Some u =>
                  if user_active known then
                    roles ← gets (active_roles (u_id u));
                    let decision := authorize_roles roles action (u_id u) resource_owner_id in
                    if negb (allowed decision) then
                      _ ← authorization_audit false (decision_reason decision) action (Some (u_id u))
                            (ps_id x) correlation_id;
                      raise access_denied
                    else
                      _ ← save_session (session_update now (ps_revoked_at x) (ps_revocation_reason x) x);
                      _ ← authorization_audit true "eligible" action (Some (u_id u)) (ps_id x)
                            correlation_id;
                      mret (MkPrincipal (u_id u) (sort_by str_ltb roles) now)
                  else
                    _ ← authorization_audit false "user_inactive" action user_id (ps_id x) correlation_id;
                    raise access_denied
              | None =>
                  _ ← authorization_audit false "user_inactive" action user_id (ps_id x) correlation_id;
                  raise access_denied
              end
        end
    end).

(** [IdentityAccess.principal] *)
Definition principal (token action : string) (now : Z) (correlation_id : option Z)
  : M idb CurrentPrincipal := authorize token action None now correlation_id.

Definition logout (token : string) (now : stamp) (correlation_id : option Z) : M idb unit :=
  transaction (
    found ← gets (session_by_digest (sha256 token));
    match found with
    | None => mret tt
    | Some x =>
        match ps_revoked_at x with
        | Some _ => mret tt
        | None =>
            t ← lift (to_utc now);
            _ ← save_session (session_update (ps_last_activity_at x) (Some t) (Some "logout") x);
            correlation_id ← match correlation_id with Some c => mret c | None => uuid4 end;
            _audit "session.ended.v1" "accepted" "logout" correlation_id
              (MkRefs (Some (ps_user_id x)) None None (Some (ps_id x)) None None None)
        end
    end).

(** ** Administration *)

Definition admin_audit (event_type reason : string) (actor subject inv role : option Z) : M idb unit :=
  correlation_id ← uuid4;
  _ ← lift (validate_event event_type "accepted" reason
              [("actor_user_id", opt_uuid actor); ("subject_user_id", opt_uuid subject);
               ("invitation_id", opt_uuid inv); ("role_assignment_id", opt_uuid role)]);
  id ← uuid4;
  now ← clock;
  append_audit (MkAudit id event_type "accepted" reason correlation_id now actor subject inv None None
                  None role None None None None).

Definition preload_invitation (email source : string) : M idb Invitation :=
  e ← lift (normalize_email email);
  transaction (
    existing ← gets (invitation_for_email (email_value e));
    match existing with
    | Some i => mret i
    | None =>
        id ← uuid4;
        now ← clock;
        let i := MkInvitation id (email_value e) Inv_ACTIVE None source now None in
        _ ← save_invitation i;
        _ ← admin_audit "invitation.preloaded.v1" "eligible" None None (Some id) None;
        mret i
    end).

Definition _require_administrator (actor_user_id : option Z) : M idb unit :=
  match actor_user_id with
  | None => mret tt
  | Some actor_id =>
      actor ← gets (user actor_id);
      roles ← gets (active_roles actor_id);
      if user_active actor && bool_decide ("administrator"%string ∈ roles) then mret tt
      else raise access_denied
  end.

Definition set_user_status (user_id : Z) (status reason : string) (now : option stamp)
    (actor_user_id : option Z) : M idb unit :=
  transaction (
    _ ← _require_administrator actor_user_id;
    found ← gets (user user_id);
    match found with
    | None => raise access_denied
    | Some u =>
        moment ← match now with Some t => mret t | None => t ← clock; mret (Stamp true t) end;
        u' ← (if bool_decide (status = "disabled"%string) then lift (user_disable reason moment u)
              else if bool_decide (status = "active"%string) then lift (user_enable moment u)
              else raise ValueError);
        _ ← save_user u';
        admin_audit "user.status_changed.v1" "administrator_change" actor_user_id (Some user_id) None None
    end).

(** [now] and the clock are kept as they come; a grant that exists is returned. *)
Definition change_role (user_id : Z) (role : string) (grant : bool) (reason : string) (now : option Z)
    (actor_user_id : option Z) : M idb Z :=
  if negb (bool_decide (role ∈ everyone)) then raise ValueError
  else
    moment ← match now with Some t => mret t | None => clock end;
    transaction (
      _ ← _require_administrator actor_user_id;
      current ← gets (active_role user_id role);
      match current, grant with
      | Some r, true => mret (r_id r)
      | None, true =>
          id ← uuid4;
          _ ← save_role (MkRole id user_id role moment None reason);
          _ ← admin_audit "role.granted.v1" "administrator_change" actor_user_id (Some user_id) None
                (Some id);
          mret id
      | Some r, false =>
          _ ← save_role (MkRole (r_id r) (r_user_id r) (r_role r) (r_granted_at r) (Some moment) (r_reason r));
          _ ← admin_audit "role.revoked.v1" "administrator_change" actor_user_id (Some user_id) None
                (Some (r_id r));
          mret (r_id r)
      | None, false => uuid4
      end).

Definition bootstrap_administrator (user_id : Z) (now : option Z) : M idb Z :=
  transaction (
    taken ← gets has_active_administrator;
    if taken : bool then raise access_denied
    else
      found ← gets (user user_id);
      if user_active found then
        id ← uuid4;
        moment ← match now with Some t => mret t | None => clock end;
        _ ← save_role (MkRole id user_id "administrator" moment None "zero_admin_bootstrap");
        _ ← admin_audit "role.granted.v1" "zero_admin_bootstrap" None (Some user_id) None (Some id);
        mret id
      else raise access_denied).

(** ** Retention *)

Definition purge_request_fingerprints (now : Z) : M idb Z := transaction (purge_requests_before now).
End services.

Example urlparse_ex :
  map urlparse ["https://app.umbral.ar:443/auth/capture?x=1#f"; "//h/p;v/q;w"; "mailto:a@b"; "http://[::1/x"]
  = [Ok ("https", "app.umbral.ar:443", "/auth/capture"); Ok ("", "h", "/p;v/q"); Ok ("mailto", "", "a@b");
     Raise ValueError]%string.
Proof. vm_compute. reflexivity. Qed.
