(* ===== verification/IdentityInvariant.v ===== *)
(** * The invariant of the identity slice

    [idb_inv] holds of every state that the transactions of the identity services bring
    about, over any store that keeps the laws of the port, and [id_evolves] says what a
    transaction never undoes: the audit log only grows and an attempt that was consumed,
    superseded or failed stays as it is. *)

From S2P Require Export IdentityAccess.
#[local] Open Scope list_scope.

(** ** Addresses *)

Lemma normalize_email_idemp raw e : normalize_email raw = Ok e ->
  normalize_email (email_value e) = Ok e /\ normalization_version e = 1.
Proof.
  unfold normalize_email. set (v := lower (strip_by is_ascii_space raw)). cbv zeta.
  match goal with |- (if ?c then _ else _) = _ -> _ => destruct c eqn:E end; [done|].
  unfold EmailAddress_init.
  change (negb (NORMALIZATION_VERSION =? NORMALIZATION_VERSION)) with false. cbv iota.
  match goal with |- (if ?c then _ else _) = _ -> _ => destruct c eqn:E2 end; [done|].
  intros [= <-]. cbn [email_value normalization_version]. split; [|done].
  assert (Hv : lower (strip_by is_ascii_space v) = v).
  { unfold v. rewrite strip_by_trimmed; [apply lower_idemp|].
    destruct (trimmed_strip_by is_ascii_space raw) as [H1 H2].
    assert (Hsp : forall c, is_ascii_space (lower_char c) = is_ascii_space c)
      by (intros [[] [] [] [] [] [] [] []]; vm_compute; reflexivity).
    unfold lower. rewrite chars_of_chars. split.
    - by rewrite lstrip_by_map, H1 by apply Hsp.
    - by rewrite <- map_rev, lstrip_by_map, H2 by apply Hsp. }
  by rewrite Hv, E, E2.
Qed.

Definition normal_address (s : string) : Prop := normalize_email s = Ok (MkEmail s 1).

Lemma normal_address_of raw e : normalize_email raw = Ok e -> normal_address (email_value e).
Proof. intros [H Hv]%normalize_email_idemp. unfold normal_address. rewrite H. destruct e. by simpl in *; subst. Qed.

(** ** The invariant *)

Record attempt_wf (a : MagicLinkAttempt) : Prop := {
  aw_subject : attempt_check a = true;
  aw_expired : at_state a <> A_EXPIRED;
  aw_consumed : at_consumed_at a <> None <-> at_state a = A_CONSUMED;
  aw_superseded : at_superseded_at a <> None <-> at_state a = A_SUPERSEDED;
  aw_issued : at_state a = A_ISSUED -> exists g t, at_provider_generated_at a = Some g
    /\ at_expires_at a = Some t /\ t <= g + minutes 15
}.

Definition same_subject (a b : MagicLinkAttempt) : Prop :=
  at_invitation_id a = at_invitation_id b /\ at_user_id a = at_user_id b.

Record attempts_inv (rows : odict Z MagicLinkAttempt) : Prop := {
  ai_nodup : NoDup (okeys rows);
  ai_row : forall k a, oget k rows = Some a -> at_id a = k /\ attempt_wf a;
  ai_one : forall k k' a b, oget k rows = Some a -> oget k' rows = Some b ->
    at_state a = A_ISSUED -> at_state b = A_ISSUED -> same_subject a b -> k = k'
}.

Record sessions_inv (attempts : odict Z MagicLinkAttempt) (rows : odict Z ProductSession) : Prop := {
  se_nodup : NoDup (okeys rows);
  se_row : forall k x, oget k rows = Some x -> ps_id x = k
    /\ (ps_revoked_at x = None <-> ps_revocation_reason x = None)
    /\ ps_revocation_reason x <> Some "idle_timeout"%string
    /\ exists a, oget (ps_attempt_id x) attempts = Some a /\ at_state a = A_CONSUMED;
  se_one : forall k k' x y, oget k rows = Some x -> oget k' rows = Some y ->
    ps_attempt_id x = ps_attempt_id y -> k = k'
}.

(** Events whose transaction always raises after they are written *)
Definition lost_events : list string :=
  ["magic_link.reused.v1"; "magic_link.expired.v1"; "authorization.denied.v1"].

Record log_inv (requests : odict Z MagicLinkRequest) (audits : list AccessAuditEvent) : Prop := {
  lg_nodup : NoDup (okeys requests);
  lg_kept : Forall (fun e => au_event_type e ∉ lost_events) audits;
  lg_request : forall k q, oget k requests = Some q ->
    q_id q = k /\ exists e, e ∈ audits /\ au_request_id e = Some k
}.

Record people_inv (invitations : odict Z Invitation) (users : odict Z ProductUser) : Prop := {
  pe_invitations : NoDup (okeys invitations);
  pe_users : NoDup (okeys users);
  pe_invitation : forall k i, oget k invitations = Some i ->
    inv_id i = k /\ normal_address (inv_email i) /\ invitation_check i = true;
  pe_user : forall k u, oget k users = Some u ->
    u_id u = k /\ normal_address (u_email u) /\ user_check u = true
}.

Record idb_inv (d : idb) : Prop := {
  ii_attempts : attempts_inv (i_attempts d);
  ii_sessions : sessions_inv (i_attempts d) (i_sessions d);
  ii_log : log_inv (i_requests d) (i_audits d);
  ii_people : people_inv (i_invitations d) (i_users d)
}.

(** ** What never changes back *)

Definition settled (a : MagicLinkAttempt) : bool :=
  bool_decide (at_state a = A_CONSUMED \/ at_state a = A_SUPERSEDED \/ at_state a = A_FAILED).

(** An attempt that is being issued is left to its worker: [X] is the attempt, if any, that
    the transaction issues. *)
Definition attempts_evolve (X : option Z) (rows rows' : odict Z MagicLinkAttempt) : Prop :=
  forall k a, oget k rows = Some a -> exists a', oget k rows' = Some a'
    /\ (settled a = true -> a' = a) /\ (at_state a <> A_PENDING -> at_state a' <> A_PENDING)
    /\ (at_state a = A_ISSUING -> X <> Some k -> a' = a).

Definition id_evolves (X : option Z) (d d' : idb) : Prop :=
  attempts_evolve X (i_attempts d) (i_attempts d') /\ exists l, i_audits d' = i_audits d ++ l.

#[export] Instance attempts_evolve_preorder X : PreOrder (attempts_evolve X).
Proof.
  split; [intros rows k a Ha; by exists a|].
  intros x y z Hxy Hyz k a Ha. destruct (Hxy k a Ha) as (b & Hb & H1 & H2 & H3).
  destruct (Hyz k b Hb) as (c & Hc & H4 & H5 & H6). exists c. split_and!; [done| |auto|].
  - intros Hs. specialize (H1 Hs) as ->. auto.
  - intros Hs Hx. specialize (H3 Hs Hx) as ->. auto.
Qed.

#[export] Instance id_evolves_preorder X : PreOrder (id_evolves X).
Proof.
  split; [intros d; split; [done|exists []; by rewrite app_nil_r]|].
  intros x y z [H1 [l1 E1]] [H2 [l2 E2]]. split; [by etrans|]. exists (l1 ++ l2).
  by rewrite E2, E1, app_assoc.
Qed.

(** ** Updates of the attempts *)

(** The update keeps the subject and does not touch a settled attempt. *)
Definition attempt_update (a a' : MagicLinkAttempt) : Prop :=
  at_id a' = at_id a /\ at_subject_kind a' = at_subject_kind a
  /\ at_invitation_id a' = at_invitation_id a /\ at_user_id a' = at_user_id a
  /\ (at_state a <> A_PENDING -> at_state a' <> A_PENDING) /\ settled a = false.

Lemma attempts_inv_update X rows a a' : attempts_inv rows -> oget (at_id a) rows = Some a ->
  attempt_update a a' -> attempt_wf a' ->
  (at_state a' = A_ISSUED -> forall k b, oget k rows = Some b -> at_state b = A_ISSUED ->
     same_subject a b -> k = at_id a) ->
  (at_state a = A_ISSUING -> X = Some (at_id a)) ->
  attempts_inv (oset (at_id a) a' rows) /\ attempts_evolve X rows (oset (at_id a) a' rows).
Proof.
  intros [Hnd Hrow Hone] Ha (Hid & _ & Hi & Hu & Hp & Hs) Hwf Hiss HX. split; [split|].
  - by apply NoDup_oset.
  - intros k b. rewrite oget_oset. case_decide; [|apply Hrow]. intros [= <-]. split; [congruence|done].
  - intros k k' b c. rewrite !oget_oset. unfold same_subject in *.
    case_decide as E1; case_decide as E2; intros Hb Hc Sb Sc Hsame; simplify_eq; try done; eauto.
    + symmetry. apply (Hiss Sb k' c); [done|done|]. by rewrite <- Hi, <- Hu.
    + apply (Hiss Sc k b); [done|done|]. rewrite <- Hi, <- Hu. by destruct Hsame.
  - intros k b Hb. rewrite oget_oset. case_decide; [|by exists b].
    subst k. assert (b = a) as -> by congruence. exists a'. split; [done|].
    split; [congruence|]. split; [done|]. intros Hb' Hx. by destruct Hx; apply HX.
Qed.

Lemma attempts_inv_insert X rows id a : attempts_inv rows -> at_id a = id -> oget id rows = None ->
  attempt_wf a -> at_state a <> A_ISSUED ->
  attempts_inv (oset id a rows) /\ attempts_evolve X rows (oset id a rows).
Proof.
  intros [Hnd Hrow Hone] <- Ha Hwf Hs. split; [split|].
  - by apply NoDup_oset.
  - intros k b. rewrite oget_oset. case_decide; [|apply Hrow]. intros [= <-]. by subst.
  - intros k k' b c. rewrite !oget_oset.
    case_decide; case_decide; intros Hb Hc Sb Sc Hsame; simplify_eq; try done; eauto.
  - intros k b Hb. exists b. by rewrite oget_oset_ne by congruence.
Qed.

Lemma sessions_inv_evolve X rows rows' sessions :
  sessions_inv rows sessions -> attempts_evolve X rows rows' -> sessions_inv rows' sessions.
Proof.
  intros [Hnd Hrow Hone] Hev. split; try done. intros k x Hx.
  destruct (Hrow k x Hx) as (? & ? & ? & a & Ha & Hs). split_and!; try done.
  destruct (Hev _ _ Ha) as (a' & Ha' & Hk & _). exists a'. split; [done|].
  rewrite Hk; [done|]. unfold settled. rewrite Hs. by apply bool_decide_eq_true; auto.
Qed.

Lemma sessions_inv_update attempts rows x x' : sessions_inv attempts rows ->
  oget (ps_id x) rows = Some x -> ps_id x' = ps_id x -> ps_attempt_id x' = ps_attempt_id x ->
  (ps_revoked_at x' = None <-> ps_revocation_reason x' = None) ->
  ps_revocation_reason x' <> Some "idle_timeout"%string ->
  sessions_inv attempts (oset (ps_id x) x' rows).
Proof.
  intros [Hnd Hrow Hone] Hx Hid Ha Hr Hi. split.
  - by apply NoDup_oset.
  - intros k y. rewrite oget_oset. case_decide; [|apply Hrow]. intros [= <-].
    destruct (Hrow _ _ Hx) as (? & _ & _ & ?). rewrite Ha. split; [congruence|done].
  - intros k k' y z. rewrite !oget_oset.
    case_decide as E1; case_decide as E2; intros Hy Hz; simplify_eq; try done; rewrite ?Ha; eauto.
Qed.

Lemma sessions_inv_insert attempts rows id x a : sessions_inv attempts rows -> ps_id x = id ->
  oget id rows = None -> oget (ps_attempt_id x) attempts = Some a -> at_state a = A_CONSUMED ->
  (forall k y, oget k rows = Some y -> ps_attempt_id y <> ps_attempt_id x) ->
  ps_revoked_at x = None -> ps_revocation_reason x = None ->
  sessions_inv attempts (oset id x rows).
Proof.
  intros [Hnd Hrow Hone] <- Hx Ha Hs Hf Hr Hrr. split.
  - by apply NoDup_oset.
  - intros k y. rewrite oget_oset. case_decide; [|apply Hrow]. intros [= <-]. rewrite Hr, Hrr.
    subst k. split_and!; try done. by exists a.
  - intros k k' y z. rewrite !oget_oset.
    case_decide as E1; case_decide as E2; intros Hy Hz E; simplify_eq; try done; eauto; exfalso;
      by eapply Hf.
Qed.

(** ** Updates of the log and of the people *)

Definition kept_event (e : AccessAuditEvent) : Prop := au_event_type e ∉ lost_events.

Lemma log_inv_audits requests audits l : log_inv requests audits -> Forall kept_event l ->
  log_inv requests (audits ++ l).
Proof.
  intros [Hnd Hk Hq] Hl. split; [done|by apply Forall_app|].
  intros k q Hx. destruct (Hq k q Hx) as (? & e & He & ?). split; [done|]. exists e.
  split; [set_solver|done].
Qed.

Lemma log_inv_request requests audits id q e : log_inv requests audits -> q_id q = id -> kept_event e ->
  au_request_id e = Some id -> log_inv (oset id q requests) (audits ++ [e]).
Proof.
  intros [Hnd Hk Hq] <- He Hr. split; [by apply NoDup_oset|by apply Forall_app; auto|].
  intros k x. rewrite oget_oset. case_decide.
  - intros [= <-]. split; [done|]. exists e. split; [set_solver|congruence].
  - intros Hx. destruct (Hq k x Hx) as (? & e' & ? & ?). split; [done|]. exists e'.
    split; [set_solver|done].
Qed.

Lemma filter_oget {V} (f : Z * V -> bool) (rows : odict Z V) k x :
  NoDup (okeys rows) -> oget k (List.filter f rows) = Some x -> oget k rows = Some x.
Proof.
  intros Hnd Hx%oget_Some_elem. apply list_elem_of_In, filter_In in Hx as [Hx _].
  apply oget_elem_NoDup; [done|]. by apply list_elem_of_In.
Qed.

Lemma filter_NoDup {V} (f : Z * V -> bool) (rows : odict Z V) :
  NoDup (okeys rows) -> NoDup (okeys (List.filter f rows)).
Proof.
  unfold okeys. intros Hnd. eapply sublist_NoDup; [exact Hnd|]. apply fmap_sublist.
  clear. induction rows as [|kv rows IH]; [done|]. simpl. destruct (f kv); by constructor.
Qed.

Lemma log_inv_filter requests audits f : log_inv requests audits ->
  log_inv (List.filter f requests) audits.
Proof.
  intros [Hnd Hk Hq]. split; [by apply filter_NoDup|done|].
  intros k q Hx%filter_oget; [by apply Hq|done].
Qed.

Lemma people_inv_user invitations users id u : people_inv invitations users -> u_id u = id ->
  normal_address (u_email u) -> user_check u = true -> people_inv invitations (oset id u users).
Proof.
  intros [Hi Hu Hir Hur] <- Hn Hc. split; [done|by apply NoDup_oset|done|].
  intros k x. rewrite oget_oset. case_decide; [|apply Hur]. by intros [= <-].
Qed.

Lemma people_inv_invitation invitations users id i : people_inv invitations users -> inv_id i = id ->
  normal_address (inv_email i) -> invitation_check i = true ->
  people_inv (oset id i invitations) users.
Proof.
  intros [Hi Hu Hir Hur] <- Hn Hc. split; [by apply NoDup_oset|done| |done].
  intros k x. rewrite oget_oset. case_decide; [|apply Hir]. by intros [= <-].
Qed.
