(* ===== verification/IdentityRuns.v ===== *)
(** * What the transactions of the identity services do to the invariant

    A successful call of an operation is opened into the rows it writes; each service
    operation then keeps [idb_inv] and only evolves the state ([id_evolves]). *)

From S2P Require Export IdentityInvariant.
#[local] Open Scope list_scope.

(** The identifiers that are still to be drawn are not those of an attempt or a session. *)
Definition fresh_ids (w : world) (n : nat) (d : idb) : Prop :=
  forall k, (n <= k)%nat -> oget (uuid_at w k) (i_attempts d) = None /\ oget (uuid_at w k) (i_sessions d) = None.

Lemma transaction_cases {A} (m : M idb A) w s r s' : transaction m w s = (r, s') ->
  (exists a, r = Ok a /\ m w s = (Ok a, s')) \/ (exists e, r = Raise e /\ state_of s' = state_of s).
Proof.
  unfold transaction. destruct (m w s) as [[a|e] s1]; intros [= <- <-]; [left|right]; eauto.
Qed.

(** A state that the services may leave behind *)
Definition next_ok_but (X : option Z) (d d' : idb) : Prop :=
  idb_inv d -> idb_inv d' /\ id_evolves X d d'.
Abbreviation next_ok := (next_ok_but None).

Lemma next_ok_refl {X} d : next_ok_but X d d.
Proof. intros Hd. by split. Qed.

Definition keeps {A} (m : M idb A) : Prop := forall w s r s',
  m w s = (r, s') -> fresh_ids w (drawn s) (state_of s) -> next_ok (state_of s) (state_of s').

Lemma keeps_transaction {A} (m : M idb A) :
  (forall w s a s', m w s = (Ok a, s') -> fresh_ids w (drawn s) (state_of s) ->
     next_ok (state_of s) (state_of s')) -> keeps (transaction m).
Proof.
  intros Hm w s r s' [(a & -> & H)|(e & -> & ->)]%transaction_cases Hf; [by eapply Hm|apply next_ok_refl].
Qed.

Lemma keeps_ret {A} (a : A) : keeps (mret a).
Proof. intros w s r s' [= <- <-] _. apply next_ok_refl. Qed.

Lemma keeps_raise {A} e : keeps (raise e : M idb A).
Proof. intros w s r s' [= <- <-] _. apply next_ok_refl. Qed.

Lemma keeps_lift {A B} (r : result A) (f : A -> M idb B) :
  (forall a, r = Ok a -> keeps (f a)) -> keeps (a ← lift r; f a).
Proof.
  intros Hk. destruct r as [a|e]; [exact (Hk a eq_refl)|exact (keeps_raise e)].
Qed.

Lemma evolves_log {X} d d' l : i_attempts d' = i_attempts d -> i_audits d' = i_audits d ++ l -> id_evolves X d d'.
Proof. intros Ha Hl. split; [by rewrite Ha|by exists l]. Qed.

Section runs.
Context `{Laws : IdentityStoreLaws} `{Digests}.

(** ** Opening a successful run *)

Lemma opt_gets_Ok {A} (f : Z -> idb -> option A) o w s v s' :
  (match o with Some id => gets (f id) | None => mret None end) w s = (Ok v, s') ->
  v = (match o with Some id => f id (state_of s) | None => None end) /\ s' = s.
Proof. destruct o; by intros [= <- <-]. Qed.

Lemma new_audit_run t r reason c refs w s e s' :
  _new_audit t r reason c refs w s = (Ok e, s') ->
  au_event_type e = t /\ au_request_id e = ref_request refs
  /\ s' = Sys (state_of s) (S (drawn s)) (S (ticks s)).
Proof.
  unfold _new_audit. intros Hr. inv_bind.
  repeat match goal with Hx : lift _ _ _ = _ |- _ => apply lift_Ok in Hx as [? ->] end.
  repeat match goal with Hx : _ = (Ok _, _) |- _ => injection Hx as <- <- end. done.
Qed.

Lemma audit_run t r reason c refs w s u s' : _audit t r reason c refs w s = (Ok u, s') ->
  exists e, au_event_type e = t /\ au_request_id e = ref_request refs
  /\ s' = Sys (put_audit e (state_of s)) (S (drawn s)) (S (ticks s)).
Proof.
  unfold _audit. intros Hr. inv_bind.
  match goal with Hx : _new_audit _ _ _ _ _ _ _ = _ |- _ => apply new_audit_run in Hx as (Ht & Hq & ->) end.
  apply append_audit_ok in Hr as ->. by exists x.
Qed.

Lemma authorization_audit_run ok reason action u x c w s v s' :
  authorization_audit ok reason action u x c w s = (Ok v, s') ->
  exists e n, au_event_type e = (if ok then "authorization.allowed.v1" else "authorization.denied.v1")%string
  /\ s' = Sys (put_audit e (state_of s)) n (S (ticks s)).
Proof.
  unfold authorization_audit. intros Hr. inv_bind. apply append_audit_ok in Hr as ->.
  destruct c; repeat match goal with Hx : _ = (Ok _, _) |- _ => injection Hx as <- <- end;
    eexists _, _; (split; cycle 1; [reflexivity|by destruct ok]).
Qed.

Lemma admin_audit_run t reason actor subject i r w s u s' :
  admin_audit t reason actor subject i r w s = (Ok u, s') ->
  exists e, au_event_type e = t
  /\ s' = Sys (put_audit e (state_of s)) (S (S (drawn s))) (S (ticks s)).
Proof.
  unfold admin_audit. intros Hr. inv_bind. apply append_audit_ok in Hr as ->.
  repeat match goal with Hx : lift _ _ _ = _ |- _ => apply lift_Ok in Hx as [? ->] end.
  repeat match goal with Hx : _ = (Ok _, _) |- _ => injection Hx as <- <- end.
  eexists. split; cycle 1; reflexivity.
Qed.
End runs.

(** Opens every primitive step of a successful run. *)
Ltac open_run :=
  repeat (inv_bind; match goal with
  | Hx : gets _ _ _ = (Ok _, _) |- _ => apply gets_Ok in Hx as [? ?]
  | Hx : lift _ _ _ = (Ok _, _) |- _ => apply lift_Ok in Hx as [? ?]
  | Hx : modify _ _ _ = (Ok _, _) |- _ => apply modify_Ok in Hx
  | Hx : raise _ _ _ = (Ok _, _) |- _ => discriminate Hx
  | Hx : mret _ _ _ = (Ok _, _) |- _ => injection Hx as ? ?
  | Hx : uuid4 _ _ = (Ok _, _) |- _ => injection Hx as ? ?
  | Hx : clock _ _ = (Ok _, _) |- _ => injection Hx as ? ?
  | Hx : save_invitation _ _ _ = _ |- _ => apply save_invitation_ok in Hx
  | Hx : save_user _ _ _ = _ |- _ => apply save_user_ok in Hx
  | Hx : save_link _ _ _ = _ |- _ => apply save_link_ok in Hx
  | Hx : save_role _ _ _ = _ |- _ => apply save_role_ok in Hx
  | Hx : save_request _ _ _ = _ |- _ => apply save_request_ok in Hx
  | Hx : save_attempt _ _ _ = _ |- _ => apply save_attempt_ok in Hx
  | Hx : save_session _ _ _ = _ |- _ => apply save_session_ok in Hx
  | Hx : purge_requests_before _ _ _ = _ |- _ => apply purge_ok in Hx
  | Hx : _audit _ _ _ _ _ _ _ = _ |- _ => apply audit_run in Hx as (? & ? & ? & ?)
  | Hx : _new_audit _ _ _ _ _ _ _ = _ |- _ => apply new_audit_run in Hx as (? & ? & ?)
  | Hx : authorization_audit _ _ _ _ _ _ _ _ = _ |- _ =>
      apply authorization_audit_run in Hx as (? & ? & ? & ?)
  | Hx : admin_audit _ _ _ _ _ _ _ _ = _ |- _ => apply admin_audit_run in Hx as (? & ? & ?)
  | Hx : (match _ with Some _ => _ | None => _ end) _ _ = (Ok _, _) |- _ =>
      apply opt_gets_Ok in Hx as [? ?]
  | Hx : _ _ _ = (Ok _, _) |- _ => progress cbv zeta in Hx
  end; subst); inv_bind.

(** ** States that differ in the log and in the people, the roles and the links *)

Lemma kept_type e t : au_event_type e = t -> bool_decide (t ∈ lost_events) = false -> kept_event e.
Proof. unfold kept_event. intros ->. by intros ?%bool_decide_eq_false. Qed.

(** The log of [d'] is that of [d] and kept events. *)
Definition logged (d d' : idb) : Prop :=
  i_requests d' = i_requests d /\ exists l, i_audits d' = i_audits d ++ l /\ Forall kept_event l.

Lemma logged_refl d d' : i_requests d' = i_requests d -> i_audits d' = i_audits d -> logged d d'.
Proof. intros Hr Ha. split; [done|]. exists []. by rewrite app_nil_r. Qed.

Lemma logged_audit d d' e : logged d d' -> kept_event e -> logged d (put_audit e d').
Proof.
  intros [Hr (l & Ha & Hl)] He. split; [done|]. exists (l ++ [e]). simpl.
  rewrite Ha, app_assoc. split; [done|]. apply Forall_app. auto.
Qed.

Lemma logged_inv d d' : idb_inv d -> logged d d' -> log_inv (i_requests d') (i_audits d').
Proof. intros Hd [-> (l & -> & Hl)]. apply log_inv_audits; [apply Hd|done]. Qed.

Lemma next_ok_people {X} d d' : i_attempts d' = i_attempts d -> i_sessions d' = i_sessions d ->
  logged d d' -> (idb_inv d -> people_inv (i_invitations d') (i_users d')) -> next_ok_but X d d'.
Proof.
  intros Ha Hs Hl Hp Hd. pose proof Hl as [_ (l & El & _)]. split; [split|by eapply evolves_log].
  - rewrite Ha. apply Hd.
  - rewrite Ha, Hs. apply Hd.
  - by apply (logged_inv d).
  - by apply Hp.
Qed.

Lemma next_ok_attempts {X} d d' : i_sessions d' = i_sessions d -> logged d d' ->
  i_invitations d' = i_invitations d -> i_users d' = i_users d ->
  (idb_inv d -> attempts_inv (i_attempts d') /\ attempts_evolve X (i_attempts d) (i_attempts d')) ->
  next_ok_but X d d'.
Proof.
  intros Hs Hl Hi Hu Ha Hd. destruct (Ha Hd) as [Ha1 Ha2]. pose proof Hl as [_ (l & El & _)].
  split; [split|split; [done|by exists l]].
  - done.
  - rewrite Hs. eapply sessions_inv_evolve; [apply Hd|done].
  - by apply (logged_inv d).
  - rewrite Hi, Hu. apply Hd.
Qed.

Lemma next_ok_sessions {X} d d' : i_attempts d' = i_attempts d -> logged d d' ->
  i_invitations d' = i_invitations d -> i_users d' = i_users d ->
  (idb_inv d -> sessions_inv (i_attempts d) (i_sessions d')) -> next_ok_but X d d'.
Proof.
  intros Ha Hl Hi Hu Hs Hd. pose proof Hl as [_ (l & El & _)]. split; [split|by eapply evolves_log].
  - rewrite Ha. apply Hd.
  - rewrite Ha. by apply Hs.
  - by apply (logged_inv d).
  - rewrite Hi, Hu. apply Hd.
Qed.

Ltac kept := eapply kept_type; [eassumption|reflexivity].
Ltac log := repeat (apply logged_audit; [|kept]); by apply logged_refl.

Lemma find_value_oget {R} (f : R -> bool) (id_of : R -> Z) (rows : odict Z R) x :
  NoDup (okeys rows) -> (forall k y, oget k rows = Some y -> id_of y = k) ->
  find_first f (ovalues rows) = Some x -> oget (id_of x) rows = Some x /\ f x = true.
Proof.
  intros Hnd Hid [Hx Hf]%find_first_Some. split; [|done]. by apply (oget_ovalues id_of).
Qed.

Section operations.
Context `{Laws : IdentityStoreLaws} `{Digests}.

(** ** Administration and retention *)

Lemma keeps_preload email source : keeps (preload_invitation email source).
Proof.
  apply keeps_lift. intros e He. apply keeps_transaction. intros w s a s' Hr Hf.
  open_run. destruct (invitation_for_email _ _); open_run; [apply next_ok_refl|].
  apply next_ok_people; [done|done|log|]. intros Hd. simpl. apply people_inv_invitation; [apply Hd|done| |done].
  by eapply normal_address_of.
Qed.

Lemma require_administrator_run actor w s u s' :
  _require_administrator actor w s = (Ok u, s') -> s' = s.
Proof.
  unfold _require_administrator. destruct actor; intros Hr; open_run; [|done].
  destruct (_ && _); open_run; done.
Qed.

Lemma user_status_row (u u' : ProductUser) : u_email u' = u_email u -> user_check u' = true ->
  forall invitations users, oget (u_id u) users = Some u -> people_inv invitations users ->
  people_inv invitations (oset (u_id u') u' users).
Proof.
  intros He Hc invs users Hu Hp. apply people_inv_user; [done|done| |done]. rewrite He.
  by apply (pe_user _ _ Hp _ _ Hu).
Qed.

Lemma keeps_set_user_status id status reason now actor : keeps (set_user_status id status reason now actor).
Proof.
  apply keeps_transaction. intros w s a s' Hr Hf. open_run.
  match goal with Hx : _require_administrator _ _ _ = _ |- _ => apply require_administrator_run in Hx as -> end.
  destruct (user id (state_of s)) as [u|] eqn:Eu; open_run.
  match goal with Hx : (match now with _ => _ end) _ _ = (Ok ?m, ?s1) |- _ =>
    assert (state_of s1 = state_of s) as Es1 by (destruct now; open_run; done); clear Hx end.
  match goal with Hx : (if _ then _ else _) _ _ = (Ok ?u', ?s2) |- _ =>
    assert (state_of s2 = state_of s /\ (u_email u' = u_email u /\ user_check u' = true)) as (Es2 & He & Hc) end.
  { repeat case_bool_decide; open_run; (split; [done|]).
    - unfold user_disable in *. case_match; [done|]. inv_bind. by inv_m.
    - unfold user_enable in *. inv_bind. by inv_m. }
  apply next_ok_people; simpl; rewrite ?Es2; [done|done| |].
  - log.
  - intros Hd. unfold user in Eu. pose proof (ii_people _ Hd) as Hp.
    destruct (pe_user _ _ Hp _ _ Eu) as (Hid & _). eapply user_status_row; try done. by rewrite Hid.
Qed.

Lemma keeps_change_role id role grant reason now actor : keeps (change_role id role grant reason now actor).
Proof.
  intros w s r s' Hr Hf. unfold change_role in Hr.
  destruct (negb _); [injection Hr as <- <-; apply next_ok_refl|].
  assert (Hm : exists m s1, (match now with Some t => mret t | None => clock end : M idb Z) w s = (Ok m, s1)
               /\ state_of s1 = state_of s /\ drawn s1 = drawn s) by (destruct now; eauto).
  destruct Hm as (m & s1 & Em & Es & Ed). rewrite (M_bind_run _ _ _ _ _ _ Em) in Hr.
  rewrite <- Es. rewrite <- Es, <- Ed in Hf. clear Es Ed Em. revert w s1 r s' Hr Hf.
  apply keeps_transaction. intros w s1 a s2 Hr Hf. open_run.
  match goal with Hx : _require_administrator _ _ _ = _ |- _ => apply require_administrator_run in Hx as -> end.
  destruct (active_role _ _ _), grant; open_run; try apply next_ok_refl;
    (apply next_ok_people; [done|done|log|intros Hd; apply Hd]).
Qed.

Lemma keeps_bootstrap id now : keeps (bootstrap_administrator id now).
Proof.
  apply keeps_transaction. intros w s a s' Hr Hf. open_run.
  destruct (has_active_administrator _); open_run. destruct (user_active _); open_run.
  match goal with Hx : (match now with _ => _ end) _ _ = (Ok ?m, ?s1) |- _ =>
    assert (state_of s1 = state_of s) as Es1 by (destruct now; open_run; done); clear Hx end.
  apply next_ok_people; simpl; rewrite ?Es1; [done|done| |intros Hd; apply Hd].
  log.
Qed.

Lemma keeps_purge now : keeps (purge_request_fingerprints now).
Proof.
  apply keeps_transaction. intros w s a s' Hr Hf. open_run. simpl. intros Hd.
  split; [split; simpl; try apply Hd|by apply (evolves_log _ _ []); simpl; rewrite ?app_nil_r].
  apply log_inv_filter, Hd.
Qed.

(** ** Sessions *)

Lemma stored_session d digest x : idb_inv d -> session_by_digest digest d = Some x ->
  oget (ps_id x) (i_sessions d) = Some x.
Proof.
  intros Hd Hx. apply (find_value_oget _ ps_id) in Hx as [Hx _]; [done|apply Hd|].
  intros k y Hy. apply (se_row _ _ (ii_sessions _ Hd) _ _ Hy).
Qed.

Lemma session_row d d' digest x now at_ reason :
  session_by_digest digest d = Some x -> ps_revoked_at x = None ->
  (at_ = None <-> reason = None) -> reason <> Some "idle_timeout"%string ->
  i_attempts d' = i_attempts d -> logged d d' -> i_invitations d' = i_invitations d ->
  i_users d' = i_users d ->
  i_sessions d' = oset (ps_id x) (session_update now at_ reason x) (i_sessions d) -> next_ok d d'.
Proof.
  intros Hx Hn Hr Hi Ha Hl Hin Hus Hs. apply next_ok_sessions; [done|done|done|done|].
  intros Hd. rewrite Hs. apply sessions_inv_update; [apply Hd|by eapply stored_session|done|done|done|done].
Qed.

Lemma session_unrevoked d digest x : idb_inv d -> session_by_digest digest d = Some x ->
  ps_revoked_at x = None -> ps_revocation_reason x = None.
Proof.
  intros Hd Hx Hn. apply (stored_session _ _ _ Hd) in Hx.
  by apply (se_row _ _ (ii_sessions _ Hd) _ _ Hx).
Qed.

Lemma keeps_authorize token action owner now c : keeps (authorize token action owner now c).
Proof.
  apply keeps_transaction. intros w s p s' Hr Hf. open_run.
  destruct (session_by_digest _ _) as [x|] eqn:Ex; open_run.
  destruct (ps_revoked_at x) eqn:Er; open_run. destruct (is_idle_expired _ _); open_run.
  destruct (user _ _) as [u|]; open_run. destruct (user_active _); open_run.
  destruct (negb _); open_run. simpl. intros Hd.
  pose proof (session_unrevoked _ _ _ Hd Ex Er) as Hrr.
  rewrite Hrr. eapply (session_row _ _ _ x now None None); try done. log.
Qed.

Lemma keeps_logout token now c : keeps (logout token now c).
Proof.
  apply keeps_transaction. intros w s p s' Hr Hf. open_run.
  destruct (session_by_digest _ _) as [x|] eqn:Ex; open_run; [|apply next_ok_refl].
  destruct (ps_revoked_at x) eqn:Er; open_run; [apply next_ok_refl|].
  match goal with Hx : (match c with _ => _ end) _ _ = (Ok ?m, ?s1) |- _ =>
    assert (Es1 : state_of s1 = state_of (Sys (put_session (session_update (ps_last_activity_at x) (Some _)
      (Some "logout"%string) x) (state_of s)) (drawn s) (ticks s))) by (destruct c; open_run; reflexivity);
    clear Hx end.
  simpl in *. rewrite Es1.
  eapply (session_row _ _ _ x _ (Some _) (Some "logout"%string)); try done; log.
Qed.

(** ** Issuing a link *)

Definition open_attempt (a : MagicLinkAttempt) : Prop := at_state a = A_PENDING \/ at_state a = A_ISSUING.

Lemma attempt_row d id a : idb_inv d -> attempt id d = Some a -> at_id a = id /\ attempt_wf a.
Proof. intros Hd. apply (ai_row _ (ii_attempts _ Hd)). Qed.

Lemma open_unmarked a : attempt_wf a -> open_attempt a -> at_consumed_at a = None /\ at_superseded_at a = None.
Proof.
  intros Hwf Ho. split; apply eq_None_not_Some; intros [t E].
  - assert (at_state a = A_CONSUMED) as Es by (apply Hwf; congruence). destruct Ho; congruence.
  - assert (at_state a = A_SUPERSEDED) as Es by (apply Hwf; congruence). destruct Ho; congruence.
Qed.

Lemma next_ok_attempt {X} d d' id a a' : attempt id d = Some a -> attempt_update a a' ->
  (at_state a = A_ISSUING -> X = Some id) ->
  (attempt_wf a -> attempt_wf a') ->
  (idb_inv d -> at_state a' = A_ISSUED -> forall k b, oget k (i_attempts d) = Some b ->
     at_state b = A_ISSUED -> same_subject a b -> k = at_id a) ->
  i_sessions d' = i_sessions d -> logged d d' ->
  i_invitations d' = i_invitations d -> i_users d' = i_users d ->
  i_attempts d' = oset (at_id a) a' (i_attempts d) -> next_ok_but X d d'.
Proof.
  intros Ha Hup HX Hwf Hiss Hs Hl Hi Hu Hat. apply next_ok_attempts; [done|done|done|done|].
  intros Hd. rewrite Hat. destruct (attempt_row _ _ _ Hd Ha) as [Hid Hw].
  apply attempts_inv_update; [apply Hd|by rewrite Hid|done|by apply Hwf|by apply Hiss|by rewrite Hid].
Qed.

(** An open attempt that starts to be issued or fails *)
Lemma open_update a a' : at_id a' = at_id a -> at_subject_kind a' = at_subject_kind a ->
  at_invitation_id a' = at_invitation_id a -> at_user_id a' = at_user_id a ->
  at_state a' <> A_PENDING -> open_attempt a -> attempt_update a a'.
Proof.
  intros ? ? ? ? ? Ho. split_and!; try done. unfold settled. apply bool_decide_eq_false.
  intros [E|[E|E]]; destruct Ho; congruence.
Qed.

Lemma open_wf a a' : at_subject_kind a' = at_subject_kind a -> at_invitation_id a' = at_invitation_id a ->
  at_user_id a' = at_user_id a -> at_consumed_at a' = at_consumed_at a ->
  at_superseded_at a' = at_superseded_at a -> at_state a' = A_ISSUING \/ at_state a' = A_FAILED ->
  open_attempt a -> attempt_wf a -> attempt_wf a'.
Proof.
  intros Hk Hi Hu Hc Hs Hst Ho Hwf. destruct (open_unmarked _ Hwf Ho) as [Hc' Hs']. split.
  - unfold attempt_check. rewrite Hk, Hi, Hu. apply Hwf.
  - destruct Hst; congruence.
  - rewrite Hc, Hc'. split; [done|]. destruct Hst; congruence.
  - rewrite Hs, Hs'. split; [done|]. destruct Hst; congruence.
  - destruct Hst; congruence.
Qed.

(** The attempt fails, perhaps with the job that was to issue it. *)
Definition fails (a a' : MagicLinkAttempt) : Prop :=
  exists reason, a' = at_failed reason a \/ exists job, a' = at_failed reason (at_with_job job a).

(** The attempt starts to be issued or fails. *)
Lemma next_ok_open {X} d d' id a a' : attempt id d = Some a -> open_attempt a ->
  (at_state a = A_ISSUING -> X = Some id) ->
  a' = at_set A_ISSUING a \/ fails a a' ->
  i_sessions d' = i_sessions d -> logged d d' ->
  i_invitations d' = i_invitations d -> i_users d' = i_users d ->
  i_attempts d' = oset (at_id a) a' (i_attempts d) -> next_ok_but X d d'.
Proof.
  intros Ha Ho HX Hst. assert (Hs : at_state a' = A_ISSUING \/ at_state a' = A_FAILED)
    by (destruct Hst as [->|[? [->|[? ->]]]]; auto).
  apply (next_ok_attempt d d' id a a' Ha).
  - apply open_update; try done; destruct Hst as [->|[? [->|[? ->]]]]; done.
  - done.
  - intros Hwf. apply (open_wf a); try done; destruct Hst as [->|[? [->|[? ->]]]]; done.
  - intros _ E. destruct Hs; congruence.
Qed.

Lemma issue_begin_keeps id c w s r s' : issue_begin id c w s = (r, s') ->
  next_ok (state_of s) (state_of s') /\
  (forall b, r = Ok (Some b) -> exists a, attempt id (state_of s) = Some a
     /\ at_state a = A_PENDING
     /\ i_attempts (state_of s') = oset (at_id a) (at_set A_ISSUING a) (i_attempts (state_of s))).
Proof.
  intros [(x & -> & Hr)|(e & -> & ->)]%transaction_cases; [|split; [apply next_ok_refl|done]].
  open_run. destruct (attempt id (state_of s)) as [a|] eqn:Ea; open_run;
    [|split; [apply next_ok_refl|done]].
  case_bool_decide as Es; simpl in Hr; open_run; [|split; [apply next_ok_refl|done]].
  destruct (request _ _) as [q|]; open_run; [|split; [apply next_ok_refl|done]].
  match type of Hr with (if ?b then _ else _) _ _ = _ => destruct b; open_run end.
  cbv zeta in Hr.
  assert (Hopen : open_attempt a) by (by left).
  match type of Hr with (match ?e with Some _ => _ | None => _ end) _ _ = _ => destruct e; open_run end;
    [match type of Hr with (if ?b then _ else _) _ _ = _ => destruct b; open_run end|].
  - split; [|done]. eapply next_ok_open; try done; [congruence|by right; eexists; left|log].
  - split; [|intros b [= <-]; by exists a]. eapply next_ok_open; try done; [congruence|by left|log].
  - split; [|done]. eapply next_ok_open; try done; [congruence|by right; eexists; left|log].
Qed.

Lemma issue_fail_keeps id code w s r s' : issue_fail id code w s = (r, s') ->
  (forall a, attempt id (state_of s) = Some a -> open_attempt a) -> next_ok_but (Some id) (state_of s) (state_of s').
Proof.
  intros [(x & -> & Hr)|(e & -> & ->)]%transaction_cases Hopen; [|apply next_ok_refl].
  open_run. destruct (attempt id (state_of s)) as [a|] eqn:Ea; open_run; [|apply next_ok_refl].
  open_run.
  destruct (request _ _) as [q|]; open_run;
    (eapply next_ok_open; try done; [by apply Hopen|by right; eexists; left|log]).
Qed.

(** No attempt of the subject is issued. *)
Definition none_issued (a : MagicLinkAttempt) (d : idb) : Prop := forall k b,
  oget k (i_attempts d) = Some b -> at_state b = A_ISSUED -> ~ same_subject a b.

Lemma issue_store_keeps id g acc a w s u s' : issue_store id g acc a w s = (Ok u, s') ->
  attempt id (state_of s) = Some a -> at_state a = A_ISSUING -> none_issued a (state_of s) ->
  next_ok_but (Some id) (state_of s) (state_of s').
Proof.
  unfold issue_store. intros Hr Ha Hs Hn. open_run.
  assert (Hopen : open_attempt a) by (by right).
  assert (Hwf : attempt_wf a -> attempt_wf (at_issue g acc a)).
  { intros Hwf. destruct (open_unmarked _ Hwf Hopen) as [Hc Hsu]. split; simpl.
    - apply Hwf.
    - done.
    - by rewrite Hc.
    - by rewrite Hsu.
    - intros _. do 2 eexists. split_and!; [done|done|lia]. }
  destruct (request _ _); open_run;
    (eapply (next_ok_attempt _ _ id a (at_issue g acc a));
       [done|by apply open_update|done|done| |done|log|done|done|done]);
    intros Hd _ k b Hb Hbs Hsame; by destruct (Hn k b Hb Hbs).
Qed.

Lemma foldl_pick {A} (f : A -> A -> bool) l a : foldl (fun best b => if f best b then b else best) a l ∈ a :: l.
Proof.
  revert a. induction l as [|b l IH]; intros a; simpl; [by apply list_elem_of_here|].
  specialize (IH (if f a b then b else a)).
  apply elem_of_cons in IH as [IH|IH]; [|by do 2 apply list_elem_of_further].
  rewrite IH. destruct (f a b); [by apply list_elem_of_further, list_elem_of_here|by apply list_elem_of_here].
Qed.

Lemma subject_check a c : attempt_check a = true -> attempt_check c = true ->
  of_subject (at_invitation_id a) (at_user_id a) c = true <-> same_subject a c.
Proof.
  unfold attempt_check, of_subject, same_subject. intros Ha Hc.
  destruct (at_invitation_id a), (at_user_id a), (at_invitation_id c), (at_user_id c),
    (at_subject_kind a), (at_subject_kind c); try discriminate Ha; try discriminate Hc;
    rewrite ?andb_true_iff, ?bool_decide_eq_true; naive_solver.
Qed.

Lemma current_attempt_None a d : idb_inv d -> attempt_wf a ->
  current_attempt (at_invitation_id a) (at_user_id a) d = None -> none_issued a d.
Proof.
  unfold current_attempt. intros Hd Hwf. case_match eqn:E; [|done]. intros _ k b Hb Hs Hsame.
  assert (Hin : b ∈ List.filter (fun a0 => bool_decide (at_state a0 = A_ISSUED)
      && of_subject (at_invitation_id a) (at_user_id a) a0) (ovalues (i_attempts d))).
  { apply list_elem_of_In, filter_In. split; [apply list_elem_of_In; by eapply oget_in_ovalues|].
    apply andb_true_iff. split; [by apply bool_decide_eq_true|].
    apply subject_check; [apply Hwf|by apply (ai_row _ (ii_attempts _ Hd) _ _ Hb)|done]. }
  rewrite E in Hin. by apply not_elem_of_nil in Hin.
Qed.

Lemma current_attempt_Some a c d : idb_inv d -> attempt_wf a ->
  current_attempt (at_invitation_id a) (at_user_id a) d = Some c ->
  attempt (at_id c) d = Some c /\ at_state c = A_ISSUED /\ same_subject a c.
Proof.
  unfold current_attempt. intros Hd Hwf. case_match eqn:E; [done|]. intros [= Hc].
  match type of Hc with foldl _ ?x ?l = _ => pose proof (foldl_pick issued_lt l x) as Hin end.
  rewrite Hc, <- E in Hin. apply list_elem_of_In, filter_In in Hin as [Hin Hf].
  apply list_elem_of_In, (oget_ovalues at_id) in Hin; [|apply Hd|].
  2: { intros k x Hx. by apply (ai_row _ (ii_attempts _ Hd) _ _ Hx). }
  apply andb_true_iff in Hf as [Hs%bool_decide_eq_true Hsub]. split_and!; [done|done|].
  apply subject_check in Hsub; [done|apply Hwf|by apply (ai_row _ (ii_attempts _ Hd) _ _ Hin)].
Qed.

Lemma next_ok_trans {X} d1 d2 d3 : next_ok_but X d1 d2 -> next_ok_but X d2 d3 -> next_ok_but X d1 d3.
Proof.
  intros H12 H23 Hd. destruct (H12 Hd) as [Hd2 E12]. destruct (H23 Hd2) as [Hd3 E23].
  split; [done|]. by etrans.
Qed.

Lemma next_ok_superseded {X} d id t by_id a e : attempt id d = Some a ->
  (at_state a = A_ISSUING -> X = Some id) ->
  at_state a = A_ISSUING \/ at_state a = A_ISSUED -> kept_event e ->
  next_ok_but X d (put_audit e (put_attempt (at_superseded t by_id a) d)).
Proof.
  intros Ha HX Hst He. apply (next_ok_attempt _ _ id a (at_superseded t by_id a)); try done.
  - split_and!; try done. unfold settled. apply bool_decide_eq_false.
    intros [E|[E|E]]; destruct Hst; congruence.
  - intros Hwf. split; simpl; try done; [apply Hwf|].
    rewrite (aw_consumed _ Hwf). split; [|done]. destruct Hst; congruence.
  - apply logged_audit; [by apply logged_refl|done].
Qed.

Lemma issue_finish_keeps id g acc w s r s' : issue_finish id g acc w s = (r, s') ->
  (forall a, attempt id (state_of s) = Some a -> at_state a = A_ISSUING) ->
  next_ok_but (Some id) (state_of s) (state_of s').
Proof.
  intros [(x & -> & Hr)|(e & -> & ->)]%transaction_cases Hst; [|apply next_ok_refl].
  open_run. destruct (attempt id (state_of s)) as [a|] eqn:Ea; open_run; [|apply next_ok_refl].
  specialize (Hst a eq_refl). intros Hd. destruct (attempt_row _ _ _ Hd Ea) as [Hid Hwf].
  revert Hd. change (next_ok_but (Some id) (state_of s) (state_of s')).
  destruct (current_attempt _ _ _) as [c|] eqn:Ec.
  2: { intros Hd. revert Hd. intros Hd. eapply issue_store_keeps; try done. by apply current_attempt_None. }
  intros Hd. destruct (current_attempt_Some _ _ _ Hd Hwf Ec) as (Hc & Hcs & Hsame).
  destruct (Z.eqb_spec (at_id c) (at_id a)) as [Eid|Eid]; [rewrite Eid, Hid in Hc; congruence|].
  open_run. destruct (request _ _) as [cq|]; [|open_run; by apply next_ok_refl].
  destruct (request _ _) as [aq|]; [|open_run; by apply next_ok_refl].
  destruct (request_key_le aq cq); open_run.
  { simpl. revert Hd. eapply next_ok_superseded; [exact Ea|done|by left|kept]. }
  match type of Hr with issue_store _ _ _ _ _ ?s1 = _ => assert (Hd1 : next_ok_but (Some (at_id a)) (state_of s) (state_of s1)) end.
  { simpl. eapply next_ok_superseded; [exact Hc|congruence|by right|kept]. }
  pose proof Hd as Hd0. revert Hd. apply (next_ok_trans _ _ _ Hd1).
  eapply issue_store_keeps; [done| |done|].
  - unfold attempt in *. simpl. by rewrite oget_oset_ne.
  - intros k b. simpl. rewrite oget_oset. case_decide as Ek; [by intros [= <-]|].
    intros Hb Hbs [Hi Hu]. apply Ek. apply (ai_one _ (ii_attempts _ Hd0) _ k c b Hc Hb Hcs Hbs).
    destruct Hsame. split; congruence.
Qed.

(** ** Confirming a link *)

Lemma keeps_confirm_check id now : keeps (confirm_check id now).
Proof.
  apply keeps_transaction. intros w s u s' Hr Hf. open_run.
  destruct (attempt _ _) as [a|]; open_run. destruct (negb _); open_run.
  destruct (negb _); open_run. apply next_ok_refl.
Qed.

Lemma keeps_confirm_conflict provider proof id : keeps (confirm_conflict provider proof id).
Proof.
  apply keeps_transaction. intros w s u s' Hr Hf. open_run.
  destruct (attempt _ _) as [a|]; open_run; [|apply next_ok_refl].
  destruct (request _ _) as [q|]; open_run.
  simpl. apply next_ok_people; [done|done|log|intros Hd; apply Hd].
Qed.

Lemma conflict_guard {X} (o : option X) (f : X -> bool) reason c id w s (u : unit) s' :
  (match o with
   | Some x => if f x then conflict_denied reason c id else mret tt
   | None => mret tt
   end) w s = (Ok u, s') -> s' = s /\ forall x, o = Some x -> f x = false.
Proof.
  destruct o as [x|]; [|intros Hr; by open_run].
  destruct (f x) eqn:Ef; unfold conflict_denied; intros Hr; open_run. split; [done|].
  by intros y [= <-].
Qed.

(** What a step before the session does to the tables: the people and the log grow. *)
Definition side_step (s s' : sys idb) : Prop :=
  i_attempts (state_of s') = i_attempts (state_of s)
  /\ i_sessions (state_of s') = i_sessions (state_of s)
  /\ (drawn s <= drawn s')%nat /\ next_ok (state_of s) (state_of s').

Lemma side_step_refl s : side_step s s.
Proof. split_and!; [done|done|lia|apply next_ok_refl]. Qed.

Lemma side_step_trans s1 s2 s3 : side_step s1 s2 -> side_step s2 s3 -> side_step s1 s3.
Proof.
  intros (Ha & Hs & Hd & Hn) (Ha' & Hs' & Hd' & Hn'). split_and!; [congruence|congruence|lia|].
  by eapply next_ok_trans.
Qed.

Lemma activate_user_side normalized now invited c id w s u s' :
  activate_user normalized now invited c id w s = (Ok u, s') -> normal_address normalized ->
  match invited with
  | Some i => oget (inv_id i) (i_invitations (state_of s)) = Some i
  | None => True
  end -> side_step s s'.
Proof.
  unfold activate_user. intros Hr Hn Hi. open_run. destruct invited as [i|]; open_run; simpl.
  - split_and!; simpl; [done|done|lia|]. apply next_ok_people; [done|done|log|]. intros Hd. simpl.
    pose proof (ii_people _ Hd) as Hp. destruct (pe_invitation _ _ Hp _ _ Hi) as (_ & Hin & _).
    apply people_inv_invitation; [|done|done|done]. by apply people_inv_user.
  - split_and!; simpl; [done|done|lia|]. apply next_ok_people; [done|done|log|]. intros Hd. simpl.
    apply people_inv_user; [apply Hd|done..].
Qed.

Lemma link_side (o : option ExternalIdentityLink) proof normalized c uid id w s (v : unit) s' :
  match o with
  | Some _ => mret tt
  | None =>
      link_id ← uuid4;
      _ ← save_link (MkLink link_id uid (pf_provider proof) (pf_issuer proof) (pf_subject proof)
                       normalized (pf_verified_at proof));
      _audit "identity.linked.v1" "accepted" "eligible" c (about_user_attempt uid id)
  end w s = (Ok v, s') -> side_step s s'.
Proof.
  destruct o; intros Hr; open_run; [apply side_step_refl|]. split_and!; simpl; [done|done|lia|].
  apply next_ok_people; [done|done|log|intros Hd; apply Hd].
Qed.

Lemma start_session_keeps token now u a c w s x s' : start_session token now u a c w s = (Ok x, s') ->
  attempt (at_id a) (state_of s) = Some a -> at_state a = A_ISSUED ->
  fresh_ids w (drawn s) (state_of s) -> next_ok (state_of s) (state_of s').
Proof.
  unfold start_session. intros Hr Ha Hs Hf. open_run. simpl.
  intros Hd. destruct (attempt_row _ _ _ Hd Ha) as [_ Hwf].
  destruct (attempts_inv_update None (i_attempts (state_of s)) a (at_consume now a)) as [Hat Hev];
    [apply Hd|done| | |done|congruence|].
  { split_and!; try done. unfold settled. apply bool_decide_eq_false. intros [E|[E|E]]; congruence. }
  { split; simpl; [apply Hwf|done|done| |done]. rewrite (aw_superseded _ Hwf), Hs. done. }
  match goal with |- idb_inv (put_audit ?y (put_audit ?x _)) /\ _ => rename x into e1, y into e2 end.
  split; [split|split]; simpl.
  - done.
  - eapply sessions_inv_insert; try done; simpl; [|apply Hf; lia|by rewrite oget_oset_eq|done|].
    + eapply sessions_inv_evolve; [apply Hd|done].
    + intros k y Hy E. destruct (se_row _ _ (ii_sessions _ Hd) _ _ Hy) as (_ & _ & _ & b & Hb & Hbs).
      unfold attempt in Ha. rewrite E in Hb. congruence.
  - by apply (log_inv_audits _ (i_audits (state_of s) ++ [e1]) [e2]);
      [apply log_inv_audits; [apply Hd|]|]; repeat constructor; kept.
  - apply Hd.
  - done.
  - exists [e1; e2]. by rewrite <- app_assoc.
Qed.

Lemma confirm_finish_keeps proof normalized token id now w s x s' :
  confirm_finish proof normalized token id now w s = (Ok x, s') -> normal_address normalized ->
  idb_inv (state_of s) ->
  exists a q s1, attempt id (state_of s) = Some a /\ at_state a = A_ISSUED
  /\ current_and_valid now a = true /\ side_step s s1
  /\ exists u, start_session token now u a (q_correlation_id q) w s1 = (Ok x, s').
Proof.
  unfold confirm_finish. intros [(y & [= <-] & Hr)|(e & He & _)]%transaction_cases Hn Hd; [|done].
  open_run. destruct (attempt id (state_of s)) as [a|] eqn:Ea; open_run.
  destruct (request _ _) as [q|]; open_run.
  destruct (current_and_valid now a) eqn:Ev; simpl in Hr; open_run.
  do 3 match goal with Hx : context [conflict_denied] |- _ => apply conflict_guard in Hx as [? ?] end.
  subst.
  match goal with
  | Hu : (match ?k with Some _ => mret _ | None => activate_user _ _ _ _ _ end) _ _ = (Ok ?u, ?s1),
    Hl : _ _ ?s1 = (Ok _, ?s2) |- _ => assert (Hs1 : side_step s s1); [destruct k|apply link_side in Hl] end.
  { open_run. apply side_step_refl. }
  {
    eapply activate_user_side; [done|done|]. destruct (at_invitation_id a) as [i_id|]; [|done].
    destruct (invitation i_id _) as [i|] eqn:Ei; [|done].
    by destruct (pe_invitation _ _ (ii_people _ Hd) _ _ Ei) as [-> _]. }
  eexists a, q, _. split_and!; [done| |done|by eapply side_step_trans|by eexists].
  unfold current_and_valid in Ev. rewrite !andb_true_iff, bool_decide_eq_true in Ev. apply Ev.
Qed.

Lemma keeps_confirm_finish proof normalized token id now : normal_address normalized ->
  keeps (confirm_finish proof normalized token id now).
Proof.
  intros Hn w s [x|e] s' Hr Hf.
  - intros Hd.
    destruct (confirm_finish_keeps _ _ _ _ _ _ _ _ _ Hr Hn Hd) as (a & q & s1 & Ha & Hs & _ & Hside & u & Hst).
    destruct Hside as (Eat & Ese & Hdr & Hnext). revert Hd. apply (next_ok_trans _ _ _ Hnext).
    intros Hd. destruct (attempt_row _ id a Hd) as [Hid _]; [unfold attempt in *; by rewrite Eat|].
    revert Hd. eapply start_session_keeps; [exact Hst| |done|].
    + unfold attempt in *. by rewrite Eat, Hid.
    + intros k Hk. rewrite Eat, Ese. apply Hf. lia.
  - apply transaction_cases in Hr as [(a & Ha & _)|(e' & _ & ->)]; [done|apply next_ok_refl].
Qed.

(** ** Webhooks *)

Lemma provider_audit_keeps p e o w s b s' : append_provider_audit_once p e o w s = (Ok b, s') ->
  (forall x, o = Some x -> kept_event x) -> next_ok (state_of s) (state_of s').
Proof.
  intros (l & l' & Hl & ->)%append_provider_audit_ok Ho. apply next_ok_people; [done|done| |intros Hd; apply Hd].
  split; [done|]. exists l. split; [done|]. apply Forall_forall. intros y Hy.
  destruct (Hl y Hy) as (z & [Hz|Hz] & Et & _); unfold kept_event; rewrite Et; [by apply Ho|].
  rewrite Hz. by apply (bool_decide_eq_false (_ ∈ lost_events)).
Qed.

Lemma keeps_webhook mail now : keeps (process_email_webhook mail now).
Proof.
  apply keeps_lift. intros t _. apply keeps_lift. intros [[|f event]|] _; try apply keeps_ret.
  destruct (oget "id" _) as [[|c id]|]; try apply keeps_raise.
  apply keeps_transaction. intros w s b s' Hr Hf. open_run.
  match goal with Hx : _provider_correlation _ _ _ = (_, ?s1) |- _ =>
    assert (Es : state_of s1 = state_of s)
      by (unfold _provider_correlation in Hx; destruct (uuid_of_str _); by open_run) end.
  rewrite <- Es. clear Hf. destruct (oget _ reason_by_type); [|by eapply provider_audit_keeps].
  open_run. match goal with Hx : (match oget "email_id"%string _ with _ => _ end) _ _ = (_, ?s1) |- _ =>
    assert (Es1 : s1 = x0) by (destruct (oget _ _); by open_run); clear Hx end. subst.
  repeat (match type of Hr with (match ?o with Some _ => _ | None => _ end) _ _ = _ => destruct o end; open_run);
    (eapply (provider_audit_keeps _ _ _ w (Sys _ _ _)) in Hr || eapply provider_audit_keeps in Hr; [exact Hr|]);
    try done; intros y [= <-]; kept.
Qed.

(** ** Requesting a link *)

Section request.
Context {J : Type} `{JobPort J}.

Lemma on_store_Ok {A} (m : M idb A) w (s : sys (idb * J)) a s' : on_store m w s = (Ok a, s') ->
  exists s1, m w (Sys (state_of s).1 (drawn s) (ticks s)) = (Ok a, s1)
  /\ s' = Sys (state_of s1, (state_of s).2) (drawn s1) (ticks s1).
Proof. unfold on_store. destruct (m w _) as [r s1]. intros [= -> <-]. by exists s1. Qed.

Lemma on_runtime_store {A} (m : M J A) w (s : sys (idb * J)) r s' : on_runtime m w s = (r, s') ->
  (state_of s').1 = (state_of s).1.
Proof. unfold on_runtime. destruct (m w _) as [r1 s1]. by intros [= _ <-]. Qed.

Lemma submission_failed_run a c w (s : sys (idb * J)) u s' : submission_failed a c w s = (Ok u, s') ->
  exists e, au_event_type e = "magic_link.issue_failed.v1"%string
  /\ (state_of s').1 = put_audit e (put_attempt (at_failed "job_submission_failed" a) (state_of s).1).
Proof. intros (s2 & Hr & ->)%on_store_Ok. open_run. simpl. by eexists. Qed.

Lemma submit_issue_run a c w (s : sys (idb * J)) u s' : submit_issue a c w s = (Ok u, s') ->
  (exists job, (state_of s').1 = put_attempt (at_with_job job a) (state_of s).1)
  \/ exists a' e, fails a a' /\ at_id a' = at_id a
     /\ au_event_type e = "magic_link.issue_failed.v1"%string
     /\ (state_of s').1 = put_audit e (put_attempt a' (state_of s).1).
Proof.
  unfold submit_issue. intros (o & s1 & Ht & Hr)%M_bind_Ok.
  assert (Es : (state_of s1).1 = (state_of s).1).
  { unfold try_except, mbind, M_bind, lift in Ht.
    destruct (SubmitJob_create _ _ _ _ _ _) as [command|]; [|by injection Ht as _ <-].
    destruct (on_runtime _ _ _) as [[snap|] s3] eqn:E3; apply on_runtime_store in E3; by injection Ht as _ <-. }
  rewrite <- Es. destruct o as [snapshot|].
  - cbv zeta in Hr. unfold try_except in Hr.
    destruct (on_store _ w s1) as [[[]|e] s2] eqn:E2.
    + injection Hr as _ <-. apply on_store_Ok in E2 as (s3 & E3 & ->). apply save_attempt_ok in E3 as ->.
      left. by eexists.
    + assert (Es2 : state_of s2 = state_of s1).
      { unfold on_store in E2. destruct (save_attempt _ _ _) as [[?|?] s4] eqn:E4; [done|].
        apply save_attempt_raise in E4 as ->. injection E2 as _ <-. by destruct (state_of s1). }
      apply submission_failed_run in Hr as (e' & He & ->). right. rewrite Es2.
      do 2 eexists. split_and!; [eexists; right; by eexists|done|exact He|done].
  - apply submission_failed_run in Hr as (e' & He & ->). right.
    do 2 eexists. split_and!; [eexists; by left|done|exact He|done].
Qed.

Lemma new_attempt_wf id rid invited known :
  invitation_active invited || user_active known = true -> attempt_wf (new_attempt id rid invited known).
Proof.
  intros Ha. assert (Hs : forall k i u, attempt_check (MkAttempt id rid k i u None A_PENDING None None None None
      None None None None) = true -> attempt_wf (MkAttempt id rid k i u None A_PENDING None None None None
      None None None None)) by (intros k i u Hc; by split).
  unfold new_attempt. destruct invited as [i|]; [destruct (invitation_active (Some i)) eqn:E|];
    apply Hs; [done| |]; unfold attempt_check; simpl.
  - by destruct known.
  - by destruct known.
Qed.

Lemma new_attempt_fields id rid invited known : at_id (new_attempt id rid invited known) = id
  /\ at_state (new_attempt id rid invited known) = A_PENDING.
Proof. unfold new_attempt. destruct invited; [destruct (invitation_active _)|]; done. Qed.

Lemma next_ok_request {X} d q e : kept_event e -> au_request_id e = Some (q_id q) ->
  next_ok_but X d (put_audit e (put_request q d)).
Proof.
  intros He Hq Hd. split; [split; simpl; try apply Hd|by apply (evolves_log _ _ [e])].
  by apply log_inv_request; [apply Hd|..].
Qed.

Lemma next_ok_insert {X} d a : oget (at_id a) (i_attempts d) = None -> attempt_wf a ->
  at_state a <> A_ISSUED -> next_ok_but X d (put_attempt a d).
Proof.
  intros Hf Hwf Hs. apply next_ok_attempts; simpl; try done; [by apply logged_refl|].
  intros Hd. by apply attempts_inv_insert; [apply Hd|..].
Qed.

Lemma submit_issue_keeps a c w (s : sys (idb * J)) u s' : submit_issue a c w s = (Ok u, s') ->
  attempt (at_id a) (state_of s).1 = Some a -> at_state a = A_PENDING ->
  next_ok (state_of s).1 (state_of s').1.
Proof.
  intros [[job ->]|(a' & e & Hfail & Hid & He & ->)]%submit_issue_run Ha Hs.
  - apply (next_ok_attempt _ _ (at_id a) a (at_with_job job a)); try done; simpl; try congruence.
    + split_and!; try done. unfold settled. apply bool_decide_eq_false. intros [E|[E|E]]; congruence.
    + intros [? ? ? ? ?]. by split.
    + by apply logged_refl.
  - eapply next_ok_open; [exact Ha|by left|congruence|by right|done|log|done|done|by simpl; rewrite Hid].
Qed.

Lemma decision_eligible m n b : request_decision m n b = "eligible"%string ->
  m < 3 /\ n < 20 /\ b = true.
Proof.
  unfold request_decision. destruct (Z.leb_spec 3 m), (Z.leb_spec 20 n), b; simpl; done || lia.
Qed.

(** The row of a request, with the decision that the state gives *)
Definition request_row (email origin : string) (rid c t : Z) (d : idb) : MagicLinkRequest :=
  let normalized := normalized_or_raw email in
  MkRequest rid (fingerprint normalized) (fingerprint origin)
    (request_decision (recent_requests EmailField (fingerprint normalized) t d)
       (recent_requests OriginField (fingerprint origin) t d)
       (invitation_active (invitation_for_email normalized d)
        || user_active (user_for_email normalized d)))
    t (t + hours 24) c.

Lemma request_run enabled email origin c now w (s : sys (idb * J)) u s' :
  request_magic_link enabled email origin c now w s = (Ok u, s') ->
  exists t rid e, to_utc now = Ok t /\ kept_event e /\ au_request_id e = Some rid
  /\ let q := request_row email origin rid c t (state_of s).1 in
     let d1 := put_audit e (put_request q (state_of s).1) in
     (q_decision q <> "eligible"%string /\ (state_of s').1 = d1)
     \/ exists k s1 s2, (drawn s <= k)%nat /\ q_decision q = "eligible"%string
        /\ let a := new_attempt (uuid_at w k) rid (invitation_for_email (normalized_or_raw email) (state_of s).1)
                      (user_for_email (normalized_or_raw email) (state_of s).1) in
           (state_of s1).1 = put_attempt a d1
           /\ (state_of s' = state_of s1 \/ submit_issue a c w s1 = (Ok u, s2) /\ state_of s' = state_of s2).
Proof.
  unfold request_magic_link. intros Hr. apply M_bind_Ok in Hr as (t & s0 & Ht & Hr).
  apply lift_Ok in Ht as [Ht ->]. cbv zeta in Hr. unfold store_transaction in Hr.
  match type of Hr with (match ?m w s with _ => _ end) = _ => destruct (m w s) as [[v|e] s1] eqn:Em end;
    [|done]. injection Hr as -> <-. inv_bind.
  repeat match goal with Hx : on_store (gets _) _ _ = _ |- _ =>
    apply on_store_Ok in Hx as (? & Hx & ?); apply gets_Ok in Hx as [? ?]; subst end.
  destruct s as [[d j] n0 t0]. simpl in *.
  match goal with Hx : uuid4 _ _ = _ |- _ => injection Hx as <- <- end.
  repeat match goal with Hx : on_store _ _ _ = _ |- _ => apply on_store_Ok in Hx as (? & Hx & ?) end.
  open_run. simpl in *. match goal with He : au_event_type ?e = _ |- _ => exists t, (uuid_at w n0), e end.
  split_and!; [done|by eapply kept_type|done|].
  set (dec := request_decision _ _ _) in *.
  case_bool_decide as Ed; simpl in Em; [|left; by injection Em as _ <-].
  right. inv_bind. match goal with Hx : uuid4 _ _ = _ |- _ => injection Hx as <- <- end.
  match goal with Hx : on_store _ _ _ = _ |- _ => apply on_store_Ok in Hx as (? & Hx & ?) end.
  open_run. simpl in *. destruct enabled.
  - do 3 eexists. split_and!; [|done| |right; split; [exact Em|done]]; [simpl; lia|done].
  - injection Em as _ <-. eexists _, _, (Sys (d, j) n0 t0).
    split_and!; [|done| |by left]; [|done]. simpl. lia.
Qed.

Lemma request_raise enabled email origin c now w (s : sys (idb * J)) e s' :
  request_magic_link enabled email origin c now w s = (Raise e, s') -> (state_of s').1 = (state_of s).1.
Proof.
  unfold request_magic_link. destruct (to_utc now) as [t|]; [|by intros [= _ <-]].
  unfold mbind at 1, M_bind at 1, lift. cbv zeta. unfold store_transaction.
  match goal with |- (match ?m w s with _ => _ end) = _ -> _ => destruct (m w s) as [[v|?] s1] end;
    [done|]. by intros [= _ <-].
Qed.

Lemma request_keeps enabled email origin c now w (s : sys (idb * J)) r s' :
  request_magic_link enabled email origin c now w s = (r, s') ->
  fresh_ids w (drawn s) (state_of s).1 -> next_ok (state_of s).1 (state_of s').1.
Proof.
  intros Hr Hf. destruct r as [u|e].
  - apply request_run in Hr as (t & rid & e & _ & He & Hq & Hr).
    set (q := request_row _ _ _ _ _ _) in *.
    assert (Hn1 : next_ok (state_of s).1 (put_audit e (put_request q (state_of s).1)))
      by (by apply next_ok_request).
    destruct Hr as [[_ ->]|(k & s1 & s2 & Hk & Hd & Hs1 & Hr)]; [done|].
    destruct (new_attempt_fields (uuid_at w k) rid (invitation_for_email (normalized_or_raw email) (state_of s).1)
                (user_for_email (normalized_or_raw email) (state_of s).1)) as [Hid Hst].
    set (a := new_attempt _ _ _ _) in *.
    assert (Hn2 : next_ok (state_of s).1 (state_of s1).1).
    { rewrite Hs1. eapply next_ok_trans; [exact Hn1|]. apply next_ok_insert; [|
        by apply new_attempt_wf; apply decision_eligible in Hd as (_ & _ & ->)|by rewrite Hst].
      rewrite Hid. by apply Hf. }
    destruct Hr as [->|[Hs ->]]; [done|]. eapply next_ok_trans; [exact Hn2|].
    eapply submit_issue_keeps; [exact Hs| |done]. rewrite Hs1. unfold attempt. simpl. by rewrite oget_oset_eq.
  - rewrite (request_raise _ _ _ _ _ _ _ _ _ Hr). apply next_ok_refl.
Qed.
End request.
End operations.
