(* ===== verification/IdentityTheorems.v ===== *)
(** * Theorems about the identity slice

    The services as a transition system: any sequence of their transactions, by any number
    of processes.  The theorems hold over any store that keeps the laws of the port
    ([IdentityStoreLaws], which both stores do), any job runtime and any digests; those
    about the purge are about the PostgreSQL store. *)

From S2P Require Export IdentityRuns.
#[local] Open Scope list_scope.

(** ** The transactions of the services *)

(** A call that starts at any point of the drawing of identifiers, which are fresh *)
Definition runs `{IdentityStore} {A} (m : M idb A) (d : idb) (r : result A) (d' : idb) : Prop :=
  exists w n t s', m w (Sys d n t) = (r, s') /\ state_of s' = d' /\ fresh_ids w n d.

Section system.
Context `{Laws : IdentityStoreLaws} `{Digests} {J : Type} `{JobPort J}.

(** Each is one transaction; [confirm_magic_link] is three of them. *)
Inductive service : forall {A}, M idb A -> Prop :=
  | sv_webhook mail now : service (process_email_webhook mail now)
  | sv_confirm_check id now : service (confirm_check id now)
  | sv_confirm_conflict provider proof id : service (confirm_conflict provider proof id)
  | sv_confirm_finish proof email token id now : normal_address email ->
      service (confirm_finish proof email token id now)
  | sv_authorize token action owner now c : service (authorize token action owner now c)
  | sv_logout token now c : service (logout token now c)
  | sv_preload email source : service (preload_invitation email source)
  | sv_status id status reason now actor : service (set_user_status id status reason now actor)
  | sv_role id role grant reason now actor : service (change_role id role grant reason now actor)
  | sv_bootstrap id now : service (bootstrap_administrator id now)
  | sv_purge now : service (purge_request_fingerprints now).

(** The store, and the attempts that a worker has begun to issue.  A worker that stored
    [issuing] goes on with [issue_finish] or [issue_fail], or ends. *)
Inductive id_step : idb * gset Z -> idb * gset Z -> Prop :=
  | st_service {A} (m : M idb A) d r d' W : service m -> runs m d r d' -> id_step (d, W) (d', W)
  | st_request enabled email origin c now d j w n t r s' W :
      request_magic_link (J := J) enabled email origin c now w (Sys (d, j) n t) = (r, s') ->
      fresh_ids w n d -> id_step (d, W) ((state_of s').1, W)
  | st_begin id c d x d' W : runs (issue_begin id c) d (Ok (Some x)) d' ->
      id_step (d, W) (d', {[id]} ∪ W)
  | st_no_begin id c d r d' W : runs (issue_begin id c) d r d' -> (forall x, r <> Ok (Some x)) ->
      id_step (d, W) (d', W)
  | st_finish id generated acceptance d r d' W : id ∈ W ->
      runs (issue_finish id generated acceptance) d r d' -> id_step (d, W) (d', W ∖ {[id]})
  | st_fail id code d r d' W : id ∈ W ->
      runs (issue_fail id code) d r d' -> id_step (d, W) (d', W ∖ {[id]})
  | st_lost id d W : id ∈ W -> id_step (d, W) (d, W ∖ {[id]}).

Definition being_issued (d : idb) (id : Z) : Prop :=
  exists a, attempt id d = Some a /\ at_state a = A_ISSUING.
Definition sys_inv (s : idb * gset Z) : Prop := idb_inv s.1 /\ forall id, id ∈ s.2 -> being_issued s.1 id.

Lemma empty_inv : idb_inv empty_idb.
Proof. by repeat split; try constructor. Qed.

Lemma service_keeps {A} (m : M idb A) : service m -> keeps m.
Proof.
  destruct 1; [apply keeps_webhook|apply keeps_confirm_check|apply keeps_confirm_conflict
    |by apply keeps_confirm_finish|apply keeps_authorize|apply keeps_logout|apply keeps_preload
    |apply keeps_set_user_status|apply keeps_change_role|apply keeps_bootstrap|apply keeps_purge].
Qed.

Lemma evolves_being_issued X d d' id : id_evolves X d d' -> X <> Some id -> being_issued d id ->
  being_issued d' id.
Proof.
  intros [He _] HX (a & Ha & Hs). destruct (He id a Ha) as (a' & Ha' & _ & _ & Hk).
  exists a'. by rewrite (Hk Hs HX) in *.
Qed.

Lemma next_ok_but_sys X d d' W W' : next_ok_but X d d' -> sys_inv (d, W) ->
  (forall id, id ∈ W' -> id ∈ W /\ X <> Some id \/ being_issued d' id) ->
  sys_inv (d', W') /\ exists Y, id_evolves Y d d'.
Proof.
  intros Hn [Hd HW] HW'. destruct (Hn Hd) as [Hd' He]. split; [|by exists X]. split; [done|].
  intros id Hid. destruct (HW' id Hid) as [[Hin HX]|?]; [|done]. eapply evolves_being_issued; eauto.
Qed.

Lemma id_step_inv s s' : id_step s s' -> sys_inv s -> sys_inv s' /\ exists X, id_evolves X s.1 s'.1.
Proof.
  destruct 1 as [A m d r d' W Hs (w & n & t & s' & Hr & <- & Hf)
    |enabled email origin c now d j w n t r s' W Hr Hf
    |id c d x d' W (w & n & t & s' & Hr & <- & Hf)|id c d r d' W (w & n & t & s' & Hr & <- & Hf) _
    |id g acc d r d' W Hin (w & n & t & s' & Hr & <- & Hf)
    |id code d r d' W Hin (w & n & t & s' & Hr & <- & Hf)|id d W Hin]; intros Hinv.
  - eapply next_ok_but_sys; [by eapply (service_keeps _ Hs _ _ _ _ Hr)|done|]. auto.
  - eapply next_ok_but_sys; [by eapply (request_keeps _ _ _ _ _ _ _ _ _ Hr)|done|]. auto.
  - apply issue_begin_keeps in Hr as [Hn Hb]. eapply next_ok_but_sys; [exact Hn|done|].
    intros k [->%elem_of_singleton|?]%elem_of_union; [right|by left].
    destruct (Hb _ eq_refl) as (a & Ha & Hs & Hat). destruct Hinv as [Hd _].
    destruct (attempt_row _ _ _ Hd Ha) as [Hid _]. exists (at_set A_ISSUING a). split; [|done].
    unfold attempt. simpl in *. by rewrite Hat, Hid, oget_oset_eq.
  - apply issue_begin_keeps in Hr as [Hn _]. eapply next_ok_but_sys; [exact Hn|done|]. auto.
  - eapply next_ok_but_sys; [apply (issue_finish_keeps _ _ _ _ _ _ _ Hr)|done|].
    + intros a Ha. destruct Hinv as [_ HW]. destruct (HW _ Hin) as (b & Hb & Hs). simpl in *. congruence.
    + intros k [Hk Hne]%elem_of_difference. left. split; [done|]. intros [= <-]. by apply Hne, elem_of_singleton.
  - eapply next_ok_but_sys; [apply (issue_fail_keeps _ _ _ _ _ _ Hr)|done|].
    + intros a Ha. destruct Hinv as [_ HW]. destruct (HW _ Hin) as (b & Hb & Hs). simpl in *.
      right. congruence.
    + intros k [Hk Hne]%elem_of_difference. left. split; [done|]. intros [= <-]. by apply Hne, elem_of_singleton.
  - eapply next_ok_but_sys; [by apply (next_ok_refl (X := None))|done|].
    intros k [Hk _]%elem_of_difference. auto.
Qed.

(** What outlives any sequence of transactions: settled attempts and the log *)
Definition outlives (d d' : idb) : Prop :=
  (forall k a, oget k (i_attempts d) = Some a -> settled a = true -> oget k (i_attempts d') = Some a)
  /\ exists l, i_audits d' = i_audits d ++ l.

Lemma id_steps_inv s s' : rtc id_step s s' -> sys_inv s -> sys_inv s' /\ outlives s.1 s'.1.
Proof.
  induction 1 as [s|s1 s2 s3 H12 _ IH]; intros Hs.
  - split; [done|]. split; [done|]. exists []. by rewrite app_nil_r.
  - destruct (id_step_inv _ _ H12 Hs) as [Hs2 (X & Hev & l1 & E1)]. destruct (IH Hs2) as [Hs3 [Hset [l2 E2]]].
    split; [done|]. split.
    + intros k a Ha Hst. destruct (Hev k a Ha) as (a' & Ha' & Hk & _). rewrite (Hk Hst) in Ha'. by apply Hset.
    + exists (l1 ++ l2). by rewrite E2, E1, app_assoc.
Qed.
End system.

(** ** Facts about single calls *)

Section calls.
Context `{Laws : IdentityStoreLaws} `{Digests}.

Lemma transaction_raise {A} (m : M idb A) w s e s' : transaction m w s = (Raise e, s') ->
  state_of s' = state_of s.
Proof. intros [(a & ? & _)|(? & _ & ?)]%transaction_cases; done. Qed.

(** Two confirmations of one attempt do not both succeed. *)
Lemma confirm_consumes proof email token id now w s x s' :
  confirm_finish proof email token id now w s = (Ok x, s') -> normal_address email ->
  idb_inv (state_of s) ->
  exists a, attempt id (state_of s') = Some a /\ at_state a = A_CONSUMED
    /\ at_consumed_at a = Some now.
Proof.
  intros Hr Hn Hd. destruct (confirm_finish_keeps _ _ _ _ _ _ _ _ _ Hr Hn Hd)
    as (a & q & s1 & Ha & Hs & _ & (Eat & _) & u & Hst).
  destruct (attempt_row _ _ _ Hd Ha) as [<- _].
  unfold start_session in Hst. open_run. exists (at_consume now a). split; [|done].
  unfold attempt. simpl. by rewrite oget_oset_eq.
Qed.

Lemma consumed_not_confirmed proof email token id now w s r s' a :
  confirm_finish proof email token id now w s = (r, s') ->
  attempt id (state_of s) = Some a -> at_state a = A_CONSUMED ->
  (exists e, r = Raise e) /\ state_of s' = state_of s.
Proof.
  intros [(x & -> & Hr)|(e & -> & Es)]%transaction_cases Ha Hs; [|by eauto]. exfalso.
  open_run. rewrite Ha in Hr. open_run. destruct (request _ _); open_run.
  unfold current_and_valid in Hr. rewrite Hs in Hr. simpl in Hr. open_run.
Qed.

Lemma consumed_check_fails id now w s r s' a : confirm_check id now w s = (r, s') ->
  attempt id (state_of s) = Some a -> at_state a = A_CONSUMED ->
  (exists e, r = Raise e) /\ state_of s' = state_of s.
Proof.
  intros [(x & -> & Hr)|(e & -> & Es)]%transaction_cases Ha Hs; [|by eauto]. exfalso.
  open_run. rewrite Ha, Hs in Hr. simpl in Hr. open_run.
Qed.
End calls.

(** ** Theorems *)

Section theorems.
Context `{Laws : IdentityStoreLaws} `{Digests} {J : Type} `{JobPort J}.

(** C9: in every state that the transactions of the identity services reach from an empty
    store, a subject has at most one issued attempt, whose link expires at most fifteen
    minutes after it was generated; a session belongs to a consumed attempt, no two to the
    same one, and was not revoked for idleness; every request is named by an audit event; no
    stored event records a reused link, an expired link or a denied authorization; addresses
    are normalised and rows satisfy their check constraints; and an attempt that a worker is
    issuing stays [issuing] until that worker is done with it. *)
Theorem identity_invariant (d : idb) (W : gset Z) :
  rtc id_step (empty_idb, ∅) (d, W) -> idb_inv d /\ forall id, id ∈ W -> being_issued d id.
Proof.
  intros Hr. apply (id_steps_inv (empty_idb, ∅) (d, W)); [done|]. split; [apply empty_inv|set_solver].
Qed.

(** C10: once a link is confirmed its attempt is consumed for ever, and whatever happens
    afterwards no confirmation of it succeeds or changes anything: neither a new one nor one
    that had already passed its first check; and it never has two sessions. *)
Theorem link_single_use (d d' : idb) (W W' : gset Z) proof email token id now w n t x s1 :
  rtc id_step (empty_idb, ∅) (d, W) -> fresh_ids w n d -> normal_address email ->
  confirm_finish proof email token id now w (Sys d n t) = (Ok x, s1) ->
  rtc id_step (state_of s1, W) (d', W') ->
  (exists a, attempt id d' = Some a /\ at_state a = A_CONSUMED /\ at_consumed_at a = Some now)
  /\ (forall provider others token' hash now' w' n' t', let '(r, s2) :=
        confirm_magic_link provider others token' id hash now' w' (Sys d' n' t') in
        is_ok r = false /\ state_of s2 = d')
  /\ (forall proof' email' token' now' w' n' t', let '(r, s2) :=
        confirm_finish proof' email' token' id now' w' (Sys d' n' t') in
        is_ok r = false /\ state_of s2 = d')
  /\ (forall k k' y y', oget k (i_sessions d') = Some y -> oget k' (i_sessions d') = Some y' ->
        ps_attempt_id y = id -> ps_attempt_id y' = id -> k = k').
Proof.
  intros Hreach Hf Hn Hr Hlater.
  assert (Hs : sys_inv (d, W)) by (by apply (id_steps_inv _ _ Hreach); split; [apply empty_inv|set_solver]).
  assert (Hs1 : sys_inv (state_of s1, W)).
  { refine (proj1 (id_step_inv (d, W) (state_of s1, W) _ Hs)).
    apply (st_service _ d (Ok x) _ W (sv_confirm_finish proof email token id now Hn)). by exists w, n, t, s1. }
  destruct (id_steps_inv _ _ Hlater Hs1) as [[Hd' _] [Hset _]]. destruct Hs as [Hd _].
  destruct (confirm_consumes _ _ _ _ _ _ _ _ _ Hr Hn Hd) as (a & Ha & Hst & Hc).
  assert (Ha' : attempt id d' = Some a)
    by (apply Hset; [done|unfold settled; apply bool_decide_eq_true; auto]).
  split_and!; [by exists a| | |].
  - intros provider others token' hash now' w' n' t'.
    destruct (confirm_magic_link _ _ _ _ _ _ _ _) as [r s2] eqn:E. unfold confirm_magic_link in E.
    destruct (to_utc now') as [t1|]; [|by injection E as <- <-].
    unfold mbind at 1, M_bind at 1, lift in E.
    destruct (confirm_check id t1 w' (Sys d' n' t')) as [r1 s3] eqn:Ec.
    destruct (consumed_check_fails _ _ _ _ _ _ _ Ec Ha' Hst) as [[e ->] Es].
    rewrite (M_bind_raise _ _ _ _ _ _ Ec) in E. injection E as <- <-. done.
  - intros proof' email' token' now' w' n' t'. destruct (confirm_finish proof' email' token' id now' w' _) as [r s2] eqn:E.
    destruct (consumed_not_confirmed _ _ _ _ _ _ _ _ _ _ E Ha' Hst) as [[e ->] Es]. done.
  - intros k k' y y' Hy Hy' E E'. apply (se_one _ _ (ii_sessions _ Hd') _ _ _ _ Hy Hy'). congruence.
Qed.

(** ** Authorization *)

(** The session is live, and the matrix allows the action to its user's roles. *)
Record granted (d : idb) (token action : string) (owner : option Z) (now : Z)
    (x : ProductSession) (u : ProductUser) (rule : ActionRule) : Prop := {
  gr_session : session_by_digest (sha256 token) d = Some x;
  gr_live : ps_revoked_at x = None /\ now < ps_last_activity_at x + days 7;
  gr_user : user (ps_user_id x) d = Some u /\ u_status u = U_ACTIVE;
  gr_rule : oget action ACTION_RULES = Some rule;
  gr_known : Forall (fun role => role ∈ everyone) (active_roles (u_id u) d);
  gr_role : exists role, role ∈ active_roles (u_id u) d /\ role ∈ allowed_roles rule;
  gr_owner : owner_required rule = true -> owner = Some (u_id u)
}.

Lemma authorize_roles_allowed roles action actor owner :
  allowed (authorize_roles roles action actor owner) = true <->
  exists rule, oget action ACTION_RULES = Some rule /\ Forall (fun role => role ∈ everyone) roles
  /\ (exists role, role ∈ roles /\ role ∈ allowed_roles rule)
  /\ (owner_required rule = true -> owner = Some actor).
Proof.
  unfold authorize_roles. destruct (oget action ACTION_RULES) as [rule|]; simpl; [|by split; [|intros (? & ? & _)]].
  assert (Hk : existsb (fun role => negb (bool_decide (role ∈ everyone))) roles = false
               <-> Forall (fun role => role ∈ everyone) roles).
  { rewrite existsb_false_Forall. apply Forall_iff. intros r. by rewrite negb_false_iff, bool_decide_eq_true. }
  assert (Hr : existsb (fun role => bool_decide (role ∈ allowed_roles rule)) roles = true
               <-> exists role, role ∈ roles /\ role ∈ allowed_roles rule).
  { rewrite existsb_exists. setoid_rewrite bool_decide_eq_true. by setoid_rewrite list_elem_of_In. }
  destruct (existsb _ roles) eqn:E1; simpl; [split; [done|]|].
  { intros (r' & [= <-] & Hf & _). by apply Hk in Hf. }
  apply proj1 in Hk. specialize (Hk eq_refl).
  assert (Hfin : (owner_required rule = true -> owner = Some actor) ->
    allowed (if negb (existsb (fun role => bool_decide (role ∈ allowed_roles rule)) roles)
             then decide_with false "role_not_allowed" else decide_with true "eligible") = true <->
    exists rule', Some rule = Some rule' /\ Forall (fun role => role ∈ everyone) roles
    /\ (exists role, role ∈ roles /\ role ∈ allowed_roles rule')
    /\ (owner_required rule' = true -> owner = Some actor)).
  { intros Ho. match goal with |- context [negb (existsb ?f roles)] => destruct (existsb f roles) eqn:E2 end; simpl.
    - split; [|done]. intros _. exists rule. split_and!; [done|done|by apply Hr|done].
    - split; [done|]. intros (r' & [= <-] & _ & Hr' & _). by apply Hr in Hr'. }
  destruct (owner_required rule) eqn:Eo; simpl; [|by apply Hfin].
  case_bool_decide as En; simpl.
  { split; [done|]. intros (r' & [= <-] & _ & _ & Ho). by rewrite Ho in En. }
  case_bool_decide as Ea; simpl; [by apply Hfin|].
  split; [done|]. intros (r' & [= <-] & _ & _ & Ho). auto.
Qed.

(** C11: [authorize] answers a principal only for a session that exists, is neither revoked
    nor idle for seven days, whose user is active and, for an action of the matrix, has only
    known roles and one of the roles allowed, and owns the resource when the action asks for
    it; it then renews the session and stores one [authorization.allowed] event and nothing
    else.  Any other answer is an exception and stores nothing: neither the expiry of an idle
    session nor the denial is recorded. *)
Theorem authorize_sound token action owner now c w d n t :
  let '(r, s') := authorize token action owner now c w (Sys d n t) in
  match r with
  | Ok p => exists x u rule e, granted d token action owner now x u rule
      /\ p = MkPrincipal (u_id u) (sort_by str_ltb (active_roles (u_id u) d)) now
      /\ au_event_type e = "authorization.allowed.v1"%string
      /\ state_of s' = put_audit e (put_session
           (session_update now None (ps_revocation_reason x) x) d)
  | Raise _ => state_of s' = d
  end.
Proof.
  destruct (authorize _ _ _ _ _ _ _) as [[p|e] s'] eqn:E; [|by apply transaction_raise in E].
  apply transaction_cases in E as [(a & [= <-] & Hr)|(e & ? & _)]; [|done].
  open_run. destruct (session_by_digest _ _) as [x|] eqn:Ex; open_run.
  destruct (ps_revoked_at x) eqn:Er; open_run. destruct (is_idle_expired _ _) eqn:Ei; open_run.
  destruct (user _ _) as [u|] eqn:Eu; open_run. destruct (user_active _) eqn:Ea; open_run.
  destruct (allowed _) eqn:Ed; simpl in Hr; open_run.
  apply authorize_roles_allowed in Ed as (rule & Hrule & Hk & Hrole & Ho).
  do 3 eexists. eexists. split_and!; [|done|eassumption|done].
  apply Z.leb_gt in Ei. split; try done. split; [done|]. by apply bool_decide_eq_true in Ea.
Qed.

(** ** The limiter *)

(** Requests arrive in the order of their instants; in between anything may happen that does
    not add a request, such as a purge. *)
Inductive limiter_step : Z * idb -> Z * idb -> Prop :=
  | ls_request enabled email origin c t t' d j w n k r s' : t <= t' ->
      request_magic_link (J := J) enabled email origin c (Stamp true t') w (Sys (d, j) n k) = (r, s') ->
      limiter_step (t, d) (t', (state_of s').1)
  | ls_other t t' d d' : t <= t' -> sublist (i_requests d') (i_requests d) -> limiter_step (t, d) (t', d').

(** The eligible requests of a fingerprint in the quarter of an hour that ends at [at_time] *)
Definition in_window (field : limiter_field) (digest : string) (at_time : Z) (q : MagicLinkRequest) : bool :=
  bool_decide (limiter field q = digest) && bool_decide (q_decision q = "eligible"%string)
  && (at_time - minutes 15 <? q_requested_at q) && (q_requested_at q <=? at_time).
Definition eligible_in_window field digest at_time (d : idb) : Z :=
  Z.of_nat (length (List.filter (in_window field digest at_time) (ovalues (i_requests d)))).
Definition limit (field : limiter_field) : Z := match field with EmailField => 3 | OriginField => 20 end.

Definition limiter_inv (s : Z * idb) : Prop :=
  Forall (fun q => q_requested_at q <= s.1) (ovalues (i_requests s.2))
  /\ forall field digest at_time, eligible_in_window field digest at_time s.2 <= limit field.

Lemma ovalues_oset {V} (k : Z) (v : V) rows x : x ∈ ovalues (oset k v rows) -> x = v \/ x ∈ ovalues rows.
Proof.
  induction rows as [|[k' v'] rows IH]; simpl.
  - intros ->%list_elem_of_singleton. by left.
  - case_decide; simpl; intros [->|Hx]%elem_of_cons; auto.
    + right. by apply list_elem_of_further.
    + right. by apply list_elem_of_here.
    + destruct (IH Hx); [by left|]. right. by apply list_elem_of_further.
Qed.

Lemma filter_oset_length {V} (f : V -> bool) k v (rows : odict Z V) :
  (length (List.filter f (ovalues (oset k v rows)))
   <= length (List.filter f (ovalues rows)) + (if f v then 1 else 0))%nat.
Proof.
  induction rows as [|[k' v'] rows IH]; simpl; [destruct (f v); simpl; lia|].
  case_decide; simpl; [destruct (f v), (f v'); simpl; lia|].
  destruct (f v'); simpl; lia.
Qed.

Lemma sublist_Forall {A} (P : A -> Prop) l l' : sublist l l' -> Forall P l' -> Forall P l.
Proof. induction 1; intros Hf; [done|..]; inversion Hf; subst; auto. Qed.

Lemma filter_sublist_length {V} (f : V -> bool) l l' : sublist l l' ->
  (length (List.filter f l) <= length (List.filter f l'))%nat.
Proof. induction 1; simpl; [done|destruct (f x); simpl; lia|destruct (f x); simpl; lia]. Qed.

Lemma filter_length_mono {V} (f g : V -> bool) l : Forall (fun x => f x = true -> g x = true) l ->
  (length (List.filter f l) <= length (List.filter g l))%nat.
Proof.
  induction 1 as [|x l Hx _ IH]; simpl; [done|]. destruct (f x); [rewrite Hx by done; simpl; lia|].
  destruct (g x); simpl; lia.
Qed.

Lemma limiter_add t t' d q : limiter_inv (t, d) -> t <= t' -> q_requested_at q = t' ->
  (q_decision q = "eligible"%string -> forall field, recent_requests field (limiter field q) t' d < limit field) ->
  limiter_inv (t', put_request q d).
Proof.
  intros [Hb Hl] Ht Hq He. simpl in *. split.
  - apply Forall_forall. simpl. intros x [->|Hx]%ovalues_oset; [lia|].
    rewrite Forall_forall in Hb. specialize (Hb x Hx). lia.
  - intros field digest u. unfold eligible_in_window. simpl.
    pose proof (filter_oset_length (in_window field digest u) (q_id q) q (i_requests d)) as Hlen.
    specialize (Hl field digest u). unfold eligible_in_window in Hl.
    destruct (in_window field digest u q) eqn:Ew; [|lia].
    unfold in_window in Ew. rewrite !andb_true_iff, !bool_decide_eq_true, Z.ltb_lt, Z.leb_le in Ew.
    destruct Ew as (((Ef & Ed) & Hlo) & Hhi). specialize (He Ed field). rewrite Ef in He.
    unfold recent_requests in He.
    assert (Hm : (length (List.filter (in_window field digest u) (ovalues (i_requests d)))
                  <= length (List.filter (recent field digest t') (ovalues (i_requests d))))%nat).
    { apply filter_length_mono. eapply Forall_impl; [exact Hb|]. intros x Hx. unfold in_window, recent.
      rewrite !andb_true_iff, !bool_decide_eq_true, !Z.ltb_lt, Z.leb_le. intros (((? & ?) & ?) & ?).
      split; [done|]. lia. }
    lia.
Qed.

Lemma request_adds enabled email origin c now w (s : sys (idb * J)) r s' :
  request_magic_link enabled email origin c now w s = (r, s') ->
  (state_of s').1 = (state_of s).1
  \/ exists t rid, to_utc now = Ok t /\ i_requests (state_of s').1
       = i_requests (put_request (request_row email origin rid c t (state_of s).1) (state_of s).1).
Proof.
  intros Hr. destruct r as [u|e]; [right|left; by eapply request_raise].
  apply request_run in Hr as (t & rid & e & Ht & _ & _ & Hr). exists t, rid. split; [done|].
  destruct Hr as [[_ ->]|(k & s1 & s2 & _ & _ & Hs1 & Hr)]; [done|].
  destruct Hr as [->|[Hs ->]]; [by rewrite Hs1|].
  apply submit_issue_run in Hs as [[job ->]|(a' & e' & _ & _ & _ & ->)]; simpl; by rewrite Hs1.
Qed.

Lemma limiter_step_inv s s' : limiter_step s s' -> limiter_inv s -> limiter_inv s'.
Proof.
  assert (Hother : forall t t' d d', t <= t' -> sublist (i_requests d') (i_requests d) ->
            limiter_inv (t, d) -> limiter_inv (t', d')).
  { intros t t' d d' Ht Hs [Hb Hl]. assert (Hv : sublist (ovalues (i_requests d')) (ovalues (i_requests d)))
      by (by apply fmap_sublist). split; simpl in *.
    - eapply Forall_impl; [by eapply sublist_Forall|]. simpl. lia.
    - intros field digest u. specialize (Hl field digest u). unfold eligible_in_window in *.
      pose proof (filter_sublist_length (in_window field digest u) _ _ Hv). lia. }
  destruct 1 as [enabled email origin c t t' d j w n k r s' Ht Hr|t t' d d' Ht Hs]; [|by apply Hother].
  intros Hinv. apply request_adds in Hr as [->|(t1 & rid & Et & Er)]; simpl in *.
  - by apply (Hother t t' d d).
  - injection Et as <-. apply (Hother t' t' (put_request (request_row email origin rid c t' d) d));
      [lia|by rewrite Er|]. apply (limiter_add t); [done|done|done|].
    intros (He & Ho & _)%decision_eligible field. destruct field; simpl; done.
Qed.

(** C12: whatever requests arrive, at most three of an e-mail address and at most twenty of an
    origin are granted an attempt in any quarter of an hour. *)
Theorem request_rate_limited t0 t d field digest at_time :
  rtc limiter_step (t0, empty_idb) (t, d) -> eligible_in_window field digest at_time d <= limit field.
Proof.
  intros Hr. enough (Hinv : limiter_inv (t, d)) by apply Hinv.
  assert (H00 : limiter_inv (t0, empty_idb)) by (split; [constructor|intros [] ? ?; vm_compute; discriminate]).
  revert H00. induction Hr as [x|x y z Hxy _ IH]; [done|]. intros Hi. by apply IH, (limiter_step_inv x).
Qed.
End theorems.

(** ** The PostgreSQL store *)

Section sql.
Context `{Digests} {J : Type} `{JobPort J}.
#[local] Existing Instance SqlAlchemyIdentityStore.

(** in the database no request is ever purged.  Every request is named by its audit
    event, whose foreign key restricts the deletion, so the purge raises and deletes nothing
    whenever a request is due. *)
Theorem purge_blocked (d : idb) (W : gset Z) now w n t k q :
  rtc (id_step (J := J)) (empty_idb, ∅) (d, W) -> request k d = Some q -> q_purge_after q <= now ->
  purge_request_fingerprints now w (Sys d n t) = (Raise IdIntegrityError, Sys d n t).
Proof.
  intros Hreach Hq Hdue.
  assert (Hs : sys_inv (d, W)) by (by apply (id_steps_inv _ _ Hreach); split; [apply empty_inv|set_solver]).
  destruct (lg_request _ _ (ii_log _ (proj1 Hs)) _ _ Hq) as (_ & e & He & Er).
  assert (Hrefers : refers_to k d = true).
  { unfold refers_to. apply orb_true_iff. right. apply existsb_exists. exists e.
    split; [by apply list_elem_of_In|by apply bool_decide_eq_true]. }
  unfold purge_request_fingerprints, transaction. simpl. unfold sql_purge, mbind, M_bind, get. simpl.
  destruct (existsb _ (i_requests d)) eqn:Ex; [done|].
  apply existsb_false_Forall in Ex. rewrite Forall_forall in Ex.
  specialize (Ex (k, q) (oget_Some_elem _ _ _ Hq)). simpl in Ex.
  apply Z.leb_le in Hdue. by rewrite Hdue, Hrefers in Ex.
Qed.
End sql.

(** ** Witnesses: a first login over the PostgreSQL store *)

Definition pad (s : string) : string := take_str 32 (s ++ "................................").
#[local] Instance sample_digests : Digests := {| fingerprint := pad; sha256 := pad |}.
#[local] Existing Instance SqlAlchemyIdentityStore.
#[local] Instance sample_job_port : JobPort runtime := in_memory_port (Config "release-1" 60 None).

Definition login_world : world := World (fun n => Z.of_nat n) (fun n => 1000 + Z.of_nat n).

Lemma fresh_below d n :
  forallb (fun k => k <? Z.of_nat n) (okeys (i_attempts d) ++ okeys (i_sessions d)) = true ->
  fresh_ids login_world n d.
Proof.
  rewrite forallb_app, andb_true_iff, !forallb_forall. intros [Ha Hs] k Hk.
  split; apply oget_None; intros Hin%list_elem_of_In; [apply Ha in Hin|apply Hs in Hin];
    apply Z.ltb_lt in Hin; simpl in Hin; lia.
Qed.

(** The state after an operation that draws its identifiers from [n] on *)
Definition after {A} (m : M idb A) (n : nat) (d : idb) : idb := state_of (m login_world (Sys d n 0)).2.

Lemma runs_after {A} (m : M idb A) n d r :
  fresh_ids login_world n d -> (m login_world (Sys d n 0%nat)).1 = r -> runs m d r (after m n d).
Proof. intros Hf <-. exists login_world, n, 0%nat. eexists. split; [apply surjective_pairing|done]. Qed.

Definition sample_generated : GeneratedMagicLink :=
  MkGenerated "supabase" 0 "hash" "https://app.umbral.ar/auth/capture" (minutes 2) (minutes 60).
Definition sample_acceptance : EmailAcceptance := MkAcceptance "resend" "message-1" (minutes 2).
Definition sample_proof : ProviderProof :=
  MkProof "supabase" "issuer" "subject-1" "ana@example.org" (minutes 3) None.

Definition invited_db : idb := after (preload_invitation " Ana@Example.org" "seed") 10 empty_idb.
Abbreviation sample_request :=
  (request_magic_link (J := runtime) true "ana@example.org" "10.0.0.1" 77 (Stamp true (minutes 1))).
Definition requested_sys : sys (idb * runtime) :=
  (sample_request login_world (Sys (invited_db, new_runtime 0) 20 0)).2.
Definition requested_db : idb := (state_of requested_sys).1.
Definition link_id : Z := match okeys (i_attempts requested_db) with k :: _ => k | [] => 0 end.
Definition issuing_db : idb := after (issue_begin link_id None) 30 requested_db.
Definition issued_db : idb := after (issue_finish link_id sample_generated sample_acceptance) 40 issuing_db.
Abbreviation sample_confirm :=
  (confirm_finish sample_proof "ana@example.org" "token-1" link_id (minutes 3)).
Definition confirmed_sys : sys idb := (sample_confirm login_world (Sys issued_db 50 0)).2.

Lemma issued_reachable : rtc (id_step (J := runtime)) (empty_idb, ∅) (issued_db, ({[link_id]} ∪ ∅) ∖ {[link_id]}).
Proof.
  apply (rtc_l _ _ (invited_db, ∅)).
  { eapply st_service; [apply (sv_preload " Ana@Example.org" "seed")|].
    apply runs_after; [apply fresh_below; vm_compute; reflexivity|reflexivity]. }
  apply (rtc_l _ _ (requested_db, ∅)).
  { eapply (st_request true "ana@example.org" "10.0.0.1" 77 (Stamp true (minutes 1)) _
      (new_runtime 0) login_world 20 0); [apply surjective_pairing|apply fresh_below; vm_compute; reflexivity]. }
  apply (rtc_l _ _ (issuing_db, {[link_id]} ∪ ∅)).
  { apply (st_begin link_id None requested_db ("ana@example.org"%string, 77)).
    apply runs_after; [apply fresh_below|]; vm_compute; reflexivity. }
  apply rtc_once. eapply (st_finish link_id sample_generated sample_acceptance); [set_solver|].
  apply runs_after; [apply fresh_below; vm_compute; reflexivity|reflexivity].
Qed.

Lemma identity_invariant_witness :
  map at_state (ovalues (i_attempts issued_db)) = [A_ISSUED] /\ idb_inv issued_db.
Proof.
  split; [vm_compute; reflexivity|].
  destruct (identity_invariant (Laws := sql_store_laws) (J := runtime)
    issued_db (({[link_id]} ∪ ∅) ∖ {[link_id]}) issued_reachable) as [Hi _].
  exact Hi.
Defined.

Lemma link_single_use_witness :
  length (i_sessions (state_of confirmed_sys)) = 1%nat
  /\ exists a, attempt link_id (state_of confirmed_sys) = Some a /\ at_state a = A_CONSUMED.
Proof.
  split; [vm_compute; reflexivity|].
  destruct (link_single_use (Laws := sql_store_laws) (J := runtime) issued_db (state_of confirmed_sys)
    (({[link_id]} ∪ ∅) ∖ {[link_id]}) (({[link_id]} ∪ ∅) ∖ {[link_id]})
    sample_proof "ana@example.org" "token-1" link_id (minutes 3) login_world 50 0
    (ok_or (MkSessionResult 0 0 "" 0) (sample_confirm login_world (Sys issued_db 50 0)).1)
    confirmed_sys) as [(a & Ha & Hs & _) _].
  - apply issued_reachable.
  - apply fresh_below. vm_compute. reflexivity.
  - vm_compute. reflexivity.
  - unfold confirmed_sys. apply run_ok. vm_compute. reflexivity.
  - apply rtc_refl.
  - exists a. exact (conj Ha Hs).
Defined.

Lemma request_rate_limited_witness :
  eligible_in_window EmailField (pad "ana@example.org") (minutes 10) requested_db = 1
  /\ eligible_in_window EmailField (pad "ana@example.org") (minutes 10) requested_db <= 3.
Proof.
  split; [vm_compute; reflexivity|].
  apply (request_rate_limited (Laws := sql_store_laws) (J := runtime) 0 (minutes 1) requested_db EmailField).
  eapply rtc_l; [|eapply rtc_l; [|apply rtc_refl]].
  - apply (ls_other 0 0 empty_idb invited_db); [lia|]. vm_compute. constructor.
  - apply (ls_request true "ana@example.org" "10.0.0.1" 77 0 (minutes 1) invited_db (new_runtime 0)
             login_world 20 0 (sample_request login_world (Sys (invited_db, new_runtime 0) 20 0)).1 requested_sys).
    + vm_compute. discriminate.
    + apply surjective_pairing.
Defined.

Lemma purge_blocked_witness : exists q, request 20 issued_db = Some q /\
  purge_request_fingerprints (hours 48) login_world (Sys issued_db 60 0)
  = (Raise IdIntegrityError, Sys issued_db 60 0).
Proof.
  eexists. split; [vm_compute; reflexivity|].
  refine (purge_blocked (J := runtime) issued_db (({[link_id]} ∪ ∅) ∖ {[link_id]}) (hours 48) login_world 60 0
           20 _ issued_reachable _ _).
  - vm_compute. reflexivity.
  - vm_compute. discriminate.
Defined.

Abbreviation authorized :=
  (authorize "token-1" "product.matches.read" (Some 50) (minutes 4) None login_world
    (Sys (state_of confirmed_sys) 70 0)).

Lemma authorize_sound_witness :
  is_ok authorized.1 = true /\
  match authorized.1 with
  | Ok p => exists x u rule, granted (state_of confirmed_sys) "token-1" "product.matches.read" (Some 50)
              (minutes 4) x u rule
  | Raise _ => False
  end.
Proof.
  assert (Hok : is_ok authorized.1 = true) by (vm_compute; reflexivity). split; [exact Hok|].
  pose proof (authorize_sound (Laws := sql_store_laws) "token-1" "product.matches.read" (Some 50) (minutes 4)
    None login_world (state_of confirmed_sys) 70 0) as Hs.
  destruct authorized as [[p|e] s']; [|discriminate Hok].
  destruct Hs as (x & u & rule & e & Hg & _). exists x, u, rule. exact Hg.
Defined.
