(* ===== verification/Workers.v ===== *)
(** * The worker process ([workers/registry.py], [workers/worker.py], [workers/scheduler.py],
    [application/jobs/relay.py], [application/jobs/scheduler.py])

    The registry of handlers, the claim, run and record loop over one queue message, and the
    passes of the scheduler, over any job runtime ([JobRuntimePort]).  A handler runs in the
    state of the whole process, of which the runtime is a part. *)

From S2P Require Export Telemetry SqlRuntime ObjectStores.
#[local] Open Scope list_scope.

(** ** The runtime behind the worker ([ports.JobRuntime]) *)

Class JobRuntimePort (J : Type) := {
  rt_submit : JobPort J;
  rt_get : Z -> M J JobSnapshot;
  rt_identity : Z -> M J JobIdentity;
  rt_correlation_id : Z -> M J Z;
  rt_claim : Z -> Z -> string -> M J (option JobClaim);
  rt_record_outcome : JobClaim -> outcome -> M J JobSnapshot;
  rt_reclaim_expired_outbox : Z -> M J Z;
  rt_reap_expired : Z -> M J Z;
  rt_rebuild_outbox : Z -> M J Z;
  rt_schedule_tick : M J Z
}.
#[export] Existing Instance rt_submit.

(** [relay_due(queue=queue, limit=limit)] *)
Class RelayPort (J Q : Type) := rt_relay_due : Z -> M (J * Q) RelayResult.

Section ports.
Context {S A : Type}.
Definition job_read (f : S -> result A) : M S A := fun _ s => (f (state_of s), s).
(** An operation of the in-memory runtime, which draws no identifier *)
Definition job_change (f : S -> result A * S) : M S A := fun _ s =>
  let '(r, x) := f (state_of s) in (r, Sys x (drawn s) (ticks s)).
Definition job_draw (f : Z -> S -> result A * S) : M S A := fresh ← uuid4; job_change (f fresh).
End ports.

Definition in_memory_runtime (cfg : config) : JobRuntimePort runtime := {|
  rt_submit := in_memory_port cfg;
  rt_get id := job_read (runtime_get id);
  rt_identity id := job_read (runtime_identity id);
  rt_correlation_id id := job_read (runtime_correlation_id id);
  rt_claim id attempt worker := job_change (fun r => let '(c, r') := claim cfg id attempt worker r in (Ok c, r'));
  rt_record_outcome c out := now ← clock; job_change (record_outcome now c out);
  rt_reclaim_expired_outbox limit := lift (reclaim_expired_outbox limit);
  rt_reap_expired limit := job_change (fun r => let '(n, r') := reap_expired limit r in (Ok n, r'));
  rt_rebuild_outbox limit := job_change (fun r => let '(n, r') := rebuild_outbox limit r in (Ok n, r'));
  rt_schedule_tick := cid ← uuid4; job_draw (fun fresh => schedule_tick cfg cid fresh)
|}.
Definition in_memory_relay {Q} `{JobQueue Q} : RelayPort runtime Q :=
  fun limit => job_change (fun '(r, q) => relay_due limit r q).

(** The rows the others hold locked, and what they commit, are those of the process. *)
Definition sql_runtime `{JsonbColumns} (p : process) (lk : locks) (others : jobs_db -> jobs_db) : JobRuntimePort jobs_db := {|
  rt_submit := sql_submit p others;
  rt_get := sql_get;
  rt_identity := sql_identity;
  rt_correlation_id := sql_correlation_id;
  rt_claim := sql_claim p lk;
  rt_record_outcome := sql_record_outcome p lk;
  rt_reclaim_expired_outbox := sql_reclaim_expired_outbox p lk;
  rt_reap_expired := sql_reap_expired p lk;
  rt_rebuild_outbox := sql_rebuild_outbox lk;
  rt_schedule_tick := sql_schedule_tick p lk
|}.
Definition sql_relay {Q} `{JobQueue Q} (p : process) (env : nat -> peers) : RelayPort jobs_db Q := sql_relay_due p env.

(** ** The registry *)

Record JobHandler (S : Type) := MkJobHandler {
  jh_job_type : string;
  jh_normalize_target : string -> result string;
  jh_run : JobContext -> M S (odict string pyval)
}.
Arguments MkJobHandler {_}.
Arguments jh_job_type {_}.
Arguments jh_normalize_target {_}.
Arguments jh_run {_}.

Section registry.
Context {S : Type}.
Definition JobRegistry : Type := odict string (JobHandler S).

Definition register (handler : JobHandler S) (registry : JobRegistry) : result JobRegistry :=
  let job_type := lower (strip (jh_job_type handler)) in
  if bool_decide (job_type = ""%string) || negb (bool_decide (job_type = jh_job_type handler)) then Raise ValueError
  else match oget job_type registry with
       | Some _ => Raise ValueError
       | None => Ok (oset job_type handler registry)
       end.
Fixpoint register_all (handlers : list (JobHandler S)) (registry : JobRegistry) : result JobRegistry :=
  match handlers with
  | [] => Ok registry
  | h :: handlers' => registry ← register h registry; register_all handlers' registry
  end.
(** [JobRegistry(handlers)], whose keys are not read *)
Definition JobRegistry_init (handlers : odict string (JobHandler S)) : result JobRegistry :=
  register_all (ovalues handlers) [].
(** [JobRegistry({handler.job_type: handler, ...})] *)
Definition registry_of (handlers : list (JobHandler S)) : result JobRegistry :=
  JobRegistry_init (oupdate [] (map (fun h => (jh_job_type h, h)) handlers)).

Definition registry_get (job_type : string) (registry : JobRegistry) : option (JobHandler S) := oget job_type registry.
Definition require (job_type : string) (registry : JobRegistry) : result (JobHandler S) :=
  match registry_get job_type registry with Some h => Ok h | None => Raise KeyError end.
Definition registry_normalize_target (job_type raw_target : string) (registry : JobRegistry) : result string :=
  h ← require job_type registry; jh_normalize_target h raw_target.
Definition types (registry : JobRegistry) : list string := sorted_str (okeys registry).
(** The handlers of a runtime, as its submissions read them *)
Definition handlers_of (registry : JobRegistry) : handler_table :=
  fun job_type => (fun h => Some (jh_normalize_target h)) <$> registry_get job_type registry.
End registry.
Arguments JobRegistry : clear implicits.

(** ** The worker *)

(** What a message runs: a function, an object with a [run] method, or neither *)
Inductive worker_handler (S : Type) :=
  | Callable (f : JobContext -> M S (odict string pyval))
  | Runnable (h : JobHandler S)
  | NotRunnable.
Arguments Callable {_}.
Arguments Runnable {_}.
Arguments NotRunnable {_}.

Definition run_handler {S} (h : worker_handler S) (context : JobContext) : M S (odict string pyval) :=
  match h with
  | Callable f => f context
  | Runnable h => jh_run h context
  | NotRunnable => raise TypeError
  end.

(** [str(state)] *)
Definition job_state_str (s : JobState) : string :=
  match s with
  | PENDING => "pending" | QUEUED => "queued" | RUNNING => "running" | SUCCEEDED => "succeeded"
  | RETRY_WAIT => "retry_wait" | FAILED => "failed"
  end.

(** The process, with the signals its worker has kept *)
Record worker_state (S : Type) := MkWorker { w_process : S; w_signals : list TelemetrySignal }.
Arguments MkWorker {_}.
Arguments w_process {_}.
Arguments w_signals {_}.
Definition in_process {S A} : M S A -> M (worker_state S) A :=
  zoom w_process (fun s x => MkWorker s (w_signals x)).

(** The value of [payload[name]] as a UUID *)
Definition payload_uuid (name : string) (payload : odict string pyval) : result Z :=
  v ← dsub name payload;
  match uuid_of_str (py_str v) with Some u => Ok u | None => Raise ValueError end.

(** [try: ... except Exception]: what is recorded *)
Definition outcome_of {S} (m : M S (odict string pyval)) : M S outcome := fun w s =>
  match m w s with
  | (Ok result, s') => (Ok (OutResult (VDict result)), s')
  | (Raise e, s') => (Ok (OutError e), s')
  end.

Definition job_signal (c : JobClaim) (identity : JobIdentity) (snapshot : JobSnapshot) (attempt_number elapsed : Z)
  : TelemetrySignal :=
  MkTelemetrySignal (uuid_str (jc_correlation_id (claim_context c))) "worker" "local"
    (jc_release_id (claim_context c)) "job.execute" (job_state_str (snap_state snapshot)) None None
    (Some (Z.max 0 (Z.quot elapsed 1000))) None None None (Some (job_type identity))
    (Some (job_state_str (snap_state snapshot))) (Some attempt_number) None None None.

Section worker.
Context {S J : Type} {port : JobRuntimePort J}.
Variable jobs : S -> J.
Variable with_jobs : J -> S -> S.
Variable worker_id : string.
Variable handlers : string -> option (worker_handler S).

Definition on_jobs {A} (m : M J A) : M (worker_state S) A := in_process (zoom jobs with_jobs m).
Definition keep_signal (signal : TelemetrySignal) : M (worker_state S) unit :=
  modify (fun x => MkWorker (w_process x) (w_signals x ++ [signal])).

(** A claimed job: run, recorded, reported.  The time elapsed is in microseconds. *)
Definition run_claimed (h : worker_handler S) (c : JobClaim) (identity : JobIdentity) (started : Z)
  : M (worker_state S) bool :=
  out ← in_process (outcome_of (run_handler h (claim_context c)));
  _ ← on_jobs (rt_record_outcome c out);
  snapshot ← on_jobs (rt_get (claim_execution_id c));
  finished ← clock;
  _ ← keep_signal (job_signal c identity snapshot (claim_attempt_number c) (finished - started));
  mret true.

(** [InMemoryWorker.process], on the payload of the message *)
Definition worker_process (payload : pyval) : M (worker_state S) bool :=
  match payload with
  | VDict payload =>
      execution_id ← lift (payload_uuid "execution_id" payload);
      attempt_number ← lift (v ← dsub "attempt_number" payload; py_int v);
      correlation_id ← lift (payload_uuid "correlation_id" payload);
      correlation ← on_jobs (rt_correlation_id execution_id);
      if negb (correlation_id =? correlation) then mret false
      else
        claimed ← on_jobs (rt_claim execution_id attempt_number worker_id);
        match claimed with
        | None => mret false
        | Some c =>
            started ← clock;
            identity ← on_jobs (rt_identity execution_id);
            match handlers (job_type identity) with
            | None =>
                e ← lift (PermanentJobError_init "job.handler_not_registered");
                _ ← on_jobs (rt_record_outcome c (OutError e));
                mret true
            | Some h => run_claimed h c identity started
            end
        end
  | _ => raise ValueError
  end.

(** [run_message], which the queue calls with the envelope of [publish] *)
Definition run_message (execution_id : string) (attempt_number : Z) (correlation_id : string)
  : M (worker_state S) bool :=
  worker_process (VDict [("execution_id", VStr execution_id); ("attempt_number", VInt attempt_number);
                         ("correlation_id", VStr correlation_id)]%string).
End worker.

(** ** Scheduler passes *)

Section scheduler.
Context {J Q I : Type} {port : JobRuntimePort J} {relay : RelayPort J Q}.
(** [purge_request_fingerprints(identity_store, now=now)] *)
Variable purge : Z -> M I Z.

Record cron := MkCron { cron_jobs : J; cron_queue : Q; cron_identity : I }.
Definition cron_on_jobs {A} : M J A -> M cron A := zoom cron_jobs (fun j c => MkCron j (cron_queue c) (cron_identity c)).
Definition cron_on_relay {A} : M (J * Q) A -> M cron A :=
  zoom (fun c => (cron_jobs c, cron_queue c)) (fun x c => MkCron x.1 x.2 (cron_identity c)).
Definition cron_on_identity {A} : M I A -> M cron A := zoom cron_identity (fun i c => MkCron (cron_jobs c) (cron_queue c) i).

(** [while scheduled < limit: ...], [fuel] ticks at most *)
Fixpoint schedule_loop (fuel : nat) (limit scheduled : Z) : M cron Z :=
  match fuel with
  | O => mret scheduled
  | Datatypes.S fuel' =>
      if scheduled <? limit then
        claimed ← cron_on_jobs rt_schedule_tick;
        if claimed =? 0 then mret scheduled else schedule_loop fuel' limit (scheduled + claimed)
      else mret scheduled
  end.

Record cron_summary := MkCronSummary {
  cs_reclaimed_outbox : Z; cs_reaped_jobs : Z; cs_scheduled : Z; cs_published : Z; cs_failed : Z; cs_purged_requests : Z
}.

Definition scheduler_once (limit : Z) : M cron cron_summary :=
  if negb ((1 <=? limit) && (limit <=? 1000)) then raise ValueError
  else
    reclaimed ← cron_on_jobs (rt_reclaim_expired_outbox limit);
    reaped ← cron_on_jobs (rt_reap_expired limit);
    planned ← schedule_loop (Z.to_nat limit) limit 0;
    sent ← cron_on_relay (rt_relay_due limit);
    now ← clock;
    purged ← cron_on_identity (purge now);
    mret (MkCronSummary reclaimed reaped planned (relay_published sent) (relay_failed sent) purged).

(** [JobOutboxRelay], [JobLeaseReaper] *)
Definition publish_due (limit : Z) : M (J * Q) RelayResult := rt_relay_due limit.
Definition rebuild_after_transport_loss (limit : Z) : M (J * Q) RelayResult :=
  _ ← zoom fst (fun j x => (j, x.2)) (rt_rebuild_outbox limit);
  publish_due limit.
Definition reap : M J Z := rt_reap_expired 100.

(** [InMemoryScheduler.tick] *)
Record ticker := MkTicker { tk_jobs : J; tk_last_heartbeat : option Z; tk_signals : list TelemetrySignal }.
Definition tick_signal (release : string) (n : Z) : TelemetrySignal :=
  MkTelemetrySignal "00000000-0000-4000-8000-000000000000" "scheduler" "local" release "scheduler.tick"
    (if n =? 0 then "idle" else "scheduled") None None (Some 0) None None None None None None None None None.
Definition tick (release : string) : M ticker Z :=
  now ← clock;
  _ ← modify (fun t => MkTicker (tk_jobs t) (Some now) (tk_signals t));
  n ← zoom tk_jobs (fun j t => MkTicker j (tk_last_heartbeat t) (tk_signals t)) rt_schedule_tick;
  _ ← modify (fun t => MkTicker (tk_jobs t) (tk_last_heartbeat t) (tk_signals t ++ [tick_signal release n]));
  mret n.
End scheduler.
Arguments MkCron {_ _ _}.
Arguments cron : clear implicits.
Arguments MkTicker {_}.
Arguments ticker : clear implicits.
