(* ===== verification/WorkerHandlers.v ===== *)
(** * The job handlers ([workers/imports.py], [silver.py], [radar.py], [criteria.py], [identity.py],
    [composition.py], [application/jobs/reference.py])

    Each handler over the state of its service, the publisher that chains a normalisation to an
    import, and the registry of a worker process.  [uuid5], a SHA-1 digest, is a parameter. *)

From S2P Require Export Workers IngestionService SilverService RadarService CriteriaService IdentityAccess.
#[local] Open Scope list_scope.

(** [except Transient: raise TransientJobError(code); except Permanent: ...]; the constructors
    normalise the code and may raise in turn. *)
Definition raising_job {S A} (transient permanent : exn -> option string) (e : exn) : M S A :=
  match transient e, permanent e with
  | Some code, _ => e' ← lift (TransientJobError_init code None); raise e'
  | _, Some code => e' ← lift (PermanentJobError_init code); raise e'
  | _, _ => raise e
  end.

(** ** Imports *)

Definition import_transient (e : exn) : option string := match e with IngestionTransientError c => Some c | _ => None end.
Definition import_permanent (e : exn) : option string := match e with IngestionPermanentError c => Some c | _ => None end.

Definition import_state_str (s : ImportRunState) : string :=
  match s with
  | ImportPending => "pending" | ImportRunning => "running" | ImportSucceeded => "succeeded" | ImportFailed => "failed"
  end.

Definition import_result (snapshot : ImportRunSnapshot) : odict string pyval :=
  let counts := irs_counts snapshot in
  [("run_id", VStr (uuid_str (irs_run_id snapshot))); ("state", VStr (import_state_str (irs_state snapshot)));
   ("total_records", VInt (total_records counts)); ("accepted", VInt (accepted counts));
   ("quarantined", VInt (quarantined counts)); ("duplicates", VInt (duplicates counts));
   ("missing_fields", VInt (missing_fields counts))]%string.

Definition SILVER_NORMALIZE_JOB_TYPE : string := "ingestion.normalize_batch".

Section imports.
Context {O J : Type} {store : ObjectStore O} {port : JobRuntimePort J} {source : ImportSource} {dates : IsoDates}
  {digest_of : BytesDigest} {texts : ErrorText}.
Variable contract : ContractSpec.

(** [normalize_publisher(runtime)] *)
Definition normalize_command (correlation_id run_id : Z) : result SubmitJob :=
  SubmitJob_create 0 SILVER_NORMALIZE_JOB_TYPE (uuid_str run_id) ("normalize:" +:+ uuid_str run_id)
    (Some correlation_id) (Some AuditActor_system) 5.
Definition normalize_publisher (snapshot : ImportRunSnapshot) : M (bronze O J) unit :=
  correlation_id ← uuid4;
  command ← lift (normalize_command correlation_id (irs_run_id snapshot));
  _ ← on_queue (rt_submit command);
  mret tt.

Definition IngestionImportHandler_run (publish_normalize : option (ImportRunSnapshot -> M (bronze O J) unit))
    (context : JobContext) : M (bronze O J) (odict string pyval) :=
  snapshot ← try_except (process_import contract (jc_execution_id context))
               (raising_job import_transient import_permanent);
  _ ← (if bool_decide (irs_state snapshot = ImportSucceeded)
       then match publish_normalize with Some publish => publish snapshot | None => mret tt end
       else mret tt);
  mret (import_result snapshot).
Definition IngestionImportHandler publish_normalize : JobHandler (bronze O J) :=
  MkJobHandler IMPORT_JOB_TYPE normalize_target (IngestionImportHandler_run publish_normalize).
Definition build_ingestion_registry publish_normalize : result (JobRegistry (bronze O J)) :=
  registry_of [IngestionImportHandler publish_normalize].

(** [_LateBindPublisher], bound or not *)
Definition late_bind_publisher (bound : bool) : ImportRunSnapshot -> M (bronze O J) unit := fun snapshot =>
  if bound then normalize_publisher snapshot else mret tt.
End imports.

(** ** Normalisation *)

Definition silver_transient (e : exn) : option string := match e with SilverTransientError c => Some c | _ => None end.
Definition silver_permanent (e : exn) : option string := match e with SilverPermanentError c => Some c | _ => None end.

Definition silver_result (s : NormalizeSummary) : odict string pyval :=
  [("run_id", VStr (uuid_str (ns_run_id s))); ("total_snapshots", VInt (ns_total_snapshots s));
   ("listings_inserted", VInt (ns_listings_inserted s)); ("skipped", VInt (ns_skipped s));
   ("changes_emitted", VInt (ns_changes_emitted s)); ("links_created", VInt (ns_links_created s));
   ("proposals_created", VInt (ns_proposals_created s))]%string.

Section silver.
Context {hex : HexDigest} {columns : NumericColumns}.
Variable cfg : normalize_config.

Definition silver_target (context : JobContext) : result Z :=
  match jc_logical_target context with
  | None => e ← PermanentJobError_init "silver.target_missing"; Raise e
  | Some target =>
      match uuid_of_str target with
      | Some run_id => Ok run_id
      | None => e ← PermanentJobError_init "silver.target_invalid"; Raise e
      end
  end.
Definition SilverNormalizeHandler_run (context : JobContext) : M lake (odict string pyval) :=
  run_id ← lift (silver_target context);
  summary ← try_except (SilverService.process cfg run_id) (raising_job silver_transient silver_permanent);
  mret (silver_result summary).
Definition SilverNormalizeHandler : JobHandler lake :=
  MkJobHandler SILVER_NORMALIZE_JOB_TYPE normalize_target SilverNormalizeHandler_run.
Definition build_silver_registry : result (JobRegistry lake) := registry_of [SilverNormalizeHandler].
End silver.

(** ** Recommendation runs *)

Definition radar_transient (e : exn) : option string := match e with RadarTransientError c => Some c | _ => None end.
Definition radar_permanent (e : exn) : option string := match e with RadarPermanentError c => Some c | _ => None end.

(** [_int] *)
Definition radar_int (v : pyval) : Z := match v with VInt n => n | _ => 0 end.

Definition radar_result (summary : odict string pyval) : result (odict string pyval) :=
  run_id ← dsub "run_id" summary;
  state ← dsub "state" summary;
  candidates ← dsub "candidate_count" summary;
  items ← dsub "published_item_count" summary;
  failure ← dsub "failure_code" summary;
  policy ← dsub "score_policy_version" summary;
  Ok [("run_id", VStr (py_str run_id)); ("state", VStr (py_str state)); ("candidate_count", VInt (radar_int candidates));
      ("published_item_count", VInt (radar_int items));
      ("failure_code", if is_none failure then VNone else VStr (py_str failure));
      ("score_policy_version", VStr (py_str policy))]%string.

(** The profile and the version of [<profile>:<version>] *)
Definition radar_target (context : JobContext) : result (Z * Z) :=
  match jc_logical_target context with
  | None => e ← PermanentJobError_init "radar.target_missing"; Raise e
  | Some target =>
      let '(profile_id, separator, version_id) := CriteriaContracts.partition ":"%char target in
      if negb separator then e ← PermanentJobError_init "radar.target_invalid"; Raise e
      else match uuid_of_str profile_id, uuid_of_str version_id with
           | Some p, Some v => Ok (p, v)
           | _, _ => e ← PermanentJobError_init "radar.target_invalid"; Raise e
           end
  end.

Section radar.
Context {J : Type} {queue : JobPort J} {columns : NumericColumns}.
Variable cfg : radar_config.
Definition RecommendationRunHandler_run (context : JobContext) : M (db * J) (odict string pyval) :=
  '(profile_id, version_id) ← lift (radar_target context);
  summary ← try_except (process_run cfg profile_id version_id (Some (jc_execution_id context)))
              (raising_job radar_transient radar_permanent);
  lift (radar_result summary).
Definition RecommendationRunHandler : JobHandler (db * J) :=
  MkJobHandler RADAR_RUN_JOB_TYPE normalize_target RecommendationRunHandler_run.
Definition build_radar_registry : result (JobRegistry (db * J)) := registry_of [RecommendationRunHandler].
End radar.

(** ** Extraction and recomputes, whose runs are those of [CriteriaService] *)

Section criteria.
Context {J : Type} {queue : JobPort J} {columns : NumericColumns} {sizes : JsonbSize}.
Variable cfg : criteria_config.
Definition ExtractionRunHandler : JobHandler (criteria J) :=
  MkJobHandler EXTRACTION_RUN_JOB_TYPE normalize_target (ExtractionRunHandler_run cfg).
Definition RecomputeHandler : JobHandler (criteria J) :=
  MkJobHandler RECOMPUTE_JOB_TYPE normalize_target (RecomputeHandler_run cfg).
Definition build_criteria_registry : result (JobRegistry (criteria J)) :=
  registry_of [ExtractionRunHandler; RecomputeHandler].
End criteria.

(** ** Identity *)

Section identity.
Context {identities : IdentityStore} {digests : Digests}.
Variable provider : IdentityProofPort.
Variable mail : EmailPort.
Variable capture_origin : string.
Variable others : idb -> idb.

Definition uuid_or_error (s : string) : result Z :=
  match uuid_of_str s with Some u => Ok u | None => Raise ValueError end.
Definition issue_normalize_target (raw_target : string) : result string :=
  u ← uuid_or_error raw_target; Ok (uuid_str u).
Definition IdentityMagicLinkIssueHandler_run (context : JobContext) : M idb (odict string pyval) :=
  attempt_id ← lift (match jc_logical_target context with Some t => uuid_or_error t | None => Raise TypeError end);
  now ← clock;
  _ ← issue_attempt provider mail capture_origin others attempt_id (Stamp true now) (Some (jc_correlation_id context));
  mret [("attempt_id", VStr (uuid_str attempt_id)); ("result", VStr "processed")]%string.
Definition IdentityMagicLinkIssueHandler : JobHandler idb :=
  MkJobHandler "identity.magic_link.issue" issue_normalize_target IdentityMagicLinkIssueHandler_run.

Definition retention_normalize_target (raw_target : string) : result string :=
  if bool_decide (raw_target = "identity"%string) then Ok raw_target else Raise ValueError.
Definition IdentityRetentionHandler_run (context : JobContext) : M idb (odict string pyval) :=
  now ← clock;
  purged ← purge_request_fingerprints now;
  mret [("purged_requests", VInt purged); ("result", VStr "processed")]%string.
Definition IdentityRetentionHandler : JobHandler idb :=
  MkJobHandler "identity.retention.purge" retention_normalize_target IdentityRetentionHandler_run.
Definition build_identity_registry : result (JobRegistry idb) :=
  registry_of [IdentityMagicLinkIssueHandler; IdentityRetentionHandler].
End identity.

(** ** The reference job *)

Class NameUuid := uuid5 : Z -> string -> Z.
Definition _REFERENCE_NAMESPACE : Z := 0x7b3f2f153b2e4cb49d4e38cba0fd9b9b.

(** [InMemoryReferenceEffectRepository] *)
Definition effects : Type := odict Z (odict string pyval).

Section reference.
Context {names : NameUuid} {digest_of : BytesDigest}.
Definition record_once (object_id execution_id : Z) (target : string) (correlation_id : Z)
  : M effects (odict string pyval) :=
  existing ← gets (oget object_id);
  match existing with
  | Some result => mret result
  | None =>
      let result := [("object_id", VStr (uuid_str object_id)); ("execution_id", VStr (uuid_str execution_id));
                     ("target_digest", VStr (bytes_digest (utf8_encode target)));
                     ("correlation_id", VStr (uuid_str correlation_id))]%string in
      _ ← modify (oset object_id result); mret result
  end.
Definition FoundationReferenceHandler_run (context : JobContext) : M effects (odict string pyval) :=
  let target := match jc_logical_target context with
                | Some t => if bool_decide (t = ""%string) then "execution:" +:+ uuid_str (jc_execution_id context) else t
                | None => "execution:" +:+ uuid_str (jc_execution_id context)
                end in
  let object_id := uuid5 _REFERENCE_NAMESPACE (uuid_str (jc_execution_id context)) in
  record_once object_id (jc_execution_id context) target (jc_correlation_id context).
Definition FoundationReferenceHandler : JobHandler effects :=
  MkJobHandler "foundation.reference" normalize_target FoundationReferenceHandler_run.
Definition foundation_reference_registry : JobRegistry effects :=
  [(jh_job_type FoundationReferenceHandler, FoundationReferenceHandler)].
End reference.

(** ** The registry of a worker process *)

(** A handler of a part of the process *)
Definition handler_in {T S} (embed : forall A, M T A -> M S A) (h : JobHandler T) : JobHandler S :=
  MkJobHandler (jh_job_type h) (jh_normalize_target h) (fun context => embed _ (jh_run h context)).

Section composition.
Context {S O J : Type} {store : ObjectStore O} {port : JobRuntimePort J} {source : ImportSource} {dates : IsoDates}
  {digest_of : BytesDigest} {texts : ErrorText} {hex : HexDigest} {columns : NumericColumns} {sizes : JsonbSize}
  {identities : IdentityStore} {digests : Digests}.
Variable contract : ContractSpec.
Variable normalize : normalize_config.
Variable radar : radar_config.
Variable knowledge : criteria_config.
Variable provider : IdentityProofPort.
Variable mail : EmailPort.
Variable capture_origin : string.
Variable others : idb -> idb.
(** Where each service keeps its state in that of the process *)
Variable in_bronze : forall A, M (bronze O J) A -> M S A.
Variable in_lake : forall A, M lake A -> M S A.
Variable in_radar : forall A, M (db * J) A -> M S A.
Variable in_criteria : forall A, M (criteria J) A -> M S A.
Variable in_identity : forall A, M idb A -> M S A.

Definition moved {T} (embed : forall A, M T A -> M S A) (registry : result (JobRegistry T)) : result (list (JobHandler S)) :=
  r ← registry; Ok (map (handler_in embed) (ovalues r)).

(** The registrations of [build_process_dependencies], in its order *)
Definition process_registry : result (JobRegistry S) :=
  identity ← moved in_identity (build_identity_registry provider mail capture_origin others);
  registry ← register_all identity [];
  silver ← moved in_lake (build_silver_registry normalize);
  registry ← register_all silver registry;
  runs ← moved in_radar (build_radar_registry radar);
  registry ← register_all runs registry;
  criteria ← moved in_criteria (build_criteria_registry knowledge);
  registry ← register_all criteria registry;
  imports ← moved in_bronze (build_ingestion_registry contract (Some (late_bind_publisher true)));
  register_all imports registry.
End composition.
