(* ===== verification/WorkerTheorems.v ===== *)
(** * Theorems of the workers

    What a worker does with one message, the normalisation an import chains, the registry of a
    process, and the passes of the scheduler. *)

From S2P Require Export WorkerHandlers JobInvariant ImportFiles JobSystems.
#[local] Open Scope list_scope.

(** ** The text of a UUID, read back *)

Definition uuid_char (c : ascii) : bool := in_range 48 57 c || in_range 97 102 c || bool_decide (c = "-"%char).

(** A property of characters decided on all of them *)
Lemma ascii_all (f : ascii -> bool) : forallb (fun n => f (ascii_of_nat n)) (seq 0 256) = true -> forall c, f c = true.
Proof.
  intros H c. rewrite <- (ascii_nat_embedding c). pose proof (nat_ascii_bounded c) as Hc.
  rewrite forallb_forall in H. apply H, in_seq. lia.
Qed.
Lemma ascii_imp (f g : ascii -> bool) : forallb (fun n => implb (f (ascii_of_nat n)) (g (ascii_of_nat n))) (seq 0 256) = true ->
  forall c, f c = true -> g c = true.
Proof. intros H c. pose proof (ascii_all (fun c => implb (f c) (g c)) H c) as Hc. simpl in Hc. by destruct (f c), (g c). Qed.

Definition digit_char (c : ascii) : bool := in_range 48 57 c || in_range 97 102 c.
Lemma hex_digit_char z : 0 <= z < 16 -> digit_char (hex_digit z) = true /\ hex_value (hex_digit z) = Some z.
Proof.
  intros Hz. assert (In z (map Z.of_nat (seq 0 16))) as Hin.
  { apply in_map_iff. exists (Z.to_nat z). split; [lia|apply in_seq; lia]. }
  clear Hz. simpl in Hin. repeat destruct Hin as [<-|Hin]; try done; by vm_compute.
Qed.
Lemma hex_digits_chars n z : Forall (fun c => digit_char c = true) (hex_digits n z).
Proof.
  revert z. induction n as [|n IH]; intros z; [constructor|]. cbn [hex_digits]. apply Forall_app. split; [apply IH|].
  constructor; [|constructor]. apply hex_digit_char, Z.mod_pos_bound. lia.
Qed.
Lemma hex_scan_app l1 l2 acc digit v :
  hex_scan digit acc l1 = Some v -> l1 <> [] -> hex_scan digit acc (l1 ++ l2) = hex_scan false v l2.
Proof.
  revert acc digit. induction l1 as [|c l1 IH]; [done|]. intros acc digit H _. cbn [app hex_scan] in *.
  destruct (hex_value c) as [x|].
  - destruct l1 as [|c' l1]; [simpl in H; by injection H as ->|]. by apply IH.
  - destruct (_ && _); [|done]. destruct l1 as [|c' l1]; [done|]. by apply IH.
Qed.
Lemma hex_scan_digits n z : 0 <= z < 16 ^ Z.of_nat (S n) -> hex_scan true 0 (hex_digits (S n) z) = Some z.
Proof.
  revert z. induction n as [|n IH]; intros z Hz.
  - change (hex_digits 1 z) with [hex_digit (z mod 16)]. cbn [hex_scan].
    rewrite Z.mod_small by lia. by rewrite (proj2 (hex_digit_char z Hz)).
  - change (hex_digits (S (S n)) z) with (hex_digits (S n) (z / 16) ++ [hex_digit (z mod 16)]).
    assert (Hq : 0 <= z / 16 < 16 ^ Z.of_nat (S n)).
    { rewrite Nat2Z.inj_succ, Z.pow_succ_r in Hz by lia. split; [apply Z.div_pos|apply Z.div_lt_upper_bound]; lia. }
    rewrite (hex_scan_app _ _ _ _ (z / 16)); [|by apply IH|].
    + cbn [hex_scan]. rewrite (proj2 (hex_digit_char (z mod 16) (Z.mod_pos_bound z 16 ltac:(lia)))).
      f_equal. pose proof (Z.div_mod z 16). lia.
    + simpl. by destruct (hex_digits n _).
Qed.

Definition uuid_chars (u : Z) : list ascii := chars (uuid_str u).
Lemma uuid_chars_ok u : Forall (fun c => uuid_char c = true) (uuid_chars u).
Proof.
  unfold uuid_chars, uuid_str. rewrite chars_of_chars.
  assert (Hd : Forall (fun c => uuid_char c = true) (hex_digits 32 u)).
  { eapply Forall_impl; [apply hex_digits_chars|]. intros c. unfold uuid_char, digit_char. by intros ->. }
  repeat (apply Forall_app; split); auto using Forall_take, Forall_drop; by repeat constructor.
Qed.

Lemma replace_absent x p r l : Forall (fun c => bool_decide (c = x) = false) l -> replace_list (x :: p) r 0 l = l.
Proof.
  induction 1 as [|c l Hc Hl IH]; [done|]. cbn [replace_list is_prefix].
  rewrite (bool_decide_eq_false_2 (x = c)) by (intros ->; by rewrite bool_decide_eq_true_2 in Hc). simpl. by rewrite IH.
Qed.
Lemma replace_char_drop x l : replace_list [x] [] 0 l = List.filter (fun c => negb (bool_decide (c = x))) l.
Proof.
  induction l as [|c l IH]; [done|]. cbn [replace_list is_prefix List.filter length Nat.sub]. rewrite IH.
  destruct (decide (x = c)) as [->|Hn].
  - rewrite !bool_decide_eq_true_2 by done. done.
  - rewrite !bool_decide_eq_false_2 by congruence. done.
Qed.
Lemma filter_all {A} (f : A -> bool) l : Forall (fun x => f x = true) l -> List.filter f l = l.
Proof. induction 1 as [|x l Hx _ IH]; [done|]. simpl. by rewrite Hx, IH. Qed.
Lemma trimmed_none f l : Forall (fun c => f c = false) l -> trimmed f l.
Proof.
  intros H. assert (Hr : Forall (fun c => f c = false) (rev l)) by by apply Forall_rev.
  split; apply lstrip_by_fix; [destruct l|destruct (rev l)]; try done; by apply Forall_cons in H as [? _] || by apply Forall_cons in Hr as [? _].
Qed.
Lemma uuid_avoids f u : forallb (fun n => implb (uuid_char (ascii_of_nat n)) (negb (f (ascii_of_nat n)))) (seq 0 256) = true ->
  Forall (fun c => f c = false) (uuid_chars u).
Proof.
  intros H. eapply Forall_impl; [apply uuid_chars_ok|]. intros c Hc.
  apply (ascii_imp uuid_char (fun c => negb (f c)) H) in Hc. by apply negb_true_iff.
Qed.

Lemma uuid_strip f u : forallb (fun n => implb (uuid_char (ascii_of_nat n)) (negb (f (ascii_of_nat n)))) (seq 0 256) = true ->
  strip_by f (uuid_str u) = uuid_str u.
Proof. intros H. by apply strip_by_trimmed, trimmed_none, uuid_avoids. Qed.
Lemma uuid_replace x p r u : forallb (fun n => implb (uuid_char (ascii_of_nat n)) (negb (bool_decide (ascii_of_nat n = x)))) (seq 0 256) = true ->
  replace (uuid_str u) (of_chars (x :: p)) r = uuid_str u.
Proof.
  intros H. unfold replace. rewrite chars_of_chars, replace_absent; [apply of_chars_chars|].
  by apply (uuid_avoids (fun c => bool_decide (c = x))).
Qed.
Lemma uuid_hex u : replace (uuid_str u) "-" "" = of_chars (hex_digits 32 u).
Proof.
  unfold replace. f_equal. change (chars "-") with ["-"%char]. change (chars "") with (@nil ascii).
  rewrite replace_char_drop. unfold uuid_str. rewrite chars_of_chars.
  set (h := hex_digits 32 u).
  assert (Hh : Forall (fun c => negb (bool_decide (c = "-"%char)) = true) h).
  { eapply Forall_impl; [apply hex_digits_chars|]. apply (ascii_imp digit_char). by vm_compute. }
  rewrite !List.filter_app. cbn [List.filter]. rewrite bool_decide_eq_true_2 by done. cbn [negb].
  rewrite !filter_all by auto using Forall_take, Forall_drop.
  cbn [app].
  assert (E : forall n m, take n (drop m h) ++ drop (m + n) h = drop m h) by (intros n m; by rewrite <- drop_drop, take_drop).
  pose proof (E 4%nat 16%nat) as E1. pose proof (E 4%nat 12%nat) as E2. pose proof (E 4%nat 8%nat) as E3. simpl Nat.add in E1, E2, E3.
  rewrite E1, E2, E3. apply take_drop.
Qed.

(** [UUID(str(u)) == u] *)
Lemma uuid_of_str_str u : is_uuid u -> uuid_of_str (uuid_str u) = Some u.
Proof.
  intros Hu. unfold uuid_of_str.
  change "urn:"%string with (of_chars ("u"%char :: chars "rn:")). rewrite uuid_replace by by vm_compute.
  change "uuid:"%string with (of_chars ("u"%char :: chars "uid:")). rewrite uuid_replace by by vm_compute.
  rewrite uuid_strip by by vm_compute. rewrite uuid_hex.
  assert (Hl : len (of_chars (hex_digits 32 u)) = 32) by (rewrite len_chars, chars_of_chars, length_hex_digits; done).
  rewrite Hl. cbn [negb Z.eqb Pos.eqb]. unfold int16.
  assert (Hs : strip (of_chars (hex_digits 32 u)) = of_chars (hex_digits 32 u)).
  { apply strip_by_trimmed, trimmed_none. rewrite chars_of_chars. eapply Forall_impl; [apply hex_digits_chars|].
    intros c Hc. apply negb_true_iff. revert c Hc. apply ascii_imp. by vm_compute. }
  rewrite Hs, chars_of_chars. pose proof (hex_scan_digits 31 u Hu) as Hscan. pose proof (hex_digits_chars 32 u) as Hc.
  pose proof (length_hex_digits 32 u) as Hlen. set (h := hex_digits 32 u) in *. clearbody h.
  destruct h as [|c0 [|c1 h]]; [done..|]. apply Forall_cons in Hc as [H0 Hc]. apply Forall_cons in Hc as [H1 _].
  assert (N0 : negb (bool_decide (c0 = "-"%char)) && negb (bool_decide (c0 = "+"%char)) = true)
    by (revert c0 H0 Hscan Hs Hl Hlen; intros c0 H0 _ _ _ _; revert c0 H0; apply ascii_imp; by vm_compute).
  assert (N1 : negb (bool_decide (c1 = "x"%char)) && negb (bool_decide (c1 = "X"%char)) = true)
    by (clear - H1; revert c1 H1; apply ascii_imp; by vm_compute).
  apply andb_true_iff in N0 as [N0 N0']. apply andb_true_iff in N1 as [N1 N1'].
  apply negb_true_iff in N0, N0', N1, N1'. rewrite N0, N0'.
  rewrite N1, N1'. cbn [orb].
  replace (match c0 with "0"%char => c0 :: c1 :: h | _ => c0 :: c1 :: h end) with (c0 :: c1 :: h)
    by (destruct c0 as [[] [] [] [] [] [] [] []]; reflexivity).
  rewrite Hscan. cbn [mbind option_bind]. rewrite Z.mul_1_l.
  assert ((0 <=? u) && (u <? 2 ^ 128) = true) as -> by (unfold is_uuid in Hu; lia). done.
Qed.

(** ** Identities made of UUIDs are kept by the normalisation *)

Lemma contains_chars p l : contains_list p l = true -> Forall (fun c => c ∈ l) p.
Proof.
  assert (Hp : forall p l, is_prefix p l = true -> Forall (fun c => c ∈ l) p).
  { clear. induction p as [|a p IH]; intros l H; [constructor|]. destruct l as [|b l]; [done|].
    cbn [is_prefix] in H. apply andb_true_iff in H as [->%bool_decide_eq_true H]. constructor; [set_solver|].
    eapply Forall_impl; [by apply IH|]. set_solver. }
  induction l as [|b l IH]; cbn [contains_list]; intros [H|H]%orb_true_iff; eauto; [done|].
  eapply Forall_impl; [by apply IH|]. set_solver.
Qed.
Lemma contains_absent p s c : c ∈ chars p -> Forall (fun x => bool_decide (x = c) = false) (chars s) -> contains p s = false.
Proof.
  intros Hc Hs. apply not_true_iff_false. intros H%contains_chars. rewrite Forall_forall in H, Hs.
  specialize (Hs c (H c Hc)). by rewrite bool_decide_eq_true_2 in Hs.
Qed.

Section texts.
Variable u : Z.

Lemma lower_uuid : lower (uuid_str u) = uuid_str u.
Proof.
  unfold lower. rewrite <- (of_chars_chars (uuid_str u)) at 2. f_equal.
  rewrite <- (map_id (chars (uuid_str u))) at 2. apply map_ext_in. intros c Hc%list_elem_of_In.
  pose proof (uuid_chars_ok u) as H. rewrite Forall_forall in H. specialize (H c Hc).
  assert (Hl : forall c, uuid_char c = true -> bool_decide (lower_char c = c) = true) by (apply ascii_imp; by vm_compute).
  apply Hl in H. by apply bool_decide_eq_true in H.
Qed.

Lemma normalize_target_uuid : normalize_target (uuid_str u) = Ok (uuid_str u).
Proof.
  unfold normalize_target. unfold strip. rewrite uuid_strip by by vm_compute. rewrite lower_uuid.
  assert (Hn : bool_decide (uuid_str u = "") = false).
  { apply bool_decide_eq_false_2. intros E. pose proof (length_uuid_str u) as Hl. by rewrite E in Hl. }
  rewrite Hn, length_uuid_str. cbn [orb Z.ltb Z.compare Pos.compare Pos.compare_cont].
  assert (Hs : existsb is_space (chars (uuid_str u)) = false).
  { apply not_true_iff_false. intros (c & Hc & Hs)%existsb_exists.
    pose proof (uuid_avoids is_space u ltac:(by vm_compute)) as H. rewrite Forall_forall in H.
    rewrite H in Hs by by apply list_elem_of_In. done. }
  rewrite Hs. cbn [existsb].
  assert (Habs : forall p c, bool_decide (c ∈ chars p) = true -> negb (uuid_char c) = true -> contains p (uuid_str u) = false).
  { intros p c Hc Hn'. apply (contains_absent _ _ c); [by apply bool_decide_eq_true in Hc|].
    eapply Forall_impl; [apply uuid_chars_ok|]. intros x Hx. apply bool_decide_eq_false_2. intros ->. by rewrite Hx in Hn'. }
  rewrite !(Habs _ "="%char), (Habs "?"%string "?"%char), (Habs "#"%string "#"%char) by (vm_compute; reflexivity). done.
Qed.

Lemma normalize_key_uuid prefix : _SAFE_KEY_RE prefix = true -> len prefix <= 100 ->
  normalize_idempotency_key (prefix +:+ uuid_str u) = Ok (prefix +:+ uuid_str u).
Proof.
  intros Hp Hl. assert (Hchars : chars (prefix +:+ uuid_str u) = chars prefix ++ uuid_chars u) by apply chars_app.
  unfold _SAFE_KEY_RE in Hp. destruct (chars prefix) as [|c l] eqn:E; [done|].
  apply andb_true_iff in Hp as [Hp _]. apply andb_true_iff in Hp as [Hc Hk].
  assert (Hall : Forall (fun c => is_key_char c = true) (chars (prefix +:+ uuid_str u))).
  { rewrite Hchars. constructor; [unfold is_key_char; by rewrite Hc|]. apply Forall_app. split.
    - apply Forall_forall. intros x Hx%list_elem_of_In. by apply (proj1 (forallb_forall _ _) Hk).
    - eapply Forall_impl; [apply uuid_chars_ok|]. apply ascii_imp. by vm_compute. }
  unfold normalize_idempotency_key. rewrite (strip_by_trimmed is_space).
  - unfold _SAFE_KEY_RE. rewrite Hchars in *. cbn [app]. rewrite Hc. apply Forall_cons in Hall as [_ Hall].
    assert (forallb is_key_char (l ++ uuid_chars u) = true) as ->.
    { apply forallb_forall. intros x Hx%list_elem_of_In. rewrite Forall_forall in Hall. by apply Hall. }
    assert (Nat.leb (length (l ++ uuid_chars u)) 199 = true) as ->; [|done].
    apply Nat.leb_le. rewrite length_app. pose proof (length_uuid_str u) as Hu'. rewrite len_chars in Hl, Hu'.
    rewrite E in Hl. unfold uuid_chars. simpl in Hl. lia.
  - apply trimmed_none. eapply Forall_impl; [exact Hall|]. intros x Hx. apply negb_true_iff. revert x Hx.
    apply ascii_imp. by vm_compute.
Qed.
End texts.

(** ** One message *)

(** What an execution becomes when the outcome of its attempt is recorded *)
Definition settled (id : Z) (e : _Execution) (out : outcome) (r : runtime) : Prop :=
  exists e', oget id (_executions r) = Some e' /\ e_attempt_count e' = e_attempt_count e
    /\ e_identity e' = e_identity e /\ e_correlation_id e' = e_correlation_id e /\ e_lease_until e' = None /\
  match out with
  | OutResult v => e_state e' = SUCCEEDED /\ exists d, _json_object v = Ok d /\ e_result e' = Some d
  | OutError (TransientJobError code _) =>
      e_error_code e' = Some code /\
      if e_attempt_count e <? e_max_attempts e
      then e_state e' = RETRY_WAIT /\ exists row, oget (id, e_attempt_count e + 1) (_outbox r) = Some row
             /\ o_state row = OB_PENDING /\ _now r <= o_available_at row
      else e_state e' = FAILED
  | OutError error =>
      e_state e' = FAILED /\ e_error_code e' = Some (match error with PermanentJobError code => code
                                                     | _ => "job.unclassified_failure"%string end)
  end.

(** An outcome the runtime can record: scalars, and a delay within the range of [timedelta] *)
Definition recordable (out : outcome) : Prop :=
  match out with OutResult v => is_ok (_json_object v) = true | OutError _ => wf_outcome out end.

Lemma record_settles t c out r e :
  oget (claim_execution_id c) (_executions r) = Some e -> e_execution_id e = claim_execution_id c ->
  holds_lease c (_now r) e = true -> e_attempts e <> [] -> recordable out ->
  exists snap r', record_outcome t c out r = (Ok snap, r') /\ settled (claim_execution_id c) e out r'.
Proof.
  intros He Hid Hl Ha Hout. unfold record_outcome. rewrite He, Hl, bool_decide_eq_false_2 by done. cbn [negb].
  rewrite <- Hid. destruct out as [v|error].
  - simpl in Hout. destruct (_json_object v) as [d|] eqn:Hv; [|done]. eexists _, _. split; [done|].
    eexists. split; [exact (oget_oset_eq (e_execution_id e) _ (_executions r))|]. repeat split; try done. by exists d.
  - destruct (retry_delay_ok (e_attempt_count e) error Hout) as (delay & Hd & Hpos).
    destruct (bool_decide _ && _) eqn:Hk.
    + apply andb_true_iff in Hk as [Ht%bool_decide_eq_true Hc]. simpl in Hc.
      destruct error; try (simpl in Ht; done). cbn [e_attempt_count e_set_state e_set_error on_last_attempt e_set_attempts e_set_lease].
      rewrite Hd. eexists _, _. split; [done|].
      eexists. split; [exact (oget_oset_eq (e_execution_id e) _ (_executions r))|]. repeat split; try done. rewrite Hc. split; [done|].
      eexists. split; [exact (oget_oset_eq (e_execution_id e, e_attempt_count e + 1) _ (_outbox r))|]. split; [done|]. simpl. unfold seconds, us_per_second. lia.
    + eexists _, _. split; [done|]. eexists. split; [exact (oget_oset_eq (e_execution_id e) _ (_executions r))|]. do 4 (split; [done|]).
      destruct error; try (split; reflexivity). split; [done|]. simpl in Hk |- *.
      by rewrite Hk.
Qed.

(** A settled attempt is not claimed again. *)
Lemma settled_not_claimed cfg id e out n worker r :
  settled id e out r -> n <= e_attempt_count e -> claim cfg id n worker r = (None, r).
Proof.
  intros (e' & He & Hc & _) Hn. unfold claim. rewrite He, Hc. by destruct (n =? e_attempt_count e + 1) eqn:E; [lia|].
Qed.

(** What a claim does *)
Lemma claim_shape cfg id n worker r c r' : claim cfg id n worker r = (Some c, r') ->
  exists e e', oget id (_executions r) = Some e /\ r' = save e' r /\ e_execution_id e' = e_execution_id e
    /\ e_identity e' = e_identity e /\ e_correlation_id e' = e_correlation_id e /\ e_max_attempts e' = e_max_attempts e
    /\ e_attempt_count e' = n /\ e_attempts e' <> [] /\ e_lease_until e' = Some (_now r + seconds (lease_seconds cfg))
    /\ claim_execution_id c = id /\ claim_attempt_number c = n
    /\ (forall now, now < _now r + seconds (lease_seconds cfg) -> holds_lease c now e' = true).
Proof.
  unfold claim. destruct (oget id _) as [e|] eqn:He; [|done].
  destruct (n =? e_attempt_count e + 1) eqn:Hn; [|done]. cbn [negb].
  repeat (case_match; try done). intros [= <- <-]. exists e. eexists. split; [done|]. split; [done|].
  assert (e_attempt_count e + 1 = n) by lia. repeat split; try done; simpl; try lia; [by destruct (e_attempts e)|].
  intros now Hnow. unfold holds_lease. simpl. rewrite !bool_decide_eq_true_2 by done. simpl. lia.
Qed.

Section message.
Context {S : Type}.
Variable jobs : S -> runtime.
Variable with_jobs : runtime -> S -> S.
Hypothesis jobs_put : forall j x, jobs (with_jobs j x) = j.
Hypothesis jobs_same : forall x, with_jobs (jobs x) x = x.
Variable cfg : config.
Variable worker_id : string.
Variable handlers : string -> option (worker_handler S).
#[local] Instance message_port : JobRuntimePort runtime := in_memory_runtime cfg.

Abbreviation deliver id n corr := (run_message jobs with_jobs worker_id handlers (uuid_str id) n (uuid_str corr)).
Abbreviation jobs_in s := (jobs (w_process (state_of s))).

Lemma on_jobs_change {A} (f : runtime -> result A * runtime) w (s : sys (worker_state S)) :
  Workers.on_jobs jobs with_jobs (job_change f) w s =
  ((f (jobs_in s)).1, Sys (MkWorker (with_jobs (f (jobs_in s)).2 (w_process (state_of s))) (w_signals (state_of s)))
     (drawn s) (ticks s)).
Proof. unfold Workers.on_jobs, in_process, zoom, job_change. simpl. by destruct (f (jobs _)). Qed.
Lemma on_jobs_read {A} (f : runtime -> result A) w (s : sys (worker_state S)) :
  Workers.on_jobs jobs with_jobs (job_read f) w s = (f (jobs_in s), s).
Proof. unfold Workers.on_jobs, in_process, zoom, job_read. simpl. rewrite jobs_same. by destruct s as [[]]. Qed.
Lemma on_jobs_read_Ok {A} (f : runtime -> result A) a w (s : sys (worker_state S)) : f (jobs_in s) = Ok a ->
  Workers.on_jobs jobs with_jobs (job_read f) w s = (Ok a, s).
Proof. intros <-. apply on_jobs_read. Qed.
Lemma payload_uuid_str name u payload : is_uuid u -> oget name payload = Some (VStr (uuid_str u)) ->
  payload_uuid name payload = Ok u.
Proof. intros Hu H. unfold payload_uuid, dsub. rewrite H. cbn [mbind result_bind py_str]. by rewrite uuid_of_str_str. Qed.

(** The first steps of a delivery *)
Lemma deliver_steps id n corr w s e : is_uuid id -> is_uuid corr ->
  oget id (_executions (jobs_in s)) = Some e -> corr = e_correlation_id e ->
  deliver id n corr w s =
  (claimed ← Workers.on_jobs jobs with_jobs (rt_claim id n worker_id);
   match claimed with
   | None => mret false
   | Some c =>
       started ← clock;
       identity ← Workers.on_jobs jobs with_jobs (rt_identity id);
       match handlers (job_type identity) with
       | None =>
           e ← lift (PermanentJobError_init "job.handler_not_registered");
           _ ← Workers.on_jobs jobs with_jobs (rt_record_outcome c (OutError e));
           mret true
       | Some h => run_claimed jobs with_jobs h c identity started
       end
   end) w s.
Proof.
  intros Hid Hcorr He Hc. unfold run_message, worker_process.
  rewrite (payload_uuid_str "execution_id" id), (payload_uuid_str "correlation_id" corr) by done.
  erewrite M_bind_run by reflexivity. erewrite M_bind_run by reflexivity. erewrite M_bind_run by reflexivity.
  erewrite M_bind_run; [|apply on_jobs_read_Ok; unfold runtime_correlation_id; by rewrite He].
  by rewrite Hc, Z.eqb_refl.
Qed.

Lemma claim_run id n w (s : sys (worker_state S)) c j : claim cfg id n worker_id (jobs_in s) = (c, j) ->
  Workers.on_jobs jobs with_jobs (rt_claim id n worker_id) w s =
  (Ok c, Sys (MkWorker (with_jobs j (w_process (state_of s))) (w_signals (state_of s))) (drawn s) (ticks s)).
Proof. intros E. etransitivity; [apply on_jobs_change|]. cbn. by rewrite E. Qed.
Lemma record_run c out w (s : sys (worker_state S)) a j :
  record_outcome (time_at w (ticks s)) c out (jobs_in s) = (Ok a, j) ->
  Workers.on_jobs jobs with_jobs (rt_record_outcome c out) w s =
  (Ok a, Sys (MkWorker (with_jobs j (w_process (state_of s))) (w_signals (state_of s))) (drawn s) (Datatypes.S (ticks s))).
Proof.
  intros E. unfold Workers.on_jobs, in_process, zoom.
  assert (Hm : rt_record_outcome c out w (Sys (jobs_in s) (drawn s) (ticks s)) = (Ok a, Sys j (drawn s) (Datatypes.S (ticks s)))).
  { cbn [rt_record_outcome message_port in_memory_runtime]. erewrite M_bind_run by reflexivity.
    unfold job_change. cbn [state_of drawn ticks]. by rewrite E. }
  cbn [state_of drawn ticks] in *. by rewrite Hm.
Qed.
Lemma run_claimed_run h c identity started w s out s2 snap r' :
  outcome_of (run_handler h (claim_context c)) w (Sys (w_process (state_of s)) (drawn s) (ticks s)) = (Ok out, s2) ->
  record_outcome (time_at w (ticks s2)) c out (jobs (state_of s2)) = (Ok snap, r') ->
  is_ok (runtime_get (claim_execution_id c) r') = true ->
  exists signal t, run_claimed jobs with_jobs h c identity started w s =
    (Ok true, Sys (MkWorker (with_jobs r' (state_of s2)) (w_signals (state_of s) ++ [signal])) (drawn s2) t).
Proof.
  intros Hout Hr Hget. unfold run_claimed.
  erewrite M_bind_run; [|by unfold in_process, zoom; rewrite Hout].
  erewrite M_bind_run; [|by apply record_run].
  destruct (runtime_get _ r') as [snap'|] eqn:Hg; [|done].
  erewrite M_bind_run; [|apply on_jobs_read_Ok; simpl; rewrite jobs_put; exact Hg].
  eexists _, _. reflexivity.
Qed.

End message.

(** ** The registry *)

(** A registered handler is found under its type, which is canonical, and the others stay. *)
Lemma register_Ok {S} (h : JobHandler S) registry registry' : register h registry = Ok registry' ->
  oget (jh_job_type h) registry = None /\ registry' = oset (jh_job_type h) h registry
  /\ jh_job_type h <> ""%string /\ lower (strip (jh_job_type h)) = jh_job_type h.
Proof.
  unfold register. destruct (_ || _) eqn:E; [done|]. apply orb_false_iff in E as [E1 E2].
  apply negb_false_iff, bool_decide_eq_true in E2. apply bool_decide_eq_false in E1. rewrite E2 in *.
  destruct (oget _ registry) eqn:Eg; [done|]. by intros [= <-].
Qed.

Definition canonical (job_type : string) : bool := bool_decide (lower (strip job_type) = job_type) && negb (bool_decide (job_type = ""%string)).
Definition entries {S} (hs : list (JobHandler S)) : JobRegistry S := map (fun h => (jh_job_type h, h)) hs.
Lemma okeys_entries {S} (hs : list (JobHandler S)) : okeys (entries hs) = map jh_job_type hs.
Proof. unfold okeys, entries. by rewrite map_map. Qed.

Lemma register_all_fresh {S} (hs : list (JobHandler S)) registry :
  forallb canonical (map jh_job_type hs) = true -> NoDup (okeys registry ++ map jh_job_type hs) ->
  register_all hs registry = Ok (registry ++ entries hs).
Proof.
  revert registry. induction hs as [|h hs IH]; intros registry Hc Hn; [by rewrite app_nil_r|].
  cbn [map forallb] in Hc. apply andb_true_iff in Hc as [H1 Hc]. apply andb_true_iff in H1 as [H1 H2].
  apply bool_decide_eq_true in H1. apply negb_true_iff, bool_decide_eq_false in H2.
  assert (Hnew : jh_job_type h ∉ okeys registry) by (apply NoDup_app in Hn; set_solver).
  cbn [register_all]. unfold register. rewrite H1, (bool_decide_eq_false_2 (jh_job_type h = "")), bool_decide_eq_true_2 by done.
  cbn [orb negb]. rewrite (proj2 (oget_None _ _) Hnew). cbn [mbind result_bind]. rewrite oset_fresh by done.
  rewrite IH by (done || (unfold okeys; rewrite map_app, <- app_assoc; exact Hn)). by rewrite <- app_assoc.
Qed.
Lemma registry_of_fresh {S} (hs : list (JobHandler S)) :
  forallb canonical (map jh_job_type hs) = true -> NoDup (map jh_job_type hs) -> registry_of hs = Ok (entries hs).
Proof.
  intros Hc Hn. unfold registry_of, JobRegistry_init. fold (entries hs).
  assert (Hu : forall (l d : JobRegistry S), NoDup (okeys d ++ okeys l) -> oupdate d l = d ++ l).
  { induction l as [|[k v] l IH]; intros d Hd; [simpl; by rewrite app_nil_r|].
    unfold oupdate in *. cbn [foldl]. rewrite oset_fresh by (simpl in Hd; apply NoDup_app in Hd; set_solver).
    rewrite IH; [by rewrite <- app_assoc|]. unfold okeys. rewrite map_app, <- app_assoc. exact Hd. }
  rewrite Hu by (simpl; by rewrite okeys_entries). cbn [app].
  assert (ovalues (entries hs) = hs) as -> by (unfold ovalues, entries; rewrite map_map; apply map_id).
  rewrite register_all_fresh by done. done.
Qed.
Lemma entries_app {S} (a b : list (JobHandler S)) : entries (a ++ b) = entries a ++ entries b.
Proof. apply map_app. Qed.
Lemma entries_require {S} (hs : list (JobHandler S)) h : NoDup (map jh_job_type hs) -> h ∈ hs ->
  require (jh_job_type h) (entries hs) = Ok h.
Proof.
  intros Hn Hh. unfold require, registry_get. rewrite (oget_elem_NoDup _ h); [done|by rewrite okeys_entries|].
  apply list_elem_of_In, in_map_iff. exists h. by rewrite <- list_elem_of_In.
Qed.
Lemma moved_fresh {S T} (embed : forall A, M T A -> M S A) (hs : list (JobHandler T)) :
  moved embed (Ok (entries hs)) = Ok (map (handler_in embed) hs).
Proof. unfold moved, entries, ovalues. cbn [mbind result_bind]. by rewrite !map_map. Qed.

Section process.
Context {S O J : Type} {store : ObjectStore O} {port : JobRuntimePort J} {source : ImportSource} {dates : IsoDates}
  {digest_of : BytesDigest} {texts : ErrorText} {hex : HexDigest} {columns : NumericColumns} {sizes : JsonbSize}
  {identities : IdentityStore} {digests : Digests}.

End process.

(** ** The normalisation chained to an import *)

Lemma identity_key_inj i j : identity_key i = identity_key j -> i = j.
Proof. destruct i, j. unfold identity_key. simpl. by intros [= -> -> ->]. Qed.

Lemma submit_one cfg fresh c r : Inv r -> wf_submit c -> fresh ∉ okeys (_executions r) -> resolve_command cfg c = Ok c ->
  is_ok (submit cfg fresh c r).1 = true /\
  let r' := (submit cfg fresh c r).2 in
  (exists id e, oget id (_executions r') = Some e /\ e_identity e = sub_identity c
     /\ forall id' e', oget id' (_executions r') = Some e' -> e_identity e' = sub_identity c -> id' = id)
  /\ forall id e, oget id (_executions r) = Some e -> oget id (_executions r') = Some e.
Proof.
  intros HI Hc Hf Hres. pose proof (Inv_submit cfg fresh c r HI Hc Hf) as HI'. revert HI'.
  assert (Hone : forall r, Inv r -> forall id, _identity_index r !! identity_key (sub_identity c) = Some id ->
    exists id e, oget id (_executions r) = Some e /\ e_identity e = sub_identity c
      /\ forall id' e', oget id' (_executions r) = Some e' -> e_identity e' = sub_identity c -> id' = id).
  { intros r0 H0 id Hx. pose proof Hx as (e & He & Hi)%(inv_index _ H0). exists id, e. split; [done|].
    split; [by apply identity_key_inj|]. intros id' e' He' Hi'.
    assert (Hx' : _identity_index r0 !! identity_key (sub_identity c) = Some id') by (apply (inv_index _ H0); exists e'; by rewrite Hi').
    congruence. }
  unfold submit. rewrite Hres. destruct (_identity_index r !! _) as [id|] eqn:Hx.
  - pose proof Hx as (e & He & _)%(inv_index _ HI). rewrite He. intros HI'. split; [done|]. split; [by apply (Hone r HI' id)|done].
  - intros HI'. split; [done|]. split; [apply (Hone _ HI' fresh), lookup_insert_eq|].
    intros id e He. cbn [snd _executions]. rewrite oget_oset. case_decide as Heq; [|done]. subst. by rewrite (proj2 (oget_None _ _) Hf) in He.
Qed.

Section chain.
Context {O : Type} {store : ObjectStore O} {source : ImportSource} {dates : IsoDates} {digest_of : BytesDigest}
  {texts : ErrorText}.
Variable cfg : config.
Variable contract : ContractSpec.
#[local] Instance chain_port : JobRuntimePort runtime := in_memory_runtime cfg.

(** The import itself leaves the runtime alone. *)
Definition same_jobs (w : world) (s s' : sys (bronze O runtime)) : Prop :=
  b_jobs (state_of s') = b_jobs (state_of s).
#[local] Instance same_jobs_order : StateOrder same_jobs.
Proof.
  split; unfold same_jobs; try done. intros w s1 s2 s3 H1 H2. congruence.
Qed.
Lemma lake_same_jobs {A} (m : M lake A) : Hoare.moves same_jobs (on_lake m).
Proof. intros w s. unfold on_lake, zoom. destruct (m w _) as [r x]. done. Qed.
Lemma objects_same_jobs {A} (m : M O A) : Hoare.moves same_jobs (on_objects m).
Proof. intros w s. unfold on_objects, zoom. destruct (m w _) as [r x]. done. Qed.
Lemma clock_same_jobs : Hoare.moves same_jobs clock.
Proof. done. Qed.

Lemma process_import_same_jobs execution_id : Hoare.moves same_jobs (process_import contract execution_id).
Proof.
  unfold process_import.
  repeat first [moves_step | apply lake_same_jobs | apply objects_same_jobs | apply clock_same_jobs | case_match].
  all: unfold _capture, _fail, raw_batch;
    repeat first [moves_step | apply lake_same_jobs | apply objects_same_jobs | apply clock_same_jobs | case_match].
Qed.

Lemma normalize_command_ok correlation run_id : exists c, normalize_command correlation run_id = Ok c /\ wf_submit c
  /\ sub_identity c = MkJobIdentity SILVER_NORMALIZE_JOB_TYPE (uuid_str run_id) ("normalize:" +:+ uuid_str run_id).
Proof.
  unfold normalize_command, SubmitJob_create, JobIdentity_create.
  assert (normalize_job_type SILVER_NORMALIZE_JOB_TYPE = Ok SILVER_NORMALIZE_JOB_TYPE) as -> by (vm_compute; reflexivity).
  cbn [mbind result_bind]. rewrite normalize_target_uuid. cbn [mbind result_bind].
  rewrite normalize_key_uuid; [|by vm_compute|by vm_compute]. eexists. split; [reflexivity|]. split; [unfold wf_submit; simpl; lia|done].
Qed.

(** The handler table keeps the targets of normalisations. *)
Definition keeps_target : Prop :=
  match JobRuntime.handlers cfg with
  | None => True
  | Some table => table SILVER_NORMALIZE_JOB_TYPE = Some None \/ table SILVER_NORMALIZE_JOB_TYPE = Some (Some normalize_target)
  end.

(** C6: An import job that reports success has chained the normalisation of its run: the runtime
    holds one execution, and one only, for the run, under the identity derived from it, so that a
    repeated import chains nothing more; every earlier execution is kept as it was. *)
Theorem import_job_chained context w s result s' :
  Inv (b_jobs (state_of s)) -> keeps_target ->
  (forall n, uuid_at w n ∉ okeys (_executions (b_jobs (state_of s)))) ->
  IngestionImportHandler_run contract (Some (late_bind_publisher true)) context w s = (Ok result, s') ->
  dget "state" result = VStr "succeeded" ->
  exists run_id, dget "run_id" result = VStr (uuid_str run_id) /\
    (exists id e, oget id (_executions (b_jobs (state_of s'))) = Some e
       /\ e_identity e = MkJobIdentity SILVER_NORMALIZE_JOB_TYPE (uuid_str run_id) ("normalize:" +:+ uuid_str run_id)
       /\ forall id' e', oget id' (_executions (b_jobs (state_of s'))) = Some e' -> e_identity e' = e_identity e -> id' = id)
    /\ forall id e, oget id (_executions (b_jobs (state_of s))) = Some e ->
         oget id (_executions (b_jobs (state_of s'))) = Some e.
Proof.
  intros HI Hkeep Hfresh Hrun Hstate. unfold IngestionImportHandler_run in Hrun.
  apply M_bind_Ok in Hrun as (snapshot & s1 & Hp & Hrun).
  assert (Hm : Hoare.moves same_jobs (try_except (process_import contract (jc_execution_id context))
            (@raising_job (bronze O runtime) ImportRunSnapshot import_transient import_permanent))).
  { apply Hoare.moves_try; [exact _|apply process_import_same_jobs|]. intros e. unfold raising_job.
    repeat first [moves_step | case_match]. }
  pose proof (Hoare.moves_run _ _ _ _ _ _ Hm Hp) as Hj. unfold same_jobs in Hj.
  apply M_bind_Ok in Hrun as (u & s2 & Hpub & Hrun). injection Hrun as <- <-.
  assert (Hsucc : irs_state snapshot = ImportSucceeded).
  { unfold import_result, dget in Hstate. cbn in Hstate. by destruct (irs_state snapshot). }
  rewrite bool_decide_eq_true_2 in Hpub by done. exists (irs_run_id snapshot). split; [done|].
  apply M_bind_Ok in Hpub as (cid & s3 & Hu & Hpub). injection Hu as <- <-.
  destruct (normalize_command_ok (uuid_at w (drawn s1)) (irs_run_id snapshot)) as (c & Hc & Hwf & Hi).
  apply M_bind_Ok in Hpub as (c' & s4 & Hl & Hpub). rewrite Hc in Hl. injection Hl as <- <-.
  apply M_bind_Ok in Hpub as (snap & s5 & Hq & Hpub). injection Hpub as _ <-.
  unfold on_queue, zoom in Hq. cbn [rt_submit chain_port in_memory_runtime] in Hq. unfold in_memory_port in Hq.
  cbn [state_of drawn ticks] in Hq. rewrite Hj in Hq.
  set (fresh := uuid_at w _) in Hq. destruct (submit_one cfg fresh c (b_jobs (state_of s)) HI Hwf (Hfresh _)) as (_ & Hone & Hold).
  { unfold resolve_command. rewrite Hi. cbn [job_type logical_target]. unfold keeps_target in Hkeep.
    destruct (JobRuntime.handlers cfg) as [table|]; [|done]. destruct Hkeep as [-> | ->]; [done|].
    rewrite normalize_target_uuid. cbn [mbind result_bind]. by rewrite bool_decide_eq_true_2. }
  destruct (submit cfg fresh c (b_jobs (state_of s))) as [r j] eqn:E. cbn [snd] in Hone, Hold.
  injection Hq as _ <-. cbn [state_of b_jobs]. split; [|exact Hold].
  destruct Hone as (id & e & He & Hid & Hu). exists id, e. rewrite Hid, <- Hi. done.
Qed.
End chain.

(** ** Scheduler passes *)

Section passes.
Context {Q I : Type} {queue : JobQueue Q}.
Variable purge : Z -> M I Z.
Variable cfg : config.
#[local] Instance pass_port : JobRuntimePort runtime := in_memory_runtime cfg.
#[local] Instance pass_relay : RelayPort runtime Q := in_memory_relay.
Implicit Types c : sys (cron runtime Q I).

Definition none_due (r : runtime) : Prop := Forall (fun kv => schedule_due (_now r) kv.2 = false) (_schedules r).

Lemma tick_result cid fresh r n r' : schedule_tick cfg cid fresh r = (Ok n, r') ->
  (n = 0 /\ r' = r /\ none_due r) \/ n = 1.
Proof.
  unfold schedule_tick. destruct (find_first _ _) as [[k s]|] eqn:E.
  - repeat case_match; intros; simplify_eq; auto.
  - intros [= <- <-]. left. split; [done|]. split; [done|]. by apply find_first_None.
Qed.

Lemma tick_run w c r c' : cron_on_jobs rt_schedule_tick w c = (r, c') ->
  exists cid fresh, schedule_tick cfg cid fresh (cron_jobs (state_of c)) = (r, cron_jobs (state_of c')).
Proof.
  intros H. exists (uuid_at w (drawn c)), (uuid_at w (Datatypes.S (drawn c))). revert H. unfold cron_on_jobs, zoom.
  change (@rt_schedule_tick runtime pass_port) with
    (cid ← uuid4; fresh ← uuid4; job_change (schedule_tick cfg cid fresh)).
  unfold mbind, M_bind, uuid4, job_change. cbn [state_of drawn ticks].
  destruct (schedule_tick cfg _ _ _) as [r0 j]. by intros [= -> <-].
Qed.

(** The loop stops because the limit is reached or no schedule is due, never for lack of fuel. *)
Lemma schedule_loop_drains fuel limit n w c k c' : limit - n <= Z.of_nat fuel -> 0 <= n <= limit ->
  schedule_loop (Q := Q) (I := I) fuel limit n w c = (Ok k, c') ->
  n <= k <= limit /\ (k = limit \/ none_due (cron_jobs (state_of c'))).
Proof.
  revert n c. induction fuel as [|fuel IH]; intros n c Hf Hn; cbn [schedule_loop].
  - intros [= <- <-]. split; [lia|]. left. lia.
  - destruct (n <? limit) eqn:E; [|intros [= <- <-]; split; [lia|left; lia]].
    intros H. apply M_bind_Ok in H as (m & c1 & Ht & H).
    assert (Htick : (m = 0 /\ none_due (cron_jobs (state_of c1))) \/ m = 1).
    { apply tick_run in Ht as (cid & fresh & [(-> & Hj & Hd)| ->]%tick_result); [left|by right]. by rewrite Hj. }
    destruct Htick as [[-> Hd]| ->].
    + injection H as <- <-. split; [lia|]. by right.
    + apply IH in H; lia || (destruct H; split; [lia|done]).
Qed.
Lemma relay_keeps_schedules limit r (q : Q) :
  _schedules (relay_due limit r q).2.1 = _schedules r /\ _now (relay_due limit r q).2.1 = _now r.
Proof.
  unfold relay_due. destruct (negb _); [done|].
  assert (Hone : forall k (s : runtime * Q * (Z * Z)), _schedules (relay_one k s).2.1.1 = _schedules s.1.1 /\ _now (relay_one k s).2.1.1 = _now s.1.1).
  { intros k [[r0 q0] [a b]]. unfold relay_one. repeat case_match; simplify_eq; done. }
  assert (Hall : forall due (s : runtime * Q * (Z * Z)), _schedules (relay_loop due s).2.1.1 = _schedules s.1.1 /\ _now (relay_loop due s).2.1.1 = _now s.1.1).
  { induction due as [|k due IH]; intros s; [done|]. cbn [relay_loop]. pose proof (Hone k s) as [H1 H2].
    destruct (relay_one k s) as [[u|x] s']; simpl in *; [|done]. rewrite <- H1, <- H2. apply IH. }
  specialize (Hall (due_keys limit r) (r, q, (0, 0))).
  destruct (relay_loop _ _) as [[u|x] [[r' q'] [a b]]]; exact Hall.
Qed.
Lemma jobs_only {A} (m : M runtime A) w c r c' : cron_on_jobs m w c = (r, c') ->
  cron_queue (state_of c') = cron_queue (state_of c) /\ cron_identity (state_of c') = cron_identity (state_of c).
Proof. unfold cron_on_jobs, zoom. destruct (m w _) as [a x]. by intros [= _ <-]. Qed.
Lemma loop_jobs_only fuel limit n w c r c' : schedule_loop (Q := Q) (I := I) fuel limit n w c = (r, c') ->
  cron_queue (state_of c') = cron_queue (state_of c) /\ cron_identity (state_of c') = cron_identity (state_of c).
Proof.
  revert n c. induction fuel as [|fuel IH]; intros n c; cbn [schedule_loop]; [by intros [= _ <-]|].
  destruct (n <? limit); [|by intros [= _ <-]]. unfold mbind, M_bind.
  destruct (cron_on_jobs rt_schedule_tick w c) as [[m|e] c1] eqn:E; apply jobs_only in E as [E1 E2]; [|by intros [= _ <-]].
  rewrite <- E1, <- E2. destruct (m =? 0); [by intros [= _ <-]|]. apply IH.
Qed.

(** C7: A scheduler pass submits at most its limit of occurrences, and leaves no schedule due
    unless it reached the limit.  When it raises, either nothing was published and no request
    was purged, because an earlier step raised, or the relay or the purge did. *)
Theorem scheduler_pass_outcomes limit w c r c' : 1 <= limit <= 1000 ->
  scheduler_once purge limit w c = (r, c') ->
  match r with
  | Ok summary => 0 <= cs_scheduled summary <= limit
                  /\ (cs_scheduled summary = limit \/ none_due (cron_jobs (state_of c')))
  | Raise e => (cron_queue (state_of c') = cron_queue (state_of c) /\ cron_identity (state_of c') = cron_identity (state_of c))
               \/ (exists j q, (relay_due limit j q).1 = Raise e) \/ exists now i, (purge now w i).1 = Raise e
  end.
Proof.
  intros Hl. unfold scheduler_once. assert (negb ((1 <=? limit) && (limit <=? 1000)) = false) as -> by lia.
  unfold mbind at 1, M_bind at 1. destruct (cron_on_jobs _ w c) as [[a|e] c1] eqn:E1; apply jobs_only in E1 as [Q1 I1];
    [|intros [= <- <-]; auto].
  unfold mbind at 1, M_bind at 1. destruct (cron_on_jobs _ w c1) as [[b|e] c2] eqn:E2; apply jobs_only in E2 as [Q2 I2];
    [|intros [= <- <-]; left; split; congruence].
  unfold mbind at 1, M_bind at 1. destruct (schedule_loop _ _ _ w c2) as [[n|e] c3] eqn:E3;
    pose proof (loop_jobs_only _ _ _ _ _ _ _ E3) as [Q3 I3]; [|intros [= <- <-]; left; split; congruence].
  apply schedule_loop_drains in E3 as [Hn Hd]; [|lia..].
  unfold mbind at 1, M_bind at 1. unfold cron_on_relay, zoom, rt_relay_due, pass_relay, in_memory_relay, job_change.
  cbn [state_of drawn ticks]. destruct (relay_keeps_schedules limit (cron_jobs (state_of c3)) (cron_queue (state_of c3))) as [Hs Ht].
  destruct (relay_due limit _ _) as [[sent|e] [j q]] eqn:Er; [|intros [= <- <-]; right; left; eexists _, _; by rewrite Er].
  cbn [fst snd] in Hs, Ht. unfold cron_on_identity, zoom, mbind, M_bind, clock. cbn [state_of drawn ticks cron_identity cron_jobs cron_queue].
  destruct (purge _ w _) as [[p|e] i] eqn:Ep; [|intros [= <- <-]; right; right; eexists _, _; by rewrite Ep].
  intros [= <- <-]. cbn [cs_scheduled state_of cron_jobs]. split; [lia|]. destruct Hd as [->|Hd]; [by left|right].
  unfold none_due. by rewrite Hs, Ht.
Qed.
End passes.

(** ** Witnesses *)

Module WorkerExamples.
#[local] Instance sample_names : NameUuid := fun _ s => len s.
#[local] Instance sample_bytes : BytesDigest := fun s => s.
Definition cfg : config := Config "release-1" 60 None.
Definition w : world := World (fun n => 1000 + Z.of_nat n) (fun n => 50 + Z.of_nat n).

(** The reference job, on a runtime that holds one submission of it *)
Definition reference : worker_handler (runtime * effects) :=
  Runnable (handler_in (fun A => zoom snd (fun e x => (x.1, e))) FoundationReferenceHandler).
Definition command : SubmitJob :=
  MkSubmitJob (MkJobIdentity "foundation.reference" "demo" "k1") 7 AuditActor_system 5.
Definition waiting_job : runtime := (submit cfg 100 command (new_runtime 0)).2.
Lemma waiting_inv : Inv waiting_job.
Proof. apply Inv_submit; [apply Inv_new|unfold wf_submit; simpl; lia|set_solver]. Qed.
Definition start : sys (worker_state (runtime * effects)) := Sys (MkWorker (waiting_job, []) []) 0 0.
Definition lookup (job_type : string) : option (worker_handler (runtime * effects)) :=
  if bool_decide (job_type = "foundation.reference") then Some reference else None.
Definition one_message := run_message (port := in_memory_runtime cfg) fst (fun j x => (j, x.2)) "w1" lookup (uuid_str 100) 1 (uuid_str 7).


(** A pass over one due schedule *)
Definition due : runtime := (add_schedule 300 "foundation.reference" "demo" "one_shot" (Stamp true 0) None 5 None (new_runtime 0)).2.
Definition pass_start : sys (cron runtime recording_queue unit) := Sys (MkCron due [] tt) 0 0.
Definition no_purge : Z -> M unit Z := fun _ => mret 0.
Definition pass := scheduler_once (port := in_memory_runtime cfg) (relay := in_memory_relay) no_purge 5 w pass_start.
Example pass_submits : match pass with
  | (Ok summary, c) => cs_scheduled summary = 1 /\ cs_published summary = 1 /\ length (cron_queue (state_of c)) = 1%nat
  | _ => False
  end.
Proof. vm_compute. done. Qed.
Lemma scheduler_pass_outcomes_witness : exists summary, pass.1 = Ok summary /\ 0 <= cs_scheduled summary <= 5
  /\ (cs_scheduled summary = 5 \/ none_due (cron_jobs (state_of pass.2))).
Proof.
  pose proof (scheduler_pass_outcomes no_purge cfg 5 w pass_start pass.1 pass.2 ltac:(lia) (surjective_pairing _)) as H.
  assert (Ho : is_ok pass.1 = true) by (vm_compute; reflexivity). destruct pass.1 as [summary|e]; [|discriminate].
  exists summary. split; [reflexivity|exact H].
Defined.
End WorkerExamples.

Module ChainExamples.
#[local] Existing Instance ImportExamples.sample_queue.
#[local] Existing Instance ImportExamples.sample_dates.
#[local] Existing Instance ImportExamples.sample_text.
#[local] Existing Instance ObjectExamples.sample_sha.
#[local] Instance chain_runtime : JobRuntimePort runtime := in_memory_runtime WorkerExamples.cfg.

Definition w1 : world := World (fun n => 5000 + Z.of_nat n) (fun n => 50 + Z.of_nat n).
Definition context : JobContext := MkJobContext FileExamples.job 1 5 "release-1" (Some "portal/v1").
Definition import_run := IngestionImportHandler_run published_contract (Some (late_bind_publisher true)) context w1 FileExamples.submitted.
Definition import_command : SubmitJob :=
  match SubmitJob_create 0 IMPORT_JOB_TYPE (_job_target FileExamples.request) "batch-1" (Some 5)
          (Some (MkAuditActor Operator (Some "ops"))) 5 with
  | Ok c => c | Raise _ => WorkerExamples.command
  end.
Lemma submitted_inv : Inv (b_jobs (state_of FileExamples.submitted)).
Proof.
  assert (E : b_jobs (state_of FileExamples.submitted) = (submit WorkerExamples.cfg FileExamples.job import_command (new_runtime 0)).2)
    by (vm_compute; reflexivity).
  rewrite E. apply Inv_submit; [apply Inv_new|vm_compute; split; discriminate|by apply oget_None].
Qed.
Definition says (v : pyval) : bool := match v with VStr x => bool_decide (x = "succeeded") | _ => false end.
Lemma says_succeeded v : says v = true -> v = VStr "succeeded".
Proof. destruct v; try done. simpl. intros H%bool_decide_eq_true. by rewrite H. Qed.
Lemma import_job_chained_witness : exists result s', import_run = (Ok result, s') /\
  exists run_id, dget "run_id" result = VStr (uuid_str run_id) /\
    (exists id e, oget id (_executions (b_jobs (state_of s'))) = Some e
       /\ e_identity e = MkJobIdentity SILVER_NORMALIZE_JOB_TYPE (uuid_str run_id) ("normalize:" +:+ uuid_str run_id)
       /\ forall id' e', oget id' (_executions (b_jobs (state_of s'))) = Some e' -> e_identity e' = e_identity e -> id' = id)
    /\ forall id e, oget id (_executions (b_jobs (state_of FileExamples.submitted))) = Some e ->
         oget id (_executions (b_jobs (state_of s'))) = Some e.
Proof.
  assert (Hr : match import_run.1 with Ok r => says (dget "state" r) | _ => false end = true)
    by (vm_compute; reflexivity).
  destruct import_run as [[result|e] s'] eqn:E; [|discriminate]. exists result, s'. split; [reflexivity|].
  assert (Hs : dget "state" result = VStr "succeeded") by exact (says_succeeded _ Hr).
  refine (import_job_chained WorkerExamples.cfg published_contract context w1 FileExamples.submitted result s' submitted_inv I _ E Hs).
  intros n. assert (Hk : okeys (_executions (b_jobs (state_of FileExamples.submitted))) = [FileExamples.job]) by (vm_compute; reflexivity).
  rewrite Hk. assert (Hj : FileExamples.job = 1001) by (vm_compute; reflexivity). rewrite Hj. intros Hin%list_elem_of_singleton.
  change (uuid_at w1 n) with (5000 + Z.of_nat n) in Hin. lia.
Defined.
End ChainExamples.

(** A schedule whose occurrence was submitted already makes every pass of the PostgreSQL scheduler
    raise before it publishes: the message that waits in the outbox stays there. *)
Module OutageExamples.
#[local] Instance outage_columns : JsonbColumns := fun _ => true.
Definition outage_start : sys (cron jobs_db recording_queue unit) := Sys (MkCron (state_of ex_taken) [] tt) (drawn ex_taken) (ticks ex_taken).
Definition outage_pass :=
  scheduler_once (port := sql_runtime ex_process no_locks (fun d => d)) (relay := sql_relay ex_process (fun _ => alone))
    WorkerExamples.no_purge 5 ex_late.
Example outage : sql_pending_outbox_count ex_late ex_taken = (Ok 1, ex_taken) /\
  match outage_pass outage_start with
  | (Raise e, c1) =>
      e = JobsIntegrityError /\ cron_queue (state_of c1) = [] /\ (sql_pending_outbox_count ex_late (Sys (cron_jobs (state_of c1)) 0 0)).1 = Ok 1
      /\ (outage_pass c1).1 = Raise JobsIntegrityError /\ cron_queue (state_of (outage_pass c1).2) = []
  | _ => False
  end.
Proof. vm_compute. done. Qed.
End OutageExamples.
